(** * alma_bulk_tools: acquisition, extraction and indexing contracts

    A shallow embedding of the download manager ([downloader.py]), the
    archive unpacker ([unpack.py]) and the shard index ([index_db.py],
    [index_merge.py]), with the properties of the specification stated and
    settled against it.

    Conventions of the embedding:
    - Python [str] is [string]; the model is exact on ASCII text (code points
      above 127 are carried through unchanged: they are neither whitespace
      nor cased).
    - Python [dict] with string keys is [gmap string _]; [set] is [gset].
      Manifests are written with [sort_keys=True], so a finite map determines
      the bytes of the file.
    - [None] is [PNone] in [pyval], or [option] where a field is typed.
    - Exceptions are results in a sum type; the filesystem, the clock and the
      remote server are explicit arguments. *)

From Stdlib Require Import ZArith Ascii String List.
From stdpp Require Import base decidable numbers option list strings
  gmap fin_maps fin_sets pretty sorting.

Local Open Scope string_scope.
Local Open Scope list_scope.
Local Open Scope Z_scope.

(** ** Python string primitives *)

Module Py.

(** [str.isspace] on one character, ASCII range: TAB..CR, FS..US, SPACE. *)
Definition isspace (c : ascii) : bool :=
  let n := N_of_ascii c in
  ((9 <=? n) && (n <=? 13) || (28 <=? n) && (n <=? 32))%N.

Definition lower_char (c : ascii) : ascii :=
  let n := N_of_ascii c in
  if ((65 <=? n) && (n <=? 90))%N then ascii_of_N (n + 32) else c.

Definition upper_char (c : ascii) : ascii :=
  let n := N_of_ascii c in
  if ((97 <=? n) && (n <=? 122))%N then ascii_of_N (n - 32) else c.

Fixpoint map_chars (f : ascii → ascii) (s : string) : string :=
  match s with
  | EmptyString => EmptyString
  | String c r => String (f c) (map_chars f r)
  end.

Definition lower : string → string := map_chars lower_char.
Definition upper : string → string := map_chars upper_char.

(** [s.lstrip()] *)
Fixpoint lstrip (s : string) : string :=
  match s with
  | EmptyString => EmptyString
  | String c r => if isspace c then lstrip r else s
  end.

(** [s.rstrip()]: a character is dropped when it is whitespace and all
    that follows it has been dropped. *)
Fixpoint rstrip (s : string) : string :=
  match s with
  | EmptyString => EmptyString
  | String c r =>
      match rstrip r with
      | EmptyString => if isspace c then EmptyString else String c EmptyString
      | r' => String c r'
      end
  end.

(** [s.strip()] *)
Definition strip (s : string) : string := rstrip (lstrip s).

Fixpoint mem_char (c : ascii) (cs : string) : bool :=
  match cs with
  | EmptyString => false
  | String d r => if Ascii.eqb c d then true else mem_char c r
  end.

(** [s.lstrip(chars)] *)
Fixpoint lstrip_chars (chars s : string) : string :=
  match s with
  | EmptyString => EmptyString
  | String c r => if mem_char c chars then lstrip_chars chars r else s
  end.

(** [s.startswith(p)] and [s.endswith(p)] *)
Fixpoint startswith (s p : string) {struct p} : bool :=
  match p with
  | EmptyString => true
  | String a p' =>
      match s with
      | EmptyString => false
      | String b s' => Ascii.eqb a b && startswith s' p'
      end
  end.
Definition endswith (s p : string) : bool :=
  startswith (String.rev s) (String.rev p).

(** [s.split(sep)] for a one-character separator: never the empty list. *)
Fixpoint split (sep : ascii) (s : string) : list string :=
  match s with
  | EmptyString => [EmptyString]
  | String c r =>
      if Ascii.eqb c sep then EmptyString :: split sep r
      else match split sep r with
           | [] => [String c EmptyString]
           | w :: ws => String c w :: ws
           end
  end.

(** [sep.join(parts)] *)
Fixpoint join (sep : string) (parts : list string) : string :=
  match parts with
  | [] => EmptyString
  | [p] => p
  | p :: ps => p +:+ sep +:+ join sep ps
  end.

(** [s[n:]] *)
Fixpoint drop (n : nat) (s : string) : string :=
  match n, s with
  | O, _ => s
  | S n', String _ r => drop n' r
  | S _, EmptyString => EmptyString
  end.

(** [sub in s] *)
Fixpoint contains (s sub : string) : bool :=
  startswith s sub ||
  match s with
  | EmptyString => false
  | String _ r => contains r sub
  end.

(** [s.split(sep, 1)[1]]: what follows the first separator, if there is
    one. *)
Fixpoint after_first (sep : ascii) (s : string) : option string :=
  match s with
  | EmptyString => None
  | String c r => if Ascii.eqb c sep then Some r else after_first sep r
  end.

(** [fnmatch.fnmatchcase(s, pat)] for patterns made of literal characters,
    [*] and [?]; bracket expressions are not interpreted. *)
Fixpoint fnmatchcase_pat (pat : string) : string → bool :=
  match pat with
  | EmptyString => λ s, match s with EmptyString => true | _ => false end
  | String c pat' =>
      if Ascii.eqb c "*" then
        fix star (s : string) : bool :=
          fnmatchcase_pat pat' s
          || match s with
             | EmptyString => false
             | String _ s' => star s'
             end
      else if Ascii.eqb c "?" then
        λ s, match s with
             | EmptyString => false
             | String _ s' => fnmatchcase_pat pat' s'
             end
      else
        λ s, match s with
             | EmptyString => false
             | String d s' => Ascii.eqb c d && fnmatchcase_pat pat' s'
             end
  end.

(** [fnmatch.fnmatch(s, pat)] on POSIX, where [normcase] changes nothing. *)
Definition fnmatch (s pat : string) : bool := fnmatchcase_pat pat s.

End Py.

(** ** Python values

    The values the pipeline reads out of JSON documents.  [PFloat] is a
    float and [PObj] a list or a dict: the code under study only ever asks
    such a value for its truth value and its [str()], which the constructor
    carries. *)

Inductive pyval : Type :=
  | PNone
  | PBool (b : bool)
  | PInt (z : Z)
  | PStr (s : string)
  | PFloat (nonzero : bool) (text : string)
  | PObj (nonempty : bool) (text : string).

Global Instance pyval_eq_dec : EqDecision pyval.
Proof. solve_decision. Defined.

(** [bool(v)] *)
Definition py_truthy (v : pyval) : bool :=
  match v with
  | PNone => false
  | PBool b => b
  | PInt z => negb (z =? 0)
  | PStr s => negb (String.eqb s "")
  | PFloat t _ => t
  | PObj t _ => t
  end.

(** [str(v)] *)
Definition py_str (v : pyval) : string :=
  match v with
  | PNone => "None"
  | PBool true => "True"
  | PBool false => "False"
  | PInt z => pretty z
  | PStr s => s
  | PFloat _ t => t
  | PObj _ t => t
  end.

(** [a or b] *)
Definition py_or (a b : pyval) : pyval := if py_truthy a then a else b.

(** [d.get(k)] on a dict of Python values: a missing key reads as [None]. *)
Definition py_get (d : gmap string pyval) (k : string) : pyval :=
  default PNone (d !! k).

(** ** Kind selection ([downloader.py]) *)

Definition DEFAULT_ARTIFACT_KINDS : gset string :=
  {[ "calibration"; "scripts"; "weblog"; "qa_reports"; "auxiliary"; "readme";
     "calibration_products" ]}.

Definition ALL_NONIMAGE_KINDS : gset string :=
  {[ "calibration"; "scripts"; "weblog"; "qa_reports"; "auxiliary"; "readme";
     "raw"; "other" ]}.

(** [_normalize_kind]: [(kind or "").strip().lower()] *)
Definition _normalize_kind (kind : string) : string :=
  Py.lower (Py.strip kind).

(** One iteration of the token loop of [resolve_artifact_selection]. *)
Definition select_token (selected : gset string) (token : string) : gset string :=
  let token_norm := _normalize_kind (Py.lstrip_chars "+-" token) in
  if decide (token = "default") then selected ∪ DEFAULT_ARTIFACT_KINDS
  else if decide (token = "all-nonimage") then selected ∪ ALL_NONIMAGE_KINDS
  else if Py.startswith token "+" then selected ∪ {[ token_norm ]}
  else if Py.startswith token "-" then selected ∖ {[ token_norm ]}
  else selected ∪ {[ token_norm ]}.

(** [[s.strip() for s in spec.split(",") if s.strip()]] *)
Definition spec_tokens (spec : string) : list string :=
  omap (λ s, let t := Py.strip s in if decide (t = "") then None else Some t)
       (Py.split "," spec).

Definition or_default (spec : string) : string :=
  if decide (spec = "") then "default" else spec.

Definition resolve_artifact_selection (spec : string) : gset string :=
  let spec := or_default (Py.strip (or_default spec)) in
  let selected := foldl select_token ∅ (spec_tokens spec) in
  if decide (selected = ∅) then DEFAULT_ARTIFACT_KINDS else selected.

(** [_artifact_selected] *)
Definition _artifact_selected (kind : string) (selected_kinds : gset string) : bool :=
  bool_decide (_normalize_kind kind ∈ selected_kinds).

(** ** QA status normalisation ([index_db.py]) *)

Definition _qa_status_text (value : pyval) : option string :=
  match value with
  | PNone => None
  | PBool b => Some (if b then "PASS" else "FAIL")
  | _ =>
      let text := Py.upper (Py.strip (py_str value)) in
      if decide (text = "") then None
      else if decide (text ∈ ["TRUE"; "T"; "1"]) then Some "PASS"
      else if decide (text ∈ ["FALSE"; "F"; "0"]) then Some "FAIL"
      else if decide (text ∈ ["PASS"; "SEMIPASS"; "FAIL"; "UNKNOWN"]) then Some text
      else Some text
  end.

(** A token as a user writes it between commas: not empty, no comma inside,
    no blank at either end. *)
Definition clean_token (t : string) : bool :=
  negb (Py.mem_char "," t) && bool_decide (Py.strip t = t)
  && bool_decide (t ≠ "").


(** ** The manifest document

    One JSON document per unit.  [m_top] holds the top-level scalar keys
    ([mous_uid], [project_code], [qa2_passed], ...); the three structured
    keys [artifacts], [history] and [unpacked] are fields of their own.  An
    absent [artifacts] or [history] key reads as the empty list, the way
    [manifest.get("artifacts", [])] and [setdefault] treat it. *)

(** An artifact entry: a dict; the list under its key [unpack_errors] is
    held apart from the scalar fields. *)
Record entry : Type := Entry {
  e_fields : gmap string pyval;
  e_unpack_errors : list (string * string)   (* timestamp, error text *)
}.

(** Events of the [history] log. *)
Inductive event : Type :=
  | EvDownloadNothingMissing (timestamp : string) (selected_kinds : list string)
  | EvDownload (timestamp : string) (selected_kinds : list string)
      (downloaded : nat)
  | EvUnpack (timestamp : string) (selected_archives : list string)
      (recursive_passes : nat) (recursive_unpacked recursive_errors : nat).

Record manifest : Type := Manifest {
  m_top : gmap string pyval;
  m_artifacts : list entry;
  m_history : list event;
  m_unpacked : gmap string string   (* file name -> "size:mtime" stamp *)
}.

(** [entry.get(k)] *)
Definition e_get (e : entry) (k : string) : pyval := py_get (e_fields e) k.

(** ** The shard index ([index_db.py]) *)

Module Index.

(** The summary document as [upsert_mous_from_summary] reads it: the
    top-level keys, and the [mous] and [qa] blocks as [_summary_mous] and
    [_summary_qa] return them (an empty dict when the key is absent or its
    value is not a dict). *)
Record summary : Type := Summary {
  sm_top : gmap string pyval;
  sm_mous : gmap string pyval;
  sm_qa : gmap string pyval
}.

Definition _summary_mous (s : summary) : gmap string pyval := sm_mous s.
Definition _summary_qa (s : summary) : gmap string pyval := sm_qa s.

(** The columns derived through [json.dumps] and [int(...)] from list and
    dict values, which this development does not interpret. *)
Record derived_cols : Type := Derived {
  band_json : string;
  qa2_reasons_json : string;
  qa0_reasons_json : string;
  dr_intervention_suspected : Z;
  dr_flag_commands_count : Z;
  dr_manual_flag_commands_count : Z;
  asa_qa_present : Z
}.

(** A row of table [mous], without its primary key. *)
Record mous_row : Type := MousRow {
  project_code : pyval;
  release_date : pyval;
  obs_date : pyval;
  derived : derived_cols;
  qa2_status : option string;
  qa0_status : option string;
  local_dir : string;
  manifest_path : pyval;
  summary_path : pyval;
  discovered : Z;
  downloaded : Z;
  unpacked : Z;
  summarized : Z;
  indexed : Z;
  last_error_stage : option string;
  last_error_message : pyval;
  shard_id : option string;
  last_seen : string;
  last_updated : string
}.

(** A row of table [artifact], without its key [(mous_uid, filename)]. *)
Record art_row : Type := ArtRow {
  a_kind : pyval;
  a_status : pyval;
  a_local_path : pyval;
  a_source_url : pyval;
  a_size_bytes : pyval;
  a_checksum : pyval;
  a_updated_at : string
}.

Global Instance derived_cols_eq_dec : EqDecision derived_cols.
Proof. solve_decision. Defined.
Global Instance mous_row_eq_dec : EqDecision mous_row.
Proof. solve_decision. Defined.
Global Instance art_row_eq_dec : EqDecision art_row.
Proof. solve_decision. Defined.

(** The three tables.  SQLite lets a NULL into a column of a composite
    primary key and never finds two NULLs in conflict, so artifact rows
    with a NULL file name pile up in a list of their own. *)
Record store : Type := Store {
  mous : gmap string mous_row;
  eb : gset (string * string);
  artifact : gmap (string * string) art_row;
  artifact_null : list (string * art_row)
}.

Definition empty_store : store := Store ∅ ∅ ∅ [].

Inductive db_error : Type :=
  | MissingMousUid        (* ValueError("Missing mous_uid for upsert") *)
  | ConversionError       (* int(...) raised *)
  | BindError             (* sqlite3: unsupported parameter type *)
  | IntegrityError        (* FOREIGN KEY constraint failed *)
  | DatabaseError.        (* file is not a database, no such table, ... *)

(** What a Python value becomes when bound to a TEXT key column. *)
Inductive sql_key : Type := KNull | KText (s : string) | KUnbound.

Definition sql_text_key (v : pyval) : sql_key :=
  match v with
  | PNone => KNull
  | PStr s => KText s
  | PInt z => KText (pretty z)
  | PBool b => KText (if b then "1" else "0")
  | PFloat _ t => KText t
  | PObj _ _ => KUnbound
  end.

(** sqlite3 binds None, int, float, str (and bool, an int); a list or a
    dict raises, and so does an int that does not fit in 64 bits. *)
Definition bindable (v : pyval) : bool :=
  match v with
  | PObj _ _ => false
  | PInt z => (- 2 ^ 63 <=? z) && (z <? 2 ^ 63)
  | _ => true
  end.

Section upsert.

(** The derived columns of a call, [None] when a conversion raises. *)
Variable derived_columns : summary → manifest → option derived_cols.
(** [_summary_eb_uids]: the sorted execution-block UIDs of a call. *)
Variable _summary_eb_uids : summary → manifest → list string.

(** [qa2_status] as [upsert_mous_from_summary] lines it up: the summary
    (top level, else its QA block), then the manifest's [qa2_status],
    then the manifest's raw [qa2_passed] flag. *)
Definition upsert_qa2_status (s : summary) (m : manifest) : option string :=
  match _qa_status_text
          (py_or (py_get (sm_top s) "qa2_status")
                 (py_get (_summary_qa s) "qa2_status")) with
  | Some st => Some st
  | None =>
      match _qa_status_text (py_get (m_top m) "qa2_status") with
      | Some st => Some st
      | None => _qa_status_text (py_get (m_top m) "qa2_passed")
      end
  end.

(** [summary.get(k1) or mous.get(k1) or manifest.get(k2)] *)
Definition first_of (s : summary) (m : manifest) (k1 k2 : string) : pyval :=
  py_or (py_get (sm_top s) k1)
        (py_or (py_get (_summary_mous s) k1) (py_get (m_top m) k2)).

(** The last-error pair: the caller's, unless one of the two is missing
    and an artifact has status [error]. *)
Definition upsert_last_error (m : manifest)
    (stage : option string) (message : pyval) : option string * pyval :=
  let given (o : option string) :=
    match o with Some t => negb (String.eqb t "") | None => false end in
  if given stage && py_truthy message then (stage, message)
  else
    match List.find (λ a, bool_decide (e_get a "status" = PStr "error"))
                    (m_artifacts m) with
    | Some art =>
        (Some "download",
         py_or (e_get art "error") (PStr "artifact download failed"))
    | None => (stage, message)
    end.

Definition art_row_of (art : entry) (now : string) : art_row :=
  {| a_kind := e_get art "kind";
     a_status := e_get art "status";
     a_local_path := e_get art "local_path";
     a_source_url := e_get art "url";
     a_size_bytes := e_get art "size_bytes";
     a_checksum := e_get art "checksum";
     a_updated_at := now |}.

Definition art_row_bindable (r : art_row) : bool :=
  bindable (a_kind r) && bindable (a_status r) && bindable (a_local_path r)
  && bindable (a_source_url r) && bindable (a_size_bytes r)
  && bindable (a_checksum r).

(** One artifact statement: upsert on [(mous_uid, filename)]. *)
Definition upsert_artifact (uid : string) (now : string)
    (acc : store * option db_error) (art : entry) : store * option db_error :=
  match acc with
  | (_, Some _) => acc
  | (st, None) =>
      let row := art_row_of art now in
      if negb (art_row_bindable row) then (st, Some BindError)
      else
        match sql_text_key (e_get art "filename") with
        | KUnbound => (st, Some BindError)
        | KNull =>
            (Store (mous st) (eb st) (artifact st)
                   (artifact_null st ++ [(uid, row)]), None)
        | KText f =>
            (Store (mous st) (eb st) (<[(uid, f) := row]> (artifact st))
                   (artifact_null st), None)
        end
  end.

(** [upsert_mous_from_summary].  The connection keeps what the statements
    before a failing one have written, so the store comes back in both
    cases, with the error if one was raised. *)
Definition upsert_mous_from_summary (st : store) (s : summary) (m : manifest)
    (local_dir : string) (shard_id : option string)
    (last_error_stage : option string) (last_error_message : pyval)
    (now : string) : store * option db_error :=
  let mous_uid := first_of s m "mous_uid" "mous_uid" in
  if negb (py_truthy mous_uid) then (st, Some MissingMousUid)
  else
    match derived_columns s m with
    | None => (st, Some ConversionError)
    | Some d =>
        let '(stage, message) :=
          upsert_last_error m last_error_stage last_error_message in
        let row :=
          {| project_code := first_of s m "project_code" "project_code";
             release_date := first_of s m "public_release_date" "release_date";
             obs_date := first_of s m "obs_date" "obs_date";
             derived := d;
             qa2_status := upsert_qa2_status s m;
             qa0_status := _qa_status_text (py_get (sm_top s) "qa0_status");
             local_dir := local_dir;
             manifest_path := py_get (m_top m) "manifest_path";
             summary_path := py_get (sm_top s) "summary_path";
             discovered := 1;
             downloaded :=
               if existsb (λ a, bool_decide (e_get a "status" = PStr "present"))
                          (m_artifacts m) then 1 else 0;
             unpacked := if decide (m_unpacked m = ∅) then 0 else 1;
             summarized :=
               if decide (sm_top s = ∅ ∧ sm_mous s = ∅ ∧ sm_qa s = ∅)
               then 0 else 1;
             indexed := 1;
             last_error_stage := stage;
             last_error_message := message;
             shard_id := shard_id;
             last_seen := now;
             last_updated := now |} in
        if negb (bindable (project_code row) && bindable (release_date row)
                 && bindable (obs_date row) && bindable (manifest_path row)
                 && bindable (summary_path row)
                 && bindable message)
        then (st, Some BindError)
        else
          match sql_text_key mous_uid with
          | KText uid =>
              let st1 := Store (<[uid := row]> (mous st)) (eb st)
                               (artifact st) (artifact_null st) in
              let st2 :=
                Store (mous st1)
                      (eb st1 ∪ list_to_set
                         ((λ e, (uid, e)) <$> _summary_eb_uids s m))
                      (artifact st1) (artifact_null st1) in
              foldl (upsert_artifact uid now) (st2, None) (m_artifacts m)
          | _ => (st, Some BindError)
          end
    end.

(** The inputs on which no statement of the upsert raises: a unit id is
    found and binds as text, the derived columns convert, and no bound
    value is a list or a dict. *)
Definition entry_ready (art : entry) : bool :=
  art_row_bindable (art_row_of art "")
  && match sql_text_key (e_get art "filename") with
     | KUnbound => false
     | _ => true
     end.

Definition upsert_ready (s : summary) (m : manifest)
    (last_error_stage : option string) (last_error_message : pyval) : bool :=
  let mous_uid := first_of s m "mous_uid" "mous_uid" in
  py_truthy mous_uid
  && match sql_text_key mous_uid with KText _ => true | _ => false end
  && match derived_columns s m with Some _ => true | None => false end
  && bindable (first_of s m "project_code" "project_code")
  && bindable (first_of s m "public_release_date" "release_date")
  && bindable (first_of s m "obs_date" "obs_date")
  && bindable (py_get (m_top m) "manifest_path")
  && bindable (py_get (sm_top s) "summary_path")
  && bindable (upsert_last_error m last_error_stage last_error_message).2
  && forallb entry_ready (m_artifacts m).

(** The unit's QA2 judgment is given as the value [v]: at the top level
    of the summary, in its QA block, as the manifest's [qa2_status], or
    as the manifest's raw [qa2_passed] flag, each place counting when
    the ones before it give no status. *)
Inductive qa2_given (s : summary) (m : manifest) (v : pyval) : Prop :=
  | given_summary_top :
      py_get (sm_top s) "qa2_status" = v → py_truthy v = true →
      qa2_given s m v
  | given_summary_block :
      py_truthy (py_get (sm_top s) "qa2_status") = false →
      py_get (_summary_qa s) "qa2_status" = v →
      qa2_given s m v
  | given_manifest_status :
      _qa_status_text (py_or (py_get (sm_top s) "qa2_status")
                             (py_get (_summary_qa s) "qa2_status")) = None →
      py_get (m_top m) "qa2_status" = v →
      qa2_given s m v
  | given_manifest_flag :
      _qa_status_text (py_or (py_get (sm_top s) "qa2_status")
                             (py_get (_summary_qa s) "qa2_status")) = None →
      _qa_status_text (py_get (m_top m) "qa2_status") = None →
      py_get (m_top m) "qa2_passed" = v →
      qa2_given s m v.

(** What a path holds when [json.loads] is asked to read it. *)
Inductive json_file (A : Type) : Type :=
  | Absent
  | Unparsable
  | Parsed (doc : A).
Global Arguments Absent {A}.
Global Arguments Unparsable {A}.
Global Arguments Parsed {A} doc.

(** [d.setdefault(k, v)] *)
Definition setdefault (d : gmap string pyval) (k : string) (v : pyval)
  : gmap string pyval :=
  match d !! k with Some _ => d | None => <[k := v]> d end.

(** [ingest_summary_file]; [summary_path] and [manifest_path] are the
    two paths as text, [local_dir] is [str(summary_path.parent)]. *)
Definition ingest_summary_file (st : store)
    (summary_path manifest_path local_dir : string)
    (sfile : json_file summary) (mfile : json_file manifest)
    (shard_id : option string) (now : string) : store * option db_error :=
  match sfile, mfile with
  | Unparsable, _ | _, Unparsable => (st, Some DatabaseError)
  | _, _ =>
      let s := match sfile with Parsed s => s | _ => Summary ∅ ∅ ∅ end in
      let m := match mfile with Parsed m => m | _ => Manifest ∅ [] [] ∅ end in
      let s := Summary (setdefault (sm_top s) "summary_path" (PStr summary_path))
                       (sm_mous s) (sm_qa s) in
      let m := Manifest (setdefault (m_top m) "manifest_path" (PStr manifest_path))
                        (m_artifacts m) (m_history m) (m_unpacked m) in
      if negb (py_truthy (py_or (py_get (sm_top s) "mous_uid")
                                (py_get (m_top m) "mous_uid")))
      then (st, Some MissingMousUid)
      else upsert_mous_from_summary st s m local_dir shard_id None PNone now
  end.

End upsert.

(** *** Merging a shard store into the central store *)

(** One [INSERT OR REPLACE INTO eb]: the parent row must exist. *)
Definition merge_eb_row (parents : gmap string mous_row)
    (row : string * string) (acc : gset (string * string) * option db_error)
  : gset (string * string) * option db_error :=
  match acc with
  | (_, Some _) => acc
  | (t, None) =>
      if decide (row.1 ∈ dom parents) then ({[ row ]} ∪ t, None)
      else (t, Some IntegrityError)
  end.

(** One [INSERT OR REPLACE INTO artifact] with a file name. *)
Definition merge_art_row (parents : gmap string mous_row)
    (key : string * string) (row : art_row)
    (acc : gmap (string * string) art_row * option db_error)
  : gmap (string * string) art_row * option db_error :=
  match acc with
  | (_, Some _) => acc
  | (t, None) =>
      if decide (key.1 ∈ dom parents) then (<[key := row]> t, None)
      else (t, Some IntegrityError)
  end.

(** One [INSERT OR REPLACE INTO artifact] with a NULL file name. *)
Definition merge_null_row (parents : gmap string mous_row)
    (acc : list (string * art_row) * option db_error) (row : string * art_row)
  : list (string * art_row) * option db_error :=
  match acc with
  | (_, Some _) => acc
  | (t, None) =>
      if decide (row.1 ∈ dom parents) then (t ++ [row], None)
      else (t, Some IntegrityError)
  end.

(** [merge_db]: every [mous] row of the source is upserted on its key with
    all its columns, then the [eb] and the [artifact] rows are inserted
    with [INSERT OR REPLACE].  No statement deletes a row of the target. *)
Definition merge_db (source target : store) : store * option db_error :=
  let m := map_fold (λ uid row acc, <[uid := row]> acc)
                    (mous target) (mous source) in
  match set_fold (merge_eb_row m) (eb target, None) (eb source) with
  | (e, Some err) =>
      (Store m e (artifact target) (artifact_null target), Some err)
  | (e, None) =>
      match map_fold (merge_art_row m) (artifact target, None)
                     (artifact source) with
      | (a, Some err) => (Store m e a (artifact_null target), Some err)
      | (a, None) =>
          let '(n, err) :=
            foldl (merge_null_row m) (artifact_null target, None)
                  (artifact_null source) in
          (Store m e a n, err)
      end
  end.

(** Referential integrity of a store, as [PRAGMA foreign_keys = ON] keeps
    it in every store this tool writes. *)
Definition fk_ok (s : store) : Prop :=
  set_Forall (λ r : string * string, r.1 ∈ dom (mous s)) (eb s)
  ∧ map_Forall (λ (k : string * string) (_ : art_row), k.1 ∈ dom (mous s))
               (artifact s)
  ∧ Forall (λ r : string * art_row, r.1 ∈ dom (mous s)) (artifact_null s).

Global Instance fk_ok_dec (s : store) : Decision (fk_ok s).
Proof. unfold fk_ok. apply _. Defined.

(** What [connect_db] and the [SELECT]s of [merge_db] find at a
    [*.sqlite] path: a file that the first [SELECT] cannot read; a file
    whose [mous] table reads while a later table does not, [ebs] being the
    [eb] rows when that table reads and the one of the artifacts does not;
    or a store. *)
Inductive shard_file : Type :=
  | Unreadable
  | Truncated (rows : gmap string mous_row)
              (ebs : option (gset (string * string)))
  | Database (s : store).

(** A loose summary file found under the shard root, with the manifest
    next to it and the clock reading of its ingestion. *)
Record summary_input : Type := SummaryInput {
  si_summary_path : string;
  si_manifest_path : string;
  si_parent : string;        (* str(summary_path.parent) *)
  si_parent_name : string;   (* summary_path.parent.name *)
  si_summary : json_file summary;
  si_manifest : json_file manifest;
  si_now : string
}.

Record merge_report : Type := MergeReport {
  merged_shard_dbs : nat;
  merged_summary_files : nat
}.

Section merge.

Variable derived_columns : summary → manifest → option derived_cols.
Variable _summary_eb_uids : summary → manifest → list string.

(** The loop over the shard databases, in sorted path order.  A file
    named like the central store is passed over; a source that raises is
    logged and the loop goes on with what the connection holds, which
    includes the rows written before a later [SELECT] raised. *)
Definition merge_shard_step (central_name : string)
    (acc : store * nat) (f : string * shard_file) : store * nat :=
  let '(conn, merged) := acc in
  if decide (f.1 = central_name) then acc
  else
    match f.2 with
    | Unreadable => acc
    | Truncated rows ebs =>
        let m := map_fold (λ uid row acc, <[uid := row]> acc)
                          (mous conn) rows in
        let e := match ebs with
                 | Some read => (set_fold (merge_eb_row m) (eb conn, None) read).1
                 | None => eb conn
                 end in
        (Store m e (artifact conn) (artifact_null conn), merged)
    | Database source =>
        match merge_db source conn with
        | (conn', None) => (conn', S merged)
        | (conn', Some _) => (conn', merged)
        end
    end.

Definition merge_summary_step (acc : store * nat) (i : summary_input)
  : store * nat :=
  let '(conn, merged) := acc in
  match ingest_summary_file derived_columns _summary_eb_uids conn
          (si_summary_path i) (si_manifest_path i) (si_parent i)
          (si_summary i) (si_manifest i) (Some (si_parent_name i))
          (si_now i) with
  | (conn', None) => (conn', S merged)
  | (conn', Some _) => (conn', merged)
  end.

(** [merge_index_from_shards]: the central store after the run and the
    two counters (vacuum and the integrity check change no row). *)
Definition merge_index_from_shards (central : store) (central_name : string)
    (shard_dbs : list (string * shard_file))
    (summaries : list summary_input) : store * merge_report :=
  let '(conn1, n1) :=
    foldl (merge_shard_step central_name) (central, O) shard_dbs in
  let '(conn2, n2) := foldl merge_summary_step (conn1, O) summaries in
  (conn2, MergeReport n1 n2).

End merge.

End Index.

(** ** Paths, the filesystem and tar archives ([unpack.py])

    A resolved absolute path is the list of its components below the root
    directory; the filesystem is a finite map from such paths to nodes.
    There are no symbolic links in the modelled tree ([_safe_extract] never
    creates one), so [Path.resolve] is the lexical normalisation. *)

Module Fs.

(** What a regular file holds: plain bytes, or a tar archive that
    [tarfile.open] can read, given by its members in archive order. *)
Inductive member_kind : Type := MFile | MDir | MLink | MSpecial.

Record tar_member (C : Type) : Type := Member {
  m_name : string;
  m_kind : member_kind;
  m_mode : Z;
  m_payload : C
}.
Global Arguments Member {C} _ _ _ _.
Global Arguments m_name {C} _.
Global Arguments m_kind {C} _.
Global Arguments m_mode {C} _.
Global Arguments m_payload {C} _.

Inductive content : Type :=
  | Bytes (data : string)
  | TarBall (members : list (tar_member content)).

Abbreviation member := (tar_member content).

Inductive node : Type :=
  | Dir
  | File (c : content) (mode : Z).

Abbreviation path := (list string).
Abbreviation fs := (gmap (list string) node).

(** [str(p)] for a resolved absolute path. *)
Fixpoint path_tail (p : path) : string :=
  match p with
  | [] => ""
  | c :: r => "/" +:+ c +:+ path_tail r
  end.

Definition path_str (p : path) : string :=
  match p with
  | [] => "/"
  | _ => path_tail p
  end.

(** [p.name] and [p.parent] *)
Definition name (p : path) : string := default "" (last p).
Definition parent (p : path) : path := removelast p.

(** [PurePosixPath(s).parts]: the root if there is one (two leading slashes
    are kept apart, three or more are one), then the components that are
    neither empty nor a single dot. *)
Definition posix_root (s : string) : list string :=
  if Py.startswith s "///" then ["/"]
  else if Py.startswith s "//" then ["//"]
  else if Py.startswith s "/" then ["/"]
  else [].

Definition is_component (c : string) : bool :=
  negb (String.eqb c "") && negb (String.eqb c ".").

Definition pure_parts (s : string) : list string :=
  posix_root s ++ List.filter is_component (Py.split "/" s).

(** [_member_parts] *)
Definition _member_parts (member_name : string) : list string :=
  List.filter is_component (pure_parts member_name).

(** [(target_dir / Path( *parts)).resolve()]: an absolute [parts] replaces
    the target; a [..] drops the component before it, and stays at the root
    when there is none. *)
Definition is_root_part (c : string) : bool :=
  String.eqb c "/" || String.eqb c "//".

Definition resolve_step (acc : path) (c : string) : path :=
  if is_root_part c then []
  else if String.eqb c ".." then removelast acc
  else acc ++ [c].

Definition resolve_under (target_dir : path) (parts : list string) : path :=
  foldl resolve_step target_dir parts.

(** [p.exists()], [p.is_file()], [p.is_dir()]; the root directory is there. *)
Definition exists_ (f : fs) (p : path) : bool :=
  match p with [] => true | _ => bool_decide (is_Some (f !! p)) end.

Definition is_file (f : fs) (p : path) : bool :=
  match f !! p with Some (File _ _) => true | _ => false end.

Definition is_dir (f : fs) (p : path) : bool :=
  match p with
  | [] => true
  | _ => match f !! p with Some Dir => true | _ => false end
  end.

(** [p.mkdir(parents=True, exist_ok=True)]: every missing prefix becomes a
    directory; a prefix that is a regular file raises. *)
Fixpoint mkdir_from (f : fs) (done : path) (todo : list string) : option fs :=
  match todo with
  | [] => Some f
  | c :: r =>
      let p := done ++ [c] in
      match f !! p with
      | Some (File _ _) => None
      | Some Dir => mkdir_from f p r
      | None => mkdir_from (<[p := Dir]> f) p r
      end
  end.

Definition mkdir_p (f : fs) (p : path) : option fs := mkdir_from f [] p.

(** [dest.open("wb")], [copyfileobj], [chmod]: the parent must be a
    directory and [dest] must not be one. *)
Definition write_file (f : fs) (dest : path) (c : content) (mode : Z) : option fs :=
  match dest with
  | [] => None
  | _ =>
      if negb (is_dir f (parent dest)) then None
      else match f !! dest with
           | Some Dir => None
           | _ => Some (<[dest := File c mode]> f)
           end
  end.

(** [_is_archive] *)
Definition _is_archive (p : path) : bool :=
  let n := Py.lower (name p) in
  Py.endswith n ".tgz" || Py.endswith n ".tar.gz" || Py.endswith n ".tar".

(** [_strip_parts] *)
Definition _strip_parts (parts : list string) (strip_prefix : option (list string))
  : list string :=
  match strip_prefix with
  | None | Some [] => parts
  | Some pre =>
      let n := length pre in
      if bool_decide (length pre ≤ length parts)%nat
         && bool_decide (take n parts = pre)
      then drop n parts else parts
  end.

Inductive extract_error : Type :=
  | UnsafePath (member_name : string)   (* ValueError("Unsafe tar member path") *)
  | OsError (member_name : string)      (* mkdir or open raised *)
  | ReadError                           (* tarfile.open raised *)
  | UnlinkError.                        (* unlink raised *)

(** One member of the loop of [_safe_extract]: [inl] the filesystem to go
    on with, [inr] the exception raised. *)
Definition extract_member (f : fs) (target_dir : path)
    (strip_prefix : option (list string)) (m : member) : fs + extract_error :=
  let parts := _strip_parts (_member_parts (m_name m)) strip_prefix in
  match parts with
  | [] => inl f
  | _ =>
      let dest := resolve_under target_dir parts in
      if negb (Py.startswith (path_str dest) (path_str target_dir))
      then inr (UnsafePath (m_name m))
      else
        match m_kind m with
        | MDir =>
            match mkdir_p f dest with
            | Some f' => inl f'
            | None => inr (OsError (m_name m))
            end
        | MFile =>
            match mkdir_p f (parent dest) with
            | None => inr (OsError (m_name m))
            | Some f' =>
                match write_file f' dest (m_payload m) (Z.land (m_mode m) 511) with
                | Some f'' => inl f''
                | None => inr (OsError (m_name m))
                end
            end
        | MLink | MSpecial => inl f
        end
  end.

(** [_safe_extract]: the members in archive order; the first exception ends
    the loop and leaves the filesystem as the members before it made it. *)
Fixpoint _safe_extract (f : fs) (target_dir : path)
    (strip_prefix : option (list string)) (members : list member)
  : fs * option extract_error :=
  match members with
  | [] => (f, None)
  | m :: rest =>
      match extract_member f target_dir strip_prefix m with
      | inl f' => _safe_extract f' target_dir strip_prefix rest
      | inr e => (f, Some e)
      end
  end.

(** The test of [_safe_extract] on one member: it has parts left after
    stripping, and the text of its resolved destination does not begin with
    the text of the target directory. *)
Definition rejected (target_dir : path) (strip_prefix : option (list string))
    (m : member) : bool :=
  let parts := _strip_parts (_member_parts (m_name m)) strip_prefix in
  match parts with
  | [] => false
  | _ => negb (Py.startswith (path_str (resolve_under target_dir parts))
                             (path_str target_dir))
  end.

End Fs.

(** ** The archive unpacker ([unpack.py]) *)

Module Unpack.

Import Fs.

(** [_uid_uri_from_uid_segment] *)
Definition _uid_uri_from_uid_segment (segment : string) : option string :=
  let token := Py.strip segment in
  let token := if Py.startswith token "uid___" then Py.drop 6 token else token in
  let parts := Py.split "_" token in
  match parts with
  | p0 :: p1 :: _ :: _ =>
      Some ("uid://" +:+ p0 +:+ "/" +:+ p1 +:+ "/" +:+ Py.join "_" (drop 2 parts))
  | _ => None
  end.

(** [_uid_from_component] *)
Definition _uid_from_component (component pre : string) : option string :=
  if negb (Py.startswith component (pre +:+ ".")) then None
  else match Py.after_first "." component with
       | Some suffix => _uid_uri_from_uid_segment suffix
       | None => None
       end.

(** The candidate prefix one member proposes in [_detect_asa_prefix], and
    [None] where the loop says [continue]. *)
Definition asa_candidate (parts : list string) : option (list string) :=
  let part (i : nat) := nth i parts "" in
  if bool_decide (5 ≤ length parts)%nat then
    if Py.startswith (part 1%nat) "science_goal.uid___"
       && Py.startswith (part 2%nat) "group.uid___"
       && Py.startswith (part 3%nat) "member.uid___"
    then Some (take 4 parts) else None
  else if bool_decide (4 ≤ length parts)%nat then
    if Py.startswith (part 0%nat) "science_goal.uid___"
       && Py.startswith (part 1%nat) "group.uid___"
       && Py.startswith (part 2%nat) "member.uid___"
    then Some (take 3 parts) else None
  else None.

Fixpoint detect_asa_loop (detected : option (list string))
    (members : list member) : option (list string) :=
  match members with
  | [] => detected
  | m :: rest =>
      match asa_candidate (_member_parts (m_name m)) with
      | None => detect_asa_loop detected rest
      | Some candidate =>
          match detected with
          | None => detect_asa_loop (Some candidate) rest
          | Some d =>
              if decide (d = candidate) then detect_asa_loop detected rest
              else None
          end
      end
  end.

(** [_detect_asa_prefix] *)
Definition _detect_asa_prefix (members : list member) : option (list string) :=
  detect_asa_loop None members.

(** [_detect_parent_redundant_prefix] *)
Definition _detect_parent_redundant_prefix (members : list member)
    (parent_dir_name : string) : option (list string) :=
  let top_levels : gset string :=
    list_to_set
      (omap (λ m : member,
               let parts := _member_parts (m_name m) in
               if bool_decide (length parts < 2)%nat then None else head parts)
            members) in
  match elements top_levels with
  | [top] => if decide (top = parent_dir_name) then Some [top] else None
  | _ => None
  end.

(** [str(exc)] of the exception an extraction raised; the text of an
    operating-system error is the system's and stands here by its kind. *)
Definition error_text (e : extract_error) : string :=
  match e with
  | UnsafePath n => "Unsafe tar member path: " +:+ n
  | OsError n => "OSError: " +:+ n
  | ReadError => "ReadError"
  | UnlinkError => "OSError: unlink"
  end.

(** The unit's directory tree and its manifest, as one pass of the unpacker
    changes them. *)
Record world : Type := World {
  w_fs : fs;
  w_manifest : manifest
}.

(** [Path(artifact.get("local_path", ""))] for the absolute path text the
    download manager stores. *)
Definition e_local_path (e : entry) : path :=
  match e_get e "local_path" with
  | PStr s => resolve_under [] (pure_parts s)
  | _ => []
  end.

Definition set_field (e : entry) (k : string) (v : pyval) : entry :=
  Entry (<[k := v]> (e_fields e)) (e_unpack_errors e).

(** [artifact.setdefault("unpack_errors", []).append(...)] *)
Definition add_unpack_error (e : entry) (now : string) (err : extract_error)
  : entry :=
  Entry (e_fields e) (e_unpack_errors e ++ [(now, error_text err)]).

(** The three UID fields filled in from a detected prefix. *)
Definition backfill (top : gmap string pyval) (strip_prefix : list string)
  : gmap string pyval :=
  let '(sg_component, group_component, member_component) :=
    match strip_prefix with
    | [_; a; b; c] => (a, b, c)
    | [a; b; c] => (a, b, c)
    | _ => ("", "", "")
    end in
  let uid_of (component pre : string) : option string :=
    if decide (component = "") then None
    else _uid_from_component component pre in
  let truthy (o : option string) : bool :=
    match o with Some u => negb (String.eqb u "") | None => false end in
  let sg_uid := uid_of sg_component "science_goal" in
  let group_uid := uid_of group_component "group" in
  let member_uid := uid_of member_component "member" in
  let top :=
    if truthy sg_uid
       && (negb (py_truthy (py_get top "science_goal_uid"))
           || Py.endswith (py_str (py_get top "science_goal_uid")) "unknown")
    then <["science_goal_uid" := PStr (default "" sg_uid)]> top else top in
  let top :=
    if truthy group_uid && negb (py_truthy (py_get top "group_ous_uid"))
    then <["group_ous_uid" := PStr (default "" group_uid)]> top else top in
  if truthy member_uid && negb (py_truthy (py_get top "mous_uid"))
  then <["mous_uid" := PStr (default "" member_uid)]> top else top.

Definition with_artifact (m : manifest) (i : nat) (e : entry) : manifest :=
  Manifest (m_top m) (<[i := e]> (m_artifacts m)) (m_history m) (m_unpacked m).

(** A selected archive as the loop of [unpack_mous_delivered] meets it: its
    position in [manifest["artifacts"]], the [size:mtime] stamp that [stat]
    gives for its file, and the clock reading of this iteration. *)
Record job : Type := Job {
  j_index : nat;
  j_stamp : string;
  j_now : string
}.

(** One iteration of the loop over the selected archives.  The entry is the
    one of the manifest, changed in place. *)
Definition unpack_archive (remove_archives_after_unpack : bool)
    (w : world) (j : job) : world :=
  let f := w_fs w in
  let m := w_manifest w in
  match m_artifacts m !! j_index j with
  | None => w
  | Some artifact =>
      let local_path := e_local_path artifact in
      if negb (exists_ f local_path) then w
      else if decide (m_unpacked m !! name local_path = Some (j_stamp j)) then w
      else
        let target := parent local_path in
        let failed (f' : fs) (m' : manifest) (a : entry) (err : extract_error) :=
          World f' (with_artifact m' (j_index j)
                      (add_unpack_error a (j_now j) err)) in
        match f !! local_path with
        | Some (File (TarBall members) _) =>
            let strip_prefix := _detect_asa_prefix members in
            match _safe_extract f target strip_prefix members with
            | (f', Some err) => failed f' m artifact err
            | (f', None) =>
                let a1 := set_field artifact "unpacked_to" (PStr (path_str target)) in
                let a2 := set_field a1 "unpacked_at" (PStr (j_now j)) in
                let unpacked := <[name local_path := j_stamp j]> (m_unpacked m) in
                let '(top, a3) :=
                  match strip_prefix with
                  | Some ((_ :: _) as pre) =>
                      (backfill (m_top m) pre,
                       set_field a2 "strip_prefix" (PStr (Py.join "/" pre)))
                  | _ => (m_top m, a2)
                  end in
                let m1 := Manifest top (m_artifacts m) (m_history m) unpacked in
                if remove_archives_after_unpack && exists_ f' local_path then
                  if is_file f' local_path then
                    World (delete local_path f')
                          (with_artifact m1 (j_index j)
                             (set_field a3 "archive_removed_after_unpack"
                                        (PBool true)))
                  else failed f' m1 a3 UnlinkError
                else
                  World f' (with_artifact m1 (j_index j)
                              (set_field a3 "archive_removed_after_unpack"
                                         (PBool false)))
            end
        | _ => failed f m artifact ReadError
        end
  end.

(** The loop over the selected archives. *)
Definition unpack_selected (remove_archives_after_unpack : bool)
    (w : world) (jobs : list job) : world :=
  foldl (unpack_archive remove_archives_after_unpack) w jobs.

(** *** Recursive multi-pass unpack *)

Definition DEFAULT_RECURSIVE_UNPACK_PATTERNS : list string :=
  [ "*.auxproducts.tgz"; "*.auxproducts.tar.gz"; "*.auxproducts.tar";
    "*.caltables.tgz"; "*.caltables.tar.gz"; "*.caltables.tar";
    "*weblog*.tgz"; "*weblog*.tar.gz"; "*weblog*.tar";
    "*readme*.tgz"; "*readme*.tar.gz"; "*readme*.tar" ].

(** [_matches_any_pattern] *)
Definition _matches_any_pattern (p : path) (patterns : list string) : bool :=
  let rel := path_str p in
  let name_l := Py.lower (name p) in
  let rel_l := Py.lower rel in
  existsb (λ pattern,
             let pattern_l := Py.lower pattern in
             Py.fnmatch (name p) pattern || Py.fnmatch rel pattern
             || Py.fnmatch name_l pattern_l || Py.fnmatch rel_l pattern_l)
          patterns.

(** The order of [sorted] on paths: component by component. *)
Fixpoint path_leb (p q : path) : bool :=
  match p, q with
  | [], _ => true
  | _ :: _, [] => false
  | a :: p', b :: q' =>
      match String.compare a b with
      | Lt => true
      | Gt => false
      | Eq => path_leb p' q'
      end
  end.

Definition path_le (p q : path) : Prop := path_leb p q = true.

Global Instance path_le_dec : RelDecision path_le.
Proof. intros p q. unfold path_le. apply _. Defined.

(** [p] lies strictly below [root]. *)
Definition below (root p : path) : bool :=
  bool_decide (length root < length p)%nat
  && bool_decide (take (length root) p = root).

(** [sorted(root_dir.rglob("*"))] *)
Definition rglob (f : fs) (root : path) : list path :=
  merge_sort path_le (filter (λ p, below root p = true) (map_to_list f).*1).

(** The test a path passes to become a candidate of a pass.  The set
    [processed] is given by the list of the keys added to it, in the order
    of the [add] calls; the code only asks it for membership. *)
Definition is_candidate (f : fs) (patterns : list string)
    (processed : list path) (p : path) : bool :=
  is_file f p && _is_archive p && _matches_any_pattern p patterns
  && negb (bool_decide (p ∈ processed)).

(** The candidates of a pass. *)
Definition pass_candidates (f : fs) (root : path) (patterns : list string)
    (processed : list path) : list path :=
  filter (λ p, is_candidate f patterns processed p = true) (rglob f root).

Record pass_info : Type := PassInfo {
  pass : nat;
  archives : list path;
  errors : list (path * extract_error)
}.

Record recursive_summary : Type := RecursiveSummary {
  enabled : bool;
  passes : list pass_info;
  unpacked_count : nat;
  error_count : nat
}.

(** One archive of a pass: opened, its members extracted into its own
    directory, and the file deleted after a success if so configured. *)
Definition recursive_extract (remove_archives_after_unpack : bool)
    (acc : fs * list path * list (path * extract_error)) (archive : path)
  : fs * list path * list (path * extract_error) :=
  let '(f, done, errs) := acc in
  match f !! archive with
  | Some (File (TarBall members) _) =>
      let strip_prefix :=
        _detect_parent_redundant_prefix members (name (parent archive)) in
      match _safe_extract f (parent archive) strip_prefix members with
      | (f', Some err) => (f', done, errs ++ [(archive, err)])
      | (f', None) =>
          if remove_archives_after_unpack && exists_ f' archive then
            if is_file f' archive
            then (delete archive f', done ++ [archive], errs)
            else (f', done ++ [archive], errs ++ [(archive, UnlinkError)])
          else (f', done ++ [archive], errs)
      end
  | _ => (f, done, errs ++ [(archive, ReadError)])
  end.

(** The loop over the passes, [n] of them left to run. *)
Fixpoint recursive_passes (remove_archives_after_unpack : bool) (root : path)
    (patterns : list string) (n : nat) (pass_idx : nat) (f : fs)
    (processed : list path) (summary : recursive_summary)
  : fs * list path * recursive_summary :=
  match n with
  | O => (f, processed, summary)
  | S n' =>
      match pass_candidates f root patterns processed with
      | [] => (f, processed, summary)
      | candidates =>
          let '(f', done, errs) :=
            foldl (recursive_extract remove_archives_after_unpack)
                  (f, [], []) candidates in
          recursive_passes remove_archives_after_unpack root patterns n'
            (S pass_idx) f' (processed ++ candidates)
            (RecursiveSummary true
               (passes summary ++ [PassInfo (S pass_idx) done errs])
               (unpacked_count summary + length done)
               (error_count summary + length errs))
      end
  end.

(** [_recursive_unpack]: the filesystem after the run, the keys added to
    [processed] in order, and the summary returned. *)
Definition _recursive_unpack (root_dir : path) (patterns : list string)
    (max_passes : Z) (remove_archives_after_unpack : bool) (f : fs)
  : fs * list path * recursive_summary :=
  let summary := RecursiveSummary true [] 0 0 in
  match patterns with
  | [] => (f, [], summary)
  | _ =>
      recursive_passes remove_archives_after_unpack root_dir patterns
        (Z.to_nat (Z.max 1 max_passes)) 0 f [] summary
  end.

(** [unpack_mous_delivered], after [_select_archives_for_unpack] has chosen
    the archives ([jobs]): the loop over them, the recursive unpack, and the
    history record. *)
Definition unpack_mous_delivered (delivered_dir : path) (w : world)
    (jobs : list job) (remove_archives_after_unpack : bool)
    (recursive_unpack_enabled : bool) (recursive_unpack_patterns : list string)
    (recursive_unpack_max_passes : Z) (now : string) : world :=
  let w1 := unpack_selected remove_archives_after_unpack w jobs in
  let '(f2, _, summary) :=
    if recursive_unpack_enabled then
      _recursive_unpack delivered_dir recursive_unpack_patterns
        recursive_unpack_max_passes remove_archives_after_unpack (w_fs w1)
    else (w_fs w1, [], RecursiveSummary false [] 0 0) in
  let m := w_manifest w1 in
  World f2
    (Manifest (m_top m) (m_artifacts m)
       (m_history m
        ++ [EvUnpack now
              ((λ j, default ""
                       (py_str <$> ((λ e, e_get e "filename")
                                      <$> (m_artifacts m !! j_index j))))
                 <$> jobs)
              (length (passes summary)) (unpacked_count summary)
              (error_count summary)])
       (m_unpacked m)).

End Unpack.

(** ** Nested archive layers

    The fixture of the bounded multi-pass unpack: an archive whose only
    member is an archive whose only member is an archive, and so on. *)

Module Nest.

Import Fs Unpack.

(** The archive holding, layer in layer, files named [names]; the file
    named last holds [innermost]. *)
Fixpoint nested (member_mode : Z) (names : list string) (innermost : content)
  : content :=
  match names with
  | [] => innermost
  | n :: rest =>
      TarBall [Member n MFile member_mode (nested member_mode rest innermost)]
  end.

(** A member name that is one plain path component. *)
Definition simple_name (n : string) : bool :=
  bool_decide (_member_parts n = [n])
  && negb (is_root_part n) && negb (String.eqb n "..").

(** The name makes a file in [root] a candidate of the scan. *)
Definition eligible (root : path) (patterns : list string) (n : string) : bool :=
  _is_archive (root ++ [n]) && _matches_any_pattern (root ++ [n]) patterns.

(** [root] and all the directories above it are there. *)
Definition dirs_ok (f : fs) (root : path) : bool :=
  forallb (λ i, match f !! take (S i) root with Some Dir => true | _ => false end)
          (seq 0 (length root)).

(** No file of [f] is a candidate that has not been processed. *)
Definition quiet_at (root : path) (patterns : list string)
    (processed : list path) (p : path) (nd : node) : bool :=
  match nd with
  | Dir => true
  | File _ _ =>
      negb (below root p && _is_archive p && _matches_any_pattern p patterns)
      || bool_decide (p ∈ processed)
  end.

Definition quiet (f : fs) (root : path) (patterns : list string)
    (processed : list path) : Prop :=
  map_Forall (λ p nd, quiet_at root patterns processed p nd = true) f.

Global Instance quiet_dec f root patterns processed :
  Decision (quiet f root patterns processed).
Proof. unfold quiet. apply _. Defined.

End Nest.

(** ** Where a member lands with respect to the target directory *)

Module Contain.

Import Fs.

(** The destination that [_safe_extract] resolves for a member:
    [(target_dir / Path( *parts)).resolve()]. *)
Definition destination (target_dir : path)
    (strip_prefix : option (list string)) (m : member) : path :=
  resolve_under target_dir (_strip_parts (_member_parts (m_name m)) strip_prefix).

(** [p] is the directory [root] or lies below it. *)
Definition within (root p : path) : bool :=
  bool_decide (take (length root) p = root).

(** [p] is, or lies below, a sibling of [root] whose name begins with the
    name of [root] and goes on after it, as [/data/delivered_evil] beside
    [/data/delivered]. *)
Definition beside (root p : path) : bool :=
  match p !! (length root - 1)%nat with
  | Some c =>
      negb (bool_decide (root = []))
      && bool_decide (take (length root - 1) p = parent root)
      && Py.startswith c (name root)
      && negb (String.eqb c (name root))
  | None => false
  end.

(** A path component as the filesystem has them: not empty, no slash. *)
Definition is_name (c : string) : bool :=
  negb (String.eqb c "") && negb (Py.mem_char "/" c).

End Contain.

(** ** The download manager ([downloader.py]) *)

Module Download.

(** [ArtifactInfo], as the lister returns it. *)
Record ArtifactInfo : Type := Artifact {
  kind : string;
  url : string;
  filename : string;
  semantics : pyval;
  size_bytes : option Z;
  checksum : pyval;
  description : pyval
}.

(** The local disk as the download manager asks for it: the size that
    [stat] reports for a path, given by its text; a path that is not in the
    map does not exist. *)
Abbreviation disk := (gmap string Z).

(** [delivered_dir / art.filename], as text. *)
Definition local_path (delivered_dir : string) (name : string) : string :=
  delivered_dir +:+ "/" +:+ name.

(** [_artifact_exists] *)
Definition _artifact_exists (d : disk) (loc : string) (expected_size : option Z)
  : bool :=
  match d !! loc with
  | None => false
  | Some size =>
      match expected_size with
      | None => true
      | Some expected => bool_decide (size = expected)
      end
  end.

(** The truth value of an entry: a dict with a key in it. *)
Definition entry_truthy (e : entry) : bool :=
  negb (bool_decide (e_fields e = ∅))
  || negb (bool_decide (e_unpack_errors e = [])).

(** [_artifact_satisfied_without_archive_file] *)
Definition _artifact_satisfied_without_archive_file (existing : option entry)
  : bool :=
  match existing with
  | None => false
  | Some e =>
      entry_truthy e
      && py_truthy (e_get e "archive_removed_after_unpack")
      && py_truthy (e_get e "unpacked_to")
  end.

(** [_entry_lookup]: the first entry with this file name, and where it is
    in the list (the caller changes it in place). *)
Definition _entry_lookup (artifacts : list entry) (name : string)
  : option (nat * entry) :=
  list_find (λ e, e_get e "filename" = PStr name) artifacts.

Definition opt_int (o : option Z) : pyval :=
  match o with Some z => PInt z | None => PNone end.

(** *** The scan for what is missing *)

Record scan : Type := Scan {
  sc_artifacts : list entry;
  sc_to_fetch : list ArtifactInfo
}.

(** One iteration of the first loop of [download_for_record]; [now k] is
    the [k]-th reading of the clock in this iteration. *)
Definition scan_step (selected_kinds : gset string) (delivered_dir : string)
    (d : disk) (now : nat → string) (acc : scan) (art : ArtifactInfo) : scan :=
  if negb (_artifact_selected (kind art) selected_kinds) then acc
  else
    let loc := local_path delivered_dir (filename art) in
    let found := _entry_lookup (sc_artifacts acc) (filename art) in
    if _artifact_exists d loc (size_bytes art)
       || _artifact_satisfied_without_archive_file (snd <$> found)
    then
      let fresh : gmap string pyval :=
        {[ "kind" := PStr (_normalize_kind (kind art));
           "filename" := PStr (filename art);
           "url" := PStr (url art);
           "local_path" := PStr loc;
           "size_bytes" := opt_int (d !! loc);
           "checksum" := PNone;
           "status" := PStr "present";
           "downloaded_at" := PStr (now 0%nat);
           "updated_at" := PStr (now 1%nat);
           "semantics" := semantics art;
           "description" := description art ]} in
      let appended :=
        Scan (sc_artifacts acc ++ [Entry fresh []]) (sc_to_fetch acc) in
      match found with
      | Some (i, existing) =>
          if entry_truthy existing then
            let f1 := <["status" := PStr "present"]> (e_fields existing) in
            let f2 := <["kind" := PStr (_normalize_kind (kind art))]> f1 in
            let f3 := match d !! loc with
                      | Some size => <["size_bytes" := PInt size]> f2
                      | None => f2
                      end in
            let f4 := <["updated_at" := PStr (now 0%nat)]> f3 in
            Scan (<[i := Entry f4 (e_unpack_errors existing)]> (sc_artifacts acc))
                 (sc_to_fetch acc)
          else appended
      | None => appended
      end
    else Scan (sc_artifacts acc) (sc_to_fetch acc ++ [art]).

(** The loop over the listed artifacts; [clock i] is the clock of the
    [i]-th iteration. *)
Fixpoint scan_loop (selected_kinds : gset string) (delivered_dir : string)
    (d : disk) (clock : nat → nat → string) (i : nat) (acc : scan)
    (available : list ArtifactInfo) : scan :=
  match available with
  | [] => acc
  | art :: rest =>
      scan_loop selected_kinds delivered_dir d clock (S i)
        (scan_step selected_kinds delivered_dir d (clock i) acc art) rest
  end.

(** The keys that the scan writes in an entry it finds for a listed
    artifact, and what it means that an entry changed in these keys only. *)
Definition refreshed_keys : list string :=
  ["status"; "kind"; "size_bytes"; "updated_at"].

Definition refreshed_only (e e' : entry) : Prop :=
  e_unpack_errors e' = e_unpack_errors e
  ∧ ∀ k, k ∉ refreshed_keys → e_fields e' !! k = e_fields e !! k.

(** The entry the scan writes back for an artifact it finds satisfied. *)
Definition refreshed (delivered_dir : string) (d : disk) (existing : entry) (art : ArtifactInfo) (now : string)
  : entry :=
  let f2 := <["kind" := PStr (_normalize_kind (kind art))]>
              (<["status" := PStr "present"]> (e_fields existing)) in
  Entry (<["updated_at" := PStr now]>
           (match d !! local_path delivered_dir (filename art) with
            | Some size => <["size_bytes" := PInt size]> f2
            | None => f2
            end))
        (e_unpack_errors existing).

(** What one iteration of the scan does to the list of entries. *)
Inductive scan_effect (delivered_dir : string) (d : disk)
    (artifacts : list entry) (art : ArtifactInfo)
    (now : nat → string) (artifacts' : list entry) : Prop :=
  | effect_none : artifacts' = artifacts → scan_effect delivered_dir d artifacts art now artifacts'
  | effect_refresh (i : nat) (existing : entry) :
      _entry_lookup artifacts (filename art) = Some (i, existing) →
      artifacts' = <[i := refreshed delivered_dir d existing art (now 0%nat)]> artifacts →
      scan_effect delivered_dir d artifacts art now artifacts'
  | effect_append (e : entry) :
      e_get e "filename" = PStr (filename art) →
      e_get e "status" = PStr "present" →
      artifacts' = artifacts ++ [e] →
      scan_effect delivered_dir d artifacts art now artifacts'.

(** The status of the entry that [_entry_lookup] finds for a file name. *)
Definition lookup_status (artifacts : list entry) (name : string)
  : option pyval :=
  (λ r : nat * entry, e_get r.2 "status") <$> _entry_lookup artifacts name.

(** *** The manifest a run starts from *)

(** [MousRecord] as [_read_manifest] reads it; a list field is a value of
    which the truth value and the text are known. *)
Record MousRecord : Type := Record_ {
  project_code : string;
  member_ous_uid : string;
  group_ous_uid : pyval;
  science_goal_uid : pyval;
  eb_uids : pyval;
  band_list : pyval;
  release_date : pyval;
  obs_date : pyval;
  qa2_passed : pyval;
  qa0_status : pyval;
  qa0_reasons : pyval;
  qa2_reasons : pyval
}.

(** [payload[k] = payload.get(k) or v] *)
Definition or_record (top : gmap string pyval) (k : string) (v : pyval)
  : gmap string pyval :=
  <[k := py_or (py_get top k) v]> top.

(** [payload[k] = payload.get(k) if payload.get(k) is not None else v] *)
Definition unless_none (top : gmap string pyval) (k : string) (v : pyval)
  : gmap string pyval :=
  <[k := match py_get top k with PNone => v | held => held end]> top.

(** The keys that [_read_manifest] writes from the record. *)
Definition record_keys : list string :=
  ["mous_uid"; "project_code"; "group_ous_uid"; "science_goal_uid";
   "release_date"; "obs_date"; "band_list"; "eb_uids"; "qa2_passed";
   "qa0_status"; "qa0_reasons"; "qa2_reasons"].

(** [_read_manifest]; [on_disk] is what [load_json] returns when the file
    is there and holds a non-empty object, and [now k] is the [k]-th reading
    of the clock. *)
Definition _read_manifest (on_disk : option manifest) (record : MousRecord)
    (now : nat → string) : manifest :=
  match on_disk with
  | Some payload =>
      let t1 := or_record (m_top payload) "mous_uid"
                  (PStr (member_ous_uid record)) in
      let t2 := or_record t1 "project_code" (PStr (project_code record)) in
      let t3 := or_record t2 "group_ous_uid" (group_ous_uid record) in
      let t4 := or_record t3 "science_goal_uid" (science_goal_uid record) in
      let t5 := or_record t4 "release_date" (release_date record) in
      let t6 := or_record t5 "obs_date" (obs_date record) in
      let t7 := or_record t6 "band_list" (band_list record) in
      let t8 := or_record t7 "eb_uids" (eb_uids record) in
      let t9 := unless_none t8 "qa2_passed" (qa2_passed record) in
      let t10 := or_record t9 "qa0_status" (qa0_status record) in
      let t11 := or_record t10 "qa0_reasons" (qa0_reasons record) in
      let t12 := or_record t11 "qa2_reasons" (qa2_reasons record) in
      Manifest t12 (m_artifacts payload) (m_history payload)
               (m_unpacked payload)
  | None =>
      Manifest
        (<["updated_at" := PStr (now 1%nat)]>
        {[ "mous_uid" := PStr (member_ous_uid record);
           "project_code" := PStr (project_code record);
           "group_ous_uid" := group_ous_uid record;
           "science_goal_uid" := science_goal_uid record;
           "release_date" := release_date record;
           "obs_date" := obs_date record;
           "band_list" := band_list record;
           "eb_uids" := eb_uids record;
           "qa2_passed" := qa2_passed record;
           "qa0_status" := qa0_status record;
           "qa0_reasons" := qa0_reasons record;
           "qa2_reasons" := qa2_reasons record;
           "created_at" := PStr (now 0%nat) ]})
        [] [] ∅
  end.

(** *** The directory tree *)

(** The disk with its directories: [t_stat] has every path that exists,
    with the size [stat] reports for it, and [t_dirs] says which of them are
    directories.  Paths are told apart by their text; the root and the
    working directory are always there. *)
Record tree : Type := Tree {
  t_stat : disk;
  t_dirs : gset string
}.

(** The calls that the operating system can refuse here. *)
Inductive os_call : Type :=
  | OpenForWriting (p : string)     (* [open] on a directory *)
  | Replace (src dst : string).     (* [os.replace] onto a directory *)

(** What the operating system decides: the size [stat] reports for a
    directory just made, and [str(exc)] of the [OSError] of a refused call. *)
Record os : Type := Os {
  dir_size : Z;
  os_error_text : os_call → string
}.

(** [str(PurePosixPath( *parts))] *)
Definition parts_text (parts : list string) : string :=
  match parts with
  | [] => "."
  | r :: rest =>
      if Fs.is_root_part r then r +:+ Py.join "/" rest
      else Py.join "/" parts
  end.

(** [str(Path(s).parent)] *)
Definition parent_text (s : string) : string :=
  match Fs.pure_parts s with
  | [] => "."
  | [r] => if Fs.is_root_part r then r else "."
  | parts => parts_text (removelast parts)
  end.

(** [Path(s).name] *)
Definition name_text (s : string) : string :=
  match Fs.pure_parts s with
  | [] => ""
  | [r] => if Fs.is_root_part r then "" else r
  | parts => default "" (last parts)
  end.

(** The directories on the way to [Path(s)], the nearest to the root first
    and [Path(s)] itself last. *)
Definition dir_chain (s : string) : list string :=
  match Fs.pure_parts s with
  | [] => []
  | r :: rest =>
      if Fs.is_root_part r
      then (λ k, parts_text (r :: take k rest)) <$> seq 1 (length rest)
      else (λ k, parts_text (take k (r :: rest))) <$> seq 1 (S (length rest))
  end.

(** [mkdir] down a chain of directories: one that is there is left alone,
    one that is missing is made, and a path that is there without being a
    directory raises. *)
Fixpoint mkdirs (o : os) (t : tree) (chain : list string) : option tree :=
  match chain with
  | [] => Some t
  | p :: rest =>
      match t_stat t !! p with
      | Some _ =>
          if bool_decide (p ∈ t_dirs t) then mkdirs o t rest else None
      | None =>
          mkdirs o (Tree (<[p := dir_size o]> (t_stat t)) ({[ p ]} ∪ t_dirs t))
                 rest
      end
  end.

(** [ensure_dir]: [path.mkdir(parents=True, exist_ok=True)]; [None] when it
    raises. *)
Definition ensure_dir (o : os) (t : tree) (s : string) : option tree :=
  mkdirs o t (dir_chain s).

(** [Path(s)] and the directories above it are all there. *)
Definition dir_there (t : tree) (s : string) : bool :=
  forallb (λ p, bool_decide (p ∈ t_dirs t)
                && bool_decide (is_Some (t_stat t !! p)))
          (dir_chain s).

(** *** One transfer, with its retries *)

(** What the server does with one request. *)
Inductive response : Type :=
  | ConnectionFailed (message : string)
      (* [session.get] raised, and [str(exc)] *)
  | Response (status : Z) (http_error : string) (body : Z)
      (broken : option string).
      (* the status code; [str(exc)] of the [HTTPError] that
         [raise_for_status] raises for this response when its status is 4xx
         or 5xx; the bytes that [iter_content] delivered; the message of the
         exception that ended the stream, if one did *)

Inductive failure : Type :=
  | ConnectionError (message : string)
  | HTTPError (status : Z) (message : string)
  | StreamError (message : string)
  | OsFailure (message : string)
  | SizeMismatch (name : string) (expected got : Z).

(** [str(exc)] *)
Definition failure_text (f : failure) : string :=
  match f with
  | ConnectionError message => message
  | HTTPError _ message => message
  | StreamError message => message
  | OsFailure message => message
  | SizeMismatch name expected got =>
      "Size mismatch for " +:+ name +:+ ": expected " +:+ pretty expected
      +:+ ", got " +:+ pretty got
  end.

Inductive outcome : Type :=
  | Ok (size : Z)                 (* ("ok", None, size) *)
  | Error (message : string).     (* ("error", message, None) *)

(** What one transfer does besides writing: its requests with how each
    ended, and its sleeps. *)
Inductive step : Type :=
  | Attempt (number : Z) (failed : option failure)
  | Backoff (seconds : Z)
  | RateLimitSleep.

(** The body of the [try] of one attempt: [inl] the size of the finished
    file, [inr] the exception. *)
Definition attempt_once (o : os) (serve : Z → response) (name : string)
    (expected : option Z) (loc : string) (t : tree) : tree * (Z + failure) :=
  let temp := loc +:+ ".part" in
  let downloaded := default 0 (t_stat t !! temp) in
  match serve downloaded with
  | ConnectionFailed message => (t, inr (ConnectionError message))
  | Response status http_error body broken =>
      let start := if (0 <? downloaded) && negb (status =? 200)
                   then downloaded else 0 in
      if (400 <=? status) && (status <? 600)
      then (t, inr (HTTPError status http_error))
      else if bool_decide (temp ∈ t_dirs t)
      then (t, inr (OsFailure (os_error_text o (OpenForWriting temp))))
      else
        let final_size := start + body in
        let t1 := Tree (<[temp := final_size]> (t_stat t)) (t_dirs t) in
        match broken with
        | Some message => (t1, inr (StreamError message))
        | None =>
            let mismatch :=
              match expected with
              | Some e => negb (final_size =? e)
              | None => false
              end in
            if mismatch
            then (t1, inr (SizeMismatch name (default 0 expected) final_size))
            else if bool_decide (loc ∈ t_dirs t)
            then (t1, inr (OsFailure (os_error_text o (Replace temp loc))))
            else (Tree (<[loc := final_size]> (delete temp (t_stat t1)))
                       (t_dirs t),
                  inl final_size)
        end
  end.

(** The loop [for attempt in range(1, retry_count + 1)], [fuel] iterations
    of it left. *)
Fixpoint retry_loop (o : os) (serve : Z → Z → response) (name : string)
    (expected : option Z) (loc : string) (retry_count : Z) (rate_limit : bool)
    (fuel : nat) (attempt : Z) (t : tree) (trace : list step)
  : tree * list step * outcome :=
  match fuel with
  | O => (t, trace, Error "retry exhausted")
  | S fuel' =>
      match attempt_once o (serve attempt) name expected loc t with
      | (t', inl size) =>
          (t',
           trace ++ Attempt attempt None
                 :: (if rate_limit then [RateLimitSleep] else []),
           Ok size)
      | (t', inr f) =>
          if attempt =? retry_count
          then (t', trace ++ [Attempt attempt (Some f)], Error (failure_text f))
          else retry_loop o serve name expected loc retry_count rate_limit
                 fuel' (attempt + 1) t'
                 (trace ++ [Attempt attempt (Some f);
                            Backoff (Z.min (2 ^ attempt) 10)])
      end
  end.

(** [_download_one]; [serve a r] answers attempt [a] asked with range start
    [r], and [rate_limit] says whether [rate_limit_sec > 0].  The result is
    [None] when [ensure_dir] raises: that exception is not caught here. *)
Definition _download_one (o : os) (serve : Z → Z → response)
    (art : ArtifactInfo) (loc : string) (retry_count : Z) (rate_limit : bool)
    (t : tree) : tree * list step * option outcome :=
  match ensure_dir o t (parent_text loc) with
  | None => (t, [], None)
  | Some t1 =>
      let '(t2, trace, result) :=
        retry_loop o serve (name_text loc) (size_bytes art) loc retry_count
          rate_limit (Z.to_nat retry_count) 1 t1 [] in
      (t2, trace, Some result)
  end.

(** The trace of a transfer whose attempts from number [a] on failed with
    [fails], one after the other, each followed by its back-off. *)
Fixpoint failed_attempts (a : Z) (fails : list failure) : list step :=
  match fails with
  | [] => []
  | f :: rest =>
      Attempt a (Some f) :: Backoff (Z.min (2 ^ a) 10)
        :: failed_attempts (a + 1) rest
  end.

(** *** Recording the results *)

(** A finished future as the second loop meets it: the artifact, what
    [_download_one] returned, the digest [sha256_file] gives for its file,
    and the two readings of the clock of this iteration. *)
Record completed : Type := Completed {
  c_art : ArtifactInfo;
  c_outcome : outcome;
  c_sha256 : string;
  c_now_downloaded : string;
  c_now_updated : string
}.

Definition payload (delivered_dir : string) (compute_sha256 : bool)
    (c : completed) : gmap string pyval :=
  let art := c_art c in
  let ok := match c_outcome c with Ok _ => true | Error _ => false end in
  let digest := if ok && compute_sha256 then PStr (c_sha256 c) else PNone in
  {[ "kind" := PStr (_normalize_kind (kind art));
     "filename" := PStr (filename art);
     "url" := PStr (url art);
     "local_path" := PStr (local_path delivered_dir (filename art));
     "size_bytes" := match c_outcome c with Ok size => PInt size | Error _ => PNone end;
     "checksum" := py_or digest (checksum art);
     "status" := PStr (if ok then "present" else "error");
     "downloaded_at" := if ok then PStr (c_now_downloaded c) else PNone;
     "updated_at" := PStr (c_now_updated c);
     "error" := match c_outcome c with Ok _ => PNone | Error message => PStr message end;
     "semantics" := semantics art;
     "description" := description art;
     "archive_removed_after_unpack" := PBool false ]}.

(** One iteration of the loop over the finished futures. *)
Definition record_result (delivered_dir : string) (compute_sha256 : bool)
    (artifacts : list entry) (c : completed) : list entry :=
  let p := payload delivered_dir compute_sha256 c in
  match _entry_lookup artifacts (filename (c_art c)) with
  | Some (i, existing) =>
      if entry_truthy existing
      then <[i := Entry (p ∪ e_fields existing) (e_unpack_errors existing)]>
             artifacts
      else artifacts ++ [Entry p []]
  | None => artifacts ++ [Entry p []]
  end.

Definition record_results (delivered_dir : string) (compute_sha256 : bool)
    (artifacts : list entry) (results : list completed) : list entry :=
  foldl (record_result delivered_dir compute_sha256) artifacts results.

(** Two lists of entries that are alike but for the content of the entries
    of one file name, and two lists of results that are alike but for the
    result of the artifact of that name. *)
Definition same_except (name : string) (l1 l2 : list entry) : Prop :=
  Forall2 (λ e1 e2, e_get e1 "filename" = e_get e2 "filename"
                    ∧ (e_get e1 "filename" ≠ PStr name → e1 = e2)) l1 l2.

Definition results_except (name : string) (r1 r2 : list completed) : Prop :=
  Forall2 (λ c1 c2, c_art c1 = c_art c2
                    ∧ (filename (c_art c1) ≠ name → c1 = c2)) r1 r2.

(** [sorted(selected_kinds)] *)
Definition sorted_kinds (selected_kinds : gset string) : list string :=
  merge_sort String.le (elements selected_kinds).

(** One transfer as the run keeps it: the artifact, what the transfer did,
    and what it returned ([None] when it raised). *)
Record transfer : Type := Transfer {
  tr_art : ArtifactInfo;
  tr_trace : list step;
  tr_result : option outcome
}.

(** The transfers of [to_fetch], in the order of their submission; each
    works on its own file and leaves the disk to the next. *)
Fixpoint run_transfers (o : os) (serve : string → Z → Z → response)
    (delivered_dir : string) (retry_count : Z) (rate_limit : bool)
    (t : tree) (to_fetch : list ArtifactInfo) : tree * list transfer :=
  match to_fetch with
  | [] => (t, [])
  | art :: rest =>
      let '(t1, trace, result) :=
        _download_one o (serve (url art)) art
          (local_path delivered_dir (filename art)) retry_count rate_limit t in
      let '(t2, transfers) :=
        run_transfers o serve delivered_dir retry_count rate_limit t1 rest in
      (t2, Transfer art trace result :: transfers)
  end.

(** [fut.result()] for every future: what the transfers returned, or
    [None] if one of them raised. *)
Definition returned (transfers : list transfer)
  : option (list (ArtifactInfo * outcome)) :=
  mapM (λ x, (λ result, (tr_art x, result)) <$> tr_result x) transfers.

(** The futures in the order [as_completed] yields them: [order] lists the
    positions of the transfers, [sha256_file] and the clock are asked when a
    future is handled. *)
Definition completed_in (order : list nat)
    (transfers : list (ArtifactInfo * outcome))
    (delivered_dir : string) (sha256_file : string → string)
    (clock : nat → nat → string) : list completed :=
  imap (λ k t, Completed t.1 t.2
                 (sha256_file (local_path delivered_dir (filename t.1)))
                 (clock k 0%nat) (clock k 1%nat))
       (omap (λ i, transfers !! i) order).

(** What a call of [download_for_record] leaves: the manifest it saved and
    returned ([None] when the call raised, and nothing was saved), the
    directory tree, and the transfers it ran. *)
Record run : Type := Run {
  r_manifest : option manifest;
  r_tree : tree;
  r_transfers : list transfer
}.

(** [download_for_record], with the listing that [fetch_datalink_artifacts]
    returned.  The manifest is read; the scan refreshes the entries of what
    is there and queues what is missing.  When nothing is queued, the
    history gets its record and the manifest is saved; else the transfers
    run, their results are recorded in the order they finish, and the
    manifest is saved then.  If a transfer raised, [fut.result()] raises it
    again in the loop over the futures, whichever future it is, and the call
    ends there, after all transfers, with nothing saved.  The manifest file
    itself is not part of the tree: it is [on_disk] before the call and
    [r_manifest] after it; the directory it lies in is taken to be there,
    and the writing of it to go through. *)
Definition download_for_record (o : os) (record : MousRecord)
    (on_disk : option manifest) (t : tree)
    (delivered_dir artifacts_spec : string) (available : list ArtifactInfo)
    (retry_count : Z) (rate_limit compute_sha256 : bool)
    (serve : string → Z → Z → response) (order : list nat)
    (sha256_file : string → string) (read_clock : nat → string)
    (scan_clock result_clock : nat → nat → string)
    (now_history now_saved : string) : run :=
  let m := _read_manifest on_disk record read_clock in
  let selected_kinds := resolve_artifact_selection artifacts_spec in
  let s := scan_loop selected_kinds delivered_dir (t_stat t) scan_clock 0
             (Scan (m_artifacts m) []) available in
  match sc_to_fetch s with
  | [] =>
      Run (Some (Manifest (<["updated_at" := PStr now_saved]> (m_top m))
                   (sc_artifacts s)
                   (m_history m
                    ++ [EvDownloadNothingMissing now_history
                          (sorted_kinds selected_kinds)])
                   (m_unpacked m)))
          t []
  | to_fetch =>
      let '(t', transfers) :=
        run_transfers o serve delivered_dir retry_count rate_limit t to_fetch in
      Run (results ← returned transfers;
           Some (Manifest (<["updated_at" := PStr now_saved]> (m_top m))
                   (record_results delivered_dir compute_sha256 (sc_artifacts s)
                      (completed_in order results delivered_dir sha256_file
                         result_clock))
                   (m_history m
                    ++ [EvDownload now_history (sorted_kinds selected_kinds)
                          (length to_fetch)])
                   (m_unpacked m)))
          t' transfers
  end.

(** Two artifacts whose local files and partial files are four different
    paths. *)
Definition apart (a b : ArtifactInfo) : bool :=
  negb (String.eqb (filename b) (filename a))
  && negb (String.eqb (filename b) (filename a +:+ ".part"))
  && negb (String.eqb (filename a) (filename b +:+ ".part")).

(** Two trees with the same directories that hold the same at every path
    outside [paths]; and a tree whose directories are those of an earlier
    one, none made, none touched. *)
Definition agree_off (paths : gset string) (t1 t2 : tree) : Prop :=
  t_dirs t1 = t_dirs t2
  ∧ ∀ p, p ∉ paths → t_stat t1 !! p = t_stat t2 !! p.

Definition settled (t t' : tree) : Prop :=
  t_dirs t' = t_dirs t
  ∧ ∀ p, p ∈ t_dirs t → t_stat t' !! p = t_stat t !! p.

(** An entry that the scan over [available] put after the entries of
    [artifacts]: it stands for a listed artifact of a selected kind that was
    found on disk and for whose file name [artifacts] has no entry. *)
Definition appended_for (selected_kinds : gset string)
    (delivered_dir : string) (d : disk) (artifacts : list entry)
    (available : list ArtifactInfo) (e : entry) : Prop :=
  ∃ art : ArtifactInfo,
    art ∈ available
    ∧ _artifact_selected (kind art) selected_kinds = true
    ∧ _artifact_exists d (local_path delivered_dir (filename art))
                       (size_bytes art) = true
    ∧ _entry_lookup artifacts (filename art) = None
    ∧ e_get e "filename" = PStr (filename art)
    ∧ e_get e "status" = PStr "present".

(** Whether [_read_manifest] keeps the value it finds under a key of the
    record: one that is truthy, or one under [qa2_passed] that is not
    [None]; and the value of the record that it writes there otherwise. *)
Definition keeps (k : string) (v : pyval) : bool :=
  if String.eqb k "qa2_passed"
  then match v with PNone => false | _ => true end
  else py_truthy v.

Definition record_value (record : MousRecord) (k : string) : pyval :=
  if String.eqb k "mous_uid" then PStr (member_ous_uid record)
  else if String.eqb k "project_code" then PStr (project_code record)
  else if String.eqb k "group_ous_uid" then group_ous_uid record
  else if String.eqb k "science_goal_uid" then science_goal_uid record
  else if String.eqb k "release_date" then release_date record
  else if String.eqb k "obs_date" then obs_date record
  else if String.eqb k "band_list" then band_list record
  else if String.eqb k "eb_uids" then eb_uids record
  else if String.eqb k "qa2_passed" then qa2_passed record
  else if String.eqb k "qa0_status" then qa0_status record
  else if String.eqb k "qa0_reasons" then qa0_reasons record
  else if String.eqb k "qa2_reasons" then qa2_reasons record
  else PNone.

(** A tree that came out of [t] by making directories only. *)
Definition grown (t t' : tree) : Prop :=
  t_dirs t ⊆ t_dirs t'
  ∧ (∀ p z, t_stat t !! p = Some z → t_stat t' !! p = Some z)
  ∧ (∀ p, t_stat t !! p = None → is_Some (t_stat t' !! p) → p ∈ t_dirs t').

(** The entry found for a file name carries this status and this error. *)
Definition recorded (artifacts : list entry) (name status : string)
    (error : pyval) : Prop :=
  ∃ (i : nat) (e : entry),
    _entry_lookup artifacts name = Some (i, e)
    ∧ e_get e "status" = PStr status
    ∧ e_get e "error" = error.

(** The two paths a transfer writes. *)
Definition own_paths (delivered_dir : string) (a : ArtifactInfo) : gset string :=
  {[ local_path delivered_dir (filename a);
     local_path delivered_dir (filename a) +:+ ".part" ]}.

End Download.

(** ** Helpers of [utils.py] and the functions built on them *)

(** More of Python's string methods. *)
Module Str.

(** [s.replace(old, new)] for a non-empty [old]: the occurrences are taken
    from the left and do not overlap.  [skip] counts the characters of an
    occurrence that are still to be passed over. *)
Fixpoint replace_from (old new : string) (skip : nat) (s : string) : string :=
  match s with
  | EmptyString => EmptyString
  | String c r =>
      match skip with
      | S k => replace_from old new k r
      | O =>
          if Py.startswith s old
          then new +:+ replace_from old new (String.length old - 1) r
          else String c (replace_from old new 0 r)
      end
  end.

Definition replace (s old new : string) : string := replace_from old new 0 s.

(** Every character of [s] passes the test [p]. *)
Fixpoint all_chars (p : ascii → bool) (s : string) : bool :=
  match s with
  | EmptyString => true
  | String c r => p c && all_chars p r
  end.

(** [s.isascii()] *)
Definition isascii (s : string) : bool :=
  all_chars (λ c, (N_of_ascii c <? 128)%N) s.

(** ["0" <= c <= "9"] *)
Definition isdigit_char (c : ascii) : bool :=
  let n := N_of_ascii c in ((48 <=? n) && (n <=? 57))%N.

(** [s.isdigit()]: not empty, and digits only. *)
Definition isdigit (s : string) : bool :=
  negb (String.eqb s "") && all_chars isdigit_char s.

(** [cs = "".join(ch for ch in s if p(ch))] *)
Fixpoint filter_chars (p : ascii → bool) (s : string) : string :=
  match s with
  | EmptyString => EmptyString
  | String c r => if p c then String c (filter_chars p r) else filter_chars p r
  end.

End Str.

Module Utils.

(** The character class [[A-Za-z0-9_.-]] of [uid_to_path_segment]. *)
Definition segment_char (c : ascii) : bool :=
  let n := N_of_ascii c in
  ((65 <=? n) && (n <=? 90) || (97 <=? n) && (n <=? 122)
   || (48 <=? n) && (n <=? 57)
   || (n =? 95) || (n =? 46) || (n =? 45))%N.

(** [re.sub(r"[^A-Za-z0-9_.-]", "_", s)] *)
Definition sub_unsafe (s : string) : string :=
  Py.map_chars (λ c, if segment_char c then c else "_"%char) s.

(** [uid_to_path_segment] *)
Definition uid_to_path_segment (uid : string) : string :=
  let cleaned := Py.strip uid in
  let cleaned := Str.replace cleaned "uid://" "uid___" in
  let cleaned := Str.replace cleaned "://" "___" in
  let cleaned := Str.replace cleaned "/" "_" in
  let cleaned := Str.replace cleaned ":" "_" in
  let cleaned := sub_unsafe cleaned in
  if negb (Py.startswith cleaned "uid___") then "uid___" +:+ cleaned
  else cleaned.

(** [chunked]: the chunks that the generator yields, [fuel] bounding the
    iterations of [for i in range(0, len(values), size)]. *)
Fixpoint chunked_from {A} (values : list A) (size : nat) (fuel : nat) (i : nat)
  : list (list A) :=
  match fuel with
  | O => []
  | S fuel' =>
      if bool_decide (i < length values)%nat
      then take size (drop i values)
             :: chunked_from values size fuel' (i + size)
      else []
  end.

(** [list(chunked(values, size))]: [range] raises [ValueError] for a step
    of zero and is empty for a negative one. *)
Definition chunked {A} (values : list A) (size : Z) : option (list (list A)) :=
  if size =? 0 then None
  else if size <? 0 then Some []
  else Some (chunked_from values (Z.to_nat size) (length values) 0).

(** [parse_band_token] *)
Definition parse_band_token (value : string) : string :=
  let value := Py.upper (Py.strip value) in
  if Py.startswith value "BAND" then value
  else if Py.startswith value "B" && Str.isdigit (Py.drop 1 value)
  then "BAND " +:+ Py.drop 1 value
  else if Str.isdigit value then "BAND " +:+ value
  else value.

(** [_band_number] ([archive_query.py]) *)
Definition _band_number (token : string) : string :=
  Str.filter_chars Str.isdigit_char (parse_band_token token).

(** [datalink_id_from_member_ous_uid] ([downloader.py]); [None] is the
    argument [None], which [member_ous_uid or ""] reads as the empty text. *)
Definition datalink_id_from_member_ous_uid (member_ous_uid : option string)
  : string :=
  let value := Py.strip (default "" member_ous_uid) in
  if Py.startswith value "uid___" then value
  else if Py.startswith value "uid://" then uid_to_path_segment value
  else value.

(** [_project_segment] ([layout.py]) *)
Definition _project_segment (project_code : option string) : string :=
  let or_unknown (s : string) :=
    if String.eqb s "" then "unknown_project" else s in
  let project := Py.strip (or_unknown (default "" project_code)) in
  Str.replace (or_unknown project) "/" "_".

End Utils.

(** ** Classification of listed artifacts ([downloader.py]) *)

Module Classify.

(** [_classify_artifact]; [semantics] is a text or [None]. *)
Definition _classify_artifact (kind_hint : string) (semantics : option string)
    (filename : string) : string :=
  let name := Py.lower filename in
  let semantics_l := Py.lower (default "" semantics) in
  let hint := Py.lower kind_hint in
  let in_name (x : string) := Py.contains name x in
  let in_sem (x : string) := Py.contains semantics_l x in
  if in_name "readme" || in_sem "readme" || in_sem "documentation"
  then "readme"
  else if in_name "weblog" || in_sem "weblog" then "weblog"
  else if in_name "qa0_report" || in_name "qa2_report" || in_name "qa/"
          || in_sem "/qa/" || in_sem "#qa" || in_sem "qa2"
          || in_name "aquareport"
  then "qa_reports"
  else if in_name "auxiliary" || in_sem "#auxiliary" || in_sem "auxiliary"
          || in_name "auxproducts"
  then "auxiliary"
  else if in_name "scriptforpi" || in_sem "script" then "scripts"
  else if in_name "calibration" || Py.endswith name ".cal"
          || in_sem "calibration"
  then "calibration"
  else if in_name "calimage" || in_sem "calimage" then "calibration_products"
  else if in_name "cube" then "cubes"
  else if in_name "cont" then "continuum_images"
  else if in_name "admit" then "admit"
  else if in_name "image" then "continuum_images"
  else if in_name "asdm" || in_name "raw" then "raw"
  else if negb (String.eqb hint "") then _normalize_kind hint
  else "other".

(** The kinds that [_classify_artifact] names by itself. *)
Definition CLASSIFIED_KINDS : list string :=
  [ "readme"; "weblog"; "qa_reports"; "auxiliary"; "scripts"; "calibration";
    "calibration_products"; "cubes"; "continuum_images"; "admit"; "raw";
    "other" ].

End Classify.

(** ** QA status normalisation of the summariser ([summarize.py]) *)

Module Summarize.

Definition CANONICAL_QA : list string := ["PASS"; "SEMIPASS"; "FAIL"; "UNKNOWN"].

(** [_normalize_qa2_status] *)
Definition _normalize_qa2_status (raw_status raw_bool : pyval) : string :=
  let from_bool :=
    match raw_bool with
    | PBool b => if b then "PASS" else "FAIL"
    | PStr s =>
        let low := Py.lower (Py.strip s) in
        if decide (low ∈ ["true"; "t"; "1"]) then "PASS"
        else if decide (low ∈ ["false"; "f"; "0"]) then "FAIL"
        else "UNKNOWN"
    | _ => "UNKNOWN"
    end in
  match raw_status with
  | PStr value =>
      let text := Py.upper (Py.strip value) in
      if decide (text ∈ ["PASS"; "SEMIPASS"; "FAIL"; "UNKNOWN"]) then text
      else if decide (text ∈ ["TRUE"; "T"; "1"]) then "PASS"
      else if decide (text ∈ ["FALSE"; "F"; "0"]) then "FAIL"
      else from_bool
  | _ => from_bool
  end.

(** [_normalize_qa0_status] *)
Definition _normalize_qa0_status (raw_status : pyval) : string :=
  match raw_status with
  | PNone => "UNKNOWN"
  | PBool b => if b then "PASS" else "FAIL"
  | _ =>
      let text := Py.upper (Py.strip (py_str raw_status)) in
      if decide (text ∈ ["PASS"; "SEMIPASS"; "FAIL"; "UNKNOWN"]) then text
      else if decide (text ∈ ["TRUE"; "T"; "1"]) then "PASS"
      else if decide (text ∈ ["FALSE"; "F"; "0"]) then "FAIL"
      else "UNKNOWN"
  end.

End Summarize.

(** ** Members that only go down *)

Module Plain.

Import Fs.

(** A path component that names something below where one stands: not a
    root and not [..]. *)
Definition plain_part (c : string) : bool :=
  negb (is_root_part c) && negb (String.eqb c "..").

(** A member whose name is relative and has no [..] in it. *)
Definition plain_member (m : member) : bool :=
  forallb plain_part (_member_parts (m_name m)).

End Plain.

(** ** The bookkeeping of the recursive unpack *)

Module Accounts.

Import Fs Unpack.

(** What holds of the set [processed] and of the summary between two
    passes. *)
Definition accounted (root : path) (patterns : list string)
    (pass_idx : nat) (processed : list path) (summary : recursive_summary)
  : Prop :=
  (∀ p, p ∈ processed →
        below root p = true ∧ _is_archive p = true
        ∧ _matches_any_pattern p patterns = true)
  ∧ pass <$> passes summary = seq 1 pass_idx
  ∧ unpacked_count summary
    = sum_list_with (λ pi, length (archives pi)) (passes summary)
  ∧ error_count summary
    = sum_list_with (λ pi, length (errors pi)) (passes summary)
  ∧ (length processed ≤ unpacked_count summary + error_count summary)%nat
  ∧ (unpacked_count summary + error_count summary ≤ 2 * length processed)%nat.

End Accounts.

(** ** Concrete inputs used by the examples below *)

Module Ex.

Definition uid : string := "uid://A001/X2d20/X3ca2".

Definition no_derived (_ : Index.summary) (_ : manifest)
  : option Index.derived_cols :=
  Some (Index.Derived "[]" "[]" "[]" 0 0 0 0).

Definition no_ebs (_ : Index.summary) (_ : manifest) : list string := [].

Definition row (shard : string) (now : string) : Index.mous_row :=
  {| Index.project_code := PStr "2022.1.00055.S";
     Index.release_date := PNone;
     Index.obs_date := PNone;
     Index.derived := Index.Derived "[]" "[]" "[]" 0 0 0 0;
     Index.qa2_status := Some "PASS";
     Index.qa0_status := None;
     Index.local_dir := "/data/" +:+ shard;
     Index.manifest_path := PNone;
     Index.summary_path := PNone;
     Index.discovered := 1;
     Index.downloaded := 1;
     Index.unpacked := 0;
     Index.summarized := 1;
     Index.indexed := 1;
     Index.last_error_stage := None;
     Index.last_error_message := PNone;
     Index.shard_id := Some shard;
     Index.last_seen := now;
     Index.last_updated := now |}.

Definition art (now : string) : Index.art_row :=
  {| Index.a_kind := PStr "auxiliary";
     Index.a_status := PStr "present";
     Index.a_local_path := PNone;
     Index.a_source_url := PNone;
     Index.a_size_bytes := PInt 10;
     Index.a_checksum := PNone;
     Index.a_updated_at := now |}.

(** Two shard stores that both carry the unit [uid], with different
    execution blocks and different artifact files. *)
Definition shard_a : Index.store :=
  Index.Store {[ uid := row "s1" "t1" ]}
              {[ (uid, "uid://A002/Xa/X1") ]}
              {[ (uid, "old.auxproducts.tgz") := art "t1" ]} [].

Definition shard_b : Index.store :=
  Index.Store {[ uid := row "s2" "t2" ]}
              {[ (uid, "uid://A002/Xb/X2") ]}
              {[ (uid, "new.auxproducts.tgz") := art "t2" ]} [].

Definition merged_ab : Index.store :=
  (Index.merge_index_from_shards no_derived no_ebs Index.empty_store
     "alma_index.sqlite"
     [("alma_index.s1.sqlite", Index.Database shard_a);
      ("alma_index.s2.sqlite", Index.Database shard_b)] []).1.

(** A unit directory with one archive in it. *)
Definition delivered : Fs.path := ["data"; "member.uid___X"; "delivered"].

Definition tree (archive : string) (members : list Fs.member) : Fs.fs :=
  {[ ["data"] := Fs.Dir;
     ["data"; "member.uid___X"] := Fs.Dir;
     delivered := Fs.Dir;
     delivered ++ [archive] := Fs.File (Fs.TarBall members) 420 ]}.

Definition unit_manifest (archive : string) : manifest :=
  Manifest
    {[ "mous_uid" := PStr "uid://A001/X2d20/X3ca2";
       "project_code" := PStr "2022.1.00055.S";
       "science_goal_uid" := PNone ]}
    [ Entry {[ "kind" := PStr "auxiliary";
               "filename" := PStr archive;
               "local_path" := PStr ("/data/member.uid___X/delivered/" +:+ archive);
               "status" := PStr "present" ]} [] ]
    [] ∅.

(** An archive whose second member climbs out of the target directory. *)
Definition traversal_members : list Fs.member :=
  [ Fs.Member "qa/report.xml" Fs.MFile 420 (Fs.Bytes "<Root/>");
    Fs.Member "../../etc/passwd" Fs.MFile 420 (Fs.Bytes "root::0:0") ].

(** The archive of [test_unpack_strips_redundant_asa_prefix_and_backfills_science_goal]:
    a project code, then the three-level layout. *)
Definition asa4_members : list Fs.member :=
  [ Fs.Member
      ("2022.1.00055.S/science_goal.uid___A001_X2d20_X3ca0/"
       +:+ "group.uid___A001_X2d20_X3ca1/member.uid___A001_X2d20_X3ca2/"
       +:+ "calibration/file.txt")
      Fs.MFile 420 (Fs.Bytes "ok") ].

(** The same file in an archive without the project-code directory. *)
Definition asa3_members : list Fs.member :=
  [ Fs.Member
      ("science_goal.uid___A001_X2d20_X3ca0/"
       +:+ "group.uid___A001_X2d20_X3ca1/member.uid___A001_X2d20_X3ca2/"
       +:+ "calibration/file.txt")
      Fs.MFile 420 (Fs.Bytes "ok") ].

(** The directories of the unit alone. *)
Definition bare_tree : Fs.fs :=
  {[ ["data"] := Fs.Dir;
     ["data"; "member.uid___X"] := Fs.Dir;
     delivered := Fs.Dir ]}.

(** One archive layer holding a report. *)
Definition one_layer : Fs.fs :=
  tree "x.auxproducts.tgz"
       [ Fs.Member "qa/a.xml" Fs.MFile 420 (Fs.Bytes "<Root/>") ].

Definition job0 : Unpack.job := Unpack.Job 0 "120:1700000000" "2024-01-01T00:00:00Z".

(** A listed archive without and with a size, and a disk that holds a
    file of that name. *)
Definition aux_art (size : option Z) : Download.ArtifactInfo :=
  Download.Artifact "auxiliary"
    "https://almascience.example/dl/member.auxproducts.tgz"
    "member.auxproducts.tgz" PNone size PNone PNone.

Definition disk_with (size : Z) : Download.disk :=
  {[ "/data/delivered/member.auxproducts.tgz" := size ]}.

(** The manifest an earlier run left: the archive is recorded as present. *)
Definition old_manifest : manifest :=
  Manifest
    {[ "mous_uid" := PStr "uid://A001/X2d20/X3ca2";
       "updated_at" := PStr "2024-01-01T00:00:05Z" ]}
    [ Entry {[ "kind" := PStr "auxiliary";
               "filename" := PStr "member.auxproducts.tgz";
               "local_path" := PStr "/data/delivered/member.auxproducts.tgz";
               "size_bytes" := PInt 10;
               "status" := PStr "present";
               "updated_at" := PStr "2024-01-01T00:00:00Z" ]} [] ]
    [] ∅.

Definition later (_ _ : nat) : string := "2024-06-01T00:00:00Z".

Definition unreachable (_ : string) (_ _ : Z) : Download.response :=
  Download.ConnectionFailed "connection refused".

(** The record of the unit, and a Linux host with its messages. *)
Definition unit_record : Download.MousRecord :=
  {| Download.project_code := "2022.1.00055.S";
     Download.member_ous_uid := "uid://A001/X2d20/X3ca2";
     Download.group_ous_uid := PStr "uid://A001/X2d20/X3ca1";
     Download.science_goal_uid := PNone;
     Download.eb_uids := PObj true "['uid://A002/Xa/X1']";
     Download.band_list := PObj true "['6']";
     Download.release_date := PStr "2024-01-01";
     Download.obs_date := PNone;
     Download.qa2_passed := PBool true;
     Download.qa0_status := PNone;
     Download.qa0_reasons := PObj false "[]";
     Download.qa2_reasons := PObj false "[]" |}.

Definition linux : Download.os :=
  Download.Os 4096
    (λ call,
       match call with
       | Download.OpenForWriting p =>
           "[Errno 21] Is a directory: '" +:+ p +:+ "'"
       | Download.Replace src dst =>
           "[Errno 21] Is a directory: '" +:+ src +:+ "' -> '" +:+ dst +:+ "'"
       end).

(** The delivered directory, empty and with the archive in it. *)
Definition delivered_tree : Download.tree :=
  Download.Tree {[ "/data" := 4096; "/data/delivered" := 4096 ]}
                {[ "/data"; "/data/delivered" ]}.

Definition tree_with (size : Z) : Download.tree :=
  Download.Tree
    (<["/data/delivered/member.auxproducts.tgz" := size]>
       (Download.t_stat delivered_tree))
    (Download.t_dirs delivered_tree).

Definition read_clock (_ : nat) : string := "2024-06-01T00:00:00Z".

Definition rerun : Download.run :=
  Download.download_for_record linux unit_record (Some old_manifest)
    (tree_with 10) "/data/delivered" "default" [aux_art (Some 10)] 3 false
    false unreachable [] (λ _, "") read_clock later later
    "2024-06-01T00:00:01Z" "2024-06-01T00:00:02Z".

(** A transfer that the server refuses three times. *)
Definition refused
  : Download.tree * list Download.step * option Download.outcome :=
  Download._download_one linux (unreachable "") (aux_art (Some 10))
    "/data/delivered/member.auxproducts.tgz" 3 false delivered_tree.

End Ex.

(** ** More concrete inputs *)

Module Ex2.

(** An image cube next to the auxiliary archive of [Ex.aux_art]. *)
Definition cube_art : Download.ArtifactInfo :=
  Download.Artifact "cubes"
    "https://almascience.example/dl/member.cube.fits"
    "member.cube.fits" PNone (Some 5) PNone PNone.

(** A server that would deliver the cube and refuses everything else. *)
Definition cube_only (url : string) (_ _ : Z) : Download.response :=
  if String.eqb url "https://almascience.example/dl/member.cube.fits"
  then Download.Response 200 "" 5 None
  else Download.ConnectionFailed "connection refused".

(** The unit asked for its default kinds and its cubes, with nothing in
    the delivered directory: the archive is refused, the cube is delivered
    and finishes first. *)
Definition run_both : Download.run :=
  Download.download_for_record Ex.linux Ex.unit_record (Some Ex.old_manifest)
    Ex.delivered_tree "/data/delivered" "default,cubes"
    [Ex.aux_art (Some 10); cube_art] 3 false false cube_only
    [1%nat; 0%nat] (λ _, "") Ex.read_clock Ex.later Ex.later
    "2024-06-01T00:00:01Z" "2024-06-01T00:00:02Z".

(** A disk with nothing on it. *)
Definition bare : Download.tree := Download.Tree ∅ ∅.

End Ex2.
(** ** Facts about the string primitives *)

Section string_facts.

Lemma str_app_nil (s : string) : "" +:+ s = s.
Proof. reflexivity. Qed.

Lemma str_app_cons (c : ascii) (r s : string) :
  String c r +:+ s = String c (r +:+ s).
Proof. reflexivity. Qed.

Lemma length_lstrip (s : string) :
  (String.length (Py.lstrip s) ≤ String.length s)%nat.
Proof.
  induction s as [|c r IH]; simpl; [lia|].
  destruct (Py.isspace c); simpl; lia.
Qed.

Lemma length_rstrip (s : string) :
  (String.length (Py.rstrip s) ≤ String.length s)%nat.
Proof.
  induction s as [|c r IH]; simpl; [lia|].
  destruct (Py.rstrip r) eqn:E; simpl in *.
  - destruct (Py.isspace c); simpl; lia.
  - lia.
Qed.

(** A string that [strip] leaves alone has no blank at either end. *)
Lemma strip_fixed_lstrip (s : string) : Py.strip s = s → Py.lstrip s = s.
Proof.
  unfold Py.strip. destruct s as [|c r]; [done|]. simpl.
  destruct (Py.isspace c) eqn:E; [|done].
  intros H. apply (f_equal String.length) in H. simpl in H.
  pose proof (length_rstrip (Py.lstrip r)).
  pose proof (length_lstrip r). lia.
Qed.

Lemma strip_fixed_rstrip (s : string) : Py.strip s = s → Py.rstrip s = s.
Proof.
  intros H. pose proof (strip_fixed_lstrip s H) as HL.
  unfold Py.strip in H. by rewrite HL in H.
Qed.

Lemma rstrip_app (a b : string) :
  Py.rstrip b ≠ "" → Py.rstrip (a +:+ b) = a +:+ Py.rstrip b.
Proof.
  intros Hb. induction a as [|c r IH]; [done|].
  rewrite !str_app_cons. simpl. rewrite IH.
  destruct (r +:+ Py.rstrip b) eqn:E; [|done].
  destruct r; [|done]. by rewrite str_app_nil in E.
Qed.

Lemma split_no_sep (sep : ascii) (s : string) :
  Py.mem_char sep s = false → Py.split sep s = [s].
Proof.
  induction s as [|c r IH]; simpl; [done|].
  rewrite (Ascii.eqb_sym sep c).
  destruct (Ascii.eqb c sep); [done|]. intros H. by rewrite IH.
Qed.

Lemma split_app_sep (sep : ascii) (p rest : string) :
  Py.mem_char sep p = false →
  Py.split sep (p +:+ String sep rest) = p :: Py.split sep rest.
Proof.
  induction p as [|c r IH]; simpl.
  - intros _. rewrite ?str_app_nil. simpl. by rewrite Ascii.eqb_refl.
  - rewrite (Ascii.eqb_sym sep c). rewrite ?str_app_cons. simpl.
    destruct (Ascii.eqb c sep); [done|]. intros H. by rewrite IH.
Qed.

End string_facts.

Section selection_facts.

Lemma clean_token_spec (t : string) :
  clean_token t = true →
  Py.mem_char "," t = false ∧ Py.strip t = t ∧ t ≠ "".
Proof.
  unfold clean_token. rewrite !andb_true_iff, negb_true_iff.
  intros [[? ?%bool_decide_eq_true] ?%bool_decide_eq_true]. done.
Qed.

Lemma join_cons2 (sep p q : string) (ps : list string) :
  Py.join sep (p :: q :: ps) = p +:+ sep +:+ Py.join sep (q :: ps).
Proof. reflexivity. Qed.

Lemma join_clean_nonempty (ts : list string) :
  ts ≠ [] → Forall (λ t, clean_token t = true) ts → Py.join "," ts ≠ "".
Proof.
  destruct ts as [|t ts]; [done|]. intros _ H.
  apply Forall_cons in H as [Ht _].
  apply clean_token_spec in Ht as (_ & _ & Hne).
  destruct ts; simpl; [done|].
  destruct t; [done|]. by rewrite str_app_cons.
Qed.

Lemma split_join_clean (ts : list string) :
  ts ≠ [] → Forall (λ t, clean_token t = true) ts →
  Py.split "," (Py.join "," ts) = ts.
Proof.
  induction ts as [|t ts IH]; [done|]. intros _ H.
  apply Forall_cons in H as [Ht Hts].
  apply clean_token_spec in Ht as (Hc & _ & _).
  destruct ts as [|q ps].
  - simpl. by apply split_no_sep.
  - rewrite join_cons2.
    replace ("," +:+ Py.join "," (q :: ps))
      with (String "," (Py.join "," (q :: ps))) by done.
    rewrite split_app_sep by done. f_equal. by apply IH.
Qed.

Lemma lstrip_join_clean (ts : list string) :
  Forall (λ t, clean_token t = true) ts →
  Py.lstrip (Py.join "," ts) = Py.join "," ts.
Proof.
  destruct ts as [|t ts]; [done|]. intros H.
  apply Forall_cons in H as [Ht _].
  apply clean_token_spec in Ht as (_ & Hs & Hne).
  apply strip_fixed_lstrip in Hs.
  destruct ts as [|q ps]; [done|]. rewrite join_cons2.
  destruct t as [|c r]; [done|]. rewrite str_app_cons.
  simpl in *. destruct (Py.isspace c); [|done].
  pose proof (length_lstrip r) as HL. rewrite Hs in HL. simpl in HL. lia.
Qed.

Lemma rstrip_join_clean (ts : list string) :
  Forall (λ t, clean_token t = true) ts →
  Py.rstrip (Py.join "," ts) = Py.join "," ts.
Proof.
  induction ts as [|t ts IH]; [done|]. intros H.
  apply Forall_cons in H as [Ht Hts].
  destruct ts as [|q ps].
  - apply clean_token_spec in Ht as (_ & Hs & _).
    by apply strip_fixed_rstrip.
  - rewrite join_cons2.
    assert (Py.rstrip ("," +:+ Py.join "," (q :: ps))
            = "," +:+ Py.join "," (q :: ps)) as E.
    { rewrite rstrip_app; rewrite IH by done; [done|].
      by apply join_clean_nonempty. }
    rewrite rstrip_app; rewrite E; done.
Qed.

Lemma spec_tokens_join_clean (ts : list string) :
  ts ≠ [] → Forall (λ t, clean_token t = true) ts →
  spec_tokens (Py.join "," ts) = ts.
Proof.
  intros Hne H. unfold spec_tokens. rewrite split_join_clean by done.
  clear Hne. induction H as [|t ts Ht _ IH]; [done|].
  apply clean_token_spec in Ht as (_ & Hs & Hn).
  cbn [omap list_omap] in *. rewrite Hs.
  rewrite decide_False by done. by rewrite IH.
Qed.

(** The whole function on a comma-joined list of clean tokens is the left
    fold of [select_token], with the fall-back on an empty outcome. *)
Lemma resolve_join_clean (ts : list string) :
  ts ≠ [] → Forall (λ t, clean_token t = true) ts →
  resolve_artifact_selection (Py.join "," ts)
  = let selected := foldl select_token ∅ ts in
    if decide (selected = ∅) then DEFAULT_ARTIFACT_KINDS else selected.
Proof.
  intros Hne H. unfold resolve_artifact_selection.
  pose proof (join_clean_nonempty ts Hne H) as Hj.
  assert (or_default (Py.join "," ts) = Py.join "," ts) as ->.
  { unfold or_default. by rewrite decide_False. }
  assert (Py.strip (Py.join "," ts) = Py.join "," ts) as ->.
  { unfold Py.strip. by rewrite lstrip_join_clean, rstrip_join_clean. }
  assert (or_default (Py.join "," ts) = Py.join "," ts) as ->.
  { unfold or_default. by rewrite decide_False. }
  by rewrite spec_tokens_join_clean.
Qed.

Lemma select_token_plus (sel : gset string) (x : string) :
  select_token sel (String "+" x)
  = sel ∪ {[ _normalize_kind (Py.lstrip_chars "+-" x) ]}.
Proof.
  unfold select_token. rewrite !decide_False by discriminate.
  change (Py.startswith (String "+" x) "+") with true.
  by change (Py.lstrip_chars "+-" (String "+" x))
    with (Py.lstrip_chars "+-" x).
Qed.

Lemma select_token_minus (sel : gset string) (x : string) :
  select_token sel (String "-" x)
  = sel ∖ {[ _normalize_kind (Py.lstrip_chars "+-" x) ]}.
Proof.
  unfold select_token. rewrite !decide_False by discriminate.
  change (Py.startswith (String "-" x) "+") with false.
  change (Py.startswith (String "-" x) "-") with true.
  by change (Py.lstrip_chars "+-" (String "-" x))
    with (Py.lstrip_chars "+-" x).
Qed.

End selection_facts.

Example resolve_default_raw_weblog :
  resolve_artifact_selection "default,+raw,-weblog"
  = {[ "calibration"; "scripts"; "qa_reports"; "auxiliary"; "readme";
       "calibration_products"; "raw" ]}.
Proof. apply (bool_decide_unpack _). vm_compute. exact I. Qed.

Example qa_text_examples :
  _qa_status_text (PStr " t ") = Some "PASS" ∧
  _qa_status_text (PInt 0) = Some "FAIL" ∧
  _qa_status_text (PStr "maybe") = Some "MAYBE".
Proof. vm_compute. auto. Qed.


(** Closes a decidable goal by evaluation. *)
Ltac by_decide := apply (bool_decide_unpack _); vm_compute; exact I.

(** ** Kind selection: the contract of [resolve_artifact_selection] *)

(** C6. The token [default] expands to the canonical default kind set, which
    holds no image-product kind; [all-nonimage] expands to a set with
    [auxiliary], [readme] and [calibration] and without [continuum_images]
    and [cubes]; after a base token, the following tokens are applied one by
    one from left to right, a [+x] token adding and a [-x] token removing the
    normalised kind; and a specification whose tokens leave the selection
    empty yields the default set. *)
Theorem kind_selection_contract (base : string) (ts : list string)
    (Hbase : base = "default" ∨ base = "all-nonimage")
    (Hts : Forall (λ t, clean_token t = true) ts) :
  ((resolve_artifact_selection "default" = DEFAULT_ARTIFACT_KINDS)
   ∧ ("continuum_images" ∉ DEFAULT_ARTIFACT_KINDS)
   ∧ ("cubes" ∉ DEFAULT_ARTIFACT_KINDS))
  ∧ ((resolve_artifact_selection "all-nonimage" = ALL_NONIMAGE_KINDS)
     ∧ ("auxiliary" ∈ ALL_NONIMAGE_KINDS)
     ∧ ("readme" ∈ ALL_NONIMAGE_KINDS)
     ∧ ("calibration" ∈ ALL_NONIMAGE_KINDS)
     ∧ ("continuum_images" ∉ ALL_NONIMAGE_KINDS)
     ∧ ("cubes" ∉ ALL_NONIMAGE_KINDS))
  ∧ (resolve_artifact_selection (Py.join "," (base :: ts))
     = let selected := foldl select_token (resolve_artifact_selection base) ts in
       if decide (selected = ∅) then DEFAULT_ARTIFACT_KINDS else selected)
  ∧ (∀ (sel : gset string) (x : string),
       (select_token sel (String "+" x)
        = sel ∪ {[ _normalize_kind (Py.lstrip_chars "+-" x) ]})
       ∧ (select_token sel (String "-" x)
          = sel ∖ {[ _normalize_kind (Py.lstrip_chars "+-" x) ]}))
  ∧ (∀ spec : string,
       foldl select_token ∅
         (spec_tokens (or_default (Py.strip (or_default spec)))) = ∅ →
       resolve_artifact_selection spec = DEFAULT_ARTIFACT_KINDS).
Proof.
  assert (resolve_artifact_selection "default" = DEFAULT_ARTIFACT_KINDS) as Hd
    by by_decide.
  assert (resolve_artifact_selection "all-nonimage" = ALL_NONIMAGE_KINDS) as Ha
    by by_decide.
  split; [|split; [|split; [|split]]].
  - split; [exact Hd|]. split; by_decide.
  - split; [exact Ha|]. repeat (split; [by_decide|]). by_decide.
  - rewrite resolve_join_clean.
    + cbn [foldl]. cbv zeta.
      replace (select_token ∅ base) with (resolve_artifact_selection base);
        [done|].
      destruct Hbase as [-> | ->]; [rewrite Hd | rewrite Ha]; by_decide.
    + done.
    + apply Forall_cons. split; [|done].
      destruct Hbase as [-> | ->]; vm_compute; reflexivity.
  - intros sel x. split; [apply select_token_plus | apply select_token_minus].
  - intros spec H. unfold resolve_artifact_selection. cbv zeta.
    rewrite H. by rewrite decide_True.
Qed.

Lemma kind_selection_contract_witness :
  resolve_artifact_selection (Py.join "," ["default"; "+raw"; "-weblog"])
  = {[ "calibration"; "scripts"; "qa_reports"; "auxiliary"; "readme";
       "calibration_products"; "raw" ]}.
Proof.
  destruct (kind_selection_contract "default" ["+raw"; "-weblog"])
    as (_ & _ & H & _).
  - by left.
  - repeat constructor.
  - rewrite H. by_decide.
Defined.

(** ** QA normalisation is total and open-ended *)

(** C10. [_qa_status_text] returns on every input.  [None], the empty string
    and whitespace-only text give no status; a value that is not a boolean
    and whose stripped, uppercased text is neither empty nor one of the
    truthy or falsy tokens is kept as that text, so the result need not be
    one of PASS, SEMIPASS, FAIL, UNKNOWN. *)
Theorem qa_status_text_open (v : pyval) :
  _qa_status_text PNone = None
  ∧ (∀ s, Py.strip s = "" → _qa_status_text (PStr s) = None)
  ∧ (v ≠ PNone → (∀ b, v ≠ PBool b) →
     Py.upper (Py.strip (py_str v)) ≠ "" →
     Py.upper (Py.strip (py_str v)) ∉ ["TRUE"; "T"; "1"; "FALSE"; "F"; "0"] →
     _qa_status_text v = Some (Py.upper (Py.strip (py_str v))))
  ∧ (∃ (w : pyval) (t : string),
       (_qa_status_text w = Some t)
       ∧ (t ∉ ["PASS"; "SEMIPASS"; "FAIL"; "UNKNOWN"])).
Proof.
  split; [|split; [|split]].
  - done.
  - intros s Hs. unfold _qa_status_text. simpl. by rewrite Hs.
  - intros Hn Hb Hne Hnot.
    assert (_qa_status_text v
            = let text := Py.upper (Py.strip (py_str v)) in
              if decide (text = "") then None
              else if decide (text ∈ ["TRUE"; "T"; "1"]) then Some "PASS"
              else if decide (text ∈ ["FALSE"; "F"; "0"]) then Some "FAIL"
              else if decide (text ∈ ["PASS"; "SEMIPASS"; "FAIL"; "UNKNOWN"])
                   then Some text
              else Some text) as ->.
    { destruct v; try done. by destruct (Hb b). }
    cbv zeta. rewrite decide_False by done.
    rewrite decide_False
      by (intros H; apply Hnot; revert H; rewrite !elem_of_cons; tauto).
    rewrite decide_False
      by (intros H; apply Hnot; revert H; rewrite !elem_of_cons; tauto).
    by destruct (decide _).
  - exists (PStr "maybe"), "MAYBE". split; [by vm_compute|]. by_decide.
Qed.

Lemma qa_status_text_open_witness :
  _qa_status_text (PStr " maybe ") = Some "MAYBE".
Proof.
  destruct (qa_status_text_open (PStr " maybe ")) as (_ & _ & H & _).
  apply H.
  - discriminate.
  - intros b; discriminate.
  - vm_compute; discriminate.
  - by_decide.
Defined.

(** ** Upsert into the shard index *)

Section upsert_facts.

Import Index.

Variable derived_columns : summary → manifest → option derived_cols.
Variable _summary_eb_uids : summary → manifest → list string.

(** The artifact statements leave tables [mous] and [eb] alone, and raise
    nothing on entries that bind. *)
Lemma upsert_artifacts_ready (uid now : string) (arts : list entry) (st : store) :
  forallb entry_ready arts = true →
  ∃ a n, foldl (upsert_artifact uid now) (st, None) arts
         = (Store (mous st) (eb st) a n, None).
Proof.
  revert st. induction arts as [|art arts IH]; intros st H.
  - exists (artifact st), (artifact_null st). by destruct st.
  - simpl in H. apply andb_true_iff in H as [Hart Harts].
    unfold entry_ready in Hart. apply andb_true_iff in Hart as [Hb Hk].
    cbn [foldl]. unfold upsert_artifact at 2.
    replace (art_row_bindable (art_row_of art now)) with true
      by (rewrite <- Hb; reflexivity).
    cbn [negb].
    destruct (sql_text_key (e_get art "filename")); [| |done].
    + destruct (IH (Store (mous st) (eb st) (artifact st)
                      (artifact_null st ++ [(uid, art_row_of art now)]))
                   Harts) as (a & n & ->).
      by exists a, n.
    + destruct (IH (Store (mous st) (eb st)
                      (<[(uid, s) := art_row_of art now]> (artifact st))
                      (artifact_null st)) Harts) as (a & n & ->).
      by exists a, n.
Qed.

(** On ready inputs the upsert raises nothing and leaves, under the unit's
    id, a row whose [qa2_status] is the one the precedence chain yields;
    every other [mous] row is as before. *)
Lemma upsert_ready_row (st : store) (s : summary) (m : manifest)
    (dir : string) (shard : option string) (stage : option string)
    (message : pyval) (now : string) :
  upsert_ready derived_columns s m stage message = true →
  ∃ uid row st',
    sql_text_key (first_of s m "mous_uid" "mous_uid") = KText uid
    ∧ upsert_mous_from_summary derived_columns _summary_eb_uids
      st s m dir shard stage message now = (st', None)
    ∧ mous st' = <[uid := row]> (mous st)
    ∧ qa2_status row = upsert_qa2_status s m.
Proof.
  unfold upsert_ready. rewrite !andb_true_iff.
  intros [[[[[[[[[Hu Hk] Hd] H1] H2] H3] H4] H5] H6] Harts].
  unfold upsert_mous_from_summary. rewrite Hu. cbn [negb].
  destruct (derived_columns s m) as [d|]; [|done].
  destruct (upsert_last_error m stage message) as [stg msg] eqn:Hle.
  simpl in H6. cbn [project_code release_date obs_date manifest_path
                    summary_path].
  rewrite H1, H2, H3, H4, H5, H6. cbn [andb negb].
  destruct (sql_text_key (first_of s m "mous_uid" "mous_uid")) as [|uid|];
    try done.
  match goal with
  | |- context [foldl _ (?st2, None) _] =>
      destruct (upsert_artifacts_ready uid now (m_artifacts m) st2 Harts)
        as (a & n & ->)
  end.
  eexists uid, _, _. split; [done|]. split; [done|]. split; done.
Qed.

(** A judgment given as [true], ["T"] or ["PASS"] is read as PASS from
    whichever place gives it. *)
Lemma qa2_given_pass (s : summary) (m : manifest) (v : pyval) :
  v ∈ [PBool true; PStr "T"; PStr "PASS"] →
  qa2_given s m v → upsert_qa2_status s m = Some "PASS".
Proof.
  intros Hv Hg.
  assert (_qa_status_text v = Some "PASS" ∧ py_truthy v = true) as [Hq Ht].
  { rewrite !elem_of_cons in Hv.
    destruct Hv as [-> | [-> | [-> | Hv]]]; [done..|].
    by apply elem_of_nil in Hv. }
  unfold upsert_qa2_status. destruct Hg as [E _ | Ef E | En E | En Em E].
  - unfold py_or. rewrite E, Ht. by rewrite Hq.
  - unfold py_or. rewrite Ef, E. by rewrite Hq.
  - rewrite En, E. by rewrite Hq.
  - rewrite En, Em, E. by rewrite Hq.
Qed.

(** The summary comes first: once it yields a status, no key of the
    manifest is looked at. *)
Lemma upsert_qa2_status_summary_first (s : summary) (m : manifest) (x : string) :
  _qa_status_text (py_or (py_get (sm_top s) "qa2_status")
                         (py_get (_summary_qa s) "qa2_status")) = Some x →
  upsert_qa2_status s m = Some x.
Proof. intros H. unfold upsert_qa2_status. by rewrite H. Qed.

End upsert_facts.

(** C8. Upserting a unit twice, its QA2 judgment given once in one and once
    in another of the representations [true], ["T"] and ["PASS"], leaves a
    [mous] row with [qa2_status] PASS after the first and after the second
    upsert.  Normalisation sends booleans, the truthy and falsy tokens and
    the four textual statuses to one canonical text, and a status that the
    summary yields (its top-level value, else its QA block) is stored without
    the manifest's flag being consulted. *)
Theorem upsert_qa_representations_agree
    (derived_columns : Index.summary → manifest → option Index.derived_cols)
    (_summary_eb_uids : Index.summary → manifest → list string)
    (st : Index.store) (s1 s2 : Index.summary) (m1 m2 : manifest)
    (dir1 dir2 : string) (shard1 shard2 stage1 stage2 : option string)
    (msg1 msg2 : pyval) (now1 now2 : string) (v1 v2 : pyval) (uid : string)
    (Hr1 : Index.upsert_ready derived_columns s1 m1 stage1 msg1 = true)
    (Hr2 : Index.upsert_ready derived_columns s2 m2 stage2 msg2 = true)
    (Hu1 : Index.sql_text_key (Index.first_of s1 m1 "mous_uid" "mous_uid")
           = Index.KText uid)
    (Hu2 : Index.sql_text_key (Index.first_of s2 m2 "mous_uid" "mous_uid")
           = Index.KText uid)
    (Hv1 : v1 ∈ [PBool true; PStr "T"; PStr "PASS"])
    (Hv2 : v2 ∈ [PBool true; PStr "T"; PStr "PASS"])
    (Hg1 : Index.qa2_given s1 m1 v1)
    (Hg2 : Index.qa2_given s2 m2 v2) :
  let r1 := Index.upsert_mous_from_summary derived_columns _summary_eb_uids
              st s1 m1 dir1 shard1 stage1 msg1 now1 in
  let r2 := Index.upsert_mous_from_summary derived_columns _summary_eb_uids
              r1.1 s2 m2 dir2 shard2 stage2 msg2 now2 in
  (r1.2 = None
   ∧ Index.qa2_status <$> (Index.mous r1.1 !! uid) = Some (Some "PASS"))
  ∧ (r2.2 = None
     ∧ Index.qa2_status <$> (Index.mous r2.1 !! uid) = Some (Some "PASS"))
  ∧ (∀ b : bool, _qa_status_text (PBool b) = Some (if b then "PASS" else "FAIL"))
  ∧ (∀ t : string,
       (Py.upper (Py.strip t) ∈ ["TRUE"; "T"; "1"] →
        _qa_status_text (PStr t) = Some "PASS")
       ∧ (Py.upper (Py.strip t) ∈ ["FALSE"; "F"; "0"] →
          _qa_status_text (PStr t) = Some "FAIL")
       ∧ (Py.upper (Py.strip t) ∈ ["PASS"; "SEMIPASS"; "FAIL"; "UNKNOWN"] →
          _qa_status_text (PStr t) = Some (Py.upper (Py.strip t))))
  ∧ (∀ (s : Index.summary) (m : manifest) (x : string),
       _qa_status_text
         (py_or (py_get (Index.sm_top s) "qa2_status")
                (py_get (Index._summary_qa s) "qa2_status")) = Some x →
       Index.upsert_qa2_status s m = Some x)
  ∧ (∀ (s : Index.summary) (m : manifest) (x : string),
       py_truthy (py_get (Index.sm_top s) "qa2_status") = false →
       _qa_status_text (py_get (Index._summary_qa s) "qa2_status") = Some x →
       Index.upsert_qa2_status s m = Some x).
Proof.
  intros r1 r2.
  destruct (upsert_ready_row derived_columns _summary_eb_uids
              st s1 m1 dir1 shard1 stage1 msg1 now1 Hr1)
    as (u1 & row1 & st1 & Hk1 & E1 & Hm1 & Hq1).
  assert (u1 = uid) as -> by congruence.
  assert (r1 = (st1, None)) as Hr1' by exact E1.
  destruct (upsert_ready_row derived_columns _summary_eb_uids
              st1 s2 m2 dir2 shard2 stage2 msg2 now2 Hr2)
    as (u2 & row2 & st2 & Hk2 & E2 & Hm2 & Hq2).
  assert (u2 = uid) as -> by congruence.
  assert (r2 = (st2, None)) as Hr2'.
  { subst r2. rewrite Hr1'. exact E2. }
  rewrite Hr1', Hr2'. cbn [fst snd].
  split; [|split; [|split; [|split; [|split]]]].
  - split; [done|]. rewrite Hm1, lookup_insert_eq. cbn.
    by rewrite Hq1, (qa2_given_pass s1 m1 v1).
  - split; [done|]. rewrite Hm2, lookup_insert_eq. cbn.
    by rewrite Hq2, (qa2_given_pass s2 m2 v2).
  - done.
  - intros t. unfold _qa_status_text. cbn [py_str].
    split; [|split]; intros H.
    + destruct (decide (Py.upper (Py.strip t) = "")) as [E|_].
      { rewrite E in H. exfalso. revert H. by_decide. }
      by rewrite decide_True.
    + destruct (decide (Py.upper (Py.strip t) = "")) as [E|_].
      { rewrite E in H. exfalso. revert H. by_decide. }
      destruct (decide (Py.upper (Py.strip t) ∈ ["TRUE"; "T"; "1"])) as [E|_].
      { exfalso. revert H E. rewrite !elem_of_cons, !elem_of_nil.
        intros [->|[->|[->|[]]]] [?|[?|[?|[]]]]; discriminate. }
      by rewrite decide_True.
    + destruct (decide (Py.upper (Py.strip t) = "")) as [E|_].
      { rewrite E in H. exfalso. revert H. by_decide. }
      destruct (decide (Py.upper (Py.strip t) ∈ ["TRUE"; "T"; "1"])) as [E|_].
      { exfalso. revert H E. rewrite !elem_of_cons, !elem_of_nil.
        intros [->|[->|[->|[->|[]]]]] [?|[?|[?|[]]]]; discriminate. }
      destruct (decide (Py.upper (Py.strip t) ∈ ["FALSE"; "F"; "0"])) as [E|_].
      { exfalso. revert H E. rewrite !elem_of_cons, !elem_of_nil.
        intros [->|[->|[->|[->|[]]]]] [?|[?|[?|[]]]]; discriminate. }
      by destruct (decide _).
  - intros s m x. apply upsert_qa2_status_summary_first.
  - intros s m x Hf Hx. apply upsert_qa2_status_summary_first.
    unfold py_or. by rewrite Hf.
Qed.

Lemma upsert_qa_representations_agree_witness :
  let derived_columns := λ (_ : Index.summary) (_ : manifest),
        Some (Index.Derived "[]" "[]" "[]" 0 0 0 0) in
  let ebs := λ (_ : Index.summary) (_ : manifest), @nil string in
  let s1 := Index.Summary
              {[ "mous_uid" := PStr "uid://A001/X1/X2";
                 "qa2_status" := PBool true ]} ∅ ∅ in
  let s2 := Index.Summary {[ "summary_path" := PStr "/d/summary.json" ]} ∅
              {[ "qa2_status" := PStr "T" ]} in
  let m1 := Manifest ∅ [] [] ∅ in
  let m2 := Manifest {[ "mous_uid" := PStr "uid://A001/X1/X2";
                        "qa2_passed" := PStr "PASS" ]} [] [] ∅ in
  let r1 := Index.upsert_mous_from_summary derived_columns ebs
              Index.empty_store s1 m1 "/d" None None PNone "t1" in
  let r2 := Index.upsert_mous_from_summary derived_columns ebs
              r1.1 s2 m2 "/d" None None PNone "t2" in
  Index.qa2_status <$> (Index.mous r1.1 !! "uid://A001/X1/X2") = Some (Some "PASS")
  ∧ Index.qa2_status <$> (Index.mous r2.1 !! "uid://A001/X1/X2") = Some (Some "PASS").
Proof.
  intros derived_columns ebs s1 s2 m1 m2 r1 r2.
  pose proof (upsert_qa_representations_agree derived_columns ebs
                Index.empty_store s1 s2 m1 m2 "/d" "/d" None None None None
                PNone PNone "t1" "t2" (PBool true) (PStr "T")
                "uid://A001/X1/X2") as H.
  cbv zeta in H.
  destruct H as [[_ H1] [[_ H2] _]].
  - reflexivity.
  - reflexivity.
  - reflexivity.
  - reflexivity.
  - by_decide.
  - by_decide.
  - by apply Index.given_summary_top.
  - by apply Index.given_summary_block.
  - split; [exact H1 | exact H2].
Defined.

(** ** Merging shard stores *)

Section merge_facts.

Import Index.

Lemma merge_mous_union (src tgt : gmap string mous_row) :
  map_fold (λ uid row acc, <[uid := row]> acc) tgt src = src ∪ tgt.
Proof.
  apply (map_fold_weak_ind (λ r m, r = m ∪ tgt)).
  - by rewrite (left_id_L ∅ (∪)).
  - intros i x m r _ ->. by rewrite insert_union_l.
Qed.

Lemma merge_eb_rows_ok (parents : gmap string mous_row)
    (src tgt : gset (string * string)) :
  set_Forall (λ r, r.1 ∈ dom parents) src →
  set_fold (merge_eb_row parents) (tgt, None) src = (src ∪ tgt, None).
Proof.
  revert src.
  apply (set_fold_ind_L
           (λ r X, set_Forall (λ r, r.1 ∈ dom parents) X → r = (X ∪ tgt, None))).
  - intros _. by rewrite (left_id_L ∅ (∪)).
  - intros x X r Hx IH HF.
    rewrite IH by (intros y Hy; by apply HF, elem_of_union_r).
    unfold merge_eb_row.
    rewrite decide_True by (by apply HF, elem_of_union_l, elem_of_singleton).
    by rewrite (assoc_L (∪)).
Qed.

Lemma merge_art_rows_ok (parents : gmap string mous_row)
    (src tgt : gmap (string * string) art_row) :
  map_Forall (λ k _, k.1 ∈ dom parents) src →
  map_fold (merge_art_row parents) (tgt, None) src = (src ∪ tgt, None).
Proof.
  revert src.
  apply (map_fold_weak_ind
           (λ r m, map_Forall (λ k _, k.1 ∈ dom parents) m → r = (m ∪ tgt, None))).
  - intros _. by rewrite (left_id_L ∅ (∪)).
  - intros k x m r Hk IH HF.
    apply map_Forall_insert in HF as [Hkx HF]; [|done].
    rewrite IH by done. unfold merge_art_row.
    rewrite decide_True by done. by rewrite insert_union_l.
Qed.

Lemma merge_null_rows_ok (parents : gmap string mous_row)
    (src tgt : list (string * art_row)) :
  Forall (λ r, r.1 ∈ dom parents) src →
  foldl (merge_null_row parents) (tgt, None) src = (tgt ++ src, None).
Proof.
  revert tgt. induction src as [|r src IH]; intros tgt HF.
  - by rewrite app_nil_r.
  - apply Forall_cons in HF as [Hr HF]. cbn [foldl].
    unfold merge_null_row at 2. rewrite decide_True by done.
    rewrite IH by done. by rewrite <- app_assoc.
Qed.

(** A source that keeps its foreign keys merges without an error: each
    table of the target becomes the source's table laid over it. *)
Lemma merge_db_ok (source target : store) :
  fk_ok source →
  merge_db source target
  = (Store (mous source ∪ mous target) (eb source ∪ eb target)
           (artifact source ∪ artifact target)
           (artifact_null target ++ artifact_null source), None).
Proof.
  intros (He & Ha & Hn). unfold merge_db.
  rewrite merge_mous_union.
  assert (∀ u, u ∈ dom (mous source) → u ∈ dom (mous source ∪ mous target))
    as Hdom by (intros u Hu; rewrite dom_union, elem_of_union; by left).
  rewrite merge_eb_rows_ok by (intros r Hr; apply Hdom, He, Hr).
  rewrite merge_art_rows_ok
    by (intros k r Hr; apply Hdom; exact (Ha k r Hr)).
  rewrite merge_null_rows_ok; [done|].
  eapply Forall_impl; [exact Hn|]. intros r Hr. by apply Hdom.
Qed.

Variable derived_columns : summary → manifest → option derived_cols.
Variable _summary_eb_uids : summary → manifest → list string.

(** A file that cannot be read changes neither the connection nor the
    counter, wherever it stands in the enumeration. *)
Lemma merge_skips_unreadable (central : store) (cname n : string)
    (l1 l2 : list (string * shard_file)) (summaries : list summary_input) :
  merge_index_from_shards derived_columns _summary_eb_uids central cname
    (l1 ++ (n, Unreadable) :: l2) summaries
  = merge_index_from_shards derived_columns _summary_eb_uids central cname
      (l1 ++ l2) summaries.
Proof.
  unfold merge_index_from_shards. rewrite !foldl_app. cbn [foldl].
  assert (∀ acc, merge_shard_step cname acc (n, Unreadable) = acc) as ->; [|done].
  intros [conn k]. unfold merge_shard_step. cbn. by destruct (decide _).
Qed.

Lemma merge_shard_step_ok (cname n : string) (conn source : store) (k : nat) :
  n ≠ cname → fk_ok source →
  merge_shard_step cname (conn, k) (n, Database source)
  = (Store (mous source ∪ mous conn) (eb source ∪ eb conn)
           (artifact source ∪ artifact conn)
           (artifact_null conn ++ artifact_null source), S k).
Proof.
  intros Hn Hfk. unfold merge_shard_step. cbn [fst snd].
  rewrite decide_False by done. by rewrite merge_db_ok.
Qed.

End merge_facts.

Lemma merge_unreadable_only
    (cname : string) (us : list (string * Index.shard_file))
    (acc : Index.store * nat) :
  Forall (λ f, f.2 = Index.Unreadable) us →
  foldl (Index.merge_shard_step cname) acc us = acc.
Proof.
  induction 1 as [|[n f] us Hf _ IH]; [done|].
  cbn [foldl]. simpl in Hf. subst f.
  replace (Index.merge_shard_step cname acc (n, Index.Unreadable)) with acc;
    [done|].
  destruct acc as [conn k]. unfold Index.merge_shard_step. cbn.
  by destruct (decide _).
Qed.

(** C4, as the code has it.  Two shard stores [a] and [b] that keep their
    foreign keys are merged in this order, files that cannot be read
    standing anywhere among them.  Both stores are merged and counted, every
    unreadable file being passed over.  A [mous] row of [b] is the central
    store's row for its unit; an [artifact] row of [b] is the central row
    for its key [(unit, file name)]; and a key that only [a] or the central
    store carried keeps its row: execution-block rows and artifact rows of a
    unit add up over the sources, only a row with the same key is replaced. *)
Theorem merge_last_write_wins_per_key
    (derived_columns : Index.summary → manifest → option Index.derived_cols)
    (_summary_eb_uids : Index.summary → manifest → list string)
    (central a b : Index.store) (cname na nb : string)
    (us1 us2 us3 : list (string * Index.shard_file))
    (Hna : na ≠ cname) (Hnb : nb ≠ cname)
    (Ha : Index.fk_ok a) (Hb : Index.fk_ok b)
    (Hus1 : Forall (λ f, f.2 = Index.Unreadable) us1)
    (Hus2 : Forall (λ f, f.2 = Index.Unreadable) us2)
    (Hus3 : Forall (λ f, f.2 = Index.Unreadable) us3) :
  let res := Index.merge_index_from_shards derived_columns _summary_eb_uids
               central cname
               (us1 ++ (na, Index.Database a) :: us2
                    ++ (nb, Index.Database b) :: us3) [] in
  Index.merged_shard_dbs res.2 = 2%nat
  ∧ (∀ u row, Index.mous b !! u = Some row →
              Index.mous res.1 !! u = Some row)
  ∧ (∀ u, Index.mous b !! u = None →
          Index.mous res.1 !! u = (Index.mous a ∪ Index.mous central) !! u)
  ∧ (∀ key row, Index.artifact b !! key = Some row →
                Index.artifact res.1 !! key = Some row)
  ∧ (∀ key, Index.artifact b !! key = None →
            Index.artifact res.1 !! key
            = (Index.artifact a ∪ Index.artifact central) !! key)
  ∧ Index.eb res.1 = Index.eb b ∪ (Index.eb a ∪ Index.eb central).
Proof.
  intros res.
  assert (res = (Index.Store
                   (Index.mous b ∪ (Index.mous a ∪ Index.mous central))
                   (Index.eb b ∪ (Index.eb a ∪ Index.eb central))
                   (Index.artifact b ∪ (Index.artifact a ∪ Index.artifact central))
                   ((Index.artifact_null central ++ Index.artifact_null a)
                      ++ Index.artifact_null b),
                 Index.MergeReport 2 0)) as ->.
  { subst res. unfold Index.merge_index_from_shards.
    rewrite foldl_app, (merge_unreadable_only cname us1) by done.
    cbn [foldl]. rewrite merge_shard_step_ok by done.
    rewrite foldl_app, (merge_unreadable_only cname us2) by done.
    cbn [foldl]. rewrite merge_shard_step_ok by done.
    rewrite (merge_unreadable_only cname us3) by done. done. }
  cbn [fst snd Index.merged_shard_dbs Index.mous Index.artifact Index.eb].
  split; [done|]. split; [|split; [|split; [|split]]].
  - intros u row H. by apply lookup_union_Some_l.
  - intros u H. by rewrite lookup_union_r.
  - intros key row H. by apply lookup_union_Some_l.
  - intros key H. by rewrite lookup_union_r.
  - done.
Qed.

Lemma merge_last_write_wins_per_key_witness :
  Index.mous Ex.merged_ab !! Ex.uid = Some (Ex.row "s2" "t2")
  ∧ Index.eb Ex.merged_ab
    = {[ (Ex.uid, "uid://A002/Xb/X2") ]} ∪ ({[ (Ex.uid, "uid://A002/Xa/X1") ]} ∪ ∅).
Proof.
  pose proof (merge_last_write_wins_per_key Ex.no_derived Ex.no_ebs
                Index.empty_store Ex.shard_a Ex.shard_b
                "alma_index.sqlite" "alma_index.s1.sqlite"
                "alma_index.s2.sqlite" [] [] []) as H.
  cbv zeta in H.
  destruct H as (_ & Hm & _ & _ & _ & He).
  - discriminate.
  - discriminate.
  - by_decide.
  - by_decide.
  - constructor.
  - constructor.
  - constructor.
  - split; [apply Hm; by_decide | exact He].
Defined.

(** C4 as stated fails on the execution-block and the artifact rows: after
    merging [shard_a] and then [shard_b], which both carry the unit, the
    central store still holds the unit's execution-block row and artifact
    row that only [shard_a] had; they are no rows of the store merged last. *)
Lemma merge_keeps_earlier_rows_counterexample :
  is_Some (Index.mous Ex.shard_a !! Ex.uid)
  ∧ is_Some (Index.mous Ex.shard_b !! Ex.uid)
  ∧ ((Ex.uid, "uid://A002/Xa/X1") ∈ Index.eb Ex.merged_ab)
  ∧ ((Ex.uid, "uid://A002/Xa/X1") ∉ Index.eb Ex.shard_b)
  ∧ is_Some (Index.artifact Ex.merged_ab !! (Ex.uid, "old.auxproducts.tgz"))
  ∧ Index.artifact Ex.shard_b !! (Ex.uid, "old.auxproducts.tgz") = None.
Proof.
  split; [by_decide|]. split; [by_decide|]. split; [by_decide|].
  split; [by_decide|]. split; by_decide.
Qed.

(** ** Safe extraction *)

Section extract_facts.

Import Fs.

(** Extraction of a list of members is extraction of its front part and
    then, if that raised nothing, of the rest. *)
Lemma safe_extract_app (f : fs) (target_dir : path)
    (strip_prefix : option (list string)) (before after : list member) :
  _safe_extract f target_dir strip_prefix (before ++ after)
  = match _safe_extract f target_dir strip_prefix before with
    | (f', None) => _safe_extract f' target_dir strip_prefix after
    | (f', Some e) => (f', Some e)
    end.
Proof.
  revert f. induction before as [|m before IH]; intros f; [done|].
  cbn [app _safe_extract].
  destruct (extract_member f target_dir strip_prefix m) as [f'|e]; [|done].
  apply IH.
Qed.

(** A member that fails the test raises [UnsafePath] before anything is
    created for it. *)
Lemma extract_member_rejected (f : fs) (target_dir : path)
    (strip_prefix : option (list string)) (m : member) :
  rejected target_dir strip_prefix m = true →
  extract_member f target_dir strip_prefix m = inr (UnsafePath (m_name m)).
Proof.
  unfold rejected, extract_member.
  destruct (_strip_parts (_member_parts (m_name m)) strip_prefix); [done|].
  by intros ->.
Qed.

Lemma safe_extract_rejected (f : fs) (target_dir : path)
    (strip_prefix : option (list string)) (before after : list member)
    (m : member) :
  rejected target_dir strip_prefix m = true →
  _safe_extract f target_dir strip_prefix (before ++ m :: after)
  = ((_safe_extract f target_dir strip_prefix before).1,
     Some (default (UnsafePath (m_name m))
                   (_safe_extract f target_dir strip_prefix before).2)).
Proof.
  intros Hm. rewrite safe_extract_app.
  destruct (_safe_extract f target_dir strip_prefix before) as [f' [e|]];
    [done|].
  cbn [_safe_extract fst snd default]. by rewrite extract_member_rejected.
Qed.

End extract_facts.

(** ** Redundant-prefix detection *)

Section asa_facts.

Import Fs Unpack.

Lemma detect_asa_loop_no_candidate (members : list member)
    (detected : option (list string)) :
  Forall (λ m, asa_candidate (_member_parts (m_name m)) = None) members →
  detect_asa_loop detected members = detected.
Proof.
  induction 1 as [|m members Hm _ IH]; [done|].
  cbn [detect_asa_loop]. by rewrite Hm.
Qed.

Lemma detect_asa_loop_same_candidate (members : list member) (pre : list string) :
  Forall (λ m, asa_candidate (_member_parts (m_name m)) = Some pre) members →
  detect_asa_loop (Some pre) members = Some pre.
Proof.
  induction 1 as [|m members Hm _ IH]; [done|].
  cbn [detect_asa_loop]. rewrite Hm. by rewrite decide_True.
Qed.

Lemma group_is_not_science_goal (c : string) :
  Py.startswith c "group.uid___" = true →
  Py.startswith c "science_goal.uid___" = false.
Proof.
  destruct c as [|a c]; [done|]. cbn [Py.startswith].
  destruct (Ascii.eqb_spec "g" a) as [<-|]; [done|]. done.
Qed.

(** With the project code in front, members at any depth below the
    four-component prefix propose it. *)
Lemma asa_candidate_with_project_code (p sg g mb : string) (rest : list string) :
  Py.startswith sg "science_goal.uid___" = true →
  Py.startswith g "group.uid___" = true →
  Py.startswith mb "member.uid___" = true →
  rest ≠ [] →
  asa_candidate ([p; sg; g; mb] ++ rest) = Some [p; sg; g; mb].
Proof.
  intros Hsg Hg Hmb Hrest. destruct rest as [|r rest]; [done|].
  unfold asa_candidate. cbn [nth app]. rewrite Hsg, Hg, Hmb.
  rewrite bool_decide_eq_true_2 by (cbn; lia). done.
Qed.

(** Without the project code, a member one level below the three-component
    prefix proposes it ... *)
Lemma asa_candidate_direct_child (sg g mb r : string) :
  Py.startswith sg "science_goal.uid___" = true →
  Py.startswith g "group.uid___" = true →
  Py.startswith mb "member.uid___" = true →
  asa_candidate [sg; g; mb; r] = Some [sg; g; mb].
Proof.
  intros Hsg Hg Hmb. unfold asa_candidate. cbn [nth].
  rewrite bool_decide_eq_false_2 by (cbn; lia).
  rewrite bool_decide_eq_true_2 by (cbn; lia).
  by rewrite Hsg, Hg, Hmb.
Qed.

(** ... and a member two or more levels below it proposes nothing: it has
    five parts or more, so the code looks for [science_goal] in the second
    part, which is the group, and says [continue]. *)
Lemma asa_candidate_deeper_missed (sg g mb r1 r2 : string) (rest : list string) :
  Py.startswith g "group.uid___" = true →
  asa_candidate ([sg; g; mb] ++ r1 :: r2 :: rest) = None.
Proof.
  intros Hg. unfold asa_candidate. cbn [nth app].
  rewrite bool_decide_eq_true_2 by (cbn; lia).
  by rewrite (group_is_not_science_goal g Hg).
Qed.

(** An archive in the layout without project code, every member of which
    lies two or more levels below the prefix: no prefix is detected. *)
Lemma detect_asa_prefix_deep_members_missed (members : list member)
    (sg g mb : string) :
  Py.startswith sg "science_goal.uid___" = true →
  Py.startswith g "group.uid___" = true →
  Py.startswith mb "member.uid___" = true →
  Forall (λ m, ∃ r1 r2 rest,
            _member_parts (m_name m) = [sg; g; mb] ++ r1 :: r2 :: rest) members →
  _detect_asa_prefix members = None.
Proof.
  intros _ Hg _ H. unfold _detect_asa_prefix.
  apply detect_asa_loop_no_candidate.
  eapply Forall_impl; [exact H|]. intros m (r1 & r2 & rest & ->).
  by apply asa_candidate_deeper_missed.
Qed.

(** An archive in the layout with project code: the prefix is detected. *)
Lemma detect_asa_prefix_with_project_code (members : list member)
    (p sg g mb : string) :
  Py.startswith sg "science_goal.uid___" = true →
  Py.startswith g "group.uid___" = true →
  Py.startswith mb "member.uid___" = true →
  members ≠ [] →
  Forall (λ m, ∃ rest, rest ≠ []
            ∧ _member_parts (m_name m) = [p; sg; g; mb] ++ rest) members →
  _detect_asa_prefix members = Some [p; sg; g; mb].
Proof.
  intros Hsg Hg Hmb Hne H.
  assert (Forall (λ m, asa_candidate (_member_parts (m_name m))
                       = Some [p; sg; g; mb]) members) as Hc.
  { eapply Forall_impl; [exact H|]. intros m (rest & Hr & ->).
    by apply asa_candidate_with_project_code. }
  destruct members as [|m members]; [done|].
  apply Forall_cons in Hc as [Hm Hc].
  unfold _detect_asa_prefix. cbn [detect_asa_loop]. rewrite Hm.
  by apply detect_asa_loop_same_candidate.
Qed.

End asa_facts.

(** The archive of the repository's own test, with the project code in
    front: the prefix is stripped and the science-goal UID is filled in. *)
Example unpack_strips_asa_prefix_with_project_code :
  let w := Unpack.World (Ex.tree "outer_aux.tar" Ex.asa4_members)
                        (Ex.unit_manifest "outer_aux.tar") in
  let w' := Unpack.unpack_archive true w Ex.job0 in
  Unpack.w_fs w' !! (Ex.delivered ++ ["calibration"; "file.txt"])
  = Some (Fs.File (Fs.Bytes "ok") 420)
  ∧ Unpack.w_fs w' !! (Ex.delivered ++ ["2022.1.00055.S"]) = None
  ∧ py_get (m_top (Unpack.w_manifest w')) "science_goal_uid"
    = PStr "uid://A001/X2d20/X3ca0".
Proof. split; [|split]; vm_compute; reflexivity. Qed.

(** C3 at the failing input.  The archive holds the one member
    [science_goal.uid___A001_X2d20_X3ca0/group.uid___A001_X2d20_X3ca1/member.uid___A001_X2d20_X3ca2/calibration/file.txt],
    so all its members share the three-component prefix of the layout
    without project code, and the manifest has no science-goal UID.  No
    prefix is detected: the file lands below the three redundant
    directories, and the science-goal UID stays unset. *)
Theorem asa_prefix_without_project_code_missed :
  let w := Unpack.World (Ex.tree "outer_aux.tar" Ex.asa3_members)
                        (Ex.unit_manifest "outer_aux.tar") in
  let w' := Unpack.unpack_archive true w Ex.job0 in
  Unpack._detect_asa_prefix Ex.asa3_members = None
  ∧ Unpack.w_fs w' !! (Ex.delivered ++ ["calibration"; "file.txt"]) = None
  ∧ Unpack.w_fs w'
      !! (Ex.delivered
            ++ ["science_goal.uid___A001_X2d20_X3ca0";
                "group.uid___A001_X2d20_X3ca1";
                "member.uid___A001_X2d20_X3ca2"; "calibration"; "file.txt"])
    = Some (Fs.File (Fs.Bytes "ok") 420)
  ∧ py_get (m_top (Unpack.w_manifest w')) "science_goal_uid" = PNone
  ∧ (λ e, e_get e "strip_prefix")
      <$> (m_artifacts (Unpack.w_manifest w') !! 0%nat) = Some PNone.
Proof. split; [|split; [|split; [|split]]]; vm_compute; reflexivity. Qed.

(** ** The bounded multi-pass unpack *)

Section recursive_facts.

Import Fs Unpack.

Lemma rglob_NoDup (f : fs) (root : path) : NoDup (rglob f root).
Proof.
  unfold rglob. rewrite merge_sort_Permutation.
  apply NoDup_filter, NoDup_fst_map_to_list.
Qed.

Lemma elem_of_rglob (f : fs) (root p : path) :
  p ∈ rglob f root ↔ below root p = true ∧ is_Some (f !! p).
Proof.
  unfold rglob. rewrite merge_sort_Permutation, list_elem_of_filter.
  rewrite list_elem_of_fmap. split.
  - intros [Hb ([q nd] & -> & Hq)]. split; [done|].
    apply elem_of_map_to_list in Hq. by exists nd.
  - intros [Hb [nd Hnd]]. split; [done|]. exists (p, nd). split; [done|].
    by apply elem_of_map_to_list.
Qed.

Lemma pass_candidates_NoDup (f : fs) (root : path) (patterns : list string)
    (processed : list path) :
  NoDup (pass_candidates f root patterns processed).
Proof. apply NoDup_filter, rglob_NoDup. Qed.

Lemma elem_of_pass_candidates (f : fs) (root : path) (patterns : list string)
    (processed : list path) (p : path) :
  p ∈ pass_candidates f root patterns processed
  ↔ is_candidate f patterns processed p = true ∧ below root p = true.
Proof.
  unfold pass_candidates. rewrite list_elem_of_filter, elem_of_rglob.
  split; [tauto|]. intros [Hc Hb]. split; [done|]. split; [done|].
  unfold is_candidate, is_file in Hc.
  destruct (f !! p) as [nd|]; [by exists nd | done].
Qed.

Lemma pass_candidates_fresh (f : fs) (root : path) (patterns : list string)
    (processed : list path) (p : path) :
  p ∈ pass_candidates f root patterns processed → p ∉ processed.
Proof.
  rewrite elem_of_pass_candidates. intros [Hc _].
  unfold is_candidate in Hc. rewrite !andb_true_iff in Hc.
  destruct Hc as [_ Hn]. apply negb_true_iff, bool_decide_eq_false in Hn.
  exact Hn.
Qed.

(** No key is added to [processed] a second time. *)
Lemma recursive_passes_NoDup (remove : bool) (root : path)
    (patterns : list string) (n idx : nat) (f : fs) (processed : list path)
    (summary : recursive_summary) :
  NoDup processed →
  NoDup (recursive_passes remove root patterns n idx f processed summary).1.2.
Proof.
  revert idx f processed summary.
  induction n as [|n IH]; intros idx f processed summary Hnd; [done|].
  cbn [recursive_passes].
  destruct (pass_candidates f root patterns processed) as [|c cs] eqn:Hc;
    [done|].
  destruct (foldl (recursive_extract remove) (f, [], []) (c :: cs))
    as [[f' done] errs].
  apply IH. apply NoDup_app. split; [done|]. split.
  - intros x Hx Hx'. rewrite <- Hc in Hx'.
    by apply pass_candidates_fresh in Hx'.
  - rewrite <- Hc. apply pass_candidates_NoDup.
Qed.

(** Each pass adds one record, and there are at most [n] passes. *)
Lemma recursive_passes_length (remove : bool) (root : path)
    (patterns : list string) (n idx : nat) (f : fs) (processed : list path)
    (summary : recursive_summary) :
  (length (passes (recursive_passes remove root patterns n idx f processed
                     summary).2)
   ≤ length (passes summary) + n)%nat.
Proof.
  revert idx f processed summary.
  induction n as [|n IH]; intros idx f processed summary; [cbn; lia|].
  cbn [recursive_passes].
  destruct (pass_candidates f root patterns processed) as [|c cs];
    [cbn; lia|].
  destruct (foldl (recursive_extract remove) (f, [], []) (c :: cs))
    as [[f' done] errs].
  etrans; [apply IH|]. cbn [passes]. rewrite length_app. cbn. lia.
Qed.

End recursive_facts.

Section chain_facts.

Import Fs Unpack Nest.

Lemma startswith_app (a b : string) : Py.startswith (a +:+ b) a = true.
Proof.
  induction a as [|c a IH]; [done|].
  rewrite str_app_cons. cbn [Py.startswith]. by rewrite Ascii.eqb_refl, IH.
Qed.

Lemma str_app_assoc (a b c : string) : (a +:+ b) +:+ c = a +:+ (b +:+ c).
Proof.
  induction a as [|x a IH]; [done|]. by rewrite !str_app_cons, IH.
Qed.

Lemma path_tail_app (p q : path) :
  path_tail (p ++ q) = path_tail p +:+ path_tail q.
Proof.
  induction p as [|c p IH]; [done|].
  cbn [app path_tail]. rewrite IH. by rewrite !str_app_assoc.
Qed.

(** A path that only goes down from the target passes the test of
    [_safe_extract]. *)
Lemma child_path_starts_with_parent (root : path) (n : string) :
  Py.startswith (path_str (root ++ [n])) (path_str root) = true.
Proof.
  destruct root as [|c root]; [done|].
  change (path_str ((c :: root) ++ [n])) with (path_tail ((c :: root) ++ [n])).
  change (path_str (c :: root)) with (path_tail (c :: root)).
  rewrite path_tail_app. apply startswith_app.
Qed.

Lemma simple_name_spec (n : string) :
  simple_name n = true →
  _member_parts n = [n] ∧ is_root_part n = false ∧ String.eqb n ".." = false.
Proof.
  unfold simple_name. rewrite !andb_true_iff, !negb_true_iff.
  intros [[?%bool_decide_eq_true ?] ?]. done.
Qed.

Lemma resolve_under_simple (root : path) (n : string) :
  simple_name n = true → resolve_under root [n] = root ++ [n].
Proof.
  intros (_ & Hr & Hd)%simple_name_spec.
  unfold resolve_under. cbn [foldl]. unfold resolve_step. by rewrite Hr, Hd.
Qed.

Lemma mkdir_from_present (f : fs) (above todo : path) :
  (∀ i, (i < length todo)%nat → f !! (above ++ take (S i) todo) = Some Dir) →
  mkdir_from f above todo = Some f.
Proof.
  revert above. induction todo as [|c todo IH]; intros above H; [done|].
  cbn [mkdir_from].
  pose proof (H 0%nat) as H0. cbn in H0. rewrite take_0 in H0.
  rewrite H0 by lia.
  apply IH. intros i Hi. rewrite <- (assoc_L (++)).
  apply (H (S i)). cbn [length]. lia.
Qed.

Lemma dirs_ok_spec (f : fs) (root : path) :
  dirs_ok f root = true →
  ∀ i, (i < length root)%nat → f !! take (S i) root = Some Dir.
Proof.
  unfold dirs_ok. rewrite forallb_forall. intros H i Hi.
  assert (In i (seq 0 (length root))) as Hin by (apply in_seq; lia).
  specialize (H i Hin). by destruct (f !! take (S i) root) as [[]|].
Qed.

Lemma dirs_ok_mkdir (f : fs) (root : path) :
  dirs_ok f root = true → mkdir_p f root = Some f.
Proof.
  intros H. apply mkdir_from_present. intros i Hi.
  by apply dirs_ok_spec.
Qed.

Lemma dirs_ok_is_dir (f : fs) (root : path) :
  dirs_ok f root = true → is_dir f root = true.
Proof.
  intros H. unfold is_dir. destruct root as [|c r]; [done|].
  pose proof (dirs_ok_spec f (c :: r) H (length r)) as Hl.
  assert (f !! (c :: r) = Some Dir) as ->; [|done].
  rewrite <- Hl by (cbn; lia). f_equal. cbn. by rewrite take_ge.
Qed.

Lemma forallb_agree {A} (g h : A → bool) (l : list A) :
  (∀ x, In x l → g x = h x) → forallb g l = forallb h l.
Proof.
  induction l as [|x l IH]; intros H; [done|].
  cbn [forallb]. rewrite (H x) by (by left).
  rewrite IH; [done|]. intros y Hy. apply H. by right.
Qed.

(** A change at a path directly below [root] leaves the directories above
    alone. *)
Lemma dirs_ok_insert_child (f : fs) (root : path) (n : string) (nd : node) :
  dirs_ok (<[root ++ [n] := nd]> f) root = dirs_ok f root.
Proof.
  unfold dirs_ok. apply forallb_agree. intros i Hi%in_seq.
  rewrite lookup_insert_ne; [done|].
  intros E%(f_equal length). rewrite length_app, length_take in E.
  change (length [n]) with 1%nat in E. lia.
Qed.

Lemma dirs_ok_delete_child (f : fs) (root : path) (n : string) :
  dirs_ok (delete (root ++ [n]) f) root = dirs_ok f root.
Proof.
  unfold dirs_ok. apply forallb_agree. intros i Hi%in_seq.
  rewrite lookup_delete_ne; [done|].
  intros E%(f_equal length). rewrite length_app, length_take in E.
  change (length [n]) with 1%nat in E. lia.
Qed.

Lemma below_child (root : path) (n : string) : below root (root ++ [n]) = true.
Proof.
  unfold below. rewrite take_app_length.
  rewrite bool_decide_eq_true_2 by (rewrite length_app; cbn; lia).
  by rewrite bool_decide_eq_true_2.
Qed.

Lemma singleton_list (l : list path) (p : path) :
  NoDup l → (∀ x, x ∈ l ↔ x = p) → l = [p].
Proof.
  intros Hnd H. destruct l as [|x l].
  - assert (p ∈ @nil path) as Hp by by apply H. by apply elem_of_nil in Hp.
  - assert (x = p) as -> by (apply H; left).
    apply NoDup_cons in Hnd as [Hx _]. destruct l as [|y l]; [done|].
    assert (y = p) as -> by (apply H; right; left).
    exfalso. apply Hx. left.
Qed.

End chain_facts.

Section chain_step.

Import Fs Unpack Nest.

Variable root : path.
Variable patterns : list string.
Variable remove : bool.
Variable member_mode : Z.

Lemma exists_of_lookup (f : fs) (p : path) (nd : node) :
  f !! p = Some nd → exists_ f p = true.
Proof.
  intros H. unfold exists_. destruct p; [done|].
  apply bool_decide_eq_true. by eexists.
Qed.

Lemma child_inj (a b : string) : root ++ [a] = root ++ [b] → a = b.
Proof. intros H. apply app_inv_head in H. by injection H. Qed.

Lemma parent_child (n : string) : parent (root ++ [n]) = root.
Proof. unfold parent. apply removelast_last. Qed.

(** A member that is one plain name, in an archive that sits in [root],
    proposes no redundant prefix. *)
Lemma no_parent_prefix_for_simple (n : string) (c : content) (dir : string) :
  simple_name n = true →
  _detect_parent_redundant_prefix [Member n MFile member_mode c] dir = None.
Proof.
  intros (Hp & _ & _)%simple_name_spec.
  unfold _detect_parent_redundant_prefix.
  cbn [omap list_omap m_name]. rewrite Hp. cbn [length].
  rewrite bool_decide_eq_true_2 by lia. cbn [list_to_set foldr].
  by rewrite elements_empty.
Qed.

(** Extraction of a one-member layer into a directory that is there writes
    the member as a file next to the archive. *)
Lemma extract_simple_member (f : fs) (n : string) (c : content) :
  simple_name n = true →
  dirs_ok f root = true →
  f !! (root ++ [n]) = None →
  _safe_extract f root None [Member n MFile member_mode c]
  = (<[root ++ [n] := File c (Z.land member_mode 511)]> f, None).
Proof.
  intros Hs Hd Hf. pose proof (simple_name_spec n Hs) as (Hp & _ & _).
  cbn [_safe_extract]. unfold extract_member.
  cbn [m_name m_kind m_mode m_payload _strip_parts]. rewrite Hp.
  rewrite resolve_under_simple by done.
  rewrite child_path_starts_with_parent. cbn [negb].
  rewrite parent_child, dirs_ok_mkdir by done.
  unfold write_file. rewrite parent_child, dirs_ok_is_dir by done.
  cbn [negb]. rewrite Hf. by destruct root.
Qed.

Section one_pass.

Variables (base : fs) (n n' : string) (mode : Z) (c' : content).

Let layer : node := File (TarBall [Member n' MFile member_mode c']) mode.
Let base1 : fs := if remove then base else <[root ++ [n] := layer]> base.

Hypothesis Hdirs : dirs_ok base root = true.
Hypothesis Hsimple : simple_name n' = true.
Hypothesis Hne : n' ≠ n.
Hypothesis Hfresh : base !! (root ++ [n]) = None.
Hypothesis Hfresh' : base !! (root ++ [n']) = None.

Lemma chain_extract :
  recursive_extract remove (<[root ++ [n] := layer]> base, [], []) (root ++ [n])
  = (<[root ++ [n'] := File c' (Z.land member_mode 511)]> base1,
     [root ++ [n]], []).
Proof.
  unfold recursive_extract. rewrite lookup_insert_eq. subst layer. cbn beta.
  rewrite parent_child, no_parent_prefix_for_simple by done.
  rewrite extract_simple_member; [|done| |].
  - assert (root ++ [n'] ≠ root ++ [n]) as Hpne
      by (intros E; by apply child_inj in E).
    assert (exists_ (<[root ++ [n'] := File c' (Z.land member_mode 511)]>
                       (<[root ++ [n] :=
                            File (TarBall [Member n' MFile member_mode c']) mode]>
                          base)) (root ++ [n]) = true) as Hex.
    { eapply exists_of_lookup.
      by rewrite lookup_insert_ne, lookup_insert_eq. }
    assert (is_file (<[root ++ [n'] := File c' (Z.land member_mode 511)]>
                       (<[root ++ [n] :=
                            File (TarBall [Member n' MFile member_mode c']) mode]>
                          base)) (root ++ [n]) = true) as Hif.
    { unfold is_file. by rewrite lookup_insert_ne, lookup_insert_eq. }
    subst base1. destruct remove; cbn [andb].
    + rewrite Hex, Hif. cbn [app].
      by rewrite delete_insert_ne, delete_insert_id.
    + done.
  - by rewrite dirs_ok_insert_child.
  - rewrite lookup_insert_ne; [done|]. intros E. by apply child_inj in E.
Qed.

Variable processed : list path.
Hypothesis Hquiet : quiet base root patterns processed.
Hypothesis Heligible : eligible root patterns n = true.
Hypothesis Hnew : root ++ [n] ∉ processed.

Lemma chain_candidates (nd_c : content) (nd_mode : Z) :
  pass_candidates (<[root ++ [n] := File nd_c nd_mode]> base) root patterns
                  processed
  = [root ++ [n]].
Proof.
  apply singleton_list; [apply pass_candidates_NoDup|].
  intros x. rewrite elem_of_pass_candidates. split.
  - intros [Hc Hb]. destruct (decide (x = root ++ [n])) as [|Hx]; [done|].
    exfalso. unfold is_candidate in Hc. rewrite !andb_true_iff in Hc.
    destruct Hc as [[[Hf Ha] Hm] Hp].
    unfold is_file in Hf. rewrite lookup_insert_ne in Hf by done.
    destruct (base !! x) as [[|c m]|] eqn:Ex; try done.
    pose proof (Hquiet x _ Ex) as Hq. cbn in Hq.
    rewrite Hb, Ha, Hm in Hq. cbn in Hq.
    apply negb_true_iff in Hp. by rewrite Hp in Hq.
  - intros ->. split; [|apply below_child].
    unfold is_candidate, is_file. rewrite lookup_insert_eq.
    unfold eligible in Heligible. apply andb_true_iff in Heligible as [-> ->].
    by rewrite bool_decide_eq_false_2.
Qed.

Lemma chain_quiet_next :
  quiet base1 root patterns (processed ++ [root ++ [n]]).
Proof.
  assert (quiet base root patterns (processed ++ [root ++ [n]])) as Hq.
  { intros p nd Hp. specialize (Hquiet p nd Hp). cbn in Hquiet.
    destruct nd as [|c m]; [done|]. cbn.
    apply orb_true_iff in Hquiet as [->|Hin]; [done|].
    apply orb_true_iff. right. apply bool_decide_eq_true.
    apply bool_decide_eq_true in Hin. apply elem_of_app. by left. }
  subst base1. destruct remove; [done|].
  apply map_Forall_insert_2; [|done].
  subst layer. cbn. apply orb_true_iff. right. apply bool_decide_eq_true.
  apply elem_of_app. right. by apply list_elem_of_singleton.
Qed.

End one_pass.

End chain_step.

Section chain_run.

Import Fs Unpack Nest.

Variable root : path.
Variable patterns : list string.
Variable remove : bool.
Variable member_mode : Z.
Variable innermost : content.

Lemma default_last_cons (n n' : string) (rest : list string) :
  default n (last (n' :: rest)) = default n' (last rest).
Proof. rewrite last_cons. by destruct (last rest). Qed.

(** As many passes as there are layers below the first one peel off the
    layers one by one and stop with the last archive on disk, never handed
    to the extraction. *)
Lemma chain_passes (names : list string) :
  ∀ (n : string) (mode : Z) (base : fs) (processed : list path)
    (summary : recursive_summary) (idx : nat),
  NoDup (n :: names) →
  Forall (λ x, simple_name x = true) names →
  Forall (λ x, eligible root patterns x = true) (n :: names) →
  Forall (λ x, base !! (root ++ [x]) = None) (n :: names) →
  Forall (λ x, root ++ [x] ∉ processed) (n :: names) →
  dirs_ok base root = true →
  quiet base root patterns processed →
  ∃ base' mode' processed' summary',
    recursive_passes remove root patterns (length names) idx
      (<[root ++ [n] := File (nested member_mode names innermost) mode]> base)
      processed summary
    = (<[root ++ [default n (last names)] := File innermost mode']> base',
       processed', summary')
    ∧ (root ++ [default n (last names)] ∉ processed')
    ∧ length (passes summary') = (length (passes summary) + length names)%nat.
Proof.
  induction names as [|n' rest IH];
    intros n mode base processed summary idx Hnd Hs He Hf Hp Hd Hq.
  - exists base, mode, processed, summary. cbn.
    split; [done|]. split; [|lia]. by apply Forall_cons in Hp as [? _].
  - apply NoDup_cons in Hnd as [Hn Hnd].
    apply Forall_cons in Hs as [Hs' Hs].
    apply Forall_cons in He as [He0 He].
    apply Forall_cons in Hf as [Hf0 Hf].
    apply Forall_cons in Hp as [Hp0 Hp].
    assert (n' ≠ n) as Hne by (intros ->; apply Hn; left).
    pose proof Hf as Hf'. apply Forall_cons in Hf' as [Hf1 _].
    cbn [length recursive_passes nested].
    rewrite (chain_candidates root patterns base n processed Hq He0 Hp0).
    cbn [foldl].
    rewrite (chain_extract root remove member_mode base n n' mode
               (nested member_mode rest innermost) Hd Hs' Hne Hf0 Hf1).
    edestruct (IH n' (Z.land member_mode 511)
                 (if remove then base
                  else <[root ++ [n] :=
                           File (TarBall
                                   [Member n' MFile member_mode
                                      (nested member_mode rest innermost)])
                                mode]> base)
                 (processed ++ [root ++ [n]])
                 (RecursiveSummary true
                    (passes summary ++ [PassInfo (S idx) [root ++ [n]] []])
                    (unpacked_count summary + length [root ++ [n]])
                    (error_count summary + length (@nil (path * extract_error))))
                 (S idx))
      as (base' & mode' & processed' & summary' & E & Hlast & Hlen).
    + done.
    + done.
    + done.
    + apply Forall_forall. intros x Hx.
      pose proof (proj1 (Forall_forall _ _) Hf x Hx) as Hbx. cbn beta in Hbx.
      destruct remove; [done|].
      rewrite lookup_insert_ne; [done|].
      intros E. apply child_inj in E. subst x. by apply Hn.
    + apply Forall_forall. intros x Hx.
      pose proof (proj1 (Forall_forall _ _) Hp x Hx) as Hpx. cbn beta in Hpx.
      rewrite elem_of_app, list_elem_of_singleton. intros [Hin|E]; [done|].
      apply child_inj in E. subst x. by apply Hn.
    + destruct remove; [done|]. by rewrite dirs_ok_insert_child.
    + by apply chain_quiet_next.
    + exists base', mode', processed', summary'.
      rewrite default_last_cons. split; [exact E|]. split; [done|].
      rewrite Hlen. cbn [passes]. rewrite length_app. cbn. lia.
Qed.

End chain_run.

(** C7, as the code has it.  The run makes at most [max(1, max_passes)]
    passes and adds no archive to [processed] a second time.  For a tree of
    [N+1] nested matching archive layers, [1 ≤ N], and [max_passes = N], the
    run makes [N] passes and the innermost archive is on disk at its end,
    never handed to the extraction. *)
Theorem recursive_unpack_bounded
    (root : Fs.path) (patterns : list string) (remove : bool)
    (max_passes : Z) (f : Fs.fs)
    (N : nat) (n : string) (names : list string) (mode member_mode : Z)
    (innermost : Fs.content) (base : Fs.fs)
    (HN : (1 ≤ N)%nat) (Hlen : length names = N) (Hpat : patterns ≠ [])
    (Hnd : NoDup (n :: names))
    (Hsimple : Forall (λ x, Nest.simple_name x = true) names)
    (Heligible : Forall (λ x, Nest.eligible root patterns x = true) (n :: names))
    (Hfresh : Forall (λ x, base !! (root ++ [x]) = None) (n :: names))
    (Hdirs : Nest.dirs_ok base root = true)
    (Hquiet : Nest.quiet base root patterns []) :
  let any := Unpack._recursive_unpack root patterns max_passes remove f in
  let r := Unpack._recursive_unpack root patterns (Z.of_nat N) remove
             (<[root ++ [n] :=
                  Fs.File (Nest.nested member_mode names innermost) mode]> base) in
  let last_layer := root ++ [default n (last names)] in
  (length (Unpack.passes any.2) ≤ Z.to_nat (Z.max 1 max_passes))%nat
  ∧ NoDup any.1.2
  ∧ length (Unpack.passes r.2) = N
  ∧ (last_layer ∉ r.1.2)
  ∧ (∃ mode', r.1.1 !! last_layer = Some (Fs.File innermost mode')).
Proof.
  intros any r last_layer.
  split; [|split].
  - subst any. unfold Unpack._recursive_unpack.
    destruct patterns; [cbn; lia|]. apply recursive_passes_length.
  - subst any. unfold Unpack._recursive_unpack.
    destruct patterns; [constructor|].
    apply recursive_passes_NoDup. constructor.
  - destruct (chain_passes root patterns remove member_mode innermost names
                n mode base [] (Unpack.RecursiveSummary true [] 0 0) 0%nat)
      as (base' & mode' & processed' & summary' & E & Hlast & Hpasses);
      try done.
    { apply Forall_forall. intros x _. apply not_elem_of_nil. }
    assert (r = (<[last_layer := Fs.File innermost mode']> base',
                 processed', summary')) as ->.
    { subst r. unfold Unpack._recursive_unpack.
      destruct patterns as [|p ps] eqn:Ep; [done|]. rewrite <- Ep in *.
      replace (Z.to_nat (Z.max 1 (Z.of_nat N))) with (length names) by lia.
      exact E. }
    cbn [fst snd]. split; [by rewrite Hpasses, Hlen|]. split; [done|].
    exists mode'. by rewrite lookup_insert_eq.
Qed.

Lemma recursive_unpack_bounded_witness :
  let r := Unpack._recursive_unpack Ex.delivered
             Unpack.DEFAULT_RECURSIVE_UNPACK_PATTERNS 2 true
             (<[Ex.delivered ++ ["l1.auxproducts.tgz"] :=
                  Fs.File (Nest.nested 420
                             ["l2.auxproducts.tgz"; "l3.auxproducts.tgz"]
                             (Fs.TarBall
                                [Fs.Member "qa/a.xml" Fs.MFile 420
                                           (Fs.Bytes "<Root/>")]))
                          420]> Ex.bare_tree) in
  length (Unpack.passes r.2) = 2%nat
  ∧ (Ex.delivered ++ ["l3.auxproducts.tgz"] ∉ r.1.2).
Proof.
  intros r.
  pose proof (recursive_unpack_bounded Ex.delivered
                Unpack.DEFAULT_RECURSIVE_UNPACK_PATTERNS true 2 Ex.bare_tree
                2 "l1.auxproducts.tgz"
                ["l2.auxproducts.tgz"; "l3.auxproducts.tgz"] 420 420
                (Fs.TarBall [Fs.Member "qa/a.xml" Fs.MFile 420
                                       (Fs.Bytes "<Root/>")])
                Ex.bare_tree) as H.
  cbv zeta in H. destruct H as (_ & _ & H1 & H2 & _).
  - lia.
  - reflexivity.
  - discriminate.
  - by_decide.
  - repeat constructor.
  - repeat constructor.
  - repeat constructor.
  - reflexivity.
  - by_decide.
  - split; [exact H1 | exact H2].
Defined.

(** C7 as stated fails at [max_passes = 0]: the loop runs
    [range(max(1, max_passes))], so one pass is made, and the single archive
    layer of the tree, which is its innermost, is extracted. *)
Lemma recursive_unpack_zero_passes_counterexample :
  let r := Unpack._recursive_unpack Ex.delivered
             Unpack.DEFAULT_RECURSIVE_UNPACK_PATTERNS 0 true Ex.one_layer in
  length (Unpack.passes r.2) = 1%nat
  ∧ ¬ (Z.of_nat (length (Unpack.passes r.2)) ≤ 0)
  ∧ r.1.2 = [Ex.delivered ++ ["x.auxproducts.tgz"]]
  ∧ r.1.1 !! (Ex.delivered ++ ["qa"; "a.xml"])
    = Some (Fs.File (Fs.Bytes "<Root/>") 420).
Proof.
  split; [|split; [|split]].
  - vm_compute. reflexivity.
  - vm_compute. intros H. by apply H.
  - vm_compute. reflexivity.
  - vm_compute. reflexivity.
Qed.

(** ** The test of [_safe_extract] and where a destination lies *)

Section contain_facts.

Import Fs Unpack Contain.

Lemma path_str_app (up rest : path) :
  rest ≠ [] → path_str (up ++ rest) = path_tail up +:+ path_tail rest.
Proof.
  intros Hne. rewrite <- path_tail_app.
  destruct (up ++ rest) eqn:E; [|done].
  by apply app_eq_nil in E as [_ ?].
Qed.

Lemma startswith_common (a b c : string) :
  Py.startswith (a +:+ b) (a +:+ c) = Py.startswith b c.
Proof.
  induction a as [|x a IH]; [done|].
  rewrite !str_app_cons. cbn [Py.startswith]. by rewrite Ascii.eqb_refl, IH.
Qed.

Lemma str_app_empty (s : string) : s +:+ "" = s.
Proof. induction s as [|c s IH]; [done|]. by rewrite str_app_cons, IH. Qed.

Lemma startswith_inv (s p : string) :
  Py.startswith s p = true → ∃ r, s = p +:+ r.
Proof.
  revert s. induction p as [|a p IH]; intros s H.
  - by exists s.
  - destruct s as [|b s]; [done|]. cbn [Py.startswith] in H.
    apply andb_prop in H as [Hab H]. apply Ascii.eqb_eq in Hab as ->.
    destruct (IH s H) as [r ->]. by exists r.
Qed.

Lemma is_name_spec (c : string) :
  is_name c = true → c ≠ "" ∧ Py.mem_char "/" c = false.
Proof.
  unfold is_name. rewrite andb_true_iff, !negb_true_iff.
  intros [H1%String.eqb_neq H2]. done.
Qed.

(** The text of what follows a component: nothing, or a slash and more. *)
Lemma path_tail_shape (p : path) :
  path_tail p = "" ∨ ∃ t, path_tail p = String "/" t.
Proof. destruct p as [|c r]; [by left|right]. by eexists. Qed.

(** A name that begins the text [d/...] begins the component [d]. *)
Lemma name_prefix_of_component (c d t : string) :
  Py.mem_char "/" c = false →
  (t = "" ∨ ∃ t', t = String "/" t') →
  Py.startswith (d +:+ t) c = true → Py.startswith d c = true.
Proof.
  revert d. induction c as [|a c IH]; intros d Hc Ht H; [done|].
  cbn [Py.mem_char] in Hc.
  destruct (Ascii.eqb "/" a) eqn:Ea; [done|].
  destruct d as [|b d].
  - rewrite str_app_nil in H. destruct Ht as [->|[t' ->]]; [done|].
    cbn [Py.startswith] in H. apply andb_prop in H as [H _].
    apply Ascii.eqb_eq in H as ->. by rewrite Ascii.eqb_refl in Ea.
  - rewrite str_app_cons in H. cbn [Py.startswith] in *.
    apply andb_prop in H as [-> H]. cbn [andb]. by apply (IH d).
Qed.

(** Two components that are followed by a slash at the same place are the
    same component. *)
Lemma component_before_slash (c d t x : string) :
  Py.mem_char "/" c = false → Py.mem_char "/" d = false →
  (t = "" ∨ ∃ t', t = String "/" t') →
  Py.startswith (d +:+ t) (c +:+ String "/" x) = true →
  d = c ∧ Py.startswith t (String "/" x) = true.
Proof.
  revert d. induction c as [|a c IH]; intros d Hc Hd Ht H.
  - rewrite str_app_nil in H. destruct d as [|b d]; [done|].
    rewrite str_app_cons in H. cbn [Py.startswith] in H.
    apply andb_prop in H as [H _]. apply Ascii.eqb_eq in H as <-.
    cbn [Py.mem_char] in Hd. by rewrite Ascii.eqb_refl in Hd.
  - cbn [Py.mem_char] in Hc.
    destruct (Ascii.eqb "/" a) eqn:Ea; [done|].
    rewrite str_app_cons in H. destruct d as [|b d].
    + rewrite str_app_nil in H. destruct Ht as [->|[t' ->]]; [done|].
      cbn [Py.startswith] in H. apply andb_prop in H as [H _].
      apply Ascii.eqb_eq in H as ->. by rewrite Ascii.eqb_refl in Ea.
    + rewrite str_app_cons in H. cbn [Py.startswith] in H.
      apply andb_prop in H as [Hab H]. apply Ascii.eqb_eq in Hab as ->.
      cbn [Py.mem_char] in Hd.
      destruct (Ascii.eqb "/" b) eqn:Eb; [done|].
      destruct (IH d Hc Hd Ht H) as [-> H']. done.
Qed.

(** A path whose text begins with the text of [c :: r] goes through
    [c :: r], or through the sibling of it whose name carries on the last
    name of [c :: r]. *)
Lemma text_prefix_paths (r : path) :
  ∀ (c : string) (p : path),
    Forall (λ x, Py.mem_char "/" x = false) (c :: r) →
    Forall (λ x, Py.mem_char "/" x = false) p →
    Py.startswith (path_tail p) (path_tail (c :: r)) = true →
    (∃ rest, p = (c :: r) ++ rest)
    ∨ (∃ s rest, s ≠ ""
         ∧ p = removelast (c :: r) ++ [default "" (last (c :: r)) +:+ s]
               ++ rest).
Proof.
  induction r as [|c2 r IH]; intros c p Hroot Hp H.
  - destruct p as [|d ds]; [done|].
    cbn [path_tail] in H. rewrite str_app_empty in H.
    rewrite !str_app_cons, !str_app_nil in H. cbn [Py.startswith] in H.
    rewrite Ascii.eqb_refl in H. cbn [andb] in H.
    apply Forall_cons in Hroot as [Hc _]. apply Forall_cons in Hp as [Hd _].
    apply (name_prefix_of_component c d _ Hc (path_tail_shape ds)) in H.
    apply startswith_inv in H as [s ->].
    destruct s as [|x s].
    + left. exists ds. by rewrite str_app_empty.
    + right. exists (String x s), ds. done.
  - destruct p as [|d ds]; [done|].
    cbn [path_tail] in H.
    rewrite !str_app_cons, !str_app_nil in H. cbn [Py.startswith] in H.
    rewrite Ascii.eqb_refl in H. cbn [andb] in H.
    apply Forall_cons in Hroot as [Hc Hroot].
    apply Forall_cons in Hp as [Hd Hp].
    apply (component_before_slash c d _ _ Hc Hd (path_tail_shape ds)) in H
      as [-> H].
    destruct (IH c2 ds Hroot Hp H) as [[rest ->]|(s & rest & Hs & ->)].
    + left. by exists rest.
    + right. exists s, rest. split; [done|].
      by destruct r.
Qed.

Lemma length_removelast_pred {A} (l : list A) :
  length (removelast l) = (length l - 1)%nat.
Proof.
  induction l as [|x l IH]; [done|]. cbn [removelast].
  destruct l as [|y l]; [done|]. cbn [length] in *. lia.
Qed.

(** The test of [_safe_extract] lets a destination pass only if it is the
    target or lies below it, or lies in a sibling whose name carries on the
    name of the target. *)
Lemma text_prefix_within_or_beside (root p : path) :
  Forall (λ x, is_name x = true) root →
  Forall (λ x, Py.mem_char "/" x = false) p →
  Py.startswith (path_str p) (path_str root) = true →
  within root p = true ∨ beside root p = true.
Proof.
  intros Hroot Hp H.
  destruct root as [|c r]; [by left|].
  assert (Hslash : Forall (λ x, Py.mem_char "/" x = false) (c :: r)).
  { eapply Forall_impl; [exact Hroot|]. intros x Hx.
    by apply is_name_spec in Hx as [_ ?]. }
  destruct p as [|d ds].
  - exfalso. apply Forall_cons in Hroot as [Hc _].
    apply is_name_spec in Hc as [Hc _].
    cbn [path_str path_tail] in H. destruct c as [|a c]; [done|].
    rewrite !str_app_cons, !str_app_nil in H. cbn [Py.startswith] in H.
    by rewrite Ascii.eqb_refl in H.
  - change (path_str (d :: ds)) with (path_tail (d :: ds)) in H.
    change (path_str (c :: r)) with (path_tail (c :: r)) in H.
    destruct (text_prefix_paths r c (d :: ds) Hslash Hp H)
      as [[rest ->]|(s & rest & Hs & ->)].
    + left. unfold within. apply bool_decide_eq_true.
      by rewrite take_app_length.
    + right. unfold beside.
      assert (Hlen : (length (c :: r) - 1)%nat = length (removelast (c :: r))).
      { by rewrite length_removelast_pred. }
      rewrite Hlen.
      rewrite lookup_app_r by done. rewrite Nat.sub_diag. cbn [app lookup].
      rewrite take_app_length. unfold parent, name.
      rewrite bool_decide_eq_false_2 by done.
      rewrite bool_decide_eq_true_2 by done.
      cbn [list_lookup]. rewrite startswith_app. cbn [negb andb].
      apply negb_true_iff, String.eqb_neq. intros E. apply Hs.
      clear -E. revert E. generalize (default "" (last (c :: r))).
      intros n. induction n as [|a n IH]; [done|].
      rewrite str_app_cons. intros E. injection E as E. by apply IH.
Qed.

(** *** The components of a resolved path *)

Lemma split_slash_free (s : string) :
  Forall (λ x, Py.mem_char "/" x = false) (Py.split "/" s).
Proof.
  induction s as [|c s IH]; [by repeat constructor|].
  cbn [Py.split]. destruct (Ascii.eqb c "/") eqn:E.
  - by constructor.
  - destruct (Py.split "/" s) as [|w ws].
    + constructor; [|constructor].
      cbn [Py.mem_char]. by rewrite (Ascii.eqb_sym "/" c), E.
    + apply Forall_cons in IH as [Hw Hws]. constructor; [|done].
      cbn [Py.mem_char]. by rewrite (Ascii.eqb_sym "/" c), E.
Qed.

(** A part of a path text is a root, or it is a name. *)
Lemma pure_parts_ok (s : string) :
  Forall (λ x, is_root_part x = true ∨ is_name x = true) (pure_parts s).
Proof.
  unfold pure_parts. apply Forall_app. split.
  - unfold posix_root. repeat case_match; repeat constructor.
  - apply Forall_forall. intros x Hx. right.
    apply list_elem_of_In, filter_In in Hx as [Hx Hc].
    apply list_elem_of_In in Hx.
    pose proof (split_slash_free s) as Hs.
    rewrite Forall_forall in Hs. specialize (Hs x Hx).
    unfold is_name. rewrite Hs. unfold is_component in Hc.
    apply andb_prop in Hc as [-> _]. done.
Qed.

Lemma member_parts_ok (n : string) :
  Forall (λ x, is_root_part x = true ∨ is_name x = true) (_member_parts n).
Proof.
  unfold _member_parts. apply Forall_forall. intros x Hx.
  apply list_elem_of_In, filter_In in Hx as [Hx _].
  apply list_elem_of_In in Hx.
  pose proof (pure_parts_ok n) as H. rewrite Forall_forall in H. by apply H.
Qed.

Lemma strip_parts_ok (P : string → Prop) (parts : list string)
    (strip_prefix : option (list string)) :
  Forall P parts → Forall P (_strip_parts parts strip_prefix).
Proof.
  intros H. unfold _strip_parts.
  destruct strip_prefix as [[|c pre]|]; try done.
  destruct (_ && _); [|done]. by apply Forall_drop.
Qed.

Lemma Forall_removelast {A} (P : A → Prop) (l : list A) :
  Forall P l → Forall P (removelast l).
Proof.
  induction l as [|x l IH]; [done|]. intros [Hx Hl]%Forall_cons.
  cbn [removelast]. destruct l; [constructor|]. constructor; [done|].
  by apply IH.
Qed.

Lemma resolve_under_names (parts : list string) :
  ∀ acc : path,
    Forall (λ x, is_name x = true) acc →
    Forall (λ x, is_root_part x = true ∨ is_name x = true) parts →
    Forall (λ x, is_name x = true) (resolve_under acc parts).
Proof.
  induction parts as [|c parts IH]; intros acc Hacc Hparts; [done|].
  apply Forall_cons in Hparts as [Hc Hparts].
  unfold resolve_under. cbn [foldl]. apply IH; [|done].
  unfold resolve_step. destruct (is_root_part c) eqn:Er; [constructor|].
  destruct (String.eqb c ".."); [by apply Forall_removelast|].
  apply Forall_app. split; [done|]. constructor; [|constructor].
  by destruct Hc.
Qed.

(** The path of an entry's [local_path], and its parent, are made of names. *)
Lemma e_local_path_names (e : entry) :
  Forall (λ x, is_name x = true) (e_local_path e).
Proof.
  unfold e_local_path. destruct (e_get e "local_path"); try constructor.
  apply resolve_under_names; [constructor|apply pure_parts_ok].
Qed.

(** A member whose destination is neither in the target nor in such a
    sibling fails the test. *)
Lemma outside_member_rejected (target_dir : path)
    (strip_prefix : option (list string)) (m : member) :
  Forall (λ x, is_name x = true) target_dir →
  within target_dir (destination target_dir strip_prefix m) = false →
  beside target_dir (destination target_dir strip_prefix m) = false →
  rejected target_dir strip_prefix m = true.
Proof.
  intros Hroot Hw Hb. unfold rejected. unfold destination in Hw, Hb.
  pose proof (strip_parts_ok _ _ strip_prefix (member_parts_ok (m_name m)))
    as Hparts.
  destruct (_strip_parts (_member_parts (m_name m)) strip_prefix) as [|c r]
    eqn:E.
  - exfalso. unfold within, resolve_under in Hw. cbn [foldl] in Hw.
    rewrite firstn_all in Hw. by rewrite bool_decide_eq_true_2 in Hw.
  - apply negb_true_iff.
    destruct (Py.startswith _ _) eqn:Hs; [exfalso|done].
    apply text_prefix_within_or_beside in Hs as [Hs|Hs]; [congruence..|done|].
    eapply Forall_impl; [exact (resolve_under_names _ _ Hroot Hparts)|].
    intros x Hx. by apply is_name_spec in Hx as [_ ?].
Qed.

End contain_facts.

(** C1, as the code has it.  An archive holds a member whose resolved
    destination lies outside the target directory, as [../../etc/passwd]
    does; destinations in a sibling directory whose name carries on the name
    of the target are left aside.  Then extraction of the archive raises,
    at that member unless a member before it raised already: nothing is
    written for that member or any member after it, while what the members
    before it wrote stays on disk.  The error is recorded on the archive's
    artifact entry, nothing else in the manifest changes, and the loop goes
    on with the archives that remain. *)
Theorem unsafe_member_aborts_its_archive_only
    (remove : bool) (w : Unpack.world) (j : Unpack.job) (js : list Unpack.job)
    (artifact : entry) (members before after : list Fs.member)
    (m : Fs.member) (mode : Z)
    (Hart : m_artifacts (Unpack.w_manifest w) !! Unpack.j_index j = Some artifact)
    (Hfile : Unpack.w_fs w !! Unpack.e_local_path artifact
             = Some (Fs.File (Fs.TarBall members) mode))
    (Hstamp : m_unpacked (Unpack.w_manifest w)
                !! Fs.name (Unpack.e_local_path artifact)
              ≠ Some (Unpack.j_stamp j))
    (Hsplit : members = before ++ m :: after)
    (Houtside :
       Contain.within (Fs.parent (Unpack.e_local_path artifact))
         (Contain.destination (Fs.parent (Unpack.e_local_path artifact))
            (Unpack._detect_asa_prefix members) m) = false)
    (Hbeside :
       Contain.beside (Fs.parent (Unpack.e_local_path artifact))
         (Contain.destination (Fs.parent (Unpack.e_local_path artifact))
            (Unpack._detect_asa_prefix members) m) = false) :
  let target := Fs.parent (Unpack.e_local_path artifact) in
  let strip_prefix := Unpack._detect_asa_prefix members in
  let done := Fs._safe_extract (Unpack.w_fs w) target strip_prefix before in
  let err := default (Fs.UnsafePath (Fs.m_name m)) done.2 in
  let w' := Unpack.World done.1
              (Unpack.with_artifact (Unpack.w_manifest w) (Unpack.j_index j)
                 (Unpack.add_unpack_error artifact (Unpack.j_now j) err)) in
  Fs._safe_extract (Unpack.w_fs w) target strip_prefix members
  = (done.1, Some err)
  ∧ Unpack.unpack_archive remove w j = w'
  ∧ Unpack.unpack_selected remove w (j :: js)
    = Unpack.unpack_selected remove w' js.
Proof.
  intros target strip_prefix done err w'.
  assert (Hm : Fs.rejected target strip_prefix m = true).
  { apply outside_member_rejected; [|done..].
    apply Forall_removelast, e_local_path_names. }
  assert (Fs._safe_extract (Unpack.w_fs w) target strip_prefix members
          = (done.1, Some err)) as Hx.
  { subst done err. rewrite Hsplit at 1.
    apply safe_extract_rejected. exact Hm. }
  assert (Unpack.unpack_archive remove w j = w') as Hw.
  { unfold Unpack.unpack_archive. rewrite Hart.
    assert (Fs.exists_ (Unpack.w_fs w) (Unpack.e_local_path artifact) = true)
      as ->.
    { unfold Fs.exists_. destruct (Unpack.e_local_path artifact); [done|].
      rewrite Hfile. by apply bool_decide_eq_true. }
    cbn [negb]. rewrite decide_False by done. rewrite Hfile.
    fold target. fold strip_prefix. by rewrite Hx. }
  split; [done|]. split; [done|].
  unfold Unpack.unpack_selected. cbn [foldl]. by rewrite Hw.
Qed.

Lemma unsafe_member_aborts_its_archive_only_witness :
  let w := Unpack.World (Ex.tree "evil.tar" Ex.traversal_members)
                        (Ex.unit_manifest "evil.tar") in
  let w' := Unpack.unpack_archive true w Ex.job0 in
  Contain.destination Ex.delivered None
    (Fs.Member "../../etc/passwd" Fs.MFile 420 (Fs.Bytes "root::0:0"))
  = ["data"; "etc"; "passwd"]
  ∧ e_unpack_errors <$> (m_artifacts (Unpack.w_manifest w') !! 0%nat)
    = Some [("2024-01-01T00:00:00Z", "Unsafe tar member path: ../../etc/passwd")]
  ∧ Unpack.w_fs w' !! ["data"; "etc"; "passwd"] = None
  ∧ Unpack.w_fs w' !! (Ex.delivered ++ ["qa"; "report.xml"])
    = Some (Fs.File (Fs.Bytes "<Root/>") 420).
Proof.
  intros w w'.
  pose proof (unsafe_member_aborts_its_archive_only true w Ex.job0 []
                (default (Entry ∅ []) (m_artifacts (Unpack.w_manifest w) !! 0%nat))
                Ex.traversal_members
                [Fs.Member "qa/report.xml" Fs.MFile 420 (Fs.Bytes "<Root/>")]
                []
                (Fs.Member "../../etc/passwd" Fs.MFile 420 (Fs.Bytes "root::0:0"))
                420) as H.
  cbv zeta in H. destruct H as (_ & H & _).
  - reflexivity.
  - vm_compute. reflexivity.
  - vm_compute. discriminate.
  - reflexivity.
  - vm_compute. reflexivity.
  - vm_compute. reflexivity.
  - subst w'. rewrite H. split; [|split; [|split]]; vm_compute; reflexivity.
Defined.

(** C1 as stated fails on "no file of that archive is written": the member
    [qa/report.xml] stands before [../../etc/passwd] in the archive, and it
    is on disk when the extraction raises. *)
Lemma partial_extraction_counterexample :
  let f := Ex.tree "evil.tar" Ex.traversal_members in
  let r := Fs._safe_extract f Ex.delivered None Ex.traversal_members in
  r.2 = Some (Fs.UnsafePath "../../etc/passwd")
  ∧ f !! (Ex.delivered ++ ["qa"; "report.xml"]) = None
  ∧ r.1 !! (Ex.delivered ++ ["qa"; "report.xml"])
    = Some (Fs.File (Fs.Bytes "<Root/>") 420).
Proof.
  split; [|split]; vm_compute; reflexivity.
Qed.

(** ** The download manager: the scan for what is missing *)

Section scan_facts.

Import Download.

(** Replacing the element at one place by one that passes the test exactly
    when the old one did leaves the place that [list_find] finds. *)
Lemma list_find_insert_alike {A} (P : A → Prop) `{!∀ x, Decision (P x)}
    (l : list A) (i : nat) (x y : A) :
  l !! i = Some x → (P x ↔ P y) →
  list_find P (<[i := y]> l)
  = (λ r : nat * A, (r.1, if decide (r.1 = i) then y else r.2))
      <$> list_find P l.
Proof.
  revert i. induction l as [|a l IH]; intros i Hi Hxy; [done|].
  destruct i as [|i]; csimpl in *.
  - injection Hi as ->.
    destruct (decide (P x)) as [Hx|Hx].
    + rewrite decide_True by tauto. done.
    + rewrite decide_False by tauto.
      destruct (list_find P l) as [[j z]|]; done.
  - destruct (decide (P a)); [done|].
    rewrite (IH i Hi Hxy).
    destruct (list_find P l) as [[j z]|]; [|done]. cbn.
    destruct (decide (j = i)) as [->|Hj].
    + by rewrite decide_True.
    + rewrite decide_False; [done|]. intros E. by injection E.
Qed.

Lemma e_get_insert_ne (fields : gmap string pyval) (errs : list (string * string))
    (k k' : string) (v : pyval) :
  k ≠ k' → e_get (Entry (<[k := v]> fields) errs) k' = e_get (Entry fields errs) k'.
Proof. intros H. unfold e_get, py_get. cbn. by rewrite lookup_insert_ne. Qed.

Lemma e_get_insert_eq (fields : gmap string pyval) (errs : list (string * string))
    (k : string) (v : pyval) :
  e_get (Entry (<[k := v]> fields) errs) k = v.
Proof. unfold e_get, py_get. cbn. by rewrite lookup_insert_eq. Qed.

Variable selected_kinds : gset string.
Variable delivered_dir : string.
Variable d : disk.

Lemma refreshed_filename (existing : entry) (art : ArtifactInfo) (now : string) :
  e_get (refreshed delivered_dir d existing art now) "filename" = e_get existing "filename".
Proof.
  unfold refreshed. destruct existing as [fields errs]. cbn [e_fields e_unpack_errors].
  rewrite e_get_insert_ne by done.
  destruct (d !! _); rewrite ?e_get_insert_ne by done; done.
Qed.

Lemma refreshed_status (existing : entry) (art : ArtifactInfo) (now : string) :
  e_get (refreshed delivered_dir d existing art now) "status" = PStr "present".
Proof.
  unfold refreshed. destruct existing as [fields errs]. cbn [e_fields e_unpack_errors].
  rewrite e_get_insert_ne by done.
  destruct (d !! _); rewrite ?e_get_insert_ne by done;
    by rewrite e_get_insert_eq.
Qed.

Lemma refreshed_is_refreshed_only (existing : entry) (art : ArtifactInfo)
    (now : string) :
  refreshed_only existing (refreshed delivered_dir d existing art now).
Proof.
  split; [done|]. intros k Hk. unfold refreshed, refreshed_keys in *.
  rewrite !not_elem_of_cons in Hk. destruct Hk as (H1 & H2 & H3 & H4 & _).
  cbn [e_fields]. rewrite lookup_insert_ne by done.
  destruct (d !! _); rewrite ?lookup_insert_ne by done; done.
Qed.

Lemma scan_step_effect (now : nat → string) (acc : scan) (art : ArtifactInfo) :
  scan_effect delivered_dir d (sc_artifacts acc) art now
    (sc_artifacts (scan_step selected_kinds delivered_dir d now acc art)).
Proof.
  unfold scan_step.
  destruct (negb (_artifact_selected (kind art) selected_kinds));
    [by apply effect_none|].
  destruct (_artifact_exists d _ _ || _); [|by apply effect_none].
  assert (∀ fresh_fields,
            fresh_fields !! "filename" = Some (PStr (filename art)) →
            fresh_fields !! "status" = Some (PStr "present") →
            scan_effect delivered_dir d (sc_artifacts acc) art now
              (sc_artifacts acc ++ [Entry fresh_fields []])) as Happ.
  { intros ff H1 H2. eapply effect_append; [| |done].
    - unfold e_get, py_get. cbn. by rewrite H1.
    - unfold e_get, py_get. cbn. by rewrite H2. }
  destruct (_entry_lookup (sc_artifacts acc) (filename art))
    as [[i existing]|] eqn:Hfind.
  - destruct (entry_truthy existing).
    + cbn [sc_artifacts]. by eapply effect_refresh.
    + cbn [sc_artifacts]. apply Happ; by simplify_map_eq.
  - cbn [sc_artifacts]. apply Happ; by simplify_map_eq.
Qed.

End scan_facts.

Section scan_loop_facts.

Import Download.

Variable selected_kinds : gset string.
Variable delivered_dir : string.
Variable d : disk.

Lemma refreshed_only_refl (e : entry) : refreshed_only e e.
Proof. by split. Qed.

Lemma refreshed_only_trans (e1 e2 e3 : entry) :
  refreshed_only e1 e2 → refreshed_only e2 e3 → refreshed_only e1 e3.
Proof.
  intros [H1 H1'] [H2 H2']. split; [congruence|].
  intros k Hk. rewrite H2' by done. by apply H1'.
Qed.

Lemma found_has_filename (artifacts : list entry) (name : string)
    (i : nat) (e : entry) :
  _entry_lookup artifacts name = Some (i, e) →
  artifacts !! i = Some e ∧ e_get e "filename" = PStr name.
Proof. intros (H1 & H2 & _)%list_find_Some. done. Qed.

(** An entry that the scan passes over is refreshed at most. *)
Lemma effect_frame (artifacts artifacts' : list entry) (art : ArtifactInfo)
    (now : nat → string) (i : nat) (e : entry) :
  scan_effect delivered_dir d artifacts art now artifacts' →
  artifacts !! i = Some e →
  ∃ e', artifacts' !! i = Some e' ∧ refreshed_only e e'.
Proof.
  intros Heff Hi.
  destruct Heff as [Heq | j existing Hfind Heq | e0 He1 He2 Heq];
    subst artifacts'.
  - exists e. split; [done | apply refreshed_only_refl].
  - apply found_has_filename in Hfind as [Hj _].
    destruct (decide (i = j)) as [->|Hij].
    + assert (e = existing) as -> by congruence.
      eexists. split; [|apply refreshed_is_refreshed_only].
      apply list_lookup_insert_eq. by eapply lookup_lt_Some.
    + exists e. split; [|apply refreshed_only_refl].
      by rewrite list_lookup_insert_ne.
  - exists e. split; [|apply refreshed_only_refl]. by apply lookup_app_l_Some.
Qed.

(** An entry for another file name is not touched. *)
Lemma effect_other (artifacts artifacts' : list entry) (art : ArtifactInfo)
    (now : nat → string) (i : nat) (e : entry) :
  scan_effect delivered_dir d artifacts art now artifacts' →
  artifacts !! i = Some e →
  e_get e "filename" ≠ PStr (filename art) →
  artifacts' !! i = Some e.
Proof.
  intros Heff Hi Hne.
  destruct Heff as [Heq | j existing Hfind Heq | e0 He1 He2 Heq];
    subst artifacts'.
  - done.
  - apply found_has_filename in Hfind as [Hj Hf].
    rewrite list_lookup_insert_ne; [done|]. intros ->.
    assert (e = existing) as -> by congruence. done.
  - by apply lookup_app_l_Some.
Qed.

(** An entry found present for a file name stays found and present. *)
Lemma effect_keeps_present (artifacts artifacts' : list entry)
    (art : ArtifactInfo) (now : nat → string) (name : string) :
  scan_effect delivered_dir d artifacts art now artifacts' →
  lookup_status artifacts name = Some (PStr "present") →
  lookup_status artifacts' name = Some (PStr "present").
Proof.
  unfold lookup_status, _entry_lookup.
  intros Heff H.
  destruct Heff as [Heq | j existing Hfind Heq | e0 He1 He2 Heq];
    subst artifacts'; [done| |].
  - apply found_has_filename in Hfind as [Hj Hf].
    rewrite (list_find_insert_alike _ _ j existing) by
      (by rewrite ?refreshed_filename).
    destruct (list_find _ artifacts) as [[k z]|]; [|done]. cbn in *.
    destruct (decide (k = j)); [|done]. by rewrite refreshed_status.
  - destruct (list_find _ artifacts) as [[k z]|] eqn:E; [|done].
    by rewrite (list_find_app_l _ _ _ _ _ E).
Qed.

(** The iteration for a selected artifact whose file the test of
    [_artifact_exists] accepts: it is not queued, and the entry found for
    its name afterwards is present. *)
Lemma scan_step_satisfied (now : nat → string) (acc : scan) (art : ArtifactInfo) :
  _artifact_selected (kind art) selected_kinds = true →
  _artifact_exists d (local_path delivered_dir (filename art)) (size_bytes art)
  = true →
  sc_to_fetch (scan_step selected_kinds delivered_dir d now acc art)
  = sc_to_fetch acc
  ∧ lookup_status
      (sc_artifacts (scan_step selected_kinds delivered_dir d now acc art))
      (filename art) = Some (PStr "present").
Proof.
  intros Hsel Hex. unfold scan_step. rewrite Hsel, Hex. cbn [negb orb].
  assert (∀ ff, ff !! "filename" = Some (PStr (filename art)) →
                ff !! "status" = Some (PStr "present") →
                _entry_lookup (sc_artifacts acc) (filename art) = None →
                lookup_status (sc_artifacts acc ++ [Entry ff []]) (filename art)
                = Some (PStr "present")) as Happ.
  { intros ff H1 H2 Hnone. unfold lookup_status, _entry_lookup in *.
    rewrite list_find_app_r by done. cbn.
    rewrite decide_True by (unfold e_get, py_get; cbn; by rewrite H1).
    cbn. unfold e_get, py_get. cbn. by rewrite H2. }
  destruct (_entry_lookup (sc_artifacts acc) (filename art))
    as [[i existing]|] eqn:Hfind.
  - assert (entry_truthy existing = true) as ->.
    { apply found_has_filename in Hfind as [_ Hf].
      unfold entry_truthy. apply orb_true_iff. left.
      apply negb_true_iff, bool_decide_eq_false. intros E.
      unfold e_get, py_get in Hf. by rewrite E, lookup_empty in Hf. }
    cbn [sc_artifacts sc_to_fetch]. split; [done|].
    pose proof (found_has_filename _ _ _ _ Hfind) as [Hi Hf].
    unfold lookup_status, _entry_lookup in *.
    change (Entry _ (e_unpack_errors existing))
      with (refreshed delivered_dir d existing art (now 0%nat)).
    rewrite (list_find_insert_alike _ _ i existing) by
      (by rewrite ?refreshed_filename).
    rewrite Hfind. cbn. rewrite decide_True by done.
    by rewrite refreshed_status.
  - cbn [sc_artifacts sc_to_fetch]. split; [done|].
    apply Happ; [by simplify_map_eq..|done].
Qed.

(** Who is queued was found missing. *)
Lemma scan_step_to_fetch (now : nat → string) (acc : scan)
    (art a : ArtifactInfo) :
  a ∈ sc_to_fetch (scan_step selected_kinds delivered_dir d now acc art) →
  a ∈ sc_to_fetch acc
  ∨ (a = art
     ∧ _artifact_exists d (local_path delivered_dir (filename art))
                        (size_bytes art) = false).
Proof.
  unfold scan_step.
  destruct (negb (_artifact_selected (kind art) selected_kinds)); [by left|].
  destruct (_artifact_exists d _ _) eqn:Hex; cbn [orb].
  - intros H. left. revert H.
    destruct (_entry_lookup _ _) as [[i existing]|];
      [destruct (entry_truthy existing)|]; done.
  - destruct (_artifact_satisfied_without_archive_file _).
    + intros H. left. revert H.
      destruct (_entry_lookup _ _) as [[i existing]|];
        [destruct (entry_truthy existing)|]; done.
    + cbn [sc_to_fetch]. rewrite elem_of_app, list_elem_of_singleton.
      intros [? | ->]; [by left | by right].
Qed.

Variable clock : nat → nat → string.

Lemma scan_loop_frame (available : list ArtifactInfo) :
  ∀ (i : nat) (acc : scan) (k : nat) (e : entry),
    sc_artifacts acc !! k = Some e →
    ∃ e', sc_artifacts (scan_loop selected_kinds delivered_dir d clock i acc
                          available) !! k = Some e'
          ∧ refreshed_only e e'.
Proof.
  induction available as [|art rest IH]; intros i acc k e Hk.
  - exists e. split; [done | apply refreshed_only_refl].
  - cbn [scan_loop].
    destruct (effect_frame _ _ art (clock i) k e
                (scan_step_effect selected_kinds delivered_dir d (clock i)
                   acc art) Hk) as (e1 & Hk1 & Hr1).
    destruct (IH (S i) _ k e1 Hk1) as (e2 & Hk2 & Hr2).
    exists e2. split; [done|]. by eapply refreshed_only_trans.
Qed.

Lemma scan_loop_other (available : list ArtifactInfo) :
  ∀ (i : nat) (acc : scan) (k : nat) (e : entry),
    sc_artifacts acc !! k = Some e →
    Forall (λ art, e_get e "filename" ≠ PStr (filename art)) available →
    sc_artifacts (scan_loop selected_kinds delivered_dir d clock i acc
                    available) !! k = Some e.
Proof.
  induction available as [|art rest IH]; intros i acc k e Hk Hall; [done|].
  apply Forall_cons in Hall as [Hart Hall]. cbn [scan_loop].
  apply IH; [|done].
  eapply effect_other; [apply scan_step_effect|done|done].
Qed.

Lemma scan_loop_keeps_present (available : list ArtifactInfo) (name : string) :
  ∀ (i : nat) (acc : scan),
    lookup_status (sc_artifacts acc) name = Some (PStr "present") →
    lookup_status
      (sc_artifacts (scan_loop selected_kinds delivered_dir d clock i acc
                       available)) name = Some (PStr "present").
Proof.
  induction available as [|art rest IH]; intros i acc H; [done|].
  cbn [scan_loop]. apply IH.
  eapply effect_keeps_present; [apply scan_step_effect|done].
Qed.

Lemma scan_loop_to_fetch (available : list ArtifactInfo) (a : ArtifactInfo) :
  ∀ (i : nat) (acc : scan),
    a ∈ sc_to_fetch (scan_loop selected_kinds delivered_dir d clock i acc
                       available) →
    a ∈ sc_to_fetch acc
    ∨ _artifact_exists d (local_path delivered_dir (filename a))
                       (size_bytes a) = false.
Proof.
  induction available as [|art rest IH]; intros i acc H; [by left|].
  cbn [scan_loop] in H. apply IH in H as [H|H]; [|by right].
  apply scan_step_to_fetch in H as [H|[-> H]]; [by left | by right].
Qed.

Lemma scan_loop_satisfied (available : list ArtifactInfo) (art : ArtifactInfo) :
  art ∈ available →
  _artifact_selected (kind art) selected_kinds = true →
  _artifact_exists d (local_path delivered_dir (filename art)) (size_bytes art)
  = true →
  ∀ (i : nat) (acc : scan),
    lookup_status
      (sc_artifacts (scan_loop selected_kinds delivered_dir d clock i acc
                       available)) (filename art) = Some (PStr "present").
Proof.
  intros Hin Hsel Hex.
  induction available as [|a rest IH]; intros i acc.
  - by apply elem_of_nil in Hin.
  - cbn [scan_loop]. apply elem_of_cons in Hin as [<-|Hin].
    + apply scan_loop_keeps_present.
      by apply scan_step_satisfied.
    + by apply IH.
Qed.

End scan_loop_facts.

(** C9. A listed artifact carries no expected size, it is of a selected
    kind, and a local file of its name exists, of whatever size.  Then the
    test of [_artifact_exists] is passed on existence alone, the scan never
    queues the artifact for transfer, and at the end of the scan the entry
    found for its file name has status [present]. *)
Theorem unknown_size_local_file_counts_as_present
    (selected_kinds : gset string) (delivered_dir : string)
    (d : Download.disk) (clock : nat → nat → string) (i : nat)
    (acc : Download.scan) (available : list Download.ArtifactInfo)
    (art : Download.ArtifactInfo) (size : Z)
    (Hsize : Download.size_bytes art = None)
    (Hsel : _artifact_selected (Download.kind art) selected_kinds = true)
    (Hdisk : d !! Download.local_path delivered_dir (Download.filename art)
             = Some size)
    (Hin : art ∈ available) :
  let s := Download.scan_loop selected_kinds delivered_dir d clock i acc
             available in
  Download._artifact_exists d
    (Download.local_path delivered_dir (Download.filename art)) None = true
  ∧ (art ∈ Download.sc_to_fetch s → art ∈ Download.sc_to_fetch acc)
  ∧ Download.lookup_status (Download.sc_artifacts s) (Download.filename art)
    = Some (PStr "present").
Proof.
  intros s.
  assert (Download._artifact_exists d
            (Download.local_path delivered_dir (Download.filename art))
            (Download.size_bytes art) = true) as Hex.
  { unfold Download._artifact_exists. by rewrite Hdisk, Hsize. }
  split; [by rewrite <- Hsize|]. split.
  - intros H. apply scan_loop_to_fetch in H as [H|H]; [done|].
    by rewrite Hex in H.
  - by apply scan_loop_satisfied.
Qed.

Lemma unknown_size_local_file_counts_as_present_witness :
  let s := Download.scan_loop (resolve_artifact_selection "default")
             "/data/delivered" (Ex.disk_with 4096) Ex.later 0
             (Download.Scan [] []) [Ex.aux_art None] in
  Download.sc_to_fetch s = []
  ∧ Download.lookup_status (Download.sc_artifacts s) "member.auxproducts.tgz"
    = Some (PStr "present").
Proof.
  intros s.
  pose proof (unknown_size_local_file_counts_as_present
                (resolve_artifact_selection "default") "/data/delivered"
                (Ex.disk_with 4096) Ex.later 0 (Download.Scan [] [])
                [Ex.aux_art None] (Ex.aux_art None) 4096) as H.
  cbv zeta in H. destruct H as (_ & _ & H).
  - reflexivity.
  - vm_compute. reflexivity.
  - vm_compute. reflexivity.
  - left.
  - split; [vm_compute; reflexivity | exact H].
Defined.
(** ** The download manager: retries and results *)

Section retry_facts.

Import Download.

Variable o : os.
Variable serve : Z → Z → response.
Variable name : string.
Variable expected : option Z.
Variable loc : string.
Variable retry_count : Z.
Variable rate_limit : bool.

(** The shape of every run of the retry loop that starts at an attempt not
    past the last: some attempts fail and are each followed by their
    back-off, then one attempt succeeds, or the attempt numbered
    [retry_count] fails and its message is returned. *)
Lemma retry_loop_shape (fuel : nat) :
  ∀ (attempt : Z) (t : tree) (trace : list step),
    attempt + Z.of_nat fuel = retry_count + 1 → (0 < fuel)%nat →
    ∃ (fails : list failure) (final : list step),
      (retry_loop o serve name expected loc retry_count rate_limit fuel
         attempt t trace).1.2
      = trace ++ failed_attempts attempt fails ++ final
      ∧ attempt + Z.of_nat (length fails) ≤ retry_count
      ∧ ((∃ size,
            (retry_loop o serve name expected loc retry_count rate_limit fuel
               attempt t trace).2 = Ok size
            ∧ final = Attempt (attempt + Z.of_nat (length fails)) None
                        :: (if rate_limit then [RateLimitSleep] else []))
         ∨ (∃ f,
              (retry_loop o serve name expected loc retry_count rate_limit
                 fuel attempt t trace).2 = Error (failure_text f)
              ∧ final = [Attempt retry_count (Some f)]
              ∧ attempt + Z.of_nat (length fails) = retry_count)).
Proof.
  induction fuel as [|fuel IH]; intros attempt t trace Hsum Hpos; [lia|].
  cbn [retry_loop].
  destruct (attempt_once o (serve attempt) name expected loc t)
    as [t' [size|f]].
  - exists [], (Attempt attempt None
                :: (if rate_limit then [RateLimitSleep] else [])).
    cbn [fst snd failed_attempts length app].
    rewrite Z.add_0_r. split; [done|]. split; [lia|]. left. by exists size.
  - destruct (Z.eqb_spec attempt retry_count) as [Heq|Hne].
    + exists [], [Attempt attempt (Some f)].
      cbn [fst snd failed_attempts length app]. rewrite Z.add_0_r.
      split; [done|]. split; [lia|]. right. exists f. by rewrite Heq.
    + destruct (IH (attempt + 1) t'
                  (trace ++ [Attempt attempt (Some f);
                             Backoff (Z.min (2 ^ attempt) 10)]))
        as (fails & final & Htrace & Hle & Hres); [lia|lia|].
      exists (f :: fails), final.
      rewrite Htrace. cbn [failed_attempts length].
      split; [by rewrite <- !(assoc_L (++))|].
      split; [lia|].
      replace (attempt + Z.of_nat (S (length fails)))
        with (attempt + 1 + Z.of_nat (length fails)) by lia.
      exact Hres.
Qed.

(** An attempt makes and removes no directory, and writes at the local
    path and at the partial file beside it only, neither of which is a
    directory then. *)
Lemma attempt_once_frame (srv : Z → response) (t : tree) :
  t_dirs (attempt_once o srv name expected loc t).1 = t_dirs t
  ∧ (∀ p, p ≠ loc → p ≠ loc +:+ ".part" →
          t_stat (attempt_once o srv name expected loc t).1 !! p
          = t_stat t !! p)
  ∧ (∀ p, p ∈ t_dirs t →
          t_stat (attempt_once o srv name expected loc t).1 !! p
          = t_stat t !! p).
Proof.
  unfold attempt_once.
  destruct (srv _) as [message|status http_error body broken];
    [done|].
  destruct (_ && (status <? 600)); [done|].
  destruct (bool_decide ((loc +:+ ".part") ∈ t_dirs t)) eqn:Etemp; [done|].
  apply bool_decide_eq_false in Etemp.
  assert (Hwrite : ∀ v p, (p ≠ loc +:+ ".part" ∨ p ∈ t_dirs t) →
            <[loc +:+ ".part" := v]> (t_stat t) !! p = t_stat t !! p).
  { intros v p [Hp|Hp]; rewrite lookup_insert_ne; congruence. }
  destruct broken as [message|].
  { cbn [fst t_dirs t_stat]. split; [done|].
    split; intros p **; apply Hwrite; auto. }
  destruct (match expected with Some _ => _ | None => _ end).
  { cbn [fst t_dirs t_stat]. split; [done|].
    split; intros p **; apply Hwrite; auto. }
  destruct (bool_decide (loc ∈ t_dirs t)) eqn:Eloc.
  { cbn [fst t_dirs t_stat]. split; [done|].
    split; intros p **; apply Hwrite; auto. }
  apply bool_decide_eq_false in Eloc.
  cbn [fst t_dirs t_stat]. split; [done|].
  split; intros p **.
  - rewrite lookup_insert_ne, lookup_delete_ne by congruence.
    apply Hwrite; auto.
  - rewrite lookup_insert_ne, lookup_delete_ne by congruence.
    apply Hwrite; auto.
Qed.

Lemma retry_loop_frame (fuel : nat) :
  ∀ (attempt : Z) (t : tree) (trace : list step),
    let r := retry_loop o serve name expected loc retry_count rate_limit fuel
               attempt t trace in
    t_dirs r.1.1 = t_dirs t
    ∧ (∀ p, p ≠ loc → p ≠ loc +:+ ".part" →
            t_stat r.1.1 !! p = t_stat t !! p)
    ∧ (∀ p, p ∈ t_dirs t → t_stat r.1.1 !! p = t_stat t !! p).
Proof.
  induction fuel as [|fuel IH]; intros attempt t trace; cbn zeta; [done|].
  cbn [retry_loop].
  pose proof (attempt_once_frame (serve attempt) t) as (Hd & Hp & Hq).
  destruct (attempt_once o (serve attempt) name expected loc t)
    as [t' [size|f]]; cbn [fst] in Hd, Hp, Hq; [done|].
  destruct (attempt =? retry_count); [done|].
  destruct (IH (attempt + 1) t'
              (trace ++ [Attempt attempt (Some f);
                         Backoff (Z.min (2 ^ attempt) 10)]))
    as (Hd' & Hp' & Hq').
  split; [congruence|]. split.
  - intros p H1 H2. rewrite Hp' by done. by apply Hp.
  - intros p H1. rewrite Hq' by (by rewrite Hd). by apply Hq.
Qed.

End retry_facts.

Section agree_facts.

Import Download.

Variable o : os.
Variable paths : gset string.

Lemma agree_off_refl (t : tree) : agree_off paths t t.
Proof. by split. Qed.

(** Two trees that agree outside [paths] go on agreeing when each changes
    inside [paths] only and keeps its directories. *)
Lemma agree_off_frames (t1 t2 t1' t2' : tree) :
  agree_off paths t1 t2 →
  t_dirs t1' = t_dirs t1 → t_dirs t2' = t_dirs t2 →
  (∀ p, p ∉ paths → t_stat t1' !! p = t_stat t1 !! p) →
  (∀ p, p ∉ paths → t_stat t2' !! p = t_stat t2 !! p) →
  agree_off paths t1' t2'.
Proof.
  intros [Hd Hs] H1 H2 H3 H4. split; [congruence|].
  intros p Hp. rewrite H3, H4 by done. by apply Hs.
Qed.

(** An attempt that works outside [paths] does the same on both trees. *)
Lemma attempt_once_agree (srv : Z → response) (name : string)
    (expected : option Z) (loc : string) (t1 t2 : tree) :
  agree_off paths t1 t2 →
  loc ∉ paths → (loc +:+ ".part") ∉ paths →
  (attempt_once o srv name expected loc t1).2
  = (attempt_once o srv name expected loc t2).2
  ∧ agree_off paths (attempt_once o srv name expected loc t1).1
                    (attempt_once o srv name expected loc t2).1.
Proof.
  intros [Hd Hs] Hloc Htemp. unfold attempt_once.
  rewrite (Hs _ Htemp), Hd.
  assert (Hins : ∀ k v s1 s2,
            (∀ p, p ∉ paths → (s1 : disk) !! p = (s2 : disk) !! p) →
            ∀ p, p ∉ paths → <[k := v]> s1 !! p = <[k := v]> s2 !! p).
  { intros k v s1 s2 H p Hp. destruct (decide (p = k)) as [->|Hk].
    - by rewrite !lookup_insert_eq.
    - rewrite !lookup_insert_ne by done. by apply H. }
  assert (Hdel : ∀ k s1 s2,
            (∀ p, p ∉ paths → (s1 : disk) !! p = (s2 : disk) !! p) →
            ∀ p, p ∉ paths → delete k s1 !! p = delete k s2 !! p).
  { intros k s1 s2 H p Hp. destruct (decide (p = k)) as [->|Hk].
    - by rewrite !lookup_delete_eq.
    - rewrite !lookup_delete_ne by done. by apply H. }
  destruct (srv _) as [message|status http_error body broken];
    [by split|].
  destruct (_ && (status <? 600)); [by split|].
  destruct (bool_decide ((loc +:+ ".part") ∈ t_dirs t2)); [by split|].
  destruct broken as [message|].
  { split; [done|]. split; [done|]. cbn [fst t_stat]. by apply Hins. }
  destruct (match expected with Some _ => _ | None => _ end).
  { split; [done|]. split; [done|]. cbn [fst t_stat]. by apply Hins. }
  destruct (bool_decide (loc ∈ t_dirs t2)).
  { split; [done|]. split; [done|]. cbn [fst t_stat]. by apply Hins. }
  split; [done|]. split; [done|]. cbn [fst t_stat].
  apply Hins, Hdel. by apply Hins.
Qed.

Lemma retry_loop_agree (serve : Z → Z → response) (name : string)
    (expected : option Z) (loc : string) (retry_count : Z)
    (rate_limit : bool) (fuel : nat) :
  loc ∉ paths → (loc +:+ ".part") ∉ paths →
  ∀ (attempt : Z) (t1 t2 : tree) (trace : list step),
    agree_off paths t1 t2 →
    let r1 := retry_loop o serve name expected loc retry_count rate_limit
                fuel attempt t1 trace in
    let r2 := retry_loop o serve name expected loc retry_count rate_limit
                fuel attempt t2 trace in
    r1.1.2 = r2.1.2 ∧ r1.2 = r2.2 ∧ agree_off paths r1.1.1 r2.1.1.
Proof.
  intros Hloc Htemp.
  induction fuel as [|fuel IH]; intros attempt t1 t2 trace H; cbn zeta;
    [done|].
  cbn [retry_loop].
  destruct (attempt_once_agree (serve attempt) name expected loc t1 t2 H
              Hloc Htemp) as [Hres Hag].
  destruct (attempt_once o (serve attempt) name expected loc t1) as [t1' r1].
  destruct (attempt_once o (serve attempt) name expected loc t2) as [t2' r2].
  cbn [fst snd] in Hres, Hag. subst r2.
  destruct r1 as [size|f]; [done|].
  destruct (attempt =? retry_count); [done|]. by apply IH.
Qed.

(** A transfer that works inside [paths], whatever the server answers. *)
Lemma retry_loop_own (serve1 serve2 : Z → Z → response) (name : string)
    (expected : option Z) (loc : string) (retry_count : Z)
    (rate_limit : bool) (fuel1 fuel2 : nat) (attempt1 attempt2 : Z)
    (t1 t2 : tree) (trace1 trace2 : list step) :
  loc ∈ paths → (loc +:+ ".part") ∈ paths →
  agree_off paths t1 t2 →
  agree_off paths
    (retry_loop o serve1 name expected loc retry_count rate_limit fuel1
       attempt1 t1 trace1).1.1
    (retry_loop o serve2 name expected loc retry_count rate_limit fuel2
       attempt2 t2 trace2).1.1.
Proof.
  intros Hloc Htemp H.
  destruct (retry_loop_frame o serve1 name expected loc retry_count
              rate_limit fuel1 attempt1 t1 trace1) as (Hd1 & Hp1 & _).
  destruct (retry_loop_frame o serve2 name expected loc retry_count
              rate_limit fuel2 attempt2 t2 trace2) as (Hd2 & Hp2 & _).
  apply (agree_off_frames t1 t2); [done..| |].
  - intros p Hp. apply Hp1; intros ->; done.
  - intros p Hp. apply Hp2; intros ->; done.
Qed.

End agree_facts.

Section settled_facts.

Import Download.

Variable o : os.

Lemma settled_refl (t : tree) : settled t t.
Proof. by split. Qed.

Lemma settled_trans (t1 t2 t3 : tree) :
  settled t1 t2 → settled t2 t3 → settled t1 t3.
Proof.
  intros [Hd1 Hs1] [Hd2 Hs2]. split; [congruence|].
  intros p Hp. rewrite Hs2 by (by rewrite Hd1). by apply Hs1.
Qed.

Lemma dir_there_settled (t t' : tree) (s : string) :
  settled t t' → dir_there t s = true → dir_there t' s = true.
Proof.
  intros [Hd Hs]. unfold dir_there. rewrite !forallb_forall.
  intros H p Hp. specialize (H p Hp).
  apply andb_prop in H as [H1 H2]. rewrite Hd, H1. cbn [andb].
  apply bool_decide_eq_true in H1. by rewrite (Hs p H1).
Qed.

Lemma mkdirs_there (t : tree) (chain : list string) :
  forallb (λ p, bool_decide (p ∈ t_dirs t)
                && bool_decide (is_Some (t_stat t !! p))) chain = true →
  mkdirs o t chain = Some t.
Proof.
  induction chain as [|p chain IH]; [done|].
  cbn [forallb mkdirs]. intros [[H1 H2]%andb_prop H]%andb_prop.
  apply bool_decide_eq_true in H2 as [z ->]. rewrite H1. by apply IH.
Qed.

Lemma ensure_dir_there (t : tree) (s : string) :
  dir_there t s = true → ensure_dir o t s = Some t.
Proof. apply mkdirs_there. Qed.

(** With its directory there, a transfer is its retry loop. *)
Lemma download_one_there (serve : Z → Z → response) (art : ArtifactInfo)
    (loc : string) (retry_count : Z) (rate_limit : bool) (t : tree) :
  dir_there t (parent_text loc) = true →
  _download_one o serve art loc retry_count rate_limit t
  = let r := retry_loop o serve (name_text loc) (size_bytes art) loc
               retry_count rate_limit (Z.to_nat retry_count) 1 t [] in
    (r.1.1, r.1.2, Some r.2).
Proof.
  intros H. unfold _download_one. rewrite (ensure_dir_there t _ H).
  by destruct (retry_loop _ _ _ _ _ _ _ _ _ _ _) as [[t2 trace] result].
Qed.

(** What [mkdir] made is there afterwards, and so is what it found. *)
Lemma mkdirs_keeps (chain : list string) :
  ∀ (t t' : tree) (p : string),
    mkdirs o t chain = Some t' →
    p ∈ t_dirs t → is_Some (t_stat t !! p) →
    p ∈ t_dirs t' ∧ is_Some (t_stat t' !! p).
Proof.
  induction chain as [|q chain IH]; intros t t' p H Hd Hs.
  - by injection H as <-.
  - cbn [mkdirs] in H. destruct (t_stat t !! q) as [z|] eqn:E.
    + destruct (bool_decide (q ∈ t_dirs t)); [by apply (IH t)|done].
    + apply (IH _ _ p H); cbn [t_dirs t_stat].
      * by apply elem_of_union_r.
      * destruct (decide (q = p)) as [->|Hne].
        -- rewrite lookup_insert_eq. by eexists.
        -- by rewrite lookup_insert_ne.
Qed.

Lemma mkdirs_made (chain : list string) :
  ∀ t t' : tree,
    mkdirs o t chain = Some t' →
    forallb (λ p, bool_decide (p ∈ t_dirs t')
                  && bool_decide (is_Some (t_stat t' !! p))) chain = true.
Proof.
  induction chain as [|q chain IH]; intros t t' H; [done|].
  cbn [forallb]. cbn [mkdirs] in H.
  destruct (t_stat t !! q) as [z|] eqn:E.
  - destruct (bool_decide (q ∈ t_dirs t)) eqn:Eq; [|done].
    apply bool_decide_eq_true in Eq.
    destruct (mkdirs_keeps chain t t' q H Eq) as [H1 H2]; [by eexists|].
    rewrite (IH _ _ H), !bool_decide_eq_true_2 by done. done.
  - destruct (mkdirs_keeps chain _ t' q H) as [H1 H2]; cbn [t_dirs t_stat].
    + by apply elem_of_union_l, elem_of_singleton.
    + rewrite lookup_insert_eq. by eexists.
    + rewrite (IH _ _ H), !bool_decide_eq_true_2 by done. done.
Qed.

Lemma ensure_dir_made (t t' : tree) (s : string) :
  ensure_dir o t s = Some t' → dir_there t' s = true.
Proof. apply mkdirs_made. Qed.

(** A transfer does the same on the tree that has its directory made. *)
Lemma download_one_made (serve : Z → Z → response) (art : ArtifactInfo)
    (loc : string) (retry_count : Z) (rate_limit : bool) (t t' : tree) :
  ensure_dir o t (parent_text loc) = Some t' →
  _download_one o serve art loc retry_count rate_limit t
  = _download_one o serve art loc retry_count rate_limit t'.
Proof.
  intros H. unfold _download_one.
  by rewrite H, (ensure_dir_there t' _ (ensure_dir_made _ _ _ H)).
Qed.

Lemma download_one_settled (serve : Z → Z → response) (art : ArtifactInfo)
    (loc : string) (retry_count : Z) (rate_limit : bool) (t : tree) :
  dir_there t (parent_text loc) = true →
  settled t (_download_one o serve art loc retry_count rate_limit t).1.1.
Proof.
  intros H. rewrite (download_one_there _ _ _ _ _ _ H). cbn zeta. cbn [fst].
  destruct (retry_loop_frame o serve (name_text loc) (size_bytes art) loc
              retry_count rate_limit (Z.to_nat retry_count) 1 t [])
    as (Hd & _ & Hq).
  by split.
Qed.

End settled_facts.

Section record_facts.

Import Download.

Variable delivered_dir : string.
Variable compute_sha256 : bool.

Lemma payload_filename (c : completed) :
  payload delivered_dir compute_sha256 c !! "filename"
  = Some (PStr (filename (c_art c))).
Proof. unfold payload. by simplify_map_eq. Qed.

Lemma payload_status (c : completed) :
  payload delivered_dir compute_sha256 c !! "status"
  = Some (PStr (match c_outcome c with Ok _ => "present" | Error _ => "error" end)).
Proof. unfold payload. destruct (c_outcome c); by simplify_map_eq. Qed.

Lemma payload_error (c : completed) :
  payload delivered_dir compute_sha256 c !! "error"
  = Some (match c_outcome c with Ok _ => PNone | Error message => PStr message end).
Proof. unfold payload. destruct (c_outcome c); by simplify_map_eq. Qed.

Lemma filename_truthy (e : entry) (n : string) :
  e_get e "filename" = PStr n → entry_truthy e = true.
Proof.
  intros Hf. unfold entry_truthy. apply orb_true_iff. left.
  apply negb_true_iff, bool_decide_eq_false. intros E.
  unfold e_get, py_get in Hf. by rewrite E, lookup_empty in Hf.
Qed.

(** After a result is recorded, the entry found for the artifact's file
    name carries the payload of the result. *)
Lemma record_result_found (artifacts : list entry) (c : completed) :
  ∃ (i : nat) (e : entry),
    _entry_lookup (record_result delivered_dir compute_sha256 artifacts c)
                  (filename (c_art c)) = Some (i, e)
    ∧ ∀ k v, payload delivered_dir compute_sha256 c !! k = Some v →
             e_get e k = v.
Proof.
  unfold record_result.
  assert (∀ fields errs k v,
            payload delivered_dir compute_sha256 c !! k = Some v →
            e_get (Entry (payload delivered_dir compute_sha256 c ∪ fields) errs) k
            = v) as Hget.
  { intros fields errs k v Hk. unfold e_get, py_get. cbn.
    by rewrite (lookup_union_Some_l _ _ _ _ Hk). }
  destruct (_entry_lookup artifacts (filename (c_art c)))
    as [[i existing]|] eqn:Hfind.
  - pose proof (found_has_filename _ _ _ _ Hfind) as [Hi Hf].
    rewrite (filename_truthy _ _ Hf).
    eexists i, _. split; [|apply Hget].
    unfold _entry_lookup in *.
    rewrite (list_find_insert_alike _ _ i existing); [| done |].
    + rewrite Hfind. cbn. by rewrite decide_True.
    + rewrite Hf. rewrite (Hget _ _ _ _ (payload_filename c)). done.
  - exists (0 + length artifacts)%nat,
           (Entry (payload delivered_dir compute_sha256 c) []).
    split.
    + unfold _entry_lookup in *. rewrite list_find_app_r by done. cbn.
      rewrite decide_True; [done|].
      unfold e_get, py_get. cbn. by rewrite payload_filename.
    + intros k v Hk. unfold e_get, py_get. cbn. by rewrite Hk.
Qed.

(** Recording the result of another artifact leaves the entry found for
    a file name where it is and as it is. *)
Lemma record_result_other (artifacts : list entry) (c : completed)
    (g : string) (i : nat) (e : entry) :
  filename (c_art c) ≠ g →
  _entry_lookup artifacts g = Some (i, e) →
  _entry_lookup (record_result delivered_dir compute_sha256 artifacts c) g
  = Some (i, e).
Proof.
  intros Hne Hg. unfold record_result.
  pose proof (found_has_filename _ _ _ _ Hg) as [Hi Hf].
  destruct (_entry_lookup artifacts (filename (c_art c)))
    as [[j existing]|] eqn:Hfind.
  - pose proof (found_has_filename _ _ _ _ Hfind) as [Hj Hfj].
    rewrite (filename_truthy _ _ Hfj).
    assert (Hij : i ≠ j).
    { intros ->. rewrite Hi in Hj. injection Hj as ->.
      rewrite Hf in Hfj. by injection Hfj as ->. }
    unfold _entry_lookup in *.
    rewrite (list_find_insert_alike _ _ j existing); [|done|].
    + rewrite Hg. cbn. by rewrite decide_False.
    + rewrite Hfj. unfold e_get, py_get. cbn.
      rewrite (lookup_union_Some_l _ _ _ _ (payload_filename c)). cbn.
      split; intros E; injection E as E; by destruct Hne.
  - unfold _entry_lookup in *. by apply list_find_app_l.
Qed.

(** When every result for a file name carries the same outcome, and one
    such result is recorded or the entry was marked with it before, the
    entry found for the name is marked with that outcome in the end. *)
Lemma record_results_recorded (name : string) (result : outcome)
    (results : list completed) :
  Forall (λ c, filename (c_art c) = name → c_outcome c = result) results →
  ∀ artifacts,
    recorded artifacts name
      (match result with Ok _ => "present" | Error _ => "error" end)
      (match result with Ok _ => PNone | Error message => PStr message end)
    ∨ Exists (λ c, filename (c_art c) = name) results →
    recorded (record_results delivered_dir compute_sha256 artifacts results)
      name
      (match result with Ok _ => "present" | Error _ => "error" end)
      (match result with Ok _ => PNone | Error message => PStr message end).
Proof.
  induction 1 as [|c results Hc _ IH]; intros artifacts H.
  - destruct H as [H|H]; [done|]. by apply Exists_nil in H.
  - unfold record_results. cbn [foldl]. apply IH.
    destruct (decide (filename (c_art c) = name)) as [Hn|Hn].
    + left. destruct (record_result_found artifacts c)
        as (i & e & Hfind & Hget).
      exists i, e. rewrite <- Hn. split; [done|].
      rewrite (Hget "status" _ (payload_status c)).
      rewrite (Hget "error" _ (payload_error c)).
      by rewrite (Hc Hn).
    + destruct H as [(i & e & Hfind & Hs & He)|H].
      * left. exists i, e. split; [|done]. by apply record_result_other.
      * right. apply Exists_cons in H as [H|H]; done.
Qed.

End record_facts.

Section result_facts.

Import Download.

Variable delivered_dir : string.
Variable compute_sha256 : bool.

(** On two lists alike up to a relation that respects the test,
    [list_find] stops at the same place. *)
Lemma list_find_alike {A} (P : A → Prop) `{!∀ x, Decision (P x)}
    (R : A → A → Prop) (l1 l2 : list A) :
  (∀ x y, R x y → (P x ↔ P y)) →
  Forall2 R l1 l2 →
  (list_find P l1 = None ∧ list_find P l2 = None)
  ∨ (∃ i x y, list_find P l1 = Some (i, x) ∧ list_find P l2 = Some (i, y)
              ∧ R x y).
Proof.
  intros HR. induction 1 as [|x y l1 l2 Hxy _ IH]; [by left|].
  csimpl. destruct (decide (P x)) as [Hx|Hx].
  - rewrite decide_True by (by apply (HR x y Hxy)).
    right. by exists 0%nat, x, y.
  - rewrite decide_False by (by rewrite <- (HR x y Hxy)).
    destruct IH as [[-> ->]|(i & a & b & -> & -> & Hab)]; [by left|].
    right. by exists (S i), a, b.
Qed.

Lemma same_except_find (name g : string) (l1 l2 : list entry) :
  same_except name l1 l2 →
  (_entry_lookup l1 g = None ∧ _entry_lookup l2 g = None)
  ∨ (∃ i x y, _entry_lookup l1 g = Some (i, x)
              ∧ _entry_lookup l2 g = Some (i, y)
              ∧ e_get x "filename" = PStr g ∧ e_get y "filename" = PStr g
              ∧ (g ≠ name → x = y)).
Proof.
  intros H. unfold _entry_lookup.
  destruct (list_find_alike (λ e, e_get e "filename" = PStr g) _ l1 l2
              (λ x y (Hxy : e_get x "filename" = e_get y "filename"
                             ∧ (e_get x "filename" ≠ PStr name → x = y)),
                 ltac:(destruct Hxy as [-> _]; tauto)) H)
    as [?|(i & x & y & H1 & H2 & Hf & Hxy)]; [by left|].
  right. exists i, x, y.
  pose proof (found_has_filename _ _ _ _ H1) as [_ Hx].
  pose proof (found_has_filename _ _ _ _ H2) as [_ Hy].
  split; [done|]. split; [done|]. split; [done|]. split; [done|].
  intros Hg. apply Hxy. rewrite Hx. intros E. by injection E.
Qed.

(** The entries of another file name are the same in both lists. *)
Lemma same_except_lookup (name g : string) (l1 l2 : list entry) :
  same_except name l1 l2 → g ≠ name →
  _entry_lookup l1 g = _entry_lookup l2 g.
Proof.
  intros H Hg.
  destruct (same_except_find name g l1 l2 H)
    as [[-> ->]|(i & x & y & -> & -> & _ & _ & Hxy)]; [done|].
  by rewrite (Hxy Hg).
Qed.

(** Recording a result keeps two lists alike, when the two results are for
    the same artifact and differ at most for the excepted name. *)
Lemma record_result_same_except (name : string) (l1 l2 : list entry)
    (c1 c2 : completed) :
  same_except name l1 l2 →
  c_art c1 = c_art c2 →
  (filename (c_art c1) ≠ name → c1 = c2) →
  same_except name (record_result delivered_dir compute_sha256 l1 c1)
                   (record_result delivered_dir compute_sha256 l2 c2).
Proof.
  intros H Hart Hc. unfold record_result. rewrite <- Hart.
  assert (∀ f1 f2 e1 e2,
            (filename (c_art c1) ≠ name → f1 = f2 ∧ e1 = e2) →
            e_get (Entry (payload delivered_dir compute_sha256 c1 ∪ f1) e1)
                  "filename"
            = e_get (Entry (payload delivered_dir compute_sha256 c2 ∪ f2) e2)
                    "filename"
            ∧ (e_get (Entry (payload delivered_dir compute_sha256 c1 ∪ f1) e1)
                     "filename" ≠ PStr name →
               Entry (payload delivered_dir compute_sha256 c1 ∪ f1) e1
               = Entry (payload delivered_dir compute_sha256 c2 ∪ f2) e2))
    as Hnew.
  { intros f1 f2 e1 e2 Hsame.
    assert (∀ c f e, e_get (Entry (payload delivered_dir compute_sha256 c ∪ f) e)
                           "filename" = PStr (filename (c_art c))) as Hfn.
    { intros c f e. unfold e_get, py_get. cbn.
      by rewrite (lookup_union_Some_l _ _ _ _ (payload_filename _ _ c)). }
    rewrite !Hfn, <- Hart. split; [done|].
    intros Hne.
    assert (filename (c_art c1) ≠ name) as Hn by (intros E; by rewrite E in Hne).
    destruct (Hsame Hn) as [-> ->]. by rewrite (Hc Hn). }
  destruct (same_except_find name (filename (c_art c1)) l1 l2 H)
    as [[-> ->]|(i & x & y & -> & -> & Hx & Hy & Hxy)].
  - unfold same_except in *. apply Forall2_app; [exact H|].
    constructor; [|constructor].
    rewrite <- (right_id_L ∅ (∪) (payload _ _ c1)).
    rewrite <- (right_id_L ∅ (∪) (payload _ _ c2)).
    apply Hnew. done.
  - rewrite (filename_truthy _ _ Hx), (filename_truthy _ _ Hy).
    unfold same_except in *. apply Forall2_insert; [exact H|].
    apply Hnew. intros Hn. by rewrite (Hxy Hn).
Qed.

Lemma record_results_same_except (name : string) (r1 r2 : list completed) :
  results_except name r1 r2 →
  ∀ l1 l2, same_except name l1 l2 →
    same_except name (record_results delivered_dir compute_sha256 l1 r1)
                     (record_results delivered_dir compute_sha256 l2 r2).
Proof.
  induction 1 as [|c1 c2 r1 r2 [Hart Hc] _ IH]; intros l1 l2 H; [done|].
  unfold record_results in *. cbn [foldl]. apply IH.
  by apply record_result_same_except.
Qed.

Lemma same_except_refl (name : string) (l : list entry) : same_except name l l.
Proof. apply Forall_Forall2_diag, Forall_forall. by intros e _. Qed.

End result_facts.

(** ** The transfers of a run *)

Section transfer_facts.

Import Download.

Variable o : os.
Variable delivered_dir : string.
Variable retry_count : Z.
Variable rate_limit : bool.

Lemma retry_loop_ext (serve serve' : Z → Z → response) (name : string)
    (expected : option Z) (loc : string) (fuel : nat) :
  (∀ x y, serve x y = serve' x y) →
  ∀ attempt t trace,
    retry_loop o serve name expected loc retry_count rate_limit fuel attempt
      t trace
    = retry_loop o serve' name expected loc retry_count rate_limit fuel
        attempt t trace.
Proof.
  intros Hext. induction fuel as [|fuel IH]; intros attempt t trace; [done|].
  cbn [retry_loop].
  assert (E : attempt_once o (serve attempt) name expected loc t
              = attempt_once o (serve' attempt) name expected loc t)
    by (unfold attempt_once; by rewrite Hext).
  rewrite E.
  destruct (attempt_once o (serve' attempt) name expected loc t)
    as [t' [?|?]]; [done|].
  destruct (attempt =? retry_count); [done|]. apply IH.
Qed.

Lemma download_one_ext (serve serve' : Z → Z → response) (art : ArtifactInfo)
    (loc : string) (t : tree) :
  (∀ x y, serve x y = serve' x y) →
  _download_one o serve art loc retry_count rate_limit t
  = _download_one o serve' art loc retry_count rate_limit t.
Proof.
  intros Hext. unfold _download_one.
  destruct (ensure_dir o t (parent_text loc)) as [t1|]; [|done].
  by rewrite (retry_loop_ext serve serve').
Qed.

Lemma run_transfers_ext (serve serve' : string → Z → Z → response)
    (to_fetch : list ArtifactInfo) :
  (∀ a, a ∈ to_fetch → ∀ x y, serve (url a) x y = serve' (url a) x y) →
  ∀ t, run_transfers o serve delivered_dir retry_count rate_limit t to_fetch
       = run_transfers o serve' delivered_dir retry_count rate_limit t
           to_fetch.
Proof.
  induction to_fetch as [|art rest IH]; intros Hext t; [done|].
  cbn [run_transfers].
  rewrite (download_one_ext (serve (url art)) (serve' (url art)))
    by (apply Hext; left).
  destruct (_download_one _ _ _ _ _ _ _) as [[t1 tr] res].
  rewrite IH; [done|]. intros a Ha. apply Hext. by right.
Qed.

Lemma run_transfers_app (serve : string → Z → Z → response)
    (l1 l2 : list ArtifactInfo) :
  ∀ t,
    run_transfers o serve delivered_dir retry_count rate_limit t (l1 ++ l2)
    = let r1 := run_transfers o serve delivered_dir retry_count rate_limit t
                  l1 in
      let r2 := run_transfers o serve delivered_dir retry_count rate_limit
                  r1.1 l2 in
      (r2.1, r1.2 ++ r2.2).
Proof.
  induction l1 as [|art l1 IH]; intros t; cbn zeta.
  - cbn [app run_transfers fst snd].
    by destruct (run_transfers _ _ _ _ _ _ _).
  - cbn [app run_transfers].
    destruct (_download_one _ _ _ _ _ _ _) as [[t1 tr] res].
    rewrite IH. cbn zeta.
    destruct (run_transfers o serve delivered_dir retry_count rate_limit t1 l1)
      as [t2 xs].
    cbn [fst snd].
    by destruct (run_transfers _ _ _ _ _ _ _) as [t3 ys].
Qed.

(** Every queued artifact has its transfer, in the order of the queue. *)
Lemma run_transfers_arts (serve : string → Z → Z → response)
    (to_fetch : list ArtifactInfo) :
  ∀ t, tr_art <$> (run_transfers o serve delivered_dir retry_count rate_limit
                     t to_fetch).2 = to_fetch.
Proof.
  induction to_fetch as [|art rest IH]; intros t; [done|].
  cbn [run_transfers].
  destruct (_download_one _ _ _ _ _ _ _) as [[t1 tr] res].
  specialize (IH t1).
  destruct (run_transfers _ _ _ _ _ _ _) as [t2 xs].
  cbn [fst snd fmap list_fmap tr_art] in *. by rewrite IH.
Qed.

(** *** Paths of different artifacts *)

Lemma str_app_inv_head (a b c : string) : a +:+ b = a +:+ c → b = c.
Proof.
  induction a as [|x a IH]; [done|].
  rewrite !str_app_cons. intros E. injection E as E. by apply IH.
Qed.

Lemma str_length_app (a b : string) :
  String.length (a +:+ b) = (String.length a + String.length b)%nat.
Proof.
  induction a as [|x a IH]; [done|].
  rewrite str_app_cons. cbn [String.length]. by rewrite IH.
Qed.

Lemma str_app_inv_tail (a b c : string) : a +:+ c = b +:+ c → a = b.
Proof.
  revert b. induction a as [|x a IH]; intros b E.
  - destruct b as [|y b]; [done|].
    apply (f_equal String.length) in E.
    rewrite str_app_nil, str_length_app in E. cbn [String.length] in E. lia.
  - destruct b as [|y b].
    + apply (f_equal String.length) in E.
      rewrite str_app_nil, str_length_app in E. cbn [String.length] in E.
      lia.
    + rewrite !str_app_cons in E. injection E as -> E. by rewrite (IH b E).
Qed.

Lemma local_path_inj (n1 n2 : string) :
  local_path delivered_dir n1 = local_path delivered_dir n2 → n1 = n2.
Proof.
  unfold local_path.
  intros E%str_app_inv_head. by apply (str_app_inv_head "/").
Qed.

Lemma local_path_part (n : string) :
  local_path delivered_dir n +:+ ".part"
  = local_path delivered_dir (n +:+ ".part").
Proof. unfold local_path. by rewrite !str_app_assoc. Qed.

(** The files of an artifact apart from [a] are not the files of [a]. *)
Lemma apart_paths (a b : ArtifactInfo) :
  apart a b = true →
  (local_path delivered_dir (filename b) ∉ own_paths delivered_dir a)
  ∧ ((local_path delivered_dir (filename b) +:+ ".part")
     ∉ own_paths delivered_dir a).
Proof.
  unfold apart, own_paths. rewrite !andb_true_iff, !negb_true_iff.
  intros [[H1%String.eqb_neq H2%String.eqb_neq] H3%String.eqb_neq].
  rewrite !local_path_part. split.
  - intros [E|E]%elem_of_union; apply elem_of_singleton in E;
      apply local_path_inj in E; done.
  - intros [E|E]%elem_of_union; apply elem_of_singleton in E;
      apply local_path_inj in E; [done|].
    by apply str_app_inv_tail in E.
Qed.

Lemma own_paths_own (a : ArtifactInfo) :
  local_path delivered_dir (filename a) ∈ own_paths delivered_dir a
  ∧ (local_path delivered_dir (filename a) +:+ ".part")
    ∈ own_paths delivered_dir a.
Proof. unfold own_paths. split; set_solver. Qed.

(** *** Transfers beside the files of another artifact *)

(** What makes a queued artifact independent of [paths]: its two files are
    outside, and its directory is there. *)
Lemma run_transfers_agree (paths : gset string)
    (serve serve' : string → Z → Z → response) (bs : list ArtifactInfo) :
  ∀ t1 t2,
    agree_off paths t1 t2 →
    Forall (λ b,
              (local_path delivered_dir (filename b) ∉ paths)
              ∧ ((local_path delivered_dir (filename b) +:+ ".part") ∉ paths)
              ∧ (∀ x y, serve' (url b) x y = serve (url b) x y)
              ∧ dir_there t1 (parent_text
                                (local_path delivered_dir (filename b))) = true
              ∧ dir_there t2 (parent_text
                                (local_path delivered_dir (filename b))) = true)
           bs →
    let r1 := run_transfers o serve delivered_dir retry_count rate_limit t1
                bs in
    let r2 := run_transfers o serve' delivered_dir retry_count rate_limit t2
                bs in
    r1.2 = r2.2
    ∧ agree_off paths r1.1 r2.1
    ∧ settled t1 r1.1 ∧ settled t2 r2.1
    ∧ Forall (λ x, is_Some (tr_result x)) r1.2.
Proof.
  induction bs as [|b bs IH]; intros t1 t2 Hag Hbs; cbn zeta.
  - cbn [run_transfers fst snd].
    split; [done|]. split; [done|].
    split; [apply settled_refl|]. split; [apply settled_refl|constructor].
  - apply Forall_cons in Hbs as [(Hloc & Htemp & Hsrv & Hd1 & Hd2) Hbs].
    cbn [run_transfers].
    pose proof (download_one_settled o (serve (url b)) b _ retry_count
                  rate_limit t1 Hd1) as Hs1.
    pose proof (download_one_settled o (serve' (url b)) b _ retry_count
                  rate_limit t2 Hd2) as Hs2.
    rewrite (download_one_ext (serve' (url b)) (serve (url b))) in Hs2 |- *
      by done.
    rewrite (download_one_there o _ _ _ _ _ t1 Hd1) in Hs1 |- *.
    rewrite (download_one_there o _ _ _ _ _ t2 Hd2) in Hs2 |- *.
    cbn zeta in *. cbn [fst] in Hs1, Hs2.
    destruct (retry_loop_agree o paths (serve (url b)) (name_text (local_path delivered_dir (filename b)))
                (size_bytes b) _ retry_count rate_limit
                (Z.to_nat retry_count) Hloc Htemp 1 t1 t2 [] Hag)
      as (Htr & Hres & Hag').
    destruct (retry_loop o (serve (url b)) (name_text (local_path delivered_dir (filename b))) (size_bytes b) _
                retry_count rate_limit (Z.to_nat retry_count) 1 t1 [])
      as [[u1 tr1] res1].
    destruct (retry_loop o (serve (url b)) (name_text (local_path delivered_dir (filename b))) (size_bytes b) _
                retry_count rate_limit (Z.to_nat retry_count) 1 t2 [])
      as [[u2 tr2] res2].
    cbn [fst snd] in *. subst tr2 res2.
    assert (Hbs' : Forall (λ b,
              (local_path delivered_dir (filename b) ∉ paths)
              ∧ ((local_path delivered_dir (filename b) +:+ ".part") ∉ paths)
              ∧ (∀ x y, serve' (url b) x y = serve (url b) x y)
              ∧ dir_there u1 (parent_text
                                (local_path delivered_dir (filename b))) = true
              ∧ dir_there u2 (parent_text
                                (local_path delivered_dir (filename b))) = true)
           bs).
    { eapply Forall_impl; [exact Hbs|]. cbn.
      intros c (? & ? & ? & H1 & H2).
      split; [done|]. split; [done|]. split; [done|].
      split; [by apply (dir_there_settled t1)|by apply (dir_there_settled t2)]. }
    destruct (IH u1 u2 Hag' Hbs') as (Hx & Hag'' & Hs1' & Hs2' & Hall).
    destruct (run_transfers o serve delivered_dir retry_count rate_limit u1 bs)
      as [v1 xs1].
    destruct (run_transfers o serve' delivered_dir retry_count rate_limit u2 bs)
      as [v2 xs2].
    cbn [fst snd] in *. subst xs2.
    split; [done|]. split; [done|].
    split; [by apply (settled_trans t1 u1)|].
    split; [by apply (settled_trans t2 u2)|].
    constructor; [by eexists|done].
Qed.

(** The transfers of a queue in which [a] stands between [front] and
    [back], under two servers that differ for [a] at most: the transfers of
    the other artifacts are the same, all transfers return, and the transfer
    of [a] is a run of its retry loop. *)
Lemma run_transfers_split (serve serve' : string → Z → Z → response)
    (t : tree) (front back : list ArtifactInfo) (a : ArtifactInfo) :
  Forall (λ b, apart a b = true) (front ++ back) →
  Forall (λ b, dir_there t (parent_text
                              (local_path delivered_dir (filename b))) = true)
         (front ++ a :: back) →
  (∀ b, b ∈ front ++ back → ∀ x y, serve' (url b) x y = serve (url b) x y) →
  ∃ (xs ys : list transfer) (t1 t2 : tree),
    (run_transfers o serve delivered_dir retry_count rate_limit t
       (front ++ a :: back)).2
    = xs ++ Transfer a
              (retry_loop o (serve (url a)) (name_text (local_path delivered_dir (filename a))) (size_bytes a)
                 (local_path delivered_dir (filename a)) retry_count
                 rate_limit (Z.to_nat retry_count) 1 t1 []).1.2
              (Some (retry_loop o (serve (url a)) (name_text (local_path delivered_dir (filename a))) (size_bytes a)
                       (local_path delivered_dir (filename a)) retry_count
                       rate_limit (Z.to_nat retry_count) 1 t1 []).2)
         :: ys
    ∧ (run_transfers o serve' delivered_dir retry_count rate_limit t
         (front ++ a :: back)).2
      = xs ++ Transfer a
                (retry_loop o (serve' (url a)) (name_text (local_path delivered_dir (filename a))) (size_bytes a)
                   (local_path delivered_dir (filename a)) retry_count
                   rate_limit (Z.to_nat retry_count) 1 t2 []).1.2
                (Some (retry_loop o (serve' (url a)) (name_text (local_path delivered_dir (filename a)))
                         (size_bytes a)
                         (local_path delivered_dir (filename a)) retry_count
                         rate_limit (Z.to_nat retry_count) 1 t2 []).2)
           :: ys
    ∧ tr_art <$> xs = front ∧ tr_art <$> ys = back
    ∧ Forall (λ x, is_Some (tr_result x)) (xs ++ ys).
Proof.
  intros Hapart Hdirs Hothers.
  apply Forall_app in Hapart as [Hfront Hback].
  apply Forall_app in Hdirs as [Hdfront Hdrest].
  apply Forall_cons in Hdrest as [Hda Hdback].
  set (paths := own_paths delivered_dir a).
  assert (Hind : ∀ (bs : list ArtifactInfo) (u1 u2 : tree),
            Forall (λ b, apart a b = true) bs →
            (∀ b, b ∈ bs → ∀ x y, serve' (url b) x y = serve (url b) x y) →
            Forall (λ b, dir_there t
                           (parent_text
                              (local_path delivered_dir (filename b))) = true)
                   bs →
            settled t u1 → settled t u2 →
            Forall (λ b,
              (local_path delivered_dir (filename b) ∉ paths)
              ∧ ((local_path delivered_dir (filename b) +:+ ".part") ∉ paths)
              ∧ (∀ x y, serve' (url b) x y = serve (url b) x y)
              ∧ dir_there u1 (parent_text
                                (local_path delivered_dir (filename b))) = true
              ∧ dir_there u2 (parent_text
                                (local_path delivered_dir (filename b))) = true)
              bs).
  { intros bs u1 u2 Hap Hsrv Hd Hs1 Hs2. apply Forall_forall. intros b Hb.
    rewrite Forall_forall in Hap, Hd.
    destruct (apart_paths a b (Hap b Hb)) as [H1 H2].
    split; [done|]. split; [done|]. split; [by apply Hsrv|].
    split; [apply (dir_there_settled t)|apply (dir_there_settled t)];
      auto. }
  assert (Hof : ∀ b, b ∈ front → ∀ x y, serve' (url b) x y = serve (url b) x y).
  { intros b Hb. apply Hothers, elem_of_app. by left. }
  assert (Hob : ∀ b, b ∈ back → ∀ x y, serve' (url b) x y = serve (url b) x y).
  { intros b Hb. apply Hothers, elem_of_app. by right. }
  rewrite !run_transfers_app. cbn zeta. cbn [snd fst].
  pose proof (run_transfers_arts serve front t) as Hfr.
  destruct (run_transfers_agree paths serve serve' front t t
              (agree_off_refl paths t)
              (Hind front t t Hfront Hof
                 Hdfront (settled_refl t) (settled_refl t)))
    as (Hxs & Hag & Hs1 & Hs2 & Hall).
  destruct (run_transfers o serve delivered_dir retry_count rate_limit t front)
    as [u1 xs].
  destruct (run_transfers o serve' delivered_dir retry_count rate_limit t front)
    as [u2 xs'].
  cbn [fst snd] in *. subst xs'.
  cbn [run_transfers].
  pose proof (dir_there_settled t u1 _ Hs1 Hda) as Hda1.
  pose proof (dir_there_settled t u2 _ Hs2 Hda) as Hda2.
  pose proof (download_one_settled o (serve (url a)) a _ retry_count
                rate_limit u1 Hda1) as Hsa1.
  pose proof (download_one_settled o (serve' (url a)) a _ retry_count
                rate_limit u2 Hda2) as Hsa2.
  rewrite (download_one_there o _ _ _ _ _ u1 Hda1) in Hsa1 |- *.
  rewrite (download_one_there o _ _ _ _ _ u2 Hda2) in Hsa2 |- *.
  cbn zeta in *. cbn [fst] in Hsa1, Hsa2.
  destruct (own_paths_own a) as [Hown1 Hown2]. fold paths in Hown1, Hown2.
  pose proof (retry_loop_own o paths (serve (url a)) (serve' (url a))
                (name_text (local_path delivered_dir (filename a))) (size_bytes a) _ retry_count rate_limit
                (Z.to_nat retry_count) (Z.to_nat retry_count) 1 1 u1 u2 [] []
                Hown1 Hown2 Hag) as Hag'.
  exists xs.
  destruct (retry_loop o (serve (url a)) (name_text (local_path delivered_dir (filename a))) (size_bytes a) _
              retry_count rate_limit (Z.to_nat retry_count) 1 u1 [])
    as [[v1 tr1] res1] eqn:E1.
  destruct (retry_loop o (serve' (url a)) (name_text (local_path delivered_dir (filename a))) (size_bytes a) _
              retry_count rate_limit (Z.to_nat retry_count) 1 u2 [])
    as [[v2 tr2] res2] eqn:E2.
  cbn [fst snd] in *.
  destruct (run_transfers_agree paths serve serve' back v1 v2 Hag'
              (Hind back v1 v2 Hback Hob
                 Hdback (settled_trans _ _ _ Hs1 Hsa1)
                 (settled_trans _ _ _ Hs2 Hsa2)))
    as (Hys & _ & _ & _ & Hall').
  pose proof (run_transfers_arts serve back v1) as Hbk.
  destruct (run_transfers o serve delivered_dir retry_count rate_limit v1 back)
    as [w1 ys].
  destruct (run_transfers o serve' delivered_dir retry_count rate_limit v2 back)
    as [w2 ys'].
  cbn [fst snd] in *. subst ys'.
  exists ys, u1, u2. rewrite E1, E2. cbn [fst snd].
  split; [done|]. split; [done|].
  split; [done|]. split; [done|]. by apply Forall_app.
Qed.

(** The run is the same on the tree in which the first transfer has made
    its directory. *)
Lemma run_transfers_made (serve : string → Z → Z → response)
    (t t' : tree) (a : ArtifactInfo) (queue : list ArtifactInfo) :
  ensure_dir o t (parent_text (local_path delivered_dir (filename (hd a queue))))
  = Some t' →
  queue ≠ [] →
  run_transfers o serve delivered_dir retry_count rate_limit t queue
  = run_transfers o serve delivered_dir retry_count rate_limit t' queue.
Proof.
  intros H Hne. destruct queue as [|b rest]; [done|].
  cbn [hd] in H. cbn [run_transfers].
  by rewrite (download_one_made o _ _ _ _ _ _ _ H).
Qed.

End transfer_facts.

Section finished_facts.

Import Download.

Variable delivered_dir : string.
Variable sha256_file : string → string.
Variable clock : nat → nat → string.

(** What the loop over the futures meets comes from the transfers. *)
Lemma completed_in_elem (order : list nat)
    (results : list (ArtifactInfo * outcome)) (c : completed) :
  c ∈ completed_in order results delivered_dir sha256_file clock →
  (c_art c, c_outcome c) ∈ results.
Proof.
  unfold completed_in. intros (k & [a r] & -> & Hk)%elem_of_lookup_imap.
  apply list_elem_of_lookup_2, list_elem_of_omap in Hk as (i & _ & Hi).
  by apply list_elem_of_lookup_2 in Hi.
Qed.

Lemma completed_in_meets (order : list nat)
    (results : list (ArtifactInfo * outcome)) (n : nat) (a : ArtifactInfo)
    (r : outcome) :
  n ∈ order → results !! n = Some (a, r) →
  Exists (λ c, filename (c_art c) = filename a)
         (completed_in order results delivered_dir sha256_file clock).
Proof.
  intros Hn Hr. unfold completed_in.
  assert ((a, r) ∈ omap (λ i, results !! i) order) as Hin
    by (apply list_elem_of_omap; eauto).
  apply list_elem_of_lookup_1 in Hin as [k Hk].
  apply Exists_exists.
  exists (Completed a r
            (sha256_file (local_path delivered_dir (filename a)))
            (clock k 0%nat) (clock k 1%nat)).
  split; [|done].
  apply (elem_of_lookup_imap_2
           (λ k t, Completed t.1 t.2
                     (sha256_file (local_path delivered_dir (filename t.1)))
                     (clock k 0%nat) (clock k 1%nat)) _ (a, r) k Hk).
Qed.

(** Results that differ for one file name at most are met alike but for
    that name. *)
Lemma completed_in_except (name : string) (order : list nat)
    (r1 r2 : list (ArtifactInfo * outcome)) :
  Forall2 (λ x y, x.1 = y.1 ∧ (filename x.1 ≠ name → x = y)) r1 r2 →
  results_except name
    (completed_in order r1 delivered_dir sha256_file clock)
    (completed_in order r2 delivered_dir sha256_file clock).
Proof.
  intros H. unfold completed_in, results_except.
  assert (Forall2 (λ x y, x.1 = y.1 ∧ (filename x.1 ≠ name → x = y))
            (omap (λ i, r1 !! i) order) (omap (λ i, r2 !! i) order)) as Ho.
  { induction order as [|i order IH]; [constructor|]. csimpl.
    destruct (r1 !! i) as [x|] eqn:E1.
    - destruct (Forall2_lookup_l _ _ _ _ _ H E1) as (y & -> & Hxy).
      by constructor.
    - destruct (r2 !! i) as [y|] eqn:E2; [|done].
      destruct (Forall2_lookup_r _ _ _ _ _ H E2) as (x & E & _). congruence. }
  revert Ho. generalize (omap (λ i, r1 !! i) order)
                        (omap (λ i, r2 !! i) order).
  generalize clock. intros g l1 l2 Ho. revert g.
  induction Ho as [|x y l1 l2 [Hart Hxy] _ IH]; intros g; [constructor|].
  rewrite !imap_cons. constructor; [|exact (IH (λ k, g (S k)))].
  cbn [c_art]. split; [done|]. intros Hn. by rewrite (Hxy Hn).
Qed.

End finished_facts.

(** What the futures return when none of the transfers raised. *)
Lemma returned_all (xs : list Download.transfer) :
  Forall (λ x, is_Some (Download.tr_result x)) xs →
  ∃ rs, Download.returned xs = Some rs ∧ rs.*1 = Download.tr_art <$> xs.
Proof.
  induction 1 as [|x xs [r Hx] _ (rs & Hrs & Harts)].
  - by exists [].
  - exists ((Download.tr_art x, r) :: rs). unfold Download.returned in *.
    split.
    + apply mapM_Some. apply mapM_Some in Hrs.
      constructor; [by rewrite Hx|done].
    + cbn [fmap list_fmap fst]. by rewrite <- Harts.
Qed.

Lemma returned_app_cons (xs ys : list Download.transfer)
    (rx ry : list (Download.ArtifactInfo * Download.outcome))
    (a : Download.ArtifactInfo) (trace : list Download.step)
    (r : Download.outcome) :
  Download.returned xs = Some rx → Download.returned ys = Some ry →
  Download.returned (xs ++ Download.Transfer a trace (Some r) :: ys)
  = Some (rx ++ (a, r) :: ry).
Proof.
  unfold Download.returned. rewrite !mapM_Some. intros Hx Hy.
  apply Forall2_app; [done|]. by constructor.
Qed.

(** C5.  A run of the download manager has [a] in its queue, between
    [front] and [back], with [1 ≤ retry_count]; the other queued artifacts
    have files of their own, the directory of every local path is there
    once the first transfer has made its own (as when all files go into
    the directory of delivered files, be it there before the run or not),
    and every future is handled once.  Then the transfer of [a] makes its
    attempts one after the other, at most [retry_count] of them, each
    failed attempt but the last followed by a sleep of [min(2^attempt, 10)]
    seconds; either an attempt succeeds, or the attempt numbered
    [retry_count] fails, its message is what the transfer returns, and the
    manifest that the run saves has the entry of [a] with status [error]
    and that message.  The run is not cut short: every queued artifact has
    its transfer, and the manifest is saved with its history record.  And
    whatever the server does for [a], the others come out the same: under a
    server [serve'] that differs from [serve] for [a] at most, the
    transfers of the other artifacts and the entries of every other file
    name are the same. *)
Theorem transfer_retries_then_error_is_local
    (o : Download.os) (record : Download.MousRecord)
    (on_disk : option manifest) (t : Download.tree)
    (delivered_dir artifacts_spec : string)
    (available : list Download.ArtifactInfo) (retry_count : Z)
    (rate_limit compute_sha256 : bool)
    (serve serve' : string → Z → Z → Download.response) (order : list nat)
    (sha256_file : string → string) (read_clock : nat → string)
    (scan_clock result_clock : nat → nat → string)
    (now_history now_saved : string)
    (front back : list Download.ArtifactInfo) (a : Download.ArtifactInfo)
    (made : Download.tree)
    (Hretry : 1 ≤ retry_count)
    (Hqueue :
       Download.sc_to_fetch
         (Download.scan_loop (resolve_artifact_selection artifacts_spec)
            delivered_dir (Download.t_stat t) scan_clock 0
            (Download.Scan
               (m_artifacts (Download._read_manifest on_disk record read_clock))
               [])
            available)
       = front ++ a :: back)
    (Hapart : Forall (λ b, Download.apart a b = true) (front ++ back))
    (Hmade :
       Download.ensure_dir o t
         (Download.parent_text
            (Download.local_path delivered_dir
               (Download.filename (hd a front))))
       = Some made)
    (Hdirs :
       Forall (λ b, Download.dir_there made
                      (Download.parent_text
                         (Download.local_path delivered_dir
                            (Download.filename b))) = true)
              (front ++ a :: back))
    (Horder : order ≡ₚ seq 0 (length (front ++ a :: back)))
    (Hothers : ∀ b, b ∈ front ++ back →
                    ∀ x y, serve' (Download.url b) x y
                           = serve (Download.url b) x y) :
  let run := Download.download_for_record o record on_disk t delivered_dir
               artifacts_spec available retry_count rate_limit compute_sha256
               serve order sha256_file read_clock scan_clock result_clock
               now_history now_saved in
  let run' := Download.download_for_record o record on_disk t delivered_dir
                artifacts_spec available retry_count rate_limit
                compute_sha256 serve' order sha256_file read_clock scan_clock
                result_clock now_history now_saved in
  ∃ (trace : list Download.step) (result : Download.outcome)
    (m m' : manifest),
    Download.r_transfers run !! length front
    = Some (Download.Transfer a trace (Some result))
    ∧ Download.tr_art <$> Download.r_transfers run = front ++ a :: back
    ∧ Download.r_manifest run = Some m
    ∧ Download.r_manifest run' = Some m'
    ∧ (∃ (fails : list Download.failure) (final : list Download.step),
         trace = Download.failed_attempts 1 fails ++ final
         ∧ Z.of_nat (length fails) < retry_count
         ∧ ((∃ size,
               result = Download.Ok size
               ∧ final = Download.Attempt (1 + Z.of_nat (length fails)) None
                           :: (if rate_limit then [Download.RateLimitSleep]
                               else []))
            ∨ (∃ f,
                 result = Download.Error (Download.failure_text f)
                 ∧ final = [Download.Attempt retry_count (Some f)]
                 ∧ 1 + Z.of_nat (length fails) = retry_count
                 ∧ Download.recorded (m_artifacts m) (Download.filename a)
                     "error" (PStr (Download.failure_text f)))))
    ∧ m_history m
      = m_history (Download._read_manifest on_disk record read_clock)
        ++ [EvDownload now_history
              (Download.sorted_kinds (resolve_artifact_selection artifacts_spec))
              (length (front ++ a :: back))]
    ∧ (∀ k, k ≠ length front →
            Download.r_transfers run !! k = Download.r_transfers run' !! k)
    ∧ (∀ other, other ≠ Download.filename a →
                Download._entry_lookup (m_artifacts m) other
                = Download._entry_lookup (m_artifacts m') other).
Proof.
  intros run run'. subst run run'.
  assert (Hrun : ∀ sv,
            Download.run_transfers o sv delivered_dir retry_count rate_limit t
              (front ++ a :: back)
            = Download.run_transfers o sv delivered_dir retry_count rate_limit
                made (front ++ a :: back)).
  { intros sv. apply (run_transfers_made o delivered_dir retry_count rate_limit sv t
                        made a).
    - by destruct front.
    - by destruct front. }
  clear Hmade.
  destruct (run_transfers_split o delivered_dir retry_count rate_limit serve
              serve' made front back a Hapart Hdirs Hothers)
    as (xs & ys & t1 & t2 & Hr1 & Hr2 & Hfront & Hback & Hall).
  apply Forall_app in Hall as [Hallx Hally].
  destruct (returned_all xs Hallx) as (rx & Hrx & Hrx1).
  destruct (returned_all ys Hally) as (ry & Hry & Hry1).
  destruct (retry_loop_shape o (serve (Download.url a)) (Download.name_text
                 (Download.local_path delivered_dir (Download.filename a)))
              (Download.size_bytes a)
              (Download.local_path delivered_dir (Download.filename a))
              retry_count rate_limit (Z.to_nat retry_count) 1 t1 [])
    as (fails & final & Htrace & Hle & Hres); [lia|lia|].
  revert Hr1 Hr2 Htrace Hres.
  generalize (Download.retry_loop o (serve (Download.url a))
                (Download.name_text
                 (Download.local_path delivered_dir (Download.filename a))) (Download.size_bytes a)
                (Download.local_path delivered_dir (Download.filename a))
                retry_count rate_limit (Z.to_nat retry_count) 1 t1 []).
  generalize (Download.retry_loop o (serve' (Download.url a))
                (Download.name_text
                 (Download.local_path delivered_dir (Download.filename a))) (Download.size_bytes a)
                (Download.local_path delivered_dir (Download.filename a))
                retry_count rate_limit (Z.to_nat retry_count) 1 t2 []).
  intros [[v2 trace2] result2] [[v1 trace1] result1].
  cbn [fst snd app]. intros Hr1 Hr2 -> Hres.
  assert (Hlen : length xs = length front)
    by (by rewrite <- Hfront, length_fmap).
  unfold Download.download_for_record. rewrite Hqueue.
  destruct (front ++ a :: back) as [|a0 queue] eqn:Equeue;
    [by destruct front|].
  rewrite !Hrun.
  destruct (Download.run_transfers o serve delivered_dir retry_count
              rate_limit made (a0 :: queue)) as [u1 transfers1].
  destruct (Download.run_transfers o serve' delivered_dir retry_count
              rate_limit made (a0 :: queue)) as [u2 transfers2].
  cbn [snd] in Hr1, Hr2. subst transfers1 transfers2.
  rewrite !(returned_app_cons xs ys rx ry) by done.
  cbn [Download.r_manifest Download.r_transfers mbind option_bind].
  eexists _, result1, _, _.
  split; [by rewrite <- Hlen, list_lookup_middle|].
  split.
  { rewrite fmap_app, fmap_cons, Hfront, Hback. done. }
  split; [reflexivity|]. split; [reflexivity|].
  cbn [m_artifacts m_history].
  set (m0 := Download._read_manifest on_disk record read_clock).
  set (s := Download.scan_loop _ _ _ _ _ _ _).
  assert (Hfrom : ∀ (r : Download.outcome) (x : Download.ArtifactInfo * Download.outcome),
            x ∈ rx ++ (a, r) :: ry →
            Download.filename x.1 = Download.filename a → x.2 = r).
  { intros r x Hx Hname.
    apply elem_of_app in Hx as [Hx|Hx]; [exfalso|].
    - assert (x.1 ∈ front) as Hin.
      { rewrite <- Hfront, <- Hrx1. apply list_elem_of_fmap. eauto. }
      apply Forall_app in Hapart as [Hap _].
      rewrite Forall_forall in Hap. specialize (Hap _ Hin).
      unfold Download.apart in Hap. rewrite Hname, String.eqb_refl in Hap.
      done.
    - apply elem_of_cons in Hx as [->|Hx]; [done|exfalso].
      assert (x.1 ∈ back) as Hin.
      { rewrite <- Hback, <- Hry1. apply list_elem_of_fmap. eauto. }
      apply Forall_app in Hapart as [_ Hap].
      rewrite Forall_forall in Hap. specialize (Hap _ Hin).
      unfold Download.apart in Hap. rewrite Hname, String.eqb_refl in Hap.
      done. }
  split.
  { exists fails, final. split; [done|]. split; [lia|].
    destruct Hres as [(size & -> & ->)|(f & -> & -> & Hlast)].
    - left. by exists size.
    - right. exists f. split; [done|]. split; [done|]. split; [done|].
      apply (record_results_recorded delivered_dir compute_sha256
               (Download.filename a)
               (Download.Error (Download.failure_text f))).
      + apply Forall_forall. intros c Hc Hname.
        apply completed_in_elem in Hc.
        apply (Hfrom _ _ Hc Hname).
      + right. apply (completed_in_meets _ _ _ _ _ (length front) a
                        (Download.Error (Download.failure_text f))).
        * rewrite Horder. apply elem_of_seq. rewrite <- Equeue, length_app.
          cbn [length]. lia.
        * apply list_lookup_middle.
          apply (f_equal length) in Hrx1. rewrite !length_fmap in Hrx1.
          lia. }
  split; [done|]. split.
  { intros k Hk. rewrite <- Hlen in Hk.
    destruct (decide (k < length xs)%nat).
    - by rewrite !lookup_app_l.
    - rewrite !lookup_app_r by lia.
      destruct (k - length xs)%nat as [|j] eqn:E; [lia|done]. }
  intros other Hne.
  apply (same_except_lookup (Download.filename a)); [|done].
  apply record_results_same_except; [|apply same_except_refl].
  apply completed_in_except.
  apply Forall2_app; [by apply Forall_Forall2_diag, Forall_forall|].
  constructor; [by split|].
  by apply Forall_Forall2_diag, Forall_forall.
Qed.

Lemma transfer_retries_then_error_is_local_witness :
  ∃ m : manifest,
    Download.r_manifest Ex2.run_both = Some m
    ∧ Download.recorded (m_artifacts m) "member.auxproducts.tgz" "error"
        (PStr "connection refused")
    ∧ Download.lookup_status (m_artifacts m) "member.cube.fits"
      = Some (PStr "present").
Proof.
  destruct (transfer_retries_then_error_is_local Ex.linux Ex.unit_record
              (Some Ex.old_manifest) Ex.delivered_tree "/data/delivered"
              "default,cubes" [Ex.aux_art (Some 10); Ex2.cube_art] 3 false
              false Ex2.cube_only Ex2.cube_only [1%nat; 0%nat] (λ _, "")
              Ex.read_clock Ex.later Ex.later "2024-06-01T00:00:01Z"
              "2024-06-01T00:00:02Z" [] [Ex2.cube_art] (Ex.aux_art (Some 10))
              Ex.delivered_tree)
    as (trace & result & m & m' & H0 & _ & Hm & _ & Hshape & _).
  - lia.
  - vm_compute. reflexivity.
  - constructor; [reflexivity|constructor].
  - vm_compute. reflexivity.
  - constructor; [reflexivity|]. constructor; [reflexivity|constructor].
  - apply perm_swap.
  - done.
  - exists m. split; [exact Hm|].
    assert (Hres : result = Download.Error "connection refused").
    { vm_compute in H0. by injection H0 as _ <-. }
    destruct Hshape
      as (fails & final & _ & _ & [(size & Hr & _)|(f & Hr & _ & _ & Hrec)]).
    + rewrite Hr in Hres. discriminate.
    + rewrite Hr in Hres. injection Hres as Hres. rewrite Hres in Hrec.
      split; [exact Hrec|].
      vm_compute in Hm. injection Hm as <-. vm_compute. reflexivity.
Defined.


(** ** What a run with nothing to fetch does to the manifest *)

Section rerun_facts.

Import Download.

Variable selected_kinds : gset string.
Variable delivered_dir : string.
Variable d : disk.

(** What one iteration of the scan does to the list of entries, with what
    made it do so. *)
Lemma scan_step_shape (now : nat → string) (acc : scan) (art : ArtifactInfo) :
  let acc' := scan_step selected_kinds delivered_dir d now acc art in
  sc_artifacts acc' = sc_artifacts acc
  ∨ (∃ i existing,
       _entry_lookup (sc_artifacts acc) (filename art) = Some (i, existing)
       ∧ sc_artifacts acc'
         = <[i := refreshed delivered_dir d existing art (now 0%nat)]>
             (sc_artifacts acc))
  ∨ (∃ e,
       _artifact_selected (kind art) selected_kinds = true
       ∧ _artifact_exists d (local_path delivered_dir (filename art))
                          (size_bytes art) = true
       ∧ _entry_lookup (sc_artifacts acc) (filename art) = None
       ∧ e_get e "filename" = PStr (filename art)
       ∧ e_get e "status" = PStr "present"
       ∧ sc_artifacts acc' = sc_artifacts acc ++ [e]).
Proof.
  cbn zeta. unfold scan_step.
  destruct (_artifact_selected (kind art) selected_kinds) eqn:Hsel;
    cbn [negb]; [|by left].
  destruct (_entry_lookup (sc_artifacts acc) (filename art))
    as [[i existing]|] eqn:Hfind.
  - pose proof (found_has_filename _ _ _ _ Hfind) as [_ Hf].
    rewrite (filename_truthy _ _ Hf).
    destruct (_ || _); [|by left].
    right. left. by exists i, existing.
  - cbn [fmap option_fmap option_map _artifact_satisfied_without_archive_file].
    rewrite orb_false_r.
    destruct (_artifact_exists d _ _) eqn:Hex; [|by left].
    right. right. eexists. split; [done|]. split; [done|]. split; [done|].
    cbn [sc_artifacts]. split; [|split; [|reflexivity]].
    + unfold e_get, py_get. cbn. by simplify_map_eq.
    + unfold e_get, py_get. cbn. by simplify_map_eq.
Qed.

Variable clock : nat → nat → string.

(** The scan keeps the entries it starts from in their places, under their
    file names, and puts after them entries for listed artifacts only. *)
Lemma scan_loop_bound (artifacts : list entry)
    (available : list ArtifactInfo) (rest : list ArtifactInfo) :
  (∀ art, art ∈ rest → art ∈ available) →
  ∀ (i : nat) (acc : scan),
    (∃ kept added,
       sc_artifacts acc = kept ++ added
       ∧ Forall2 (λ e e', e_get e "filename" = e_get e' "filename")
                 artifacts kept
       ∧ Forall (appended_for selected_kinds delivered_dir d artifacts
                   available) added) →
    ∃ kept added,
      sc_artifacts (scan_loop selected_kinds delivered_dir d clock i acc rest)
      = kept ++ added
      ∧ Forall2 (λ e e', e_get e "filename" = e_get e' "filename")
                artifacts kept
      ∧ Forall (appended_for selected_kinds delivered_dir d artifacts
                  available) added.
Proof.
  induction rest as [|art rest IH]; intros Hin i acc Hacc; [done|].
  cbn [scan_loop]. apply IH; [intros b Hb; apply Hin; by right|].
  destruct Hacc as (kept & added & Hsplit & Hkept & Hadded).
  destruct (scan_step_shape (clock i) acc art)
    as [->|[(j & existing & Hfind & ->)
           |(e & Hsel & Hex & Hnone & Hname & Hstatus & ->)]].
  - by exists kept, added.
  - rewrite Hsplit in Hfind |- *.
    pose proof (found_has_filename _ _ _ _ Hfind) as [Hj Hf].
    destruct (decide (j < length kept)%nat) as [Hlt|Hge].
    + exists (<[j := refreshed delivered_dir d existing art (clock i 0%nat)]>
                kept), added.
      split; [by rewrite insert_app_l|]. split; [|done].
      rewrite lookup_app_l in Hj by done.
      rewrite <- (list_insert_id artifacts j
                    (default existing (artifacts !! j))).
      * apply Forall2_insert; [done|].
        destruct (Forall2_lookup_r _ _ _ _ _ Hkept Hj) as (e0 & -> & He0).
        cbn [default]. by rewrite refreshed_filename.
      * destruct (Forall2_lookup_r _ _ _ _ _ Hkept Hj) as (e0 & -> & He0).
        done.
    + exists kept,
        (<[(j - length kept)%nat
           := refreshed delivered_dir d existing art (clock i 0%nat)]> added).
      split; [by rewrite insert_app_r_alt by lia|]. split; [done|].
      rewrite lookup_app_r in Hj by lia.
      apply Forall_insert; [done|].
      rewrite Forall_forall in Hadded.
      destruct (Hadded existing (list_elem_of_lookup_2 _ _ _ Hj))
        as (b & ? & ? & ? & ? & Hfb & Hsb).
      exists b. rewrite refreshed_filename, refreshed_status. done.
  - exists kept, (added ++ [e]). rewrite Hsplit.
    split; [by rewrite <- (assoc_L (++))|]. split; [done|].
    apply Forall_app. split; [done|]. constructor; [|constructor].
    exists art. split; [apply Hin; left|]. split; [done|]. split; [done|].
    split; [|done].
    unfold _entry_lookup in *. apply list_find_None.
    rewrite Hsplit in Hnone. apply list_find_None in Hnone.
    apply Forall_app in Hnone as [Hnone _].
    clear -Hnone Hkept. induction Hkept as [|x y l1 l2 Hxy _ IH'];
      [constructor|].
    apply Forall_cons in Hnone as [Hy Hnone].
    constructor; [by rewrite Hxy|by apply IH'].
Qed.

(** *** The top level of a manifest that is read again *)

Lemma or_record_ne (top : gmap string pyval) (k' : string) (w : pyval)
    (k : string) :
  k ≠ k' → or_record top k' w !! k = top !! k.
Proof. intros H. unfold or_record. by rewrite lookup_insert_ne. Qed.

Lemma unless_none_ne (top : gmap string pyval) (k' : string) (w : pyval)
    (k : string) :
  k ≠ k' → unless_none top k' w !! k = top !! k.
Proof. intros H. unfold unless_none. by rewrite lookup_insert_ne. Qed.

Lemma or_record_eq (top : gmap string pyval) (k : string) (w : pyval) :
  or_record top k w !! k
  = Some (if py_truthy (py_get top k) then py_get top k else w).
Proof. unfold or_record. by rewrite lookup_insert_eq. Qed.

Lemma unless_none_eq (top : gmap string pyval) (k : string) (w : pyval) :
  unless_none top k w !! k
  = Some (if match py_get top k with PNone => false | _ => true end
          then py_get top k else w).
Proof.
  unfold unless_none. rewrite lookup_insert_eq. by destruct (py_get top k).
Qed.

Lemma py_get_or_record_ne (top : gmap string pyval) (k' : string) (w : pyval)
    (k : string) :
  k ≠ k' → py_get (or_record top k' w) k = py_get top k.
Proof. intros H. unfold py_get. by rewrite or_record_ne. Qed.

Lemma py_get_unless_none_ne (top : gmap string pyval) (k' : string)
    (w : pyval) (k : string) :
  k ≠ k' → py_get (unless_none top k' w) k = py_get top k.
Proof. intros H. unfold py_get. by rewrite unless_none_ne. Qed.

(** Reading a manifest that is there keeps its entries, its history and
    its index of unpacked archives; at the top level it writes under the
    keys of the record only, and there it keeps a value that is truthy (a
    [qa2_passed] that is not [None]) and puts the value of the record
    otherwise. *)
Lemma read_manifest_again (payload : manifest) (record : MousRecord)
    (now : nat → string) :
  let m := _read_manifest (Some payload) record now in
  m_artifacts m = m_artifacts payload
  ∧ m_history m = m_history payload
  ∧ m_unpacked m = m_unpacked payload
  ∧ (∀ k, k ∉ record_keys → m_top m !! k = m_top payload !! k)
  ∧ (∀ k, k ∈ record_keys →
          m_top m !! k
          = Some (if keeps k (py_get (m_top payload) k)
                  then py_get (m_top payload) k
                  else record_value record k)).
Proof.
  cbn zeta. unfold _read_manifest.
  cbn [m_artifacts m_history m_unpacked m_top].
  split; [done|]. split; [done|]. split; [done|]. split.
  - intros k Hk. unfold record_keys in Hk. rewrite !not_elem_of_cons in Hk.
    destruct Hk as (? & ? & ? & ? & ? & ? & ? & ? & ? & ? & ? & ? & _).
    by rewrite !or_record_ne, unless_none_ne, !or_record_ne by done.
  - intros k Hk. unfold record_keys in Hk.
    repeat (apply elem_of_cons in Hk as [->|Hk]);
      [..|by apply elem_of_nil in Hk];
      repeat (first [ rewrite or_record_ne by discriminate
                    | rewrite unless_none_ne by discriminate ]);
      first [rewrite or_record_eq | rewrite unless_none_eq];
      repeat (first [ rewrite py_get_or_record_ne by discriminate
                    | rewrite py_get_unless_none_ne by discriminate ]);
      reflexivity.
Qed.

End rerun_facts.

(** C2, as the code has it.  A manifest is on disk and the scan finds
    nothing to fetch.  Then no transfer runs and the tree is as it was; the
    manifest is saved with each of its entries in its place, changed at most
    in the keys [status], [kind], [size_bytes] and [updated_at], and not
    changed at all when no listed artifact bears its file name; after them
    come entries with status [present] for listed artifacts of a selected
    kind that are on disk and had no entry.  The history gets one record
    more, the index of unpacked archives is as before, and at the top level
    [updated_at] is set, a key of the record keeps a value that is truthy (a
    [qa2_passed] that is not [None]) and gets the value of the record
    otherwise, and no other key is written. *)
Theorem rerun_refreshes_matching_entries_only
    (o : Download.os) (record : Download.MousRecord) (m : manifest)
    (t : Download.tree) (delivered_dir artifacts_spec : string)
    (available : list Download.ArtifactInfo) (retry_count : Z)
    (rate_limit compute_sha256 : bool)
    (serve : string → Z → Z → Download.response) (order : list nat)
    (sha256_file : string → string) (read_clock : nat → string)
    (scan_clock result_clock : nat → nat → string)
    (now_history now_saved : string)
    (Hnothing :
       Download.sc_to_fetch
         (Download.scan_loop (resolve_artifact_selection artifacts_spec)
            delivered_dir (Download.t_stat t) scan_clock 0
            (Download.Scan (m_artifacts m) []) available) = []) :
  let run := Download.download_for_record o record (Some m) t delivered_dir
               artifacts_spec available retry_count rate_limit compute_sha256
               serve order sha256_file read_clock scan_clock result_clock
               now_history now_saved in
  ∃ (m' : manifest) (kept added : list entry),
    Download.r_manifest run = Some m'
    ∧ Download.r_transfers run = []
    ∧ Download.r_tree run = t
    ∧ m_artifacts m' = kept ++ added
    ∧ length kept = length (m_artifacts m)
    ∧ (∀ k e, m_artifacts m !! k = Some e →
              ∃ e', kept !! k = Some e' ∧ Download.refreshed_only e e')
    ∧ (∀ k e, m_artifacts m !! k = Some e →
              Forall (λ art, e_get e "filename" ≠ PStr (Download.filename art))
                     available →
              kept !! k = Some e)
    ∧ Forall (Download.appended_for (resolve_artifact_selection artifacts_spec)
                delivered_dir (Download.t_stat t) (m_artifacts m) available)
             added
    ∧ m_history m'
      = m_history m
        ++ [EvDownloadNothingMissing now_history
              (Download.sorted_kinds (resolve_artifact_selection artifacts_spec))]
    ∧ m_unpacked m' = m_unpacked m
    ∧ m_top m' !! "updated_at" = Some (PStr now_saved)
    ∧ (∀ k, k ∉ Download.record_keys → k ≠ "updated_at" →
            m_top m' !! k = m_top m !! k)
    ∧ (∀ k, k ∈ Download.record_keys →
            m_top m' !! k
            = Some (if Download.keeps k (py_get (m_top m) k)
                    then py_get (m_top m) k
                    else Download.record_value record k)).
Proof.
  intros run. subst run.
  destruct (read_manifest_again m record read_clock)
    as (Hart & Hhist & Hunp & Hkeys & Hheld).
  unfold Download.download_for_record. rewrite Hart, Hhist, Hunp, Hnothing.
  cbn [Download.r_manifest Download.r_transfers Download.r_tree].
  set (sel := resolve_artifact_selection artifacts_spec) in *.
  set (s := Download.scan_loop sel delivered_dir (Download.t_stat t)
              scan_clock 0 (Download.Scan (m_artifacts m) []) available) in *.
  destruct (scan_loop_bound sel delivered_dir (Download.t_stat t) scan_clock
              (m_artifacts m) available available (λ _ H, H) 0
              (Download.Scan (m_artifacts m) []))
    as (kept & added & Hsplit & Hkept & Hadded).
  { exists (m_artifacts m), []. cbn [Download.sc_artifacts].
    split; [by rewrite app_nil_r|]. split; [|constructor].
    by apply Forall_Forall2_diag, Forall_forall. }
  fold s in Hsplit.
  assert (Hlen : length kept = length (m_artifacts m))
    by (by rewrite (Forall2_length _ _ _ Hkept)).
  eexists _, kept, added. split; [reflexivity|].
  cbn [m_artifacts m_history m_unpacked m_top].
  split; [done|]. split; [done|]. split; [done|]. split; [done|].
  split.
  { intros k e Hk.
    destruct (scan_loop_frame sel delivered_dir (Download.t_stat t)
                scan_clock available 0 (Download.Scan (m_artifacts m) []) k e
                Hk) as (e' & Hk' & Hr).
    fold s in Hk'. exists e'. split; [|done].
    rewrite Hsplit, lookup_app_l in Hk'; [done|].
    rewrite Hlen. by eapply lookup_lt_Some. }
  split.
  { intros k e Hk Hall.
    pose proof (scan_loop_other sel delivered_dir (Download.t_stat t)
                  scan_clock available 0 (Download.Scan (m_artifacts m) []) k
                  e Hk Hall) as Hk'.
    fold s in Hk'. rewrite Hsplit, lookup_app_l in Hk'; [done|].
    rewrite Hlen. by eapply lookup_lt_Some. }
  split; [done|]. split; [done|]. split; [done|].
  split; [by rewrite lookup_insert_eq|].
  split; [intros k Hk Hu; rewrite lookup_insert_ne by done; by apply Hkeys|].
  intros k Hk. rewrite lookup_insert_ne; [by apply Hheld|].
  intros <-. revert Hk. clear. by_decide.
Qed.

Lemma rerun_refreshes_matching_entries_only_witness :
  ∃ m' : manifest,
    Download.r_manifest Ex.rerun = Some m'
    ∧ Download.r_transfers Ex.rerun = []
    ∧ m_history m'
      = [EvDownloadNothingMissing "2024-06-01T00:00:01Z"
           (Download.sorted_kinds (resolve_artifact_selection "default"))]
    ∧ m_top m' !! "mous_uid" = Some (PStr "uid://A001/X2d20/X3ca2")
    ∧ m_top m' !! "updated_at" = Some (PStr "2024-06-01T00:00:02Z").
Proof.
  destruct (rerun_refreshes_matching_entries_only Ex.linux Ex.unit_record
              Ex.old_manifest (Ex.tree_with 10) "/data/delivered" "default"
              [Ex.aux_art (Some 10)] 3 false false Ex.unreachable []
              (λ _, "") Ex.read_clock Ex.later Ex.later
              "2024-06-01T00:00:01Z" "2024-06-01T00:00:02Z")
    as (m' & kept & added & Hm & Htr & _ & _ & _ & _ & _ & _ & Hhist & _
        & Hup & _ & Hheld).
  - vm_compute. reflexivity.
  - exists m'. split; [exact Hm|]. split; [exact Htr|].
    split; [exact Hhist|]. split; [|exact Hup].
    rewrite Hheld; [reflexivity|]. by_decide.
Defined.

(** C2 as stated fails on "byte-identical": nothing is missing in this
    re-run, and yet the one entry of the manifest comes back with a new
    [updated_at], and so does the manifest at its top level. *)
Lemma rerun_rewrites_entry_counterexample :
  Download.sc_to_fetch
    (Download.scan_loop (resolve_artifact_selection "default")
       "/data/delivered" (Download.t_stat (Ex.tree_with 10)) Ex.later 0
       (Download.Scan (m_artifacts Ex.old_manifest) [])
       [Ex.aux_art (Some 10)]) = []
  ∧ (λ e, e_get e "updated_at") <$> (m_artifacts Ex.old_manifest !! 0%nat)
    = Some (PStr "2024-01-01T00:00:00Z")
  ∧ (m' ← Download.r_manifest Ex.rerun;
     (λ e, e_get e "updated_at") <$> (m_artifacts m' !! 0%nat))
    = Some (PStr "2024-06-01T00:00:00Z")
  ∧ m_artifacts <$> Download.r_manifest Ex.rerun
    ≠ Some (m_artifacts Ex.old_manifest).
Proof.
  assert ((λ e, e_get e "updated_at") <$> (m_artifacts Ex.old_manifest !! 0%nat)
          = Some (PStr "2024-01-01T00:00:00Z")) as Hold
    by (vm_compute; reflexivity).
  assert ((m' ← Download.r_manifest Ex.rerun;
           (λ e, e_get e "updated_at") <$> (m_artifacts m' !! 0%nat))
          = Some (PStr "2024-06-01T00:00:00Z")) as Hnew
    by (vm_compute; reflexivity).
  split; [vm_compute; reflexivity|]. split; [done|]. split; [done|].
  intros E. destruct (Download.r_manifest Ex.rerun) as [m'|]; [|done].
  cbn [fmap option_fmap option_map] in E. injection E as E.
  revert Hnew. cbn [mbind option_bind]. rewrite E. intros Hnew.
  discriminate (eq_trans (eq_sym Hold) Hnew).
Qed.

(** ** Path segments, band tokens and chunks ([utils.py]) *)

(** Splits a goal about one character into its 256 cases and evaluates. *)
Ltac by_chars c :=
  destruct c as [[] [] [] [] [] [] [] []]; vm_compute; try done.

Section utils_facts.

Import Utils.

Lemma all_chars_impl (p q : ascii → bool) (s : string) :
  (∀ c, p c = true → q c = true) →
  Str.all_chars p s = true → Str.all_chars q s = true.
Proof.
  intros Hpq. induction s as [|c r IH]; [done|]. cbn.
  intros [Hc Hr]%andb_prop. rewrite (Hpq c Hc). cbn. auto.
Qed.

Lemma all_chars_not_mem (p : ascii → bool) (s : string) (c : ascii) :
  Str.all_chars p s = true → p c = false → Py.mem_char c s = false.
Proof.
  intros Hs Hc. induction s as [|d r IH]; [done|]. cbn in *.
  apply andb_prop in Hs as [Hd Hr]. destruct (Ascii.eqb_spec c d) as [->|_].
  - congruence.
  - auto.
Qed.

Lemma all_chars_app (p : ascii → bool) (a b : string) :
  Str.all_chars p (a +:+ b) = Str.all_chars p a && Str.all_chars p b.
Proof.
  induction a as [|c r IH]; [done|].
  rewrite str_app_cons. cbn. rewrite IH. by rewrite andb_assoc.
Qed.

Lemma segment_char_not_space (c : ascii) :
  segment_char c = true → Py.isspace c = false.
Proof. by_chars c. Qed.

Lemma lstrip_no_space (s : string) :
  Str.all_chars (λ c, negb (Py.isspace c)) s = true → Py.lstrip s = s.
Proof.
  destruct s as [|c r]; [done|]. cbn.
  intros [Hc _]%andb_prop. by destruct (Py.isspace c).
Qed.

Lemma rstrip_no_space (s : string) :
  Str.all_chars (λ c, negb (Py.isspace c)) s = true → Py.rstrip s = s.
Proof.
  induction s as [|c r IH]; [done|]. cbn.
  intros [Hc Hr]%andb_prop. rewrite (IH Hr).
  destruct r; [|done]. by destruct (Py.isspace c).
Qed.

Lemma strip_no_space (s : string) :
  Str.all_chars (λ c, negb (Py.isspace c)) s = true → Py.strip s = s.
Proof.
  intros H. unfold Py.strip. rewrite (lstrip_no_space s H).
  by apply rstrip_no_space.
Qed.

Lemma strip_segment (s : string) :
  Str.all_chars segment_char s = true → Py.strip s = s.
Proof.
  intros H. apply strip_no_space. revert H. apply all_chars_impl.
  intros c Hc. by rewrite (segment_char_not_space c Hc).
Qed.

Lemma startswith_mem (s old : string) (c : ascii) :
  Py.startswith s old = true → Py.mem_char c old = true →
  Py.mem_char c s = true.
Proof.
  revert s. induction old as [|a old IH]; intros s; [done|].
  destruct s as [|b s]; [done|]. cbn.
  intros [Hab Hs]%andb_prop. apply Ascii.eqb_eq in Hab as ->.
  destruct (Ascii.eqb c b); [done|]. by apply IH.
Qed.

(** A text that lacks one of the characters of [old] holds no occurrence
    of it, and [replace] returns it as it is. *)
Lemma replace_absent (s old new : string) (c : ascii) :
  Py.mem_char c old = true → Py.mem_char c s = false →
  Str.replace s old new = s.
Proof.
  intros Hold. unfold Str.replace.
  induction s as [|d r IH]; [done|]. intros Hs.
  cbn [Str.replace_from].
  destruct (Py.startswith (String d r) old) eqn:E.
  - by rewrite (startswith_mem _ _ c E Hold) in Hs.
  - f_equal. apply IH. cbn in Hs. by destruct (Ascii.eqb c d).
Qed.

(** Replacing a single character goes through a text piece by piece. *)
Lemma replace_char_app (a b : string) (o : ascii) (new : string) :
  Str.replace (a +:+ b) (String o "") new
  = Str.replace a (String o "") new +:+ Str.replace b (String o "") new.
Proof.
  unfold Str.replace. induction a as [|c r IH]; [done|].
  rewrite str_app_cons.
  cbn [Str.replace_from Py.startswith String.length Nat.sub].
  rewrite IH. destruct (Ascii.eqb o c); cbn [andb].
  - by rewrite str_app_assoc.
  - done.
Qed.

Lemma replace_char_absent (s : string) (o : ascii) (new : string) :
  Py.mem_char o s = false → Str.replace s (String o "") new = s.
Proof.
  intros H. apply (replace_absent s _ new o); [|done].
  cbn. by rewrite Ascii.eqb_refl.
Qed.

Lemma sub_unsafe_safe (s : string) :
  Str.all_chars segment_char (sub_unsafe s) = true.
Proof.
  unfold sub_unsafe. induction s as [|c r IH]; [done|].
  cbn [Py.map_chars Str.all_chars].
  rewrite IH, andb_true_r. destruct (segment_char c) eqn:E; [done|].
  by vm_compute.
Qed.

Lemma sub_unsafe_fixed (s : string) :
  Str.all_chars segment_char s = true → sub_unsafe s = s.
Proof.
  unfold sub_unsafe. induction s as [|c r IH]; [done|].
  cbn [Py.map_chars Str.all_chars].
  intros [Hc Hr]%andb_prop. rewrite Hc. f_equal. by apply IH.
Qed.

(** A text of segment characters that begins with [uid___] is already a
    path segment. *)
Lemma uid_to_path_segment_fixed (s : string) :
  Str.all_chars segment_char s = true →
  Py.startswith s "uid___" = true →
  uid_to_path_segment s = s.
Proof.
  intros Hs Hp. unfold uid_to_path_segment.
  rewrite (strip_segment s Hs).
  assert (Hcolon : Py.mem_char ":" s = false)
    by (by apply (all_chars_not_mem segment_char)).
  assert (Hslash : Py.mem_char "/" s = false)
    by (by apply (all_chars_not_mem segment_char)).
  rewrite (replace_absent s "uid://" "uid___" ":"%char) by done.
  rewrite (replace_absent s "://" "___" ":"%char) by done.
  rewrite (replace_absent s "/" "_" "/"%char) by done.
  rewrite (replace_absent s ":" "_" ":"%char) by done.
  rewrite (sub_unsafe_fixed s Hs). by rewrite Hp.
Qed.

Lemma uid_to_path_segment_chars (uid : string) :
  Str.all_chars segment_char (uid_to_path_segment uid) = true
  ∧ Py.startswith (uid_to_path_segment uid) "uid___" = true.
Proof.
  unfold uid_to_path_segment.
  set (cleaned := sub_unsafe _).
  pose proof (sub_unsafe_safe
    (Str.replace (Str.replace (Str.replace (Str.replace (Py.strip uid)
       "uid://" "uid___") "://" "___") "/" "_") ":" "_")) as Hsafe.
  fold cleaned in Hsafe.
  destruct (Py.startswith cleaned "uid___") eqn:E; cbn [negb].
  - done.
  - split; [|apply startswith_app].
    by rewrite all_chars_app, Hsafe.
Qed.

(** X1. For every text, the path segment that [uid_to_path_segment] makes
    of it begins with [uid___], is made of letters, digits, [_], [.] and
    [-] only, and so holds no slash, no colon and no blank and is not
    empty. *)
Theorem uid_to_path_segment_is_one_safe_component (uid : string) :
  let segment := uid_to_path_segment uid in
  Py.startswith segment "uid___" = true
  ∧ Str.all_chars segment_char segment = true
  ∧ Py.mem_char "/" segment = false
  ∧ Py.mem_char ":" segment = false
  ∧ Py.strip segment = segment
  ∧ segment ≠ "".
Proof.
  cbn zeta. destruct (uid_to_path_segment_chars uid) as [Hs Hp].
  split; [done|]. split; [done|].
  split; [by apply (all_chars_not_mem segment_char)|].
  split; [by apply (all_chars_not_mem segment_char)|].
  split; [by apply strip_segment|].
  intros E. by rewrite E in Hp.
Qed.

(** X2. Making a path segment of a path segment changes nothing:
    [uid_to_path_segment] is idempotent. *)
Theorem uid_to_path_segment_idempotent (uid : string) :
  uid_to_path_segment (uid_to_path_segment uid) = uid_to_path_segment uid.
Proof.
  destruct (uid_to_path_segment_chars uid) as [Hs Hp].
  by apply uid_to_path_segment_fixed.
Qed.

Lemma mem_char_app (c : ascii) (a b : string) :
  Py.mem_char c (a +:+ b) = Py.mem_char c a || Py.mem_char c b.
Proof.
  induction a as [|d r IH]; [done|].
  rewrite str_app_cons. cbn. rewrite IH. by destruct (Ascii.eqb c d).
Qed.

Lemma split_nonempty (sep : ascii) (s : string) : Py.split sep s ≠ [].
Proof.
  destruct s as [|c r]; [done|]. cbn.
  destruct (Ascii.eqb c sep); [done|]. by destruct (Py.split sep r).
Qed.

(** Joining what [split] gave with the separator gives the text back. *)
Lemma join_split (sep : ascii) (s : string) :
  Py.join (String sep "") (Py.split sep s) = s.
Proof.
  induction s as [|c r IH]; [done|]. cbn [Py.split].
  pose proof (split_nonempty sep r) as Hne.
  destruct (Ascii.eqb_spec c sep) as [->|_].
  - destruct (Py.split sep r) as [|w ws]; [done|].
    rewrite join_cons2, IH. done.
  - destruct (Py.split sep r) as [|w ws]; [done|].
    destruct ws as [|w' ws].
    + cbn in *. by rewrite IH.
    + rewrite join_cons2 in *. rewrite str_app_cons. by rewrite IH.
Qed.

Lemma segment_no_space (s : string) :
  Str.all_chars segment_char s = true →
  Str.all_chars (λ c, negb (Py.isspace c)) s = true.
Proof.
  apply all_chars_impl. intros c Hc.
  by rewrite (segment_char_not_space c Hc).
Qed.

Lemma field_chars_segment (s : string) :
  Str.all_chars (λ x, segment_char x && negb (Ascii.eqb x "_")) s = true →
  Str.all_chars segment_char s = true ∧ Py.mem_char "_" s = false.
Proof.
  intros H. split.
  - revert H. apply all_chars_impl. by intros c [? _]%andb_prop.
  - apply (all_chars_not_mem _ s "_"%char H). done.
Qed.

(** X3. A UID written [uid://a/b/c], where [a] and [b] are made of
    letters, digits, [.] and [-] and [c] may hold underscores too, becomes
    the segment [uid___a_b_c], and [_uid_uri_from_uid_segment] of the
    unpacker reads the UID back from that segment. *)
Theorem uid_segment_round_trip (a b c : string)
    (Ha : Str.all_chars (λ x, segment_char x && negb (Ascii.eqb x "_")) a
          = true)
    (Hb : Str.all_chars (λ x, segment_char x && negb (Ascii.eqb x "_")) b
          = true)
    (Hc : Str.all_chars segment_char c = true) :
  let uri := "uid://" +:+ a +:+ "/" +:+ b +:+ "/" +:+ c in
  uid_to_path_segment uri = "uid___" +:+ a +:+ "_" +:+ b +:+ "_" +:+ c
  ∧ Unpack._uid_uri_from_uid_segment (uid_to_path_segment uri) = Some uri.
Proof.
  cbn zeta.
  destruct (field_chars_segment a Ha) as [Ha1 Ha2].
  destruct (field_chars_segment b Hb) as [Hb1 Hb2].
  pose proof (all_chars_not_mem _ _ ":"%char Ha1 eq_refl) as Ha3.
  pose proof (all_chars_not_mem _ _ ":"%char Hb1 eq_refl) as Hb3.
  pose proof (all_chars_not_mem _ _ ":"%char Hc eq_refl) as Hc3.
  pose proof (all_chars_not_mem _ _ "/"%char Ha1 eq_refl) as Ha4.
  pose proof (all_chars_not_mem _ _ "/"%char Hb1 eq_refl) as Hb4.
  pose proof (all_chars_not_mem _ _ "/"%char Hc eq_refl) as Hc4.
  set (rest := a +:+ "/" +:+ b +:+ "/" +:+ c).
  set (seg := "uid___" +:+ a +:+ "_" +:+ b +:+ "_" +:+ c).
  assert (Hrest : Py.mem_char ":" rest = false).
  { unfold rest. rewrite !mem_char_app, Ha3, Hb3, Hc3. done. }
  assert (Hseg : Str.all_chars segment_char seg = true).
  { unfold seg. rewrite !all_chars_app, Ha1, Hb1, Hc. done. }
  assert (Hstrip : Py.strip ("uid://" +:+ rest) = "uid://" +:+ rest).
  { apply strip_no_space. unfold rest. rewrite !all_chars_app.
    rewrite (segment_no_space a Ha1), (segment_no_space b Hb1),
      (segment_no_space c Hc). done. }
  assert (Hr1 : Str.replace ("uid://" +:+ rest) "uid://" "uid___"
                = "uid___" +:+ rest).
  { pose proof (replace_absent rest "uid://" "uid___" ":"%char eq_refl Hrest)
      as Hn. unfold Str.replace in *.
    change ("uid://" +:+ rest)
      with (String "u" (String "i" (String "d" (String ":"
              (String "/" (String "/" rest)))))).
    cbn [Str.replace_from Py.startswith String.length Nat.sub].
    change (Ascii.eqb "u" "u" && (Ascii.eqb "i" "i" && (Ascii.eqb "d" "d"
              && (Ascii.eqb ":" ":" && (Ascii.eqb "/" "/"
              && (Ascii.eqb "/" "/" && true)))))) with true.
    cbn iota. by rewrite Hn. }
  assert (E : uid_to_path_segment ("uid://" +:+ rest) = seg).
  { unfold uid_to_path_segment. rewrite Hstrip, Hr1.
    rewrite (replace_absent ("uid___" +:+ rest) "://" "___" ":"%char)
      by (done || (rewrite mem_char_app, Hrest; done)).
    assert (Hr2 : Str.replace ("uid___" +:+ rest) "/" "_" = seg).
    { unfold rest, seg. rewrite !replace_char_app.
      rewrite (replace_char_absent a), (replace_char_absent b),
        (replace_char_absent c) by done.
      done. }
    rewrite Hr2.
    rewrite (replace_absent seg ":" "_" ":"%char)
      by (done || by apply (all_chars_not_mem segment_char)).
    rewrite (sub_unsafe_fixed seg Hseg).
    unfold seg at 1. by rewrite startswith_app. }
  split; [exact E|]. rewrite E.
  assert (Hsw : Py.startswith seg "uid___" = true)
    by (unfold seg; apply startswith_app).
  assert (Hsplit : Py.split "_" (Py.drop 6 seg) = a :: b :: Py.split "_" c).
  { change (Py.drop 6 seg) with (a +:+ String "_" (b +:+ String "_" c)).
    by rewrite (split_app_sep "_" a _ Ha2), (split_app_sep "_" b _ Hb2). }
  unfold Unpack._uid_uri_from_uid_segment.
  rewrite (strip_segment seg Hseg), Hsw, Hsplit.
  pose proof (split_nonempty "_" c) as Hne.
  pose proof (join_split "_" c) as Hj.
  destruct (Py.split "_" c) as [|w ws]; [done|].
  cbn [drop]. by rewrite Hj.
Qed.

Lemma uid_segment_round_trip_witness :
  Utils.uid_to_path_segment "uid://A001/X2d20/X3ca0" = "uid___A001_X2d20_X3ca0"
  ∧ Unpack._uid_uri_from_uid_segment
      (Utils.uid_to_path_segment "uid://A001/X2d20/X3ca0")
    = Some "uid://A001/X2d20/X3ca0".
Proof.
  apply (uid_segment_round_trip "A001" "X2d20" "X3ca0"); reflexivity.
Defined.

Lemma lstrip_head (s : string) :
  Py.lstrip s = ""
  ∨ ∃ c r, Py.lstrip s = String c r ∧ Py.isspace c = false.
Proof.
  induction s as [|c r IH]; [by left|]. cbn.
  destruct (Py.isspace c) eqn:E; [done|]. right. by exists c, r.
Qed.

Lemma rstrip_cons (c : ascii) (r : string) :
  Py.rstrip (String c r)
  = match Py.rstrip r with
    | EmptyString => if Py.isspace c then EmptyString else String c EmptyString
    | r' => String c r'
    end.
Proof. reflexivity. Qed.

Lemma rstrip_idempotent (s : string) : Py.rstrip (Py.rstrip s) = Py.rstrip s.
Proof.
  induction s as [|c r IH]; [done|]. rewrite (rstrip_cons c r).
  destruct (Py.rstrip r) as [|d r'] eqn:E.
  - destruct (Py.isspace c) eqn:Ec; [done|].
    rewrite rstrip_cons. cbn [Py.rstrip]. by rewrite Ec.
  - by rewrite rstrip_cons, IH.
Qed.

Lemma lstrip_rstrip_head (c : ascii) (r : string) :
  Py.isspace c = false →
  Py.lstrip (Py.rstrip (String c r)) = Py.rstrip (String c r).
Proof.
  intros Hc. rewrite rstrip_cons.
  destruct (Py.rstrip r); rewrite ?Hc; cbn [Py.lstrip]; by rewrite Hc.
Qed.

(** Stripping a stripped text changes nothing. *)
Lemma strip_idempotent (s : string) : Py.strip (Py.strip s) = Py.strip s.
Proof.
  unfold Py.strip.
  destruct (lstrip_head s) as [E|(c & r & E & Hc)]; rewrite E.
  - done.
  - rewrite (lstrip_rstrip_head c r Hc). apply rstrip_idempotent.
Qed.

(** X4. The identifier that [datalink_id_from_member_ous_uid] makes of a
    unit id is a fixed point of the function: an identifier that went
    through it once is what the listing service is asked for, however
    often it is passed through again. *)
Theorem datalink_id_idempotent (member_ous_uid : option string) :
  datalink_id_from_member_ous_uid
    (Some (datalink_id_from_member_ous_uid member_ous_uid))
  = datalink_id_from_member_ous_uid member_ous_uid.
Proof.
  unfold datalink_id_from_member_ous_uid.
  set (value := Py.strip (default "" member_ous_uid)).
  cbn [default from_option]. unfold id.
  assert (Hv : Py.strip value = value) by apply strip_idempotent.
  destruct (Py.startswith value "uid___") eqn:E1.
  - by rewrite Hv, E1.
  - destruct (Py.startswith value "uid://") eqn:E2.
    + destruct (uid_to_path_segment_chars value) as [Hs Hp].
      by rewrite (strip_segment _ Hs), Hp.
    + by rewrite Hv, E1, E2.
Qed.

Lemma replace_char_no_old (s : string) (o n : ascii) :
  o ≠ n → Py.mem_char o (Str.replace s (String o "") (String n "")) = false.
Proof.
  intros Hon. unfold Str.replace. induction s as [|c r IH]; [done|].
  cbn [Str.replace_from Py.startswith String.length Nat.sub].
  rewrite andb_true_r. destruct (Ascii.eqb_spec o c) as [->|Hoc].
  - rewrite str_app_cons, str_app_nil. cbn [Py.mem_char].
    destruct (Ascii.eqb_spec c n) as [->|_]; [done|]. exact IH.
  - cbn [Py.mem_char]. destruct (Ascii.eqb_spec o c) as [->|_]; [done|].
    exact IH.
Qed.

Lemma replace_char_nonempty (s : string) (o n : ascii) :
  s ≠ "" → Str.replace s (String o "") (String n "") ≠ "".
Proof.
  destruct s as [|c r]; [done|]. intros _. unfold Str.replace.
  cbn [Str.replace_from Py.startswith String.length Nat.sub].
  by destruct (Ascii.eqb o c && true).
Qed.

(** X5. The project directory name that [_project_segment] gives is never
    empty and never holds a slash, whatever the project code is; a missing,
    empty or blank code gives [unknown_project]. *)
Theorem project_segment_is_one_component (project_code : option string) :
  _project_segment project_code ≠ ""
  ∧ Py.mem_char "/" (_project_segment project_code) = false
  ∧ (Py.strip (default "" project_code) = "" →
     _project_segment project_code = "unknown_project").
Proof.
  unfold _project_segment.
  set (code := default "" project_code).
  split; [|split].
  - apply replace_char_nonempty.
    by destruct (String.eqb_spec (Py.strip (if String.eqb code "" then
         "unknown_project" else code)) "").
  - by apply replace_char_no_old.
  - intros Hblank. destruct (String.eqb_spec code "") as [_|Hne].
    + by vm_compute.
    + rewrite Hblank. by vm_compute.
Qed.

End utils_facts.

(** ** Band tokens and chunks ([utils.py], [archive_query.py]) *)

Section band_facts.

Import Utils.

Lemma isspace_upper_char (c : ascii) :
  Py.isspace (Py.upper_char c) = Py.isspace c.
Proof. by_chars c. Qed.

Lemma upper_char_idempotent (c : ascii) :
  Py.upper_char (Py.upper_char c) = Py.upper_char c.
Proof. by_chars c. Qed.

Lemma upper_idempotent (s : string) : Py.upper (Py.upper s) = Py.upper s.
Proof.
  unfold Py.upper. induction s as [|c r IH]; [done|].
  cbn [Py.map_chars]. by rewrite upper_char_idempotent, IH.
Qed.

Lemma upper_cons (c : ascii) (r : string) :
  Py.upper (String c r) = String (Py.upper_char c) (Py.upper r).
Proof. reflexivity. Qed.

Lemma lstrip_upper (s : string) : Py.lstrip (Py.upper s) = Py.upper (Py.lstrip s).
Proof.
  induction s as [|c r IH]; [done|].
  rewrite upper_cons. cbn [Py.lstrip]. rewrite isspace_upper_char.
  destruct (Py.isspace c); [exact IH|done].
Qed.

Lemma rstrip_upper (s : string) : Py.rstrip (Py.upper s) = Py.upper (Py.rstrip s).
Proof.
  induction s as [|c r IH]; [done|].
  rewrite upper_cons, !rstrip_cons, IH, isspace_upper_char.
  destruct (Py.rstrip r) as [|d r']; [by destruct (Py.isspace c)|done].
Qed.

Lemma strip_upper (s : string) : Py.strip (Py.upper s) = Py.upper (Py.strip s).
Proof. unfold Py.strip. by rewrite lstrip_upper, rstrip_upper. Qed.

(** What [value.strip().upper()] gives is not changed by doing it again. *)
Lemma upper_strip_idempotent (s : string) :
  Py.upper (Py.strip (Py.upper (Py.strip s))) = Py.upper (Py.strip s).
Proof. by rewrite strip_upper, strip_idempotent, upper_idempotent. Qed.

Lemma digit_not_space (c : ascii) :
  Str.isdigit_char c = true → negb (Py.isspace c) = true.
Proof. by_chars c. Qed.

Lemma digit_upper (c : ascii) :
  Str.isdigit_char c = true → Py.upper_char c = c.
Proof. by_chars c. Qed.

Lemma digit_not_B (c : ascii) :
  Str.isdigit_char c = true → Ascii.eqb "B" c = false.
Proof. by_chars c. Qed.

Lemma digit_not_A (c : ascii) :
  Str.isdigit_char c = true → Ascii.eqb "A" c = false.
Proof. by_chars c. Qed.

Lemma isdigit_spec (d : string) :
  Str.isdigit d = true → d ≠ "" ∧ Str.all_chars Str.isdigit_char d = true.
Proof.
  unfold Str.isdigit. intros [Hne Hall]%andb_prop. split; [|done].
  intros ->. done.
Qed.

Lemma digits_upper (d : string) :
  Str.all_chars Str.isdigit_char d = true → Py.upper d = d.
Proof.
  induction d as [|c r IH]; [done|]. cbn [Str.all_chars].
  intros [Hc Hr]%andb_prop. by rewrite upper_cons, (digit_upper c Hc), IH.
Qed.

Lemma digits_no_space (d : string) :
  Str.all_chars Str.isdigit_char d = true →
  Str.all_chars (λ c, negb (Py.isspace c)) d = true.
Proof. apply all_chars_impl, digit_not_space. Qed.

Lemma digits_filter (d : string) :
  Str.all_chars Str.isdigit_char d = true →
  Str.filter_chars Str.isdigit_char d = d.
Proof.
  induction d as [|c r IH]; [done|]. cbn [Str.all_chars Str.filter_chars].
  intros [Hc Hr]%andb_prop. by rewrite Hc, IH.
Qed.

(** The normal form [BAND n] goes through [value.strip().upper()] as it
    is. *)
Lemma band_form_upper_strip (d : string) :
  Str.isdigit d = true →
  Py.upper (Py.strip ("BAND " +:+ d)) = "BAND " +:+ d.
Proof.
  intros [Hne Hd]%isdigit_spec.
  assert (Hr : Py.rstrip d = d) by (by apply rstrip_no_space, digits_no_space).
  unfold Py.strip.
  change (Py.lstrip ("BAND " +:+ d)) with ("BAND " +:+ d).
  rewrite (rstrip_app "BAND " d) by (by rewrite Hr).
  rewrite Hr.
  change (Py.upper ("BAND " +:+ d)) with ("BAND " +:+ Py.upper d).
  by rewrite (digits_upper d Hd).
Qed.

Lemma parse_band_token_band_form (d : string) :
  Str.isdigit d = true → parse_band_token ("BAND " +:+ d) = "BAND " +:+ d.
Proof.
  intros Hd. unfold parse_band_token. by rewrite (band_form_upper_strip d Hd).
Qed.

(** [parse_band_token] on a token that [strip] and [upper] leave alone. *)
Lemma parse_band_token_normal (x : string) :
  Py.upper (Py.strip x) = x →
  parse_band_token x
  = if Py.startswith x "BAND" then x
    else if Py.startswith x "B" && Str.isdigit (Py.drop 1 x)
    then "BAND " +:+ Py.drop 1 x
    else if Str.isdigit x then "BAND " +:+ x
    else x.
Proof. intros H. unfold parse_band_token. by rewrite H. Qed.

Lemma digits_upper_strip (d : string) :
  Str.all_chars Str.isdigit_char d = true → Py.upper (Py.strip d) = d.
Proof.
  intros Hd. rewrite (strip_no_space d (digits_no_space d Hd)).
  by apply digits_upper.
Qed.

(** X6. A band given by its number [n] alone, as [Bn], as [bn] or as
    [BAND n] is one and the same token [BAND n] after [parse_band_token],
    and [_band_number] reads the number [n] back from each spelling. *)
Theorem band_token_spellings_agree (n : string)
    (Hn : Str.isdigit n = true) :
  parse_band_token n = "BAND " +:+ n
  ∧ parse_band_token (String "B" n) = "BAND " +:+ n
  ∧ parse_band_token (String "b" n) = "BAND " +:+ n
  ∧ parse_band_token ("BAND " +:+ n) = "BAND " +:+ n
  ∧ _band_number n = n
  ∧ _band_number (String "B" n) = n
  ∧ _band_number ("BAND " +:+ n) = n.
Proof.
  pose proof Hn as [Hne Hd]%isdigit_spec.
  assert (E0 : parse_band_token n = "BAND " +:+ n).
  { rewrite (parse_band_token_normal n (digits_upper_strip n Hd)).
    destruct n as [|c r]; [done|].
    cbn [Str.all_chars] in Hd. apply andb_prop in Hd as [Hc Hr].
    cbn [Py.startswith]. rewrite (digit_not_B c Hc). cbn [andb].
    by rewrite Hn. }
  assert (EB : Py.upper (Py.strip (String "B" n)) = String "B" n).
  { rewrite strip_no_space.
    - rewrite upper_cons. by rewrite (digits_upper n Hd).
    - cbn [Str.all_chars]. by rewrite (digits_no_space n Hd). }
  assert (E1 : parse_band_token (String "B" n) = "BAND " +:+ n).
  { rewrite (parse_band_token_normal _ EB).
    destruct n as [|c r]; [done|].
    cbn [Str.all_chars] in Hd. apply andb_prop in Hd as [Hc Hr].
    cbn [Py.startswith Py.drop]. rewrite (digit_not_A c Hc).
    change (Ascii.eqb "B" "B") with true. cbn [andb].
    by rewrite Hn. }
  assert (E2 : parse_band_token (String "b" n) = "BAND " +:+ n).
  { rewrite <- E1. unfold parse_band_token.
    assert (Hs : Py.strip (String "b" n) = String "b" n).
    { apply strip_no_space. cbn [Str.all_chars].
      by rewrite (digits_no_space n Hd). }
    assert (Hs' : Py.strip (String "B" n) = String "B" n).
    { apply strip_no_space. cbn [Str.all_chars].
      by rewrite (digits_no_space n Hd). }
    by rewrite Hs, Hs'. }
  pose proof (parse_band_token_band_form n Hn) as E3.
  assert (F : Str.filter_chars Str.isdigit_char ("BAND " +:+ n) = n).
  { change (Str.filter_chars Str.isdigit_char ("BAND " +:+ n))
      with (Str.filter_chars Str.isdigit_char n).
    by apply digits_filter. }
  unfold _band_number. rewrite E0, E1, E3, F. done.
Qed.

Lemma band_token_spellings_agree_witness :
  Utils.parse_band_token "6" = "BAND 6"
  ∧ Utils.parse_band_token "B6" = "BAND 6"
  ∧ Utils.parse_band_token "b6" = "BAND 6"
  ∧ Utils.parse_band_token "BAND 6" = "BAND 6"
  ∧ Utils._band_number "6" = "6"
  ∧ Utils._band_number "B6" = "6"
  ∧ Utils._band_number "BAND 6" = "6".
Proof. apply (band_token_spellings_agree "6"). reflexivity. Defined.

(** X7. [parse_band_token] is idempotent: a token that went through it is
    not changed by going through it again. *)
Theorem parse_band_token_idempotent (value : string) :
  parse_band_token (parse_band_token value) = parse_band_token value.
Proof.
  set (x := Py.upper (Py.strip value)).
  assert (Hx : Py.upper (Py.strip x) = x) by apply upper_strip_idempotent.
  assert (Hv : parse_band_token value
               = if Py.startswith x "BAND" then x
                 else if Py.startswith x "B" && Str.isdigit (Py.drop 1 x)
                 then "BAND " +:+ Py.drop 1 x
                 else if Str.isdigit x then "BAND " +:+ x
                 else x) by reflexivity.
  rewrite Hv. clear Hv.
  destruct (Py.startswith x "BAND") eqn:E1.
  { by rewrite (parse_band_token_normal x Hx), E1. }
  destruct (Py.startswith x "B" && Str.isdigit (Py.drop 1 x)) eqn:E2.
  { apply andb_prop in E2 as [_ Hd]. by apply parse_band_token_band_form. }
  destruct (Str.isdigit x) eqn:E3.
  { by apply parse_band_token_band_form. }
  by rewrite (parse_band_token_normal x Hx), E1, E2, E3.
Qed.

End band_facts.

Section chunk_facts.

Context {A : Type}.

Lemma chunked_from_spec (values : list A) (size : nat) :
  (1 ≤ size)%nat →
  ∀ (fuel i : nat),
    (length values - i ≤ fuel)%nat →
    concat (Utils.chunked_from values size fuel i) = drop i values
    ∧ Forall (λ c, (1 ≤ length c ≤ size)%nat)
             (Utils.chunked_from values size fuel i).
Proof.
  intros Hsize. induction fuel as [|fuel IH]; intros i Hfuel.
  - cbn. split; [|constructor]. symmetry. apply drop_ge. lia.
  - cbn [Utils.chunked_from]. case_bool_decide as Hi.
    + destruct (IH (i + size)%nat) as [IH1 IH2]; [lia|].
      cbn [concat]. rewrite IH1. split.
      * rewrite <- drop_drop. apply take_drop.
      * constructor; [|done]. rewrite length_take, length_drop. lia.
    + cbn. split; [|constructor]. symmetry. apply drop_ge. lia.
Qed.

(** X8. For a positive [size], the chunks that [chunked] yields, put one
    after the other, are the list itself; no chunk is empty and none is
    longer than [size]. *)
Theorem chunked_partitions (values : list A) (size : Z) (Hsize : 0 < size) :
  ∃ chunks,
    Utils.chunked values size = Some chunks
    ∧ concat chunks = values
    ∧ Forall (λ c, (1 ≤ length c)%nat ∧ Z.of_nat (length c) ≤ size) chunks.
Proof.
  unfold Utils.chunked.
  destruct (Z.eqb_spec size 0) as [?|_]; [lia|].
  destruct (Z.ltb_spec size 0) as [?|_]; [lia|].
  eexists. split; [done|].
  destruct (chunked_from_spec values (Z.to_nat size) ltac:(lia)
              (length values) 0%nat ltac:(lia)) as [H1 H2].
  split; [by rewrite H1|].
  eapply Forall_impl; [exact H2|]. cbn. intros c Hc. lia.
Qed.

End chunk_facts.

Lemma chunked_partitions_witness :
  Utils.chunked [1; 2; 3; 4; 5] 2 = Some [[1; 2]; [3; 4]; [5]]
  ∧ ∃ chunks, Utils.chunked [1; 2; 3; 4; 5] 2 = Some chunks
              ∧ concat chunks = [1; 2; 3; 4; 5]
              ∧ Forall (λ c, (1 ≤ length c)%nat ∧ Z.of_nat (length c) ≤ 2)
                       chunks.
Proof.
  split; [reflexivity|]. apply (chunked_partitions [1; 2; 3; 4; 5] 2). lia.
Defined.

(** ** Artifact kinds and the QA statuses of the summariser *)

Section classify_facts.

Import Classify.

Lemma lower_char_idempotent (c : ascii) :
  Py.lower_char (Py.lower_char c) = Py.lower_char c.
Proof. by_chars c. Qed.

Lemma lower_upper_char (c : ascii) :
  Py.lower_char (Py.upper_char c) = Py.lower_char c.
Proof. by_chars c. Qed.

Lemma isspace_lower_char (c : ascii) :
  Py.isspace (Py.lower_char c) = Py.isspace c.
Proof. by_chars c. Qed.

Lemma lower_cons (c : ascii) (r : string) :
  Py.lower (String c r) = String (Py.lower_char c) (Py.lower r).
Proof. reflexivity. Qed.

Lemma lower_idempotent (s : string) : Py.lower (Py.lower s) = Py.lower s.
Proof.
  induction s as [|c r IH]; [done|].
  by rewrite !lower_cons, lower_char_idempotent, IH.
Qed.

Lemma lower_upper (s : string) : Py.lower (Py.upper s) = Py.lower s.
Proof.
  induction s as [|c r IH]; [done|].
  by rewrite upper_cons, !lower_cons, lower_upper_char, IH.
Qed.

Lemma lstrip_lower (s : string) : Py.lstrip (Py.lower s) = Py.lower (Py.lstrip s).
Proof.
  induction s as [|c r IH]; [done|].
  rewrite lower_cons. cbn [Py.lstrip]. rewrite isspace_lower_char.
  destruct (Py.isspace c); [exact IH|done].
Qed.

Lemma rstrip_lower (s : string) : Py.rstrip (Py.lower s) = Py.lower (Py.rstrip s).
Proof.
  induction s as [|c r IH]; [done|].
  rewrite lower_cons, !rstrip_cons, IH, isspace_lower_char.
  destruct (Py.rstrip r) as [|d r']; [by destruct (Py.isspace c)|done].
Qed.

Lemma strip_lower (s : string) : Py.strip (Py.lower s) = Py.lower (Py.strip s).
Proof. unfold Py.strip. by rewrite lstrip_lower, rstrip_lower. Qed.

(** A normalised kind is a fixed point of [_normalize_kind]. *)
Lemma normalize_kind_idempotent (kind : string) :
  _normalize_kind (_normalize_kind kind) = _normalize_kind kind.
Proof.
  unfold _normalize_kind.
  by rewrite strip_lower, strip_idempotent, lower_idempotent.
Qed.

(** Takes the branches of a chain of conditionals one after the other. *)
Ltac by_branches tac :=
  repeat match goal with
         | |- context [if ?c then _ else _] => destruct c; [tac|]
         end; tac.

(** X9. The kind that [_classify_artifact] gives is already normalised:
    [_normalize_kind] leaves it as it is, so that [_artifact_selected]
    compares it with the selected kinds as it stands.  With an empty hint,
    as the lister calls it, the kind is one of twelve fixed names. *)
Theorem classified_kind_is_normalised (kind_hint : string)
    (semantics : option string) (filename : string) :
  _normalize_kind (_classify_artifact kind_hint semantics filename)
  = _classify_artifact kind_hint semantics filename
  ∧ _classify_artifact "" semantics filename ∈ CLASSIFIED_KINDS.
Proof.
  split.
  - unfold _classify_artifact.
    by_branches ltac:(first [reflexivity | apply normalize_kind_idempotent]).
  - unfold _classify_artifact, CLASSIFIED_KINDS.
    change (negb (String.eqb (Py.lower "") "")) with false. cbn iota.
    by_branches ltac:(by_decide).
Qed.

(** X10. On ASCII text [_classify_artifact] does not look at the case of
    letters: a hint, a semantics and a file name that are ASCII get, written
    in capitals, the kind they get as they are.  (Beyond ASCII the cases of
    Python are not inverse to each other, and the embedding is not exact.) *)
Theorem classify_artifact_ignores_case (kind_hint : string)
    (semantics : option string) (filename : string)
    (Hhint : Str.isascii kind_hint = true)
    (Hsemantics : Str.isascii (default "" semantics) = true)
    (Hfilename : Str.isascii filename = true) :
  _classify_artifact (Py.upper kind_hint) (Py.upper <$> semantics)
    (Py.upper filename)
  = _classify_artifact kind_hint semantics filename.
Proof.
  unfold _classify_artifact.
  assert (Hs : Py.lower (default "" (Py.upper <$> semantics))
               = Py.lower (default "" semantics))
    by (destruct semantics; cbn; [apply lower_upper|done]).
  by rewrite Hs, !lower_upper.
Qed.

End classify_facts.

Lemma classify_artifact_ignores_case_witness :
  Classify._classify_artifact (Py.upper "") (Py.upper <$> Some "#Auxiliary")
    (Py.upper "Member.AuxProducts.tgz")
  = Classify._classify_artifact "" (Some "#Auxiliary") "Member.AuxProducts.tgz".
Proof.
  apply (classify_artifact_ignores_case "" (Some "#Auxiliary")
           "Member.AuxProducts.tgz"); reflexivity.
Defined.

Section summarize_qa_facts.

Import Summarize.

Lemma qa2_from_text_canonical (text : string) (rest : string) :
  rest ∈ CANONICAL_QA →
  (if decide (text ∈ ["PASS"; "SEMIPASS"; "FAIL"; "UNKNOWN"]) then text
   else if decide (text ∈ ["TRUE"; "T"; "1"]) then "PASS"
   else if decide (text ∈ ["FALSE"; "F"; "0"]) then "FAIL"
   else rest) ∈ CANONICAL_QA.
Proof.
  intros Hrest. repeat case_decide; try done; by_decide.
Qed.

Lemma normalize_qa2_status_canonical (raw_status raw_bool : pyval) :
  _normalize_qa2_status raw_status raw_bool ∈ CANONICAL_QA.
Proof.
  assert (Hb : match raw_bool with
               | PBool b => if b then "PASS" else "FAIL"
               | PStr s =>
                   let low := Py.lower (Py.strip s) in
                   if decide (low ∈ ["true"; "t"; "1"]) then "PASS"
                   else if decide (low ∈ ["false"; "f"; "0"]) then "FAIL"
                   else "UNKNOWN"
               | _ => "UNKNOWN"
               end ∈ CANONICAL_QA).
  { destruct raw_bool as [|[]| |s| |]; cbn zeta;
      repeat case_decide; by_decide. }
  unfold _normalize_qa2_status.
  destruct raw_status; try exact Hb.
  by apply qa2_from_text_canonical.
Qed.

Lemma normalize_qa0_status_canonical (raw_status : pyval) :
  _normalize_qa0_status raw_status ∈ CANONICAL_QA.
Proof.
  unfold _normalize_qa0_status.
  assert (Hu : "UNKNOWN" ∈ CANONICAL_QA) by by_decide.
  destruct raw_status as [|[]|z|s|t x|t x].
  - exact Hu.
  - by_decide.
  - by_decide.
  - by apply qa2_from_text_canonical.
  - by apply qa2_from_text_canonical.
  - by apply qa2_from_text_canonical.
  - by apply qa2_from_text_canonical.
Qed.

(** X11. The summariser's QA normalisation is closed: whatever the raw
    values are, [_normalize_qa2_status] and [_normalize_qa0_status] give
    one of [PASS], [SEMIPASS], [FAIL] and [UNKNOWN]. *)
Theorem summarize_qa_status_is_canonical (raw_status raw_bool : pyval) :
  _normalize_qa2_status raw_status raw_bool ∈ CANONICAL_QA
  ∧ _normalize_qa0_status raw_status ∈ CANONICAL_QA.
Proof.
  split;
    [apply normalize_qa2_status_canonical|apply normalize_qa0_status_canonical].
Qed.

(** The four canonical statuses are fixed points of the normalisation of
    the index. *)
Lemma qa_status_text_canonical (x : string) :
  x ∈ CANONICAL_QA → _qa_status_text (PStr x) = Some x.
Proof.
  unfold CANONICAL_QA. intros H.
  repeat (apply elem_of_cons in H as [->|H]; [reflexivity|]).
  by apply elem_of_nil in H.
Qed.

(** X12. What the summariser writes as the unit's [qa2_status] into the
    QA block of the summary is what the index stores for the unit, when
    the summary has no [qa2_status] of its own at the top level: the
    manifest's values are not looked at again. *)
Theorem index_stores_summarised_qa2_status (s : Index.summary) (m : manifest)
    (raw_status raw_bool : pyval)
    (Htop : py_get (Index.sm_top s) "qa2_status" = PNone)
    (Hqa : py_get (Index.sm_qa s) "qa2_status"
           = PStr (_normalize_qa2_status raw_status raw_bool)) :
  Index.upsert_qa2_status s m
  = Some (_normalize_qa2_status raw_status raw_bool).
Proof.
  unfold Index.upsert_qa2_status, Index._summary_qa.
  rewrite Htop, Hqa.
  change (py_or PNone ?v) with v.
  by rewrite (qa_status_text_canonical _
                (normalize_qa2_status_canonical raw_status raw_bool)).
Qed.

Lemma index_stores_summarised_qa2_status_witness :
  Index.upsert_qa2_status
    (Index.Summary ∅ ∅
       {[ "qa2_status" := PStr (Summarize._normalize_qa2_status
                                  (PStr " semipass ") PNone) ]})
    (Manifest {[ "qa2_passed" := PBool false ]} [] [] ∅)
  = Some "SEMIPASS".
Proof.
  apply (index_stores_summarised_qa2_status
           (Index.Summary ∅ ∅
              {[ "qa2_status" := PStr (Summarize._normalize_qa2_status
                                         (PStr " semipass ") PNone) ]})
           (Manifest {[ "qa2_passed" := PBool false ]} [] [] ∅)
           (PStr " semipass ") PNone); reflexivity.
Defined.

(** The two normalisations on the text of a value that is neither [None]
    nor a boolean. *)
Lemma qa0_text_agree (tx : string) :
  (if decide (tx ∈ ["PASS"; "SEMIPASS"; "FAIL"; "UNKNOWN"]) then tx
   else if decide (tx ∈ ["TRUE"; "T"; "1"]) then "PASS"
   else if decide (tx ∈ ["FALSE"; "F"; "0"]) then "FAIL"
   else "UNKNOWN") ≠ "UNKNOWN" →
  (if decide (tx = "") then None
   else if decide (tx ∈ ["TRUE"; "T"; "1"]) then Some "PASS"
   else if decide (tx ∈ ["FALSE"; "F"; "0"]) then Some "FAIL"
   else if decide (tx ∈ ["PASS"; "SEMIPASS"; "FAIL"; "UNKNOWN"]) then Some tx
   else Some tx)
  = Some (if decide (tx ∈ ["PASS"; "SEMIPASS"; "FAIL"; "UNKNOWN"]) then tx
          else if decide (tx ∈ ["TRUE"; "T"; "1"]) then "PASS"
          else if decide (tx ∈ ["FALSE"; "F"; "0"]) then "FAIL"
          else "UNKNOWN").
Proof.
  intros Hknown.
  destruct (decide (tx ∈ ["PASS"; "SEMIPASS"; "FAIL"; "UNKNOWN"])) as [Hc|Hc].
  { clear Hknown.
    repeat (apply elem_of_cons in Hc as [->|Hc]; [by vm_compute|]).
    by apply elem_of_nil in Hc. }
  destruct (decide (tx ∈ ["TRUE"; "T"; "1"])) as [Ht|Ht].
  { clear Hknown Hc.
    repeat (apply elem_of_cons in Ht as [->|Ht]; [by vm_compute|]).
    by apply elem_of_nil in Ht. }
  destruct (decide (tx ∈ ["FALSE"; "F"; "0"])) as [Hf|Hf].
  { clear Hknown Hc Ht.
    repeat (apply elem_of_cons in Hf as [->|Hf]; [by vm_compute|]).
    by apply elem_of_nil in Hf. }
  done.
Qed.

(** X13. Where the summariser recognises a QA0 value, the index reads
    the same status from it: when [_normalize_qa0_status] gives a status
    other than [UNKNOWN], [_qa_status_text] gives that status. *)
Theorem qa0_normalisations_agree (raw_status : pyval)
    (Hknown : _normalize_qa0_status raw_status ≠ "UNKNOWN") :
  _qa_status_text raw_status = Some (_normalize_qa0_status raw_status).
Proof.
  revert Hknown. unfold _normalize_qa0_status, _qa_status_text.
  destruct raw_status as [|[]|z|s|t x|t x]; try done;
    apply qa0_text_agree.
Qed.

Lemma qa0_normalisations_agree_witness :
  _qa_status_text (PStr " semipass")
  = Some (Summarize._normalize_qa0_status (PStr " semipass")).
Proof. apply (qa0_normalisations_agree (PStr " semipass")). by vm_compute. Defined.

End summarize_qa_facts.

(** ** What extraction touches *)

Section extract_frame.

Import Fs Unpack Nest Plain.

Lemma plain_part_spec (c : string) :
  plain_part c = true → is_root_part c = false ∧ String.eqb c ".." = false.
Proof.
  unfold plain_part. rewrite andb_true_iff, !negb_true_iff. done.
Qed.

Lemma resolve_under_plain (target_dir : path) (parts : list string) :
  forallb plain_part parts = true →
  resolve_under target_dir parts = target_dir ++ parts.
Proof.
  revert target_dir. induction parts as [|c r IH]; intros target_dir H.
  - by rewrite app_nil_r.
  - cbn [forallb] in H. apply andb_prop in H as [Hc Hr].
    destruct (plain_part_spec c Hc) as [H1 H2].
    unfold resolve_under in *. cbn [foldl]. unfold resolve_step at 2.
    rewrite H1, H2, (IH _ Hr). by rewrite <- (assoc_L (++)).
Qed.

Lemma path_str_extends (target_dir rest : path) :
  Py.startswith (path_str (target_dir ++ rest)) (path_str target_dir) = true.
Proof.
  destruct target_dir as [|c t].
  - by destruct rest.
  - change (path_str ((c :: t) ++ rest)) with (path_tail ((c :: t) ++ rest)).
    change (path_str (c :: t)) with (path_tail (c :: t)).
    rewrite path_tail_app. apply startswith_app.
Qed.

Lemma forallb_drop {A} (g : A → bool) (n : nat) (l : list A) :
  forallb g l = true → forallb g (drop n l) = true.
Proof.
  rewrite !forallb_forall. intros H x Hx. apply H.
  apply list_elem_of_In. apply list_elem_of_In in Hx.
  by apply (subseteq_drop n l).
Qed.

Lemma strip_parts_plain (parts : list string)
    (strip_prefix : option (list string)) :
  forallb plain_part parts = true →
  forallb plain_part (_strip_parts parts strip_prefix) = true.
Proof.
  intros H. unfold _strip_parts.
  destruct strip_prefix as [[|c pre]|]; try done.
  destruct (_ && _); [by apply forallb_drop|done].
Qed.

Lemma plain_member_not_rejected (target_dir : path)
    (strip_prefix : option (list string)) (m : member) :
  plain_member m = true → rejected target_dir strip_prefix m = false.
Proof.
  intros H. unfold rejected.
  pose proof (strip_parts_plain _ strip_prefix H) as Hs.
  destruct (_strip_parts (_member_parts (m_name m)) strip_prefix) as [|c r]
    eqn:E; [done|].
  by rewrite (resolve_under_plain _ _ Hs), path_str_extends.
Qed.

(** [mkdir] never changes what is there ... *)
Lemma mkdir_from_keeps (f f' : fs) (above todo : path) (p : path) (nd : node) :
  mkdir_from f above todo = Some f' → f !! p = Some nd → f' !! p = Some nd.
Proof.
  revert f above. induction todo as [|c r IH]; intros f above H Hp.
  - cbn in H. by injection H as <-.
  - cbn [mkdir_from] in H.
    destruct (f !! (above ++ [c])) as [[|? ?]|] eqn:E; [|done|].
    + by apply (IH f (above ++ [c])).
    + apply (IH _ _ H). rewrite lookup_insert_ne; [done|]. congruence.
Qed.

(** ... and only makes directories on the way down to its argument. *)
Lemma mkdir_from_outside (f f' : fs) (above todo : path) (p : path) :
  mkdir_from f above todo = Some f' →
  (∀ k, (1 ≤ k ≤ length todo)%nat → p ≠ above ++ take k todo) →
  f' !! p = f !! p.
Proof.
  revert f above. induction todo as [|c r IH]; intros f above H Hp.
  - cbn in H. by injection H as <-.
  - cbn [mkdir_from] in H.
    assert (Hr : ∀ k, (1 ≤ k ≤ length r)%nat → p ≠ (above ++ [c]) ++ take k r).
    { intros k Hk. rewrite <- (assoc_L (++)).
      apply (Hp (S k)). cbn [length]. lia. }
    assert (H1 : p ≠ above ++ [c]).
    { specialize (Hp 1%nat). cbn [take length] in Hp. rewrite take_0 in Hp.
      apply Hp. lia. }
    destruct (f !! (above ++ [c])) as [[|? ?]|] eqn:E; [|done|].
    + by apply (IH f (above ++ [c])).
    + rewrite (IH _ _ H Hr). by rewrite lookup_insert_ne.
Qed.

Lemma below_extension (target_dir rest : path) :
  rest ≠ [] → below target_dir (target_dir ++ rest) = true.
Proof.
  intros Hne. unfold below. rewrite take_app_length.
  rewrite bool_decide_eq_true_2.
  - by rewrite bool_decide_eq_true_2.
  - rewrite length_app. destruct rest; [done|]. cbn [length]. lia.
Qed.

(** Making the directories of a path at or below [target_dir], whose own
    directories are there, changes nothing that is not below it. *)
Lemma mkdir_p_below (f f' : fs) (target_dir rest p : path) :
  dirs_ok f target_dir = true →
  mkdir_p f (target_dir ++ rest) = Some f' →
  below target_dir p = false →
  f' !! p = f !! p.
Proof.
  intros Hd H Hb. unfold mkdir_p in H.
  destruct (decide ((1 ≤ length p ≤ length target_dir)%nat
                    ∧ p = take (length p) target_dir)) as [[Hl Hp]|Hn].
  - assert (Hdir : f !! p = Some Dir).
    { rewrite Hp. destruct (length p) as [|i] eqn:El; [lia|].
      apply (dirs_ok_spec f target_dir Hd). lia. }
    rewrite Hdir. by apply (mkdir_from_keeps f f' [] (target_dir ++ rest)).
  - apply (mkdir_from_outside f f' [] (target_dir ++ rest)); [done|].
    intros k Hk Hp. cbn [app] in Hp.
    destruct (decide (k ≤ length target_dir)%nat) as [Hle|Hgt].
    + apply Hn. rewrite Hp, take_app_le by done.
      rewrite length_take. rewrite Nat.min_l by done.
      split; [lia|done].
    + rewrite take_app_ge in Hp by lia.
      assert (Hne : take (k - length target_dir) rest ≠ []).
      { intros E%(f_equal length). rewrite length_take in E.
        rewrite length_app in Hk. cbn in E. lia. }
      rewrite Hp, (below_extension _ _ Hne) in Hb. done.
Qed.

Lemma write_file_insert (f f' : fs) (dest : path) (c : content) (mode : Z) :
  write_file f dest c mode = Some f' → f' = <[dest := File c mode]> f.
Proof.
  unfold write_file. destruct dest as [|d r]; [done|].
  destruct (negb _); [done|].
  destruct (f !! (d :: r)) as [[|? ?]|]; try done; by intros [= <-].
Qed.

(** One plain member changes nothing that is not below the target, and
    when it raises, it is the operating system that did. *)
Lemma extract_plain_member (f : fs) (target_dir : path)
    (strip_prefix : option (list string)) (m : member) :
  dirs_ok f target_dir = true →
  plain_member m = true →
  match extract_member f target_dir strip_prefix m with
  | inl f' => ∀ p, below target_dir p = false → f' !! p = f !! p
  | inr e => e = OsError (m_name m)
  end.
Proof.
  intros Hd Hm. unfold extract_member.
  pose proof (strip_parts_plain _ strip_prefix Hm) as Hs.
  destruct (_strip_parts (_member_parts (m_name m)) strip_prefix) as [|c r]
    eqn:E; [done|].
  rewrite (resolve_under_plain _ _ Hs), path_str_extends. cbn [negb].
  destruct (m_kind m); try done.
  - destruct (mkdir_p f (parent (target_dir ++ c :: r))) as [f1|] eqn:E1;
      [|done].
    destruct (write_file f1 _ _ _) as [f2|] eqn:E2; [|done].
    intros p Hp. apply write_file_insert in E2 as ->.
    rewrite lookup_insert_ne.
    + unfold parent in E1. rewrite removelast_app in E1 by done.
      by apply (mkdir_p_below f f1 target_dir (removelast (c :: r))).
    + intros <-. by rewrite below_extension in Hp.
  - destruct (mkdir_p f (target_dir ++ c :: r)) as [f1|] eqn:E1; [|done].
    intros p Hp. by apply (mkdir_p_below f f1 target_dir (c :: r)).
Qed.

Lemma dirs_ok_agree (f f' : fs) (target_dir : path) :
  (∀ p, below target_dir p = false → f' !! p = f !! p) →
  dirs_ok f' target_dir = dirs_ok f target_dir.
Proof.
  intros H. unfold dirs_ok. apply forallb_agree. intros i Hi%in_seq.
  rewrite H; [done|]. unfold below.
  rewrite bool_decide_eq_false_2; [done|]. rewrite length_take. lia.
Qed.

Lemma safe_extract_plain (target_dir : path)
    (strip_prefix : option (list string)) (members : list member) :
  forallb plain_member members = true →
  ∀ f, dirs_ok f target_dir = true →
    (∀ p, below target_dir p = false →
          (_safe_extract f target_dir strip_prefix members).1 !! p = f !! p)
    ∧ (∀ n, (_safe_extract f target_dir strip_prefix members).2
            ≠ Some (UnsafePath n)).
Proof.
  induction members as [|m rest IH]; intros Hall f Hd; [done|].
  cbn [forallb] in Hall. apply andb_prop in Hall as [Hm Hrest].
  cbn [_safe_extract].
  pose proof (extract_plain_member f target_dir strip_prefix m Hd Hm) as Hone.
  destruct (extract_member f target_dir strip_prefix m) as [f'|e].
  - assert (Hd' : dirs_ok f' target_dir = true)
      by (by rewrite (dirs_ok_agree f f' target_dir Hone)).
    destruct (IH Hrest f' Hd') as [IH1 IH2]. split; [|done].
    intros p Hp. by rewrite (IH1 p Hp), (Hone p Hp).
  - subst e. done.
Qed.

(** X14. An archive whose member names are relative and hold no [..] is
    never rejected as unsafe, and its extraction into a directory that is
    there changes nothing outside that directory: every path that is not
    below the target holds after the extraction what it held before,
    whether the extraction ran to its end or was stopped by an error. *)
Theorem plain_archive_stays_below_target (f : fs) (target_dir : path)
    (strip_prefix : option (list string)) (members : list member)
    (Hdirs : dirs_ok f target_dir = true)
    (Hplain : forallb plain_member members = true) :
  let r := _safe_extract f target_dir strip_prefix members in
  (∀ m, m ∈ members → rejected target_dir strip_prefix m = false)
  ∧ (∀ n, r.2 ≠ Some (UnsafePath n))
  ∧ (∀ p, below target_dir p = false → r.1 !! p = f !! p).
Proof.
  cbn zeta.
  destruct (safe_extract_plain target_dir strip_prefix members Hplain f Hdirs)
    as [H1 H2].
  split; [|done].
  intros m Hm. apply plain_member_not_rejected.
  rewrite forallb_forall in Hplain. by apply Hplain, list_elem_of_In.
Qed.

Lemma plain_archive_stays_below_target_witness :
  let r := Fs._safe_extract Ex.bare_tree Ex.delivered None Ex.asa4_members in
  (∀ m, m ∈ Ex.asa4_members → Fs.rejected Ex.delivered None m = false)
  ∧ (∀ n, r.2 ≠ Some (Fs.UnsafePath n))
  ∧ (∀ p, Unpack.below Ex.delivered p = false → r.1 !! p = Ex.bare_tree !! p).
Proof.
  apply (plain_archive_stays_below_target Ex.bare_tree Ex.delivered None
           Ex.asa4_members); reflexivity.
Defined.

(** X15. The test of [_safe_extract] compares the texts of the two paths:
    a member that climbs out of the target [up/n] with [..] into the
    directory [up/ns] beside it, whose name begins with the name [n] of the
    target, passes the test; if it is a regular file that the extraction
    writes, it is written at [up/ns/x], which is not below the target when
    [ns] is longer than [n]. *)
Theorem sibling_directory_passes_the_check (f f' : fs) (up : path)
    (n s x : string) (m : member)
    (Hparts : _member_parts (m_name m) = [".."; n +:+ s; x])
    (Hns : plain_part (n +:+ s) = true)
    (Hx : plain_part x = true)
    (Hkind : m_kind m = MFile)
    (Hdone : extract_member f (up ++ [n]) None m = inl f') :
  rejected (up ++ [n]) None m = false
  ∧ f' !! (up ++ [n +:+ s; x])
    = Some (File (m_payload m) (Z.land (m_mode m) 511))
  ∧ (s ≠ "" → below (up ++ [n]) (up ++ [n +:+ s; x]) = false).
Proof.
  destruct (plain_part_spec _ Hns) as [Hns1 Hns2].
  destruct (plain_part_spec _ Hx) as [Hx1 Hx2].
  assert (Hres : resolve_under (up ++ [n]) [".."; n +:+ s; x]
                 = up ++ [n +:+ s; x]).
  { unfold resolve_under. cbn [foldl]. unfold resolve_step.
    change (is_root_part "..") with false. cbn iota.
    change (String.eqb ".." "..") with true. cbn iota.
    rewrite removelast_last, Hns1, Hns2, Hx1, Hx2.
    by rewrite <- (assoc_L (++)). }
  assert (Hpass : Py.startswith (path_str (up ++ [n +:+ s; x]))
                                (path_str (up ++ [n])) = true).
  { rewrite !path_str_app by done. cbn [path_tail].
    rewrite !startswith_common, str_app_assoc, startswith_common. done. }
  split; [|split].
  - unfold rejected. cbn [_strip_parts]. rewrite Hparts, Hres, Hpass. done.
  - unfold extract_member in Hdone. cbn [_strip_parts] in Hdone.
    rewrite Hparts, Hres, Hpass, Hkind in Hdone. cbn [negb] in Hdone.
    destruct (mkdir_p f _) as [f1|]; [|done].
    destruct (write_file f1 _ _ _) as [f2|] eqn:E; [|done].
    injection Hdone as <-. apply write_file_insert in E as ->.
    by rewrite lookup_insert_eq.
  - intros Hs. unfold below. apply andb_false_iff. right.
    apply bool_decide_eq_false_2.
    rewrite length_app. cbn [length].
    replace (length up + 1)%nat with (length (up ++ [n +:+ s]))
      by (rewrite length_app; done).
    change (up ++ [n +:+ s; x]) with (up ++ ([n +:+ s] ++ [x])).
    rewrite (assoc_L (++)), take_app_length.
    intros E%app_inv_head. injection E as E.
    apply Hs. clear -E. induction n as [|c n IH]; [done|].
    rewrite str_app_cons in E. injection E as E. by apply IH.
Qed.

Lemma sibling_directory_passes_the_check_witness :
  let m := Fs.Member "../delivered_evil/x" Fs.MFile 420 (Fs.Bytes "x") in
  let f' := (Fs._safe_extract Ex.bare_tree Ex.delivered None [m]).1 in
  Fs.rejected Ex.delivered None m = false
  ∧ f' !! ["data"; "member.uid___X"; "delivered_evil"; "x"]
    = Some (Fs.File (Fs.Bytes "x") 420)
  ∧ ("_evil" ≠ "" →
     Unpack.below Ex.delivered
       ["data"; "member.uid___X"; "delivered_evil"; "x"] = false).
Proof.
  apply (sibling_directory_passes_the_check Ex.bare_tree _
           ["data"; "member.uid___X"] "delivered" "_evil" "x"
           (Fs.Member "../delivered_evil/x" Fs.MFile 420 (Fs.Bytes "x")));
    reflexivity.
Defined.

End extract_frame.

(** ** The prefixes that the unpacker strips *)

Section prefix_facts.

Import Fs Unpack.

(** The shape of a candidate: the three-level layout, with or without a
    component before it, and something left below it. *)
Lemma asa_candidate_shape (parts pre : list string) :
  asa_candidate parts = Some pre →
  ∃ sg g mb rest,
    (pre = [sg; g; mb] ∨ ∃ p, pre = [p; sg; g; mb])
    ∧ Py.startswith sg "science_goal.uid___" = true
    ∧ Py.startswith g "group.uid___" = true
    ∧ Py.startswith mb "member.uid___" = true
    ∧ rest ≠ [] ∧ parts = pre ++ rest.
Proof.
  unfold asa_candidate.
  destruct parts as [|p0 [|p1 [|p2 [|p3 [|p4 r]]]]]; try done.
  - cbn [length nth take]. rewrite bool_decide_eq_false_2 by lia.
    rewrite bool_decide_eq_true_2 by lia.
    destruct (_ && _) eqn:E; [|done]. intros [= <-].
    apply andb_prop in E as [[? ?]%andb_prop ?].
    exists p0, p1, p2, [p3]. split; [by left|]. done.
  - cbn [length nth take]. rewrite bool_decide_eq_true_2 by lia.
    destruct (_ && _) eqn:E; [|done]. intros [= <-].
    apply andb_prop in E as [[? ?]%andb_prop ?].
    exists p1, p2, p3, (p4 :: r). split; [right; by exists p0|]. done.
Qed.

Lemma detect_asa_loop_sound (members : list member) (pre : list string) :
  ∀ detected,
    detect_asa_loop detected members = Some pre →
    (detected = Some pre
     ∨ (detected = None
        ∧ ∃ m, m ∈ members
               ∧ asa_candidate (_member_parts (m_name m)) = Some pre))
    ∧ ∀ m, m ∈ members →
           asa_candidate (_member_parts (m_name m)) = None
           ∨ asa_candidate (_member_parts (m_name m)) = Some pre.
Proof.
  induction members as [|m rest IH]; intros detected H.
  - cbn in H. split; [by left|]. intros m Hm. by apply elem_of_nil in Hm.
  - cbn [detect_asa_loop] in H.
    destruct (asa_candidate (_member_parts (m_name m))) as [c|] eqn:E.
    + destruct detected as [d|].
      * destruct (decide (d = c)) as [->|?]; [|done].
        destruct (IH _ H) as [[[= ->]|[? _]] Hall]; [|done].
        split; [by left|]. intros m' [->|Hm']%elem_of_cons; [by right|auto].
      * destruct (IH _ H) as [[[= ->]|[? _]] Hall]; [|done].
        split.
        -- right. split; [done|]. exists m. split; [left|done].
        -- intros m' [->|Hm']%elem_of_cons; [by right|auto].
    + destruct (IH _ H) as [Hd Hall]. split.
      * destruct Hd as [?|[? (m' & ? & ?)]]; [by left|right].
        split; [done|]. exists m'. split; [by right|done].
      * intros m' [->|Hm']%elem_of_cons; [by left|auto].
Qed.

(** X16. What [_detect_asa_prefix] returns is the three-level layout
    [science_goal.uid___.../group.uid___.../member.uid___...], alone or
    after one more component, as some member of the archive has it above
    the rest of its path; and every member of the archive either proposes
    this very prefix or proposes none. *)
Theorem detected_asa_prefix_is_sound (members : list member)
    (pre : list string)
    (Hdetected : _detect_asa_prefix members = Some pre) :
  (∃ sg g mb,
     (pre = [sg; g; mb] ∨ ∃ p, pre = [p; sg; g; mb])
     ∧ Py.startswith sg "science_goal.uid___" = true
     ∧ Py.startswith g "group.uid___" = true
     ∧ Py.startswith mb "member.uid___" = true)
  ∧ (∃ m rest, m ∈ members ∧ rest ≠ []
               ∧ _member_parts (m_name m) = pre ++ rest)
  ∧ (∀ m, m ∈ members →
          asa_candidate (_member_parts (m_name m)) = None
          ∨ asa_candidate (_member_parts (m_name m)) = Some pre).
Proof.
  destruct (detect_asa_loop_sound members pre None Hdetected)
    as [[?|[_ (m & Hm & Hc)]] Hall]; [done|].
  destruct (asa_candidate_shape _ _ Hc)
    as (sg & g & mb & rest & Hpre & Hsg & Hg & Hmb & Hrest & Hparts).
  split; [by exists sg, g, mb|]. split; [by exists m, rest|done].
Qed.

Lemma detected_asa_prefix_is_sound_witness :
  (∃ sg g mb,
     (["2022.1.00055.S"; "science_goal.uid___A001_X2d20_X3ca0";
       "group.uid___A001_X2d20_X3ca1"; "member.uid___A001_X2d20_X3ca2"]
      = [sg; g; mb]
      ∨ ∃ p, ["2022.1.00055.S"; "science_goal.uid___A001_X2d20_X3ca0";
              "group.uid___A001_X2d20_X3ca1"; "member.uid___A001_X2d20_X3ca2"]
             = [p; sg; g; mb])
     ∧ Py.startswith sg "science_goal.uid___" = true
     ∧ Py.startswith g "group.uid___" = true
     ∧ Py.startswith mb "member.uid___" = true)
  ∧ (∃ m rest, m ∈ Ex.asa4_members ∧ rest ≠ []
               ∧ Fs._member_parts (Fs.m_name m)
                 = ["2022.1.00055.S"; "science_goal.uid___A001_X2d20_X3ca0";
                    "group.uid___A001_X2d20_X3ca1";
                    "member.uid___A001_X2d20_X3ca2"] ++ rest)
  ∧ (∀ m, m ∈ Ex.asa4_members →
          Unpack.asa_candidate (Fs._member_parts (Fs.m_name m)) = None
          ∨ Unpack.asa_candidate (Fs._member_parts (Fs.m_name m))
            = Some ["2022.1.00055.S"; "science_goal.uid___A001_X2d20_X3ca0";
                    "group.uid___A001_X2d20_X3ca1";
                    "member.uid___A001_X2d20_X3ca2"]).
Proof.
  apply (detected_asa_prefix_is_sound Ex.asa4_members). reflexivity.
Defined.

Lemma strip_parts_prefix (pre rest : list string) :
  pre ≠ [] → _strip_parts (pre ++ rest) (Some pre) = rest.
Proof.
  intros Hne. unfold _strip_parts. destruct pre as [|c pre]; [done|].
  rewrite bool_decide_eq_true_2 by (rewrite length_app; lia).
  rewrite take_app_length, bool_decide_eq_true_2 by done.
  cbn [andb]. by rewrite drop_app_length.
Qed.

(** X17. When every member of an archive lies below one and the same
    [<project>/science_goal.uid___.../group.uid___.../member.uid___...],
    that prefix of four components is detected, and stripping takes
    exactly it off every member: what is left of a member's path is what
    followed the prefix. *)
Theorem asa_prefix_with_project_code_is_stripped (members : list member)
    (p sg g mb : string)
    (Hsg : Py.startswith sg "science_goal.uid___" = true)
    (Hg : Py.startswith g "group.uid___" = true)
    (Hmb : Py.startswith mb "member.uid___" = true)
    (Hne : members ≠ [])
    (Hall : Forall (λ m, ∃ rest, rest ≠ []
                         ∧ _member_parts (m_name m) = [p; sg; g; mb] ++ rest)
                   members) :
  _detect_asa_prefix members = Some [p; sg; g; mb]
  ∧ ∀ m rest, m ∈ members →
      _member_parts (m_name m) = [p; sg; g; mb] ++ rest →
      _strip_parts (_member_parts (m_name m)) (_detect_asa_prefix members)
      = rest.
Proof.
  pose proof (detect_asa_prefix_with_project_code members p sg g mb
                Hsg Hg Hmb Hne Hall) as Hd.
  split; [done|]. intros m rest _ Hparts.
  rewrite Hd, Hparts. by apply strip_parts_prefix.
Qed.

Lemma asa_prefix_with_project_code_is_stripped_witness :
  Unpack._detect_asa_prefix Ex.asa4_members
  = Some ["2022.1.00055.S"; "science_goal.uid___A001_X2d20_X3ca0";
          "group.uid___A001_X2d20_X3ca1"; "member.uid___A001_X2d20_X3ca2"]
  ∧ ∀ m rest, m ∈ Ex.asa4_members →
      Fs._member_parts (Fs.m_name m)
      = ["2022.1.00055.S"; "science_goal.uid___A001_X2d20_X3ca0";
         "group.uid___A001_X2d20_X3ca1"; "member.uid___A001_X2d20_X3ca2"]
        ++ rest →
      Fs._strip_parts (Fs._member_parts (Fs.m_name m))
        (Unpack._detect_asa_prefix Ex.asa4_members)
      = rest.
Proof.
  apply (asa_prefix_with_project_code_is_stripped Ex.asa4_members
           "2022.1.00055.S" "science_goal.uid___A001_X2d20_X3ca0"
           "group.uid___A001_X2d20_X3ca1" "member.uid___A001_X2d20_X3ca2");
    try reflexivity; [done|].
  repeat constructor. exists ["calibration"; "file.txt"]. split; [done|].
  reflexivity.
Defined.

(** X18. Backfilling from a stripped prefix writes nothing but the three
    UID keys of the manifest, and never replaces a value that is there:
    [group_ous_uid] and [mous_uid] are kept when they are truthy, and
    [science_goal_uid] is kept when it is truthy and its text does not end
    in [unknown]. *)
Theorem backfill_only_fills_gaps (top : gmap string pyval)
    (strip_prefix : list string) :
  (∀ k, k ∉ ["science_goal_uid"; "group_ous_uid"; "mous_uid"] →
        backfill top strip_prefix !! k = top !! k)
  ∧ (py_truthy (py_get top "group_ous_uid") = true →
     py_get (backfill top strip_prefix) "group_ous_uid"
     = py_get top "group_ous_uid")
  ∧ (py_truthy (py_get top "mous_uid") = true →
     py_get (backfill top strip_prefix) "mous_uid" = py_get top "mous_uid")
  ∧ (py_truthy (py_get top "science_goal_uid") = true →
     Py.endswith (py_str (py_get top "science_goal_uid")) "unknown" = false →
     py_get (backfill top strip_prefix) "science_goal_uid"
     = py_get top "science_goal_uid").
Proof.
  unfold backfill.
  destruct (match strip_prefix with
            | [_; a; b; c] => (a, b, c)
            | [a; b; c] => (a, b, c)
            | _ => ("", "", "")
            end) as [[sg g] mb].
  cbn zeta.
  set (t1 := if _ && (_ || _) then _ else top).
  assert (H1 : ∀ k, k ≠ "science_goal_uid" → t1 !! k = top !! k).
  { intros k Hk. unfold t1. destruct (_ && (_ || _)); [|done].
    by rewrite lookup_insert_ne. }
  set (t2 := if _ && negb _ then _ else t1).
  assert (H2 : ∀ k, k ≠ "group_ous_uid" → t2 !! k = t1 !! k).
  { intros k Hk. unfold t2.
    destruct (_ && negb (py_truthy (py_get t1 "group_ous_uid"))); [|done].
    by rewrite lookup_insert_ne. }
  set (t3 := if _ && negb _ then _ else t2).
  assert (H3 : ∀ k, k ≠ "mous_uid" → t3 !! k = t2 !! k).
  { intros k Hk. unfold t3.
    destruct (_ && negb (py_truthy (py_get t2 "mous_uid"))); [|done].
    by rewrite lookup_insert_ne. }
  split; [|split; [|split]].
  - intros k Hk.
    rewrite H3, H2, H1; [done|..]; intros ->; apply Hk; by_decide.
  - intros Ht.
    assert (E : py_truthy (py_get t1 "group_ous_uid") = true)
      by (unfold py_get in *; by rewrite H1).
    assert (E2 : t2 = t1) by (unfold t2; by rewrite E, andb_false_r).
    unfold py_get. by rewrite H3, E2, H1.
  - intros Ht.
    assert (E : py_truthy (py_get t2 "mous_uid") = true)
      by (unfold py_get in *; by rewrite H2, H1).
    assert (E3 : t3 = t2) by (unfold t3; by rewrite E, andb_false_r).
    unfold py_get. by rewrite E3, H2, H1.
  - intros Ht He.
    assert (E1 : t1 = top).
    { unfold t1. rewrite Ht, He. cbn [negb orb]. by rewrite andb_false_r. }
    unfold py_get. by rewrite H3, H2, E1.
Qed.

(** The top-level names that the members with two path components or more
    begin with. *)
Lemma elem_of_top_levels (members : list member) (top : string) :
  top ∈ omap (λ m : member,
                let parts := _member_parts (m_name m) in
                if bool_decide (length parts < 2)%nat then None else head parts)
             members
  ↔ ∃ m, m ∈ members ∧ (2 ≤ length (_member_parts (m_name m)))%nat
         ∧ head (_member_parts (m_name m)) = Some top.
Proof.
  rewrite list_elem_of_omap. split.
  - intros (m & Hm & H). exists m. split; [done|]. cbn zeta in H.
    case_bool_decide; [done|]. split; [lia|done].
  - intros (m & Hm & Hl & H). exists m. split; [done|]. cbn zeta.
    rewrite bool_decide_eq_false_2 by lia. done.
Qed.

(** X19. [_detect_parent_redundant_prefix] returns a prefix exactly when
    some member has two path components or more and every such member
    begins with the name of the directory the archive lies in; the prefix
    is then that one name. *)
Theorem parent_redundant_prefix_spec (members : list member)
    (parent_dir_name : string) (pre : list string) :
  _detect_parent_redundant_prefix members parent_dir_name = Some pre
  ↔ pre = [parent_dir_name]
    ∧ (∃ m, m ∈ members ∧ (2 ≤ length (_member_parts (m_name m)))%nat)
    ∧ (∀ m, m ∈ members → (2 ≤ length (_member_parts (m_name m)))%nat →
            head (_member_parts (m_name m)) = Some parent_dir_name).
Proof.
  unfold _detect_parent_redundant_prefix.
  set (tops := omap _ members).
  assert (Htops : ∀ top, top ∈ tops ↔ _) by apply elem_of_top_levels.
  set (S := list_to_set tops : gset string).
  assert (HS : ∀ top, top ∈ S ↔ top ∈ tops)
    by (intros top; unfold S; apply elem_of_list_to_set).
  split.
  - intros H. destruct (elements S) as [|top [|? ?]] eqn:E; try done.
    destruct (decide (top = parent_dir_name)) as [->|?]; [|done].
    injection H as <-.
    assert (Hin : ∀ x, x ∈ S ↔ x = parent_dir_name).
    { intros x. rewrite <- elem_of_elements, E. apply list_elem_of_singleton. }
    split; [done|]. split.
    + assert (Hp : parent_dir_name ∈ tops) by (by apply HS, Hin).
      apply Htops in Hp as (m & ? & ? & ?). by exists m.
    + intros m Hm Hl.
      destruct (head (_member_parts (m_name m))) as [top|] eqn:Eh.
      * f_equal. apply Hin, HS, Htops. by exists m.
      * destruct (_member_parts (m_name m)); [cbn in Hl; lia|done].
  - intros (-> & (m0 & Hm0 & Hl0) & Hall).
    assert (Hin : S = {[ parent_dir_name ]}).
    { apply set_eq. intros x. rewrite HS, Htops, elem_of_singleton. split.
      - intros (m & Hm & Hl & Hh). rewrite (Hall m Hm Hl) in Hh. congruence.
      - intros ->. exists m0. split; [done|]. split; [done|]. by apply Hall. }
    rewrite Hin, elements_singleton. by rewrite decide_True.
Qed.

End prefix_facts.

(** ** What the recursive unpack hands to the extraction, and its counts *)

Section recursive_accounts.

Import Fs Unpack Accounts.

(** One archive of a pass is counted as unpacked, as failed, or as both
    (when only its removal failed). *)
Lemma recursive_extract_counts (remove : bool)
    (acc : fs * list path * list (path * extract_error)) (archive : path) :
  let r := recursive_extract remove acc archive in
  (length acc.1.2 + length acc.2 + 1 ≤ length r.1.2 + length r.2)%nat
  ∧ (length r.1.2 + length r.2 ≤ length acc.1.2 + length acc.2 + 2)%nat.
Proof.
  destruct acc as [[f done'] errs]. cbn zeta. unfold recursive_extract.
  destruct (f !! archive) as [[|[data|members] mode]|];
    cbn [fst snd]; rewrite ?length_app; cbn [length]; try lia.
  destruct (_safe_extract f (parent archive) _ members) as [f' [err|]].
  - cbn [fst snd]. rewrite ?length_app. cbn [length]. lia.
  - destruct (remove && exists_ f' archive); [destruct (is_file f' archive)|];
      cbn [fst snd]; rewrite ?length_app; cbn [length]; lia.
Qed.

Lemma recursive_extract_all_counts (remove : bool) (candidates : list path) :
  ∀ acc,
    let r := foldl (recursive_extract remove) acc candidates in
    (length acc.1.2 + length acc.2 + length candidates
     ≤ length r.1.2 + length r.2)%nat
    ∧ (length r.1.2 + length r.2
       ≤ length acc.1.2 + length acc.2 + 2 * length candidates)%nat.
Proof.
  induction candidates as [|c rest IH]; intros acc; cbn zeta.
  - cbn. lia.
  - cbn [foldl length].
    destruct (recursive_extract_counts remove acc c) as [H1 H2].
    destruct (IH (recursive_extract remove acc c)) as [H3 H4]. lia.
Qed.

Lemma recursive_passes_accounted (remove : bool) (root : path)
    (patterns : list string) (n : nat) :
  ∀ (pass_idx : nat) (f : fs) (processed : list path)
    (summary : recursive_summary),
    accounted root patterns pass_idx processed summary →
    ∃ k,
      accounted root patterns k
        (recursive_passes remove root patterns n pass_idx f processed
           summary).1.2
        (recursive_passes remove root patterns n pass_idx f processed
           summary).2.
Proof.
  induction n as [|n IH]; intros pass_idx f processed summary Hacc.
  - by exists pass_idx.
  - cbn [recursive_passes].
    destruct (pass_candidates f root patterns processed) as [|c cs] eqn:E.
    + by exists pass_idx.
    + rewrite <- E.
      pose proof (recursive_extract_all_counts remove
                    (pass_candidates f root patterns processed) (f, [], []))
        as [Hlo Hhi].
      destruct (foldl (recursive_extract remove) (f, [], [])
                  (pass_candidates f root patterns processed))
        as [[f' done'] errs] eqn:Ef.
      cbn [fst snd length] in Hlo, Hhi.
      apply IH.
      destruct Hacc as (Hp & Hn & Hu & He & Hl1 & Hl2).
      split; [|split; [|split; [|split; [|split]]]]; cbn [passes
        unpacked_count error_count].
      * intros p [Hp'|Hp']%elem_of_app; [by apply Hp|].
        apply elem_of_pass_candidates in Hp' as [Hc Hb].
        unfold is_candidate in Hc.
        apply andb_prop in Hc as [[[_ ?]%andb_prop ?]%andb_prop _]. done.
      * rewrite fmap_app, Hn. cbn [fmap list_fmap pass].
        by rewrite seq_S.
      * rewrite sum_list_with_app, <- Hu. cbn. lia.
      * rewrite sum_list_with_app, <- He. cbn. lia.
      * rewrite length_app. lia.
      * rewrite length_app. lia.
Qed.

(** X20. Every archive that the recursive unpack hands to the extraction
    lies below the root directory, has the name of an archive and matches
    one of the patterns.  In the summary it returns, the passes are numbered
    1, 2, ... in order, [unpacked_count] and [error_count] are the numbers
    of archives and of errors listed in the passes, and every archive
    handed to the extraction is counted at least once and at most twice
    (unpacked, failed, or unpacked with a failed removal). *)
Theorem recursive_unpack_accounts (root_dir : path) (patterns : list string)
    (max_passes : Z) (remove_archives_after_unpack : bool) (f : fs) :
  let r := _recursive_unpack root_dir patterns max_passes
             remove_archives_after_unpack f in
  (∀ p, p ∈ r.1.2 →
        below root_dir p = true ∧ _is_archive p = true
        ∧ _matches_any_pattern p patterns = true)
  ∧ pass <$> passes r.2 = seq 1 (length (passes r.2))
  ∧ unpacked_count r.2
    = sum_list_with (λ pi, length (archives pi)) (passes r.2)
  ∧ error_count r.2
    = sum_list_with (λ pi, length (errors pi)) (passes r.2)
  ∧ (length r.1.2 ≤ unpacked_count r.2 + error_count r.2)%nat
  ∧ (unpacked_count r.2 + error_count r.2 ≤ 2 * length r.1.2)%nat.
Proof.
  cbn zeta.
  assert (H0 : accounted root_dir patterns 0 []
                 (RecursiveSummary true [] 0 0)).
  { split; [|done]. intros p Hp. by apply elem_of_nil in Hp. }
  assert (H : ∃ k, accounted root_dir patterns k
                     (_recursive_unpack root_dir patterns max_passes
                        remove_archives_after_unpack f).1.2
                     (_recursive_unpack root_dir patterns max_passes
                        remove_archives_after_unpack f).2).
  { unfold _recursive_unpack. destruct patterns as [|pat pats].
    - by exists 0%nat.
    - by apply recursive_passes_accounted. }
  destruct H as (k & Hp & Hn & Hu & He & Hl1 & Hl2).
  split; [done|]. split; [|done].
  rewrite Hn. f_equal. apply (f_equal length) in Hn.
  by rewrite length_fmap, length_seq in Hn.
Qed.

End recursive_accounts.

(** ** How merges of shard stores compose *)

Section merge_algebra.

Import Index.

Lemma fk_ok_union (source target : store) :
  fk_ok source → fk_ok target →
  fk_ok (Store (mous source ∪ mous target) (eb source ∪ eb target)
               (artifact source ∪ artifact target)
               (artifact_null target ++ artifact_null source)).
Proof.
  intros (Hse & Hsa & Hsn) (Hte & Hta & Htn).
  unfold fk_ok. cbn [mous eb artifact artifact_null].
  split; [|split].
  - intros r [Hr|Hr]%elem_of_union; rewrite dom_union_L, elem_of_union.
    + left. by apply Hse.
    + right. by apply Hte.
  - intros k v [Hk|[_ Hk]]%lookup_union_Some_raw;
      rewrite dom_union_L, elem_of_union.
    + left. by apply (Hsa k v).
    + right. by apply (Hta k v).
  - apply Forall_app. split.
    + eapply Forall_impl; [exact Htn|]. cbn. intros r Hr.
      rewrite dom_union_L, elem_of_union. by right.
    + eapply Forall_impl; [exact Hsn|]. cbn. intros r Hr.
      rewrite dom_union_L, elem_of_union. by left.
Qed.

(** X21. Merging a shard store keeps referential integrity: when every
    [eb] and [artifact] row of the shard and of the central store has its
    [mous] row, the merge raises nothing and the same holds of the central
    store after it. *)
Theorem merge_keeps_referential_integrity (source target : store)
    (Hsource : fk_ok source) (Htarget : fk_ok target) :
  (merge_db source target).2 = None
  ∧ fk_ok (merge_db source target).1.
Proof.
  rewrite (merge_db_ok source target Hsource). cbn [fst snd].
  split; [done|]. by apply fk_ok_union.
Qed.

Lemma merge_keeps_referential_integrity_witness :
  (Index.merge_db Ex.shard_b Ex.shard_a).2 = None
  ∧ Index.fk_ok (Index.merge_db Ex.shard_b Ex.shard_a).1.
Proof.
  apply (merge_keeps_referential_integrity Ex.shard_b Ex.shard_a); by_decide.
Defined.

(** X22. Merging the same shard store a second time changes no [mous]
    row, no [eb] row and no [artifact] row that has a file name; the
    [artifact] rows of the shard whose file name is NULL, which no key
    tells apart, are added once more. *)
Theorem merging_again_changes_no_keyed_row (source target : store)
    (Hsource : fk_ok source) :
  let once := (merge_db source target).1 in
  let twice := (merge_db source once).1 in
  (merge_db source once).2 = None
  ∧ mous twice = mous once
  ∧ eb twice = eb once
  ∧ artifact twice = artifact once
  ∧ artifact_null twice = artifact_null once ++ artifact_null source.
Proof.
  cbn zeta. rewrite (merge_db_ok source target Hsource). cbn [fst].
  rewrite (merge_db_ok source _ Hsource).
  cbn [fst snd mous eb artifact artifact_null].
  split; [done|]. split; [|split; [|split]].
  - by rewrite (assoc_L (∪)), (idemp_L (∪)).
  - by rewrite (assoc_L (∪)), (idemp_L (∪)).
  - by rewrite (assoc_L (∪)), (idemp_L (∪)).
  - done.
Qed.

Lemma merging_again_changes_no_keyed_row_witness :
  let once := (Index.merge_db Ex.shard_b Ex.shard_a).1 in
  let twice := (Index.merge_db Ex.shard_b once).1 in
  (Index.merge_db Ex.shard_b once).2 = None
  ∧ Index.mous twice = Index.mous once
  ∧ Index.eb twice = Index.eb once
  ∧ Index.artifact twice = Index.artifact once
  ∧ Index.artifact_null twice
    = Index.artifact_null once ++ Index.artifact_null Ex.shard_b.
Proof.
  apply (merging_again_changes_no_keyed_row Ex.shard_b Ex.shard_a). by_decide.
Defined.

Lemma artifacts_disjoint (a b : store) :
  fk_ok a → fk_ok b → dom (mous a) ## dom (mous b) →
  artifact a ##ₘ artifact b.
Proof.
  intros (_ & Ha & _) (_ & Hb & _) Hd.
  apply map_disjoint_spec. intros k x y Hx Hy.
  apply (Hd k.1); [by apply (Ha k x)|by apply (Hb k y)].
Qed.

(** X23. Two shard stores that share no unit can be merged in either
    order: the central store ends with the same [mous], [eb] and keyed
    [artifact] rows, and with the same NULL-named artifact rows up to their
    order. *)
Theorem disjoint_shards_merge_in_any_order (a b target : store)
    (Ha : fk_ok a) (Hb : fk_ok b)
    (Hdisjoint : dom (mous a) ## dom (mous b)) :
  let ab := (merge_db b (merge_db a target).1).1 in
  let ba := (merge_db a (merge_db b target).1).1 in
  mous ab = mous ba
  ∧ eb ab = eb ba
  ∧ artifact ab = artifact ba
  ∧ artifact_null ab ≡ₚ artifact_null ba.
Proof.
  cbn zeta.
  rewrite (merge_db_ok a target Ha), (merge_db_ok b target Hb). cbn [fst].
  rewrite (merge_db_ok b _ Hb), (merge_db_ok a _ Ha).
  cbn [fst mous eb artifact artifact_null].
  split; [|split; [|split]].
  - rewrite !(assoc_L (∪)). f_equal.
    apply map_union_comm. apply map_disjoint_dom. by symmetry.
  - rewrite !(assoc_L (∪)). f_equal. apply (comm_L (∪)).
  - rewrite !(assoc_L (∪)). f_equal.
    apply map_union_comm. symmetry. by apply artifacts_disjoint.
  - rewrite <- !(assoc_L (++)). apply Permutation_app_head, Permutation_app_comm.
Qed.

Lemma disjoint_shards_merge_in_any_order_witness :
  let a := Index.Store {[ "uid://A001/X1/X1" := Ex.row "s1" "t1" ]}
             {[ ("uid://A001/X1/X1", "uid://A002/Xa/X1") ]}
             {[ ("uid://A001/X1/X1", "a.tgz") := Ex.art "t1" ]} [] in
  let b := Index.Store {[ "uid://A001/X1/X2" := Ex.row "s2" "t2" ]}
             {[ ("uid://A001/X1/X2", "uid://A002/Xb/X2") ]}
             {[ ("uid://A001/X1/X2", "b.tgz") := Ex.art "t2" ]} [] in
  let ab := (Index.merge_db b (Index.merge_db a Index.empty_store).1).1 in
  let ba := (Index.merge_db a (Index.merge_db b Index.empty_store).1).1 in
  Index.mous ab = Index.mous ba
  ∧ Index.eb ab = Index.eb ba
  ∧ Index.artifact ab = Index.artifact ba
  ∧ Index.artifact_null ab ≡ₚ Index.artifact_null ba.
Proof.
  apply (disjoint_shards_merge_in_any_order
           (Index.Store {[ "uid://A001/X1/X1" := Ex.row "s1" "t1" ]}
              {[ ("uid://A001/X1/X1", "uid://A002/Xa/X1") ]}
              {[ ("uid://A001/X1/X1", "a.tgz") := Ex.art "t1" ]} [])
           (Index.Store {[ "uid://A001/X1/X2" := Ex.row "s2" "t2" ]}
              {[ ("uid://A001/X1/X2", "uid://A002/Xb/X2") ]}
              {[ ("uid://A001/X1/X2", "b.tgz") := Ex.art "t2" ]} [])
           Index.empty_store); by_decide.
Defined.

End merge_algebra.

(** ** What the download manager asks the server for *)

Section download_facts.

Import Download.

Variable o : os.

Lemma grown_refl (t : tree) : grown t t.
Proof.
  split; [done|]. split; [done|]. intros p Hp [z Hz]. congruence.
Qed.

Lemma grown_trans (t1 t2 t3 : tree) : grown t1 t2 → grown t2 t3 → grown t1 t3.
Proof.
  intros (Hd1 & Hk1 & Hn1) (Hd2 & Hk2 & Hn2).
  split; [set_solver|]. split; [by eauto|].
  intros p Hp H3. destruct (t_stat t2 !! p) as [z|] eqn:E.
  - apply Hd2, Hn1; [done|by eexists].
  - by apply Hn2.
Qed.

(** Making directories changes nothing that is there, and what it adds is
    a directory. *)
Lemma mkdirs_grown (chain : list string) :
  ∀ t t', mkdirs o t chain = Some t' → grown t t'.
Proof.
  induction chain as [|p chain IH]; intros t t' H.
  - injection H as <-. apply grown_refl.
  - cbn [mkdirs] in H. destruct (t_stat t !! p) as [z|] eqn:E.
    + destruct (bool_decide (p ∈ t_dirs t)); [by apply IH|done].
    + apply (grown_trans t (Tree (<[p := dir_size o]> (t_stat t))
                                 ({[p]} ∪ t_dirs t)) t'); [|by apply IH].
      split; [cbn; set_solver|]. cbn [t_stat t_dirs]. split.
      * intros q z Hq. rewrite lookup_insert_ne; [done|congruence].
      * intros q Hq [z Hz]. destruct (decide (q = p)) as [->|Hne].
        -- set_solver.
        -- rewrite lookup_insert_ne in Hz by done. congruence.
Qed.

Lemma download_one_without_attempts (serve : Z → Z → response)
    (art : ArtifactInfo) (loc : string) (retry_count : Z) (rate_limit : bool)
    (t : tree) :
  retry_count ≤ 0 →
  let r := _download_one o serve art loc retry_count rate_limit t in
  r.1.2 = []
  ∧ (r.2 = Some (Error "retry exhausted") ∨ r.2 = None)
  ∧ grown t r.1.1.
Proof.
  intros H. cbn zeta. unfold _download_one.
  replace (Z.to_nat retry_count) with 0%nat by lia.
  destruct (ensure_dir o t (parent_text loc)) as [t1|] eqn:E.
  - cbn [retry_loop fst snd]. split; [done|]. split; [by left|].
    by apply (mkdirs_grown _ _ _ E).
  - cbn [fst snd]. split; [done|]. split; [by right|]. apply grown_refl.
Qed.

(** X24. With a retry count of zero or less no request is made and no file
    is written: every queued artifact has its transfer, which makes no
    attempt and sleeps at no time, and returns the error [retry exhausted]
    (or raises, when its directory cannot be made); on disk nothing that was
    there is changed, and what is new is a directory. *)
Theorem no_retries_means_no_request (serve : string → Z → Z → response)
    (delivered_dir : string) (retry_count : Z) (rate_limit : bool)
    (t : tree) (to_fetch : list ArtifactInfo)
    (Hretry : retry_count ≤ 0) :
  let r := run_transfers o serve delivered_dir retry_count rate_limit t
             to_fetch in
  tr_art <$> r.2 = to_fetch
  ∧ Forall (λ x, tr_trace x = []
                 ∧ (tr_result x = Some (Error "retry exhausted")
                    ∨ tr_result x = None)) r.2
  ∧ grown t r.1.
Proof.
  cbn zeta. split; [apply run_transfers_arts|].
  revert t. induction to_fetch as [|art rest IH]; intros t.
  - cbn [run_transfers fst snd]. split; [constructor|apply grown_refl].
  - cbn [run_transfers].
    destruct (download_one_without_attempts (serve (url art)) art
                (local_path delivered_dir (filename art)) retry_count
                rate_limit t Hretry) as (Htr & Hres & Hg).
    destruct (_download_one _ _ _ _ _ _ _) as [[t1 tr] res].
    cbn [fst snd] in Htr, Hres, Hg.
    destruct (IH t1) as [Hall Hg'].
    destruct (run_transfers _ _ _ _ _ _ _) as [t2 xs].
    cbn [fst snd] in *. split; [by constructor|].
    by apply (grown_trans t t1).
Qed.

(** Who is queued by the scan is listed, of a selected kind, and was not
    found on disk with the size expected. *)
Lemma scan_loop_queue (selected_kinds : gset string) (delivered_dir : string)
    (d : disk) (clock : nat → nat → string)
    (available : list ArtifactInfo) (a : ArtifactInfo) :
  ∀ (i : nat) (acc : scan),
    a ∈ sc_to_fetch (scan_loop selected_kinds delivered_dir d clock i acc
                       available) →
    a ∈ sc_to_fetch acc
    ∨ (a ∈ available
       ∧ _artifact_selected (kind a) selected_kinds = true
       ∧ _artifact_exists d (local_path delivered_dir (filename a))
                          (size_bytes a) = false).
Proof.
  induction available as [|art rest IH]; intros i acc H; [by left|].
  cbn [scan_loop] in H. apply IH in H as [H|(? & ? & ?)].
  - destruct (_artifact_selected (kind art) selected_kinds) eqn:Hsel.
    + apply scan_step_to_fetch in H as [H|[-> H]]; [by left|].
      right. split; [left|done].
    + left. unfold scan_step in H. by rewrite Hsel in H.
  - right. split; [by right|done].
Qed.

(** X25. The download manager asks the server only for listed artifacts
    of a selected kind whose file is not on disk with the expected size:
    two servers that answer alike for these give the same run, with the
    same manifest, the same transfers and the same disk, whatever they would
    answer for anything else. *)
Theorem only_missing_selected_artifacts_are_requested
    (record : MousRecord) (on_disk : option manifest) (t : tree)
    (delivered_dir artifacts_spec : string)
    (available : list ArtifactInfo) (retry_count : Z)
    (rate_limit compute_sha256 : bool)
    (serve serve' : string → Z → Z → response) (order : list nat)
    (sha256_file : string → string) (read_clock : nat → string)
    (scan_clock result_clock : nat → nat → string)
    (now_history now_saved : string)
    (Hagree : ∀ a, a ∈ available →
        _artifact_selected (kind a) (resolve_artifact_selection artifacts_spec)
        = true →
        _artifact_exists (t_stat t) (local_path delivered_dir (filename a))
                         (size_bytes a) = false →
        ∀ x y, serve (url a) x y = serve' (url a) x y) :
  download_for_record o record on_disk t delivered_dir artifacts_spec
    available retry_count rate_limit compute_sha256 serve order sha256_file
    read_clock scan_clock result_clock now_history now_saved
  = download_for_record o record on_disk t delivered_dir artifacts_spec
      available retry_count rate_limit compute_sha256 serve' order
      sha256_file read_clock scan_clock result_clock now_history now_saved.
Proof.
  unfold download_for_record.
  set (sel := resolve_artifact_selection artifacts_spec) in *.
  set (s := scan_loop sel delivered_dir (t_stat t) scan_clock 0
              (Scan (m_artifacts (_read_manifest on_disk record read_clock))
                    []) available).
  assert (Hq : ∀ a, a ∈ sc_to_fetch s →
                    ∀ x y, serve (url a) x y = serve' (url a) x y).
  { intros a Ha. apply scan_loop_queue in Ha as [Ha|(? & ? & ?)].
    - by apply elem_of_nil in Ha.
    - by apply Hagree. }
  destruct (sc_to_fetch s) as [|a0 rest] eqn:E; [done|].
  by rewrite (run_transfers_ext o delivered_dir retry_count rate_limit serve
                serve' (a0 :: rest) Hq t).
Qed.

End download_facts.

Lemma no_retries_means_no_request_witness :
  let r := Download.run_transfers Ex.linux Ex2.cube_only "/data/delivered" 0
             false Ex2.bare [Ex2.cube_art] in
  Download.tr_art <$> r.2 = [Ex2.cube_art]
  ∧ Forall (λ x, Download.tr_trace x = []
                 ∧ (Download.tr_result x
                    = Some (Download.Error "retry exhausted")
                    ∨ Download.tr_result x = None)) r.2
  ∧ Download.grown Ex2.bare r.1.
Proof.
  apply (no_retries_means_no_request Ex.linux Ex2.cube_only "/data/delivered"
           0 false Ex2.bare [Ex2.cube_art]). lia.
Defined.

Lemma only_missing_selected_artifacts_are_requested_witness :
  Download.download_for_record Ex.linux Ex.unit_record (Some Ex.old_manifest)
    Ex.delivered_tree "/data/delivered" "default"
    [Ex.aux_art (Some 10); Ex2.cube_art] 3 false false Ex.unreachable [0%nat]
    (λ _, "") Ex.read_clock Ex.later Ex.later "2024-06-01T00:00:01Z"
    "2024-06-01T00:00:02Z"
  = Download.download_for_record Ex.linux Ex.unit_record
      (Some Ex.old_manifest) Ex.delivered_tree "/data/delivered" "default"
      [Ex.aux_art (Some 10); Ex2.cube_art] 3 false false Ex2.cube_only
      [0%nat] (λ _, "") Ex.read_clock Ex.later Ex.later
      "2024-06-01T00:00:01Z" "2024-06-01T00:00:02Z".
Proof.
  apply (only_missing_selected_artifacts_are_requested Ex.linux
           Ex.unit_record (Some Ex.old_manifest) Ex.delivered_tree
           "/data/delivered" "default" [Ex.aux_art (Some 10); Ex2.cube_art]
           3 false false Ex.unreachable Ex2.cube_only).
  intros a Ha Hsel _ x y.
  apply elem_of_cons in Ha as [->|Ha]; [reflexivity|].
  apply list_elem_of_singleton in Ha as ->. by vm_compute in Hsel.
Defined.


(** ** An archive removed after unpacking, and the next download run *)

Section unpack_then_download.

Import Fs Unpack Download.

Lemma is_file_spec (f : fs) (p : path) :
  is_file f p = true ↔ ∃ c mode, f !! p = Some (File c mode).
Proof.
  unfold is_file. split.
  - destruct (f !! p) as [[|c mode]|]; try done. by exists c, mode.
  - by intros (c & mode & ->).
Qed.

Lemma extract_member_keeps_files (f f' : fs) (target_dir : path)
    (strip_prefix : option (list string)) (m : member) (p : path) :
  extract_member f target_dir strip_prefix m = inl f' →
  is_file f p = true → is_file f' p = true.
Proof.
  unfold extract_member. intros H (c & mode & Hp)%is_file_spec.
  destruct (_strip_parts _ _) as [|x r]; [by injection H as <-; apply is_file_spec; eauto|].
  destruct (negb _); [done|].
  destruct (m_kind m).
  - destruct (mkdir_p f _) as [f1|] eqn:E1; [|done].
    destruct (write_file f1 _ _ _) as [f2|] eqn:E2; [|done].
    injection H as <-. apply write_file_insert in E2 as ->.
    apply is_file_spec.
    destruct (decide (resolve_under target_dir (x :: r) = p)) as [<-|Hne].
    + rewrite lookup_insert_eq. eauto.
    + rewrite lookup_insert_ne by done.
      exists c, mode. by apply (mkdir_from_keeps f f1 [] _ p _ E1).
  - destruct (mkdir_p f _) as [f1|] eqn:E1; [|done].
    injection H as <-. apply is_file_spec. exists c, mode.
    by apply (mkdir_from_keeps f f1 [] _ p _ E1).
  - injection H as <-. apply is_file_spec. eauto.
  - injection H as <-. apply is_file_spec. eauto.
Qed.

(** Extraction never turns a regular file into something else. *)
Lemma safe_extract_keeps_files (target_dir : path)
    (strip_prefix : option (list string)) (members : list member) (p : path) :
  ∀ f, is_file f p = true →
       is_file (_safe_extract f target_dir strip_prefix members).1 p = true.
Proof.
  induction members as [|m rest IH]; intros f Hp; [done|].
  cbn [_safe_extract].
  destruct (extract_member f target_dir strip_prefix m) as [f'|e] eqn:E;
    [|done].
  apply IH. by apply (extract_member_keeps_files f f' target_dir strip_prefix m).
Qed.

Lemma path_str_not_empty (p : path) : path_str p ≠ "".
Proof.
  destruct p as [|c r]; [done|].
  change (path_str (c :: r)) with (String "/" (c +:+ path_tail r)). done.
Qed.

(** An artifact that the scan finds recorded as unpacked and removed is
    not queued, whether its file is on disk or not. *)
Lemma scan_step_unpacked_and_removed (selected_kinds : gset string)
    (delivered_dir : string) (d : disk) (now : nat → string) (acc : scan)
    (art : ArtifactInfo) (i : nat) (e : entry) :
  _artifact_selected (kind art) selected_kinds = true →
  _entry_lookup (sc_artifacts acc) (filename art) = Some (i, e) →
  _artifact_satisfied_without_archive_file (Some e) = true →
  sc_to_fetch (scan_step selected_kinds delivered_dir d now acc art)
  = sc_to_fetch acc
  ∧ lookup_status
      (sc_artifacts (scan_step selected_kinds delivered_dir d now acc art))
      (filename art) = Some (PStr "present").
Proof.
  intros Hsel Hfind Hsat. unfold scan_step.
  rewrite Hsel, Hfind. cbn [negb fmap option_fmap option_map snd].
  rewrite Hsat, orb_true_r.
  pose proof (found_has_filename _ _ _ _ Hfind) as [Hi Hf].
  rewrite (filename_truthy e _ Hf).
  cbn [sc_artifacts sc_to_fetch]. split; [done|].
  unfold lookup_status, _entry_lookup in *.
  change (Entry _ (e_unpack_errors e))
    with (refreshed delivered_dir d e art (now 0%nat)).
  rewrite (list_find_insert_alike _ _ i e) by
    (by rewrite ?refreshed_filename).
  rewrite Hfind. cbn. rewrite decide_True by done.
  by rewrite refreshed_status.
Qed.

(** X26. An archive that was unpacked and then removed is not fetched
    again.  When [unpack_mous_delivered], told to remove archives, unpacks
    the archive of an artifact entry without error, the file is gone from
    the directory afterwards; and the next scan of the download manager,
    meeting that entry for a listed artifact of a selected kind, does not
    queue the artifact and marks its entry [present], although no file of
    that name is on disk. *)
Theorem removed_archive_is_not_fetched_again
    (w : world) (j : job) (artifact : entry) (members : list member)
    (mode : Z) (art : ArtifactInfo) (selected_kinds : gset string)
    (delivered_dir : string) (d : disk) (now : nat → string)
    (queue : list ArtifactInfo)
    (Hfind : _entry_lookup (m_artifacts (w_manifest w)) (filename art)
             = Some (j_index j, artifact))
    (Hfile : w_fs w !! e_local_path artifact
             = Some (File (TarBall members) mode))
    (Hstamp : m_unpacked (w_manifest w) !! name (e_local_path artifact)
              ≠ Some (j_stamp j))
    (Hok : (_safe_extract (w_fs w) (parent (e_local_path artifact))
              (_detect_asa_prefix members) members).2 = None)
    (Hsel : _artifact_selected (kind art) selected_kinds = true) :
  let w' := unpack_archive true w j in
  let s := scan_step selected_kinds delivered_dir d now
             (Scan (m_artifacts (w_manifest w')) queue) art in
  w_fs w' !! e_local_path artifact = None
  ∧ sc_to_fetch s = queue
  ∧ lookup_status (sc_artifacts s) (filename art) = Some (PStr "present").
Proof.
  pose proof (found_has_filename _ _ _ _ Hfind) as [Hi Hf].
  assert (Hkeep : is_file (_safe_extract (w_fs w)
                             (parent (e_local_path artifact))
                             (_detect_asa_prefix members) members).1
                          (e_local_path artifact) = true).
  { apply safe_extract_keeps_files. apply is_file_spec. eauto. }
  assert (Hshape : ∃ e',
            unpack_archive true w j
            = World (delete (e_local_path artifact)
                       (_safe_extract (w_fs w)
                          (parent (e_local_path artifact))
                          (_detect_asa_prefix members) members).1)
                    (Manifest
                       (m_top (w_manifest (unpack_archive true w j)))
                       (<[j_index j := e']> (m_artifacts (w_manifest w)))
                       (m_history (w_manifest w))
                       (m_unpacked (w_manifest (unpack_archive true w j))))
            ∧ e_get e' "filename" = PStr (filename art)
            ∧ _artifact_satisfied_without_archive_file (Some e') = true).
  { unfold unpack_archive. rewrite Hi.
    rewrite (exists_of_lookup _ _ _ Hfile). cbn [negb].
    rewrite decide_False by done. rewrite Hfile.
    destruct (_safe_extract (w_fs w) (parent (e_local_path artifact))
                (_detect_asa_prefix members) members) as [f' err] eqn:E.
    cbn [fst snd] in Hok, Hkeep. subst err.
    assert (Hex : exists_ f' (e_local_path artifact) = true).
    { apply is_file_spec in Hkeep as (c & md & Hk).
      by apply (exists_of_lookup _ _ _ Hk). }
    assert (Hgen : ∀ a3 : entry,
              e_get a3 "filename" = PStr (filename art) →
              e_get a3 "unpacked_to"
              = PStr (path_str (parent (e_local_path artifact))) →
              e_get (set_field a3 "archive_removed_after_unpack" (PBool true))
                    "filename" = PStr (filename art)
              ∧ _artifact_satisfied_without_archive_file
                  (Some (set_field a3 "archive_removed_after_unpack"
                                   (PBool true))) = true).
    { intros [fields errs] H1 H2. unfold set_field.
      cbn [e_fields e_unpack_errors]. rewrite e_get_insert_ne by done.
      split; [done|]. unfold _artifact_satisfied_without_archive_file.
      rewrite e_get_insert_eq, e_get_insert_ne by done. rewrite H2.
      cbn [py_truthy]. rewrite andb_true_r.
      apply andb_true_intro. split.
      - apply (filename_truthy _ (filename art)).
        by rewrite e_get_insert_ne.
      - apply negb_true_iff, String.eqb_neq, path_str_not_empty. }
    destruct (_detect_asa_prefix members) as [[|c pre]|];
      cbn [andb]; rewrite Hex, Hkeep;
      eexists; (split; [reflexivity|]); apply Hgen;
      unfold set_field; cbn [e_fields e_unpack_errors];
      rewrite ?e_get_insert_ne by done; try done;
      by rewrite ?e_get_insert_eq. }
  destruct Hshape as (e' & Hw & Hname & Hsat).
  cbn zeta. rewrite Hw. cbn [w_fs w_manifest m_artifacts].
  split; [by rewrite lookup_delete_eq|].
  assert (Hfind' : _entry_lookup
                     (sc_artifacts
                        (Scan (<[j_index j := e']> (m_artifacts (w_manifest w)))
                              queue)) (filename art)
                   = Some (j_index j, e')).
  { cbn [sc_artifacts]. unfold _entry_lookup in *.
    rewrite (list_find_insert_alike _ _ (j_index j) artifact)
      by (by rewrite ?Hname, ?Hf).
    rewrite Hfind. cbn. by rewrite decide_True. }
  exact (scan_step_unpacked_and_removed selected_kinds delivered_dir d now
           _ art (j_index j) e' Hsel Hfind' Hsat).
Qed.

Lemma removed_archive_is_not_fetched_again_witness :
  let w := Unpack.World (Ex.tree "outer_aux.tar" Ex.asa4_members)
                        (Ex.unit_manifest "outer_aux.tar") in
  let art := Download.Artifact "auxiliary" "https://almascience.example/x"
               "outer_aux.tar" PNone (Some 120) PNone PNone in
  let w' := Unpack.unpack_archive true w Ex.job0 in
  let s := Download.scan_step DEFAULT_ARTIFACT_KINDS
             "/data/member.uid___X/delivered" ∅ (Ex.later 0%nat)
             (Download.Scan (m_artifacts (Unpack.w_manifest w')) []) art in
  Unpack.w_fs w'
    !! Unpack.e_local_path
         (Entry {[ "kind" := PStr "auxiliary";
                   "filename" := PStr "outer_aux.tar";
                   "local_path"
                   := PStr "/data/member.uid___X/delivered/outer_aux.tar";
                   "status" := PStr "present" ]} []) = None
  ∧ Download.sc_to_fetch s = []
  ∧ Download.lookup_status (Download.sc_artifacts s) "outer_aux.tar"
    = Some (PStr "present").
Proof.
  apply (removed_archive_is_not_fetched_again
           (Unpack.World (Ex.tree "outer_aux.tar" Ex.asa4_members)
                         (Ex.unit_manifest "outer_aux.tar"))
           Ex.job0
           (Entry {[ "kind" := PStr "auxiliary";
                     "filename" := PStr "outer_aux.tar";
                     "local_path"
                     := PStr "/data/member.uid___X/delivered/outer_aux.tar";
                     "status" := PStr "present" ]} [])
           Ex.asa4_members 420
           (Download.Artifact "auxiliary" "https://almascience.example/x"
              "outer_aux.tar" PNone (Some 120) PNone PNone));
    try reflexivity; by vm_compute.
Defined.

End unpack_then_download.
